(* ===== verification/_CoqProject ===== *)
-Q . S2P
Prelude.v
Crc.v
NandIf.v
BmtData.v
Bmt.v
BmtBase.v
BmtAlloc.v
BmtMigrate.v
BmtWrite.v
BmtMap.v
BmtUpdate.v
BmtPersist.v
BmtBbt.v
BmtRecover.v
BmtRefine.v
BmtProps.v
FlashHal.v
FlashRmw.v
FlashProps.v
Fip.v
Ram.v
ImgInfo.v
Mtd.v
MtdProps.v
Upgrade.v
MultiUpgrade.v
Skb.v
Xmodem.v
UpgradeProps.v
Reassembly.v
XmodemProps.v
Qsort.v
Htab.v
HtabBase.v
HtabSearch.v
HtabProps.v
HtabCreate.v
HtabRun.v
HtabText.v
HtabTextProps.v
MtkEnv.v
EnvFlash.v
EnvProps.v
EnvBoot.v
EnvWit.v
BootArgs.v
BootArgsProps.v
EnvArgs.v
BootFlag.v
FlashCmd.v
FlashArgs.v
BootFlagProps.v
FlashCmdProps.v
Trx.v
TrxProps.v
AtfIo.v
AtfPlat.v
AtfIoBase.v
AtfIoFip.v
AtfLoad.v
AtfLoadProps.v
AtfCert.v
AtfCertProps.v
AtfCot.v
AtfAuth.v
AtfSip.v
AtfProps.v
AtfChain.v
AtfTrust.v
AtfBoot.v
AtfSipProps.v
AtfSecure.v
SecureBoot.v
