(* ===== verification/Prelude.v ===== *)
(** * Verification of the EN75xx boot loader

    The repository is a vendor tree: U-Boot 2014.04, ARM Trusted Firmware 2.3
    and mbedtls, with the code EcoNet/Airoha added for the EN75xx routers.
    This library models that added code and the upstream code it cannot be
    understood without: the handling of bad NAND blocks, the flash layer on top
    of it, partitions, environment and boot arguments, the verification of
    firmware images on both sides of the secure monitor, the ways of upgrading
    over the network, the recovery over a serial line, and the tool that builds
    images.  The boot loader's target is a 32-bit little-endian ARM
    ([CONFIG_TARGET_EN7523_EVB]), the firmware's AArch64 in a release build.
    Below, [U/] is the U-Boot directory
    [src/bootloader/Uboot/u-boot-2014.04-rc1], [A/] the directory
    [src/bootloader/ATF/arm-trusted-firmware-2.3].

    ** The program

    The build host wraps a kernel into an image with a TRX header ([trx]).  The
    image arrives over TFTP ([ecnt_ImageUpgrade]), over multicast packets
    ([MultiUpgradeHandle]) or, in the first stage, over XMODEM
    ([xmodemReceive]).  The upgrade code locates the image inside its package
    ([parse_fip]), has it verified by the secure monitor, checks CRC and
    device-tree hashes, asks the partition table for the destination and
    writes through the flash layer ([flash_erase], [flash_write]), which
    selects the eMMC, NOR or NAND driver.  On NAND every block address goes
    through the bad-block management: the BBT (blocks bad since production,
    skipped) and the BMT (blocks that went bad later, each mapped to a block of
    the replacement pool at the end of the flash).

    The secure monitor answers the verification calls ([ecnt_sip_handler]): it
    maps the caller's memory, loads certificates from the package through a
    stack of storage drivers ([load_image]), parses and verifies them along the
    chain of trust ([auth_mod_verify_img]) down to the digest of the root key in
    the fuses, and compares digests.  The second stage loads its images the
    same way.

    At the start the environment, a hash table of variables, is read from the
    flash, on the first boot from an older place ([env_relocate_spec]).  From it
    and the boot flag the kernel's arguments are made ([bootargs_init]), and
    the command [flash imgread] loads and verifies the image that the flag
    names.

    ** Files

    Foundations:
    - [Prelude]: machine integers, the [outcome] of C code, the state monad
      [M] with the C loops [for_loop]/[for_each], array access [znth]/[zset],
      bytes.
    - [Crc] ([U/lib/crc32.c]): the table, its generator, the word-wise update
      [crc32_no_comp]; equivalence with the bit-serial register [crc_step].
    - [Ram]: ranges of a byte-addressed memory.

    Flash:
    - [NandIf]: the NAND driver's calls as the class [NandDev], its promises as
      [NandLaws] (calls may fail, marks included), and as [NandMarks] that a
      mark can be written, which the theorems on retries need.  [SimNand], a
      device with injected failures that keeps both; [StuckNand], one that keeps
      [NandLaws] only, for what happens then.
    - [BmtData], [Bmt] ([U/drivers/misc/ecnt/flash/bmt.c], [bmt.h]): structs,
      globals (the record [st]) and every function of the file.
    - [BmtBase], [BmtAlloc], [BmtMigrate], [BmtWrite], [BmtMap], [BmtUpdate],
      [BmtPersist], [BmtBbt], [BmtRecover], [BmtProps]: the theory of the bad
      block management.  The abstract state is the finite map [bmt_map]; the
      invariant between calls is [inv].  [BmtRefine]: the management as an ideal
      disk, and runs of failures and client accesses.
    - [FlashHal] ([U/drivers/misc/ecnt/flash/flashhal.c]): dispatch over the
      drivers (class [FlashDrv]); [FlashRmw], [FlashProps]: its
      read-modify-write functions against a flash that is an array of bytes
      ([NandMem]); [Reliable] is a driver that does not fail.

    Images and upgrade:
    - [Fip] ([U/drivers/misc/ecnt/image/fiptool.c], [ecnt_verify.c]): walk over
      the package's table of contents and the calls to the secure monitor
      (class [SecureMonitor]).
    - [ImgInfo] ([U/drivers/misc/ecnt/image/ecnt_image.c], first half): where
      kernel and root file system lie inside an image; libfdt is the class
      [Libfdt], and [EnvPolicy] says which calls of [setenv] are refused.
    - [Mtd], [MtdProps] ([U/drivers/misc/ecnt/image/ecnt_mtd.c]): the parser of
      the partition string and the layout of the partitions.
    - [Upgrade] ([ecnt_image.c], second half, [fit_all_image_verify] of
      [U/common/image-fit.c]), [MultiUpgrade]
      ([U/drivers/misc/ecnt/net/multiupgrade.c]), [UpgradeProps],
      [Reassembly]: the two upgrade paths.
    - [Skb] ([U/drivers/misc/ecnt/net/skbuff.c]): the pool of network buffers.
    - [Xmodem], [XmodemProps]
      ([A/plat/ecnt/common/drivers/xmodem/xmodem.c]): the XMODEM receiver.
    - [Trx], [TrxProps] ([src/tools/trx/trx.c]): the image tool, on a file
      system that is a map from names to bytes.

    Environment, arguments, commands:
    - [Qsort] ([U/lib/qsort.c], [strcmp] of [U/lib/string.c]), [Htab],
      [HtabText] ([U/lib/hashtable.c]): the table and its text form;
      [HtabBase], [HtabCreate], [HtabSearch], [HtabProps], [HtabRun],
      [HtabTextProps]: its theory.  The abstract state is a finite map ([repr]).
    - [EnvFlash] ([U/common/ecnt/env_flash.c], [U/common/env_common.c],
      [U/common/cmd_nvedit.c]), [MtkEnv]
      ([U/board/ecnt/en7523_evb/en7523_evb_mtk_env_parser.c]), [EnvProps],
      [EnvBoot], [EnvWit]: the environment and its copy in flash.
    - [BootArgs], [BootFlag] ([U/drivers/misc/ecnt/bootargs/ecnt_bootargs.c],
      [U/common/ecnt/cmd_bootflag.c]), [BootArgsProps], [BootFlagProps].  They
      reach the environment through the class [EnvOps]; [EnvLaws] is what it
      promises them, and [EnvArgs] discharges that promise for the hash table.
    - [FlashCmd], [FlashArgs], [FlashCmdProps] ([U/common/ecnt/cmd_flash.c]):
      the commands, and the boot arguments they pass on.

    Trusted firmware:
    - [AtfIo] ([A/drivers/io/io_storage.c], [io_memmap.c], [io_fip.c],
      [io_encrypted.c]), [AtfPlat] ([A/plat/ecnt/en7523/ecnt_io_storage.c]),
      [AtfLoad] ([load_image] of [A/common/bl_common.c]): the storage layer.  A
      driver calls the layer it is part of; the class [IoOps] stands for these
      calls and [io_stack] ties the knot.  [AtfIoBase], [AtfIoFip],
      [AtfLoadProps], [AtfProps]: one load as one walk over the package
      ([load_outcome]).
    - [AtfCert] ([A/drivers/auth/mbedtls/mbedtls_x509_parser.c], with
      [asn1parse.c] and [oid.c] of mbedtls), [AtfCertProps]: certificates.
    - [AtfCot] ([A/drivers/auth/tbbr/tbbr_cot.c]), [AtfAuth]
      ([A/drivers/auth/auth_mod.c], [img_parser_mod.c], [crypto_mod.c],
      [mbedtls/mbedtls_crypto.c], [A/plat/ecnt/en7523/ecnt_trusted_boot.c]),
      [AtfChain], [AtfTrust], [AtfBoot]: authentication.  The specification is
      the inductive predicate [trusted], for a stage that loads several images
      [rooted].
    - [AtfSip] ([A/plat/ecnt/common/ecnt_sip_svc.c], [ecnt_plat_common.c], the
      list of regions of [A/lib/xlat_tables_v2/xlat_tables_core.c],
      [load_auth_image] of [A/common/bl_common.c]), [AtfSipProps]: the secure
      service, with the invariant [sip_ok].  [AtfSecure]: the theorems on
      authentication and service, and a board with keys and packages for their
      witnesses.
    - [SecureBoot]: boot loader and firmware together; the class
      [SecureMonitor] of the boot loader is instantiated with the secure service
      ([monitor]), over one memory.

    A definition carries the name of the C function or object it translates.
    The body of a long function is divided into definitions named after what
    the part does; the comment in front says which part.  Static variables and
    globals are fields of the state record of their component; a component
    that calls another one holds the other's state and lifts its computations
    ([lift_hal], [on_vst], [u_vst], [m_vst], [on_io], [on_auth]).

    ** What the theorems show

    - Bad-block management, on chips where a mark can be written.  A
      successful [update_bmt] maps the failing block to a fresh block of the
      pool, leaves every other mapping alone, and the data of the block is in
      the replacement with the failing page replaced; the invariant is kept and
      the new table is in flash, unless the table was saved in the failing
      block itself.  This refines an ideal disk, in every run of replacements
      and accesses.  What is saved is what [load_bmt_data] finds after a
      restart.  Pages that cannot be read are outside of these promises.  The
      table of good blocks
      enumerates exactly the good blocks, and the translation of logical to
      physical blocks is injective.
    - Flash layer.  A partial write changes exactly the requested bytes; the
      erase of an unaligned range likewise, with the exception of a range that
      starts on an erase block and ends inside one; an unaligned eMMC read returns the requested slice.
    - Images.  A verification that answers success has had the monitor accept
      the digest of the image (of a boot loader image: the call with its size);
      it always ends.  The word-wise CRC is the
      bit-serial one.  What the image tool writes passes the boot loader's
      checks.
    - Partitions.  The parser ends on every string, the forward pass lays out
      aligned partitions in order inside the flash when no size is so large
      that it wraps around 2^32.
    - Upgrade.  The flash is written for a kernel only after the checks, the
      call of the secure monitor among them where secure boot is compiled in;
      fragments that arrive in the order of the wire, from any
      starting point, are reassembled to the image.  A network buffer is found
      as long as one is free.
    - XMODEM.  The receiver ends on every input, never delivers more than the
      buffer holds, and receives what a sender sends, repeated packets
      included.
    - Environment.  The hash table refines a finite map while it has unused
      slots; its text form, its copy in flash and the move of the first boot
      lose nothing.  The kernel's
      arguments are those the environment names, the boot flag is flipped
      without touching other bytes, the commands write and load what they name
      on a driver and in an environment that do not refuse.
    - Storage layer of the firmware.  [load_image] refines one walk over the
      package for every package and ends on every one; boot loader and firmware
      find the same entry.
    - Authentication.  The certificate parser reads nothing outside the
      certificate.  An accepted image has a digest that a chain of certificates
      from the key of the fuses vouches for, for the first image of a stage and
      for later ones whose certificates are not loaded again.  The secure
      service declares nothing else good (a decryption to [TZRAM2_BASE] apart),
      removes its mappings and keeps its invariant under any sequence of calls;
      its copy of the fuses changes only in calls for the fuse driver.  With the service as its monitor
      the boot loader accepts only a kernel image from the flash whose digest
      the chain vouches for ([secure_boot_chain]).
    - Defects.  Where the code does not do what it means to, a theorem proves
      it of the model: [update_bmt] can save its table into the block it then
      marks bad, [recover_bmt] reads [table[-1]], [flash_erase_non_block]
      erases from address 0, the overflow test of the partitions counted from
      the end cannot succeed, [mtdpart_setup] overruns its buffer, multicast
      images with bad hashes are accepted, sequence number 0 is written below
      the buffer, [alloc_skb] spins when the pool is exhausted, [hsearch_r] can
      overwrite an entry, so that [setenv] loses another variable, and takes
      "-f" for an option, [bootargs_init] can write past its array, the
      reader of the first boot runs out of its array, a certificate with a
      counter above 0 is refused, [migrate_from_bad] does not end when a block
      can be neither written nor marked and replaces unreadable pages by
      stale ones, a partition of 4095m overlaps others, the decryption call
      answers success for [TZRAM2_BASE] with nothing decrypted, "flash imgread"
      does not notice a refused variable, nor "flash upgrade" a refused write.

    ** Undefined behaviour, fuel and bounds

    A run has an [outcome]: [Done], [Undef] for an access outside its object
    (in the firmware: outside the mapped memory) or another behaviour the C
    standard leaves undefined, and [OutOfFuel], also for a function that waits
    for ever.  Arithmetic that wraps in C is written with [u8], [u16], [u32],
    [u64], [s32].  Loops with a known count are structural.  Fuel bounds the
    rest, and the theorems about such functions include that the run ends:
    [migrate_from_bad] and the table writers give up a block of the pool per
    retry, so the number of available blocks plus one is enough
    ([avail_count]); the walk over a FIP advances by at least the size of an
    entry, in the firmware up to the end of the mapped memory ([toc_fuel]); the
    partition parser consumes a character per step; a packet of XMODEM consumes
    a character or a retry; a chain of certificates has at most [MAX_CHAIN]
    members ([chain_length_max], [recursive_fuel]); the search for an extension
    is given the length of the certificate, and the theorems that
    need its result have a run that completed.

    ** What is not modelled

    Drivers of flash chips, Ethernet and switch (register access), libfdt,
    hash functions, ciphers and signatures ([Gcm], [Crypto]), sizes fixed by the
    build ([CotSizes]), the capacity of the translation tables ([Xlat]), the
    fuse driver, clocks and the entry of the kernel ([SipHost]): parameters,
    with what the code relies on as hypotheses ([FuseLaws]: the driver leaves
    the hash mode in the firmware's copy of the fuses as it is).  The secure monitor as the boot loader sees it
    is the class [SecureMonitor]; [SecureBoot] fills it with the firmware's code.
    Console
    output, LEDs and cache maintenance are left out, and so is another core or
    the normal world changing memory during a call.  The upstream rest of
    U-Boot, ATF and mbedtls is not part of the program's own logic; the ATF
    tree's copies of [bmt.c] repeat the modelled file. *)

From stdpp Require Import base numbers list option gmap sorting.
From Stdlib Require Import ZArith Lia.

#[export] Set Default Goal Selector "!".

(** ** Scope and basic types *)

Declare Scope ecnt_scope.
Delimit Scope ecnt_scope with ecnt.
Open Scope Z_scope.

(** Bytes and machine integers are [Z] with the width written out where the
    code wraps. *)
Definition u8 (z : Z) : Z := z mod 2 ^ 8.
Definition u16 (z : Z) : Z := z mod 2 ^ 16.
Definition u32 (z : Z) : Z := z mod 2 ^ 32.

Definition s32 (z : Z) : Z := (z + 2 ^ 31) mod 2 ^ 32 - 2 ^ 31.

Definition is_u8 (z : Z) : Prop := 0 <= z < 2 ^ 8.
Definition is_u16 (z : Z) : Prop := 0 <= z < 2 ^ 16.
Definition is_u32 (z : Z) : Prop := 0 <= z < 2 ^ 32.

Lemma u32_is z : is_u32 (u32 z).
Proof. unfold is_u32, u32. apply Z.mod_pos_bound. lia. Qed.

(** ** Outcomes of C code

    A run either completes, performs an access the C standard leaves
    undefined (here: an array access outside its object), or has used up
    the fuel of a definition whose recursion is not structural. *)
Inductive outcome (A : Type) : Type :=
| Done (a : A)
| Undef
| OutOfFuel.
Arguments Done {A} a.
Arguments Undef {A}.
Arguments OutOfFuel {A}.

(** State-passing computations over the globals [S] of a component. *)
Definition M (S A : Type) : Type := S -> outcome (A * S).

Definition ret {S A} (a : A) : M S A := fun s => Done (a, s).
Definition bind {S A B} (m : M S A) (k : A -> M S B) : M S B := fun s =>
  match m s with
  | Done (a, s') => k a s'
  | Undef => Undef
  | OutOfFuel => OutOfFuel
  end.
Definition gets {S A} (f : S -> A) : M S A := fun s => Done (f s, s).
Definition modify {S} (f : S -> S) : M S unit := fun s => Done (tt, f s).
Definition undef {S A} : M S A := fun _ => Undef.
Definition out_of_fuel {S A} : M S A := fun _ => OutOfFuel.

(** An action that returns a value and a new state. *)
Definition act {S A} (f : S -> A * S) : M S A := fun s => Done (f s).

(** A computation of a component inside the state of its client. *)
Definition lift {S T A} (get : S -> T) (put : T -> S -> S) (m : M T A) : M S A := fun s =>
  match m (get s) with
  | Done (a, t) => Done (a, put t s)
  | Undef => Undef
  | OutOfFuel => OutOfFuel
  end.

(** Access to an object that may be out of range. *)
Definition checked {S A} (o : option A) : M S A :=
  match o with Some a => ret a | None => undef end.

Notation "'let!' x ':=' m 'in' k" := (bind m (fun x => k))
  (at level 10, x binder, m at level 100, k at level 200,
   format "'[v' 'let!'  x  ':='  m  'in' '/' k ']'") : ecnt_scope.
Notation "'do!' m 'in' k" := (bind m (fun _ => k))
  (at level 10, m at level 100, k at level 200,
   format "'[v' 'do!'  m  'in' '/' k ']'") : ecnt_scope.
Open Scope ecnt_scope.

(** Running a sequence whose first part is known. *)
Lemma bind_run {S A B} (m : M S A) (k : A -> M S B) s a s' :
  m s = Done (a, s') -> bind m k s = k a s'.
Proof. unfold bind. by intros ->. Qed.

Lemma bind_inv {S A B} (m : M S A) (k : A -> M S B) s b s' :
  bind m k s = Done (b, s') -> exists a s1, m s = Done (a, s1) /\ k a s1 = Done (b, s').
Proof. unfold bind. destruct (m s) as [[a s1]| |]; [|done..]. eauto. Qed.

Lemma checked_state {S A} (o : option A) (s s' : S) r : checked o s = Done (r, s') -> s' = s.
Proof. destruct o; [by intros [= _ <-]|done]. Qed.

Lemma lift_run {S T A} (get : S -> T) put (m : M T A) s a t :
  m (get s) = Done (a, t) -> lift get put m s = Done (a, put t s).
Proof. unfold lift. by intros ->. Qed.

(** One step of a run: the first part of the sequence is known by [t]. *)
Tactic Notation "run" tactic3(t) := erewrite bind_run by t; cbv beta iota.

(** A counted C loop [for (i = i0; n times; i += d)].  The body answers
    [Some r] to leave the enclosing function with [r] and [None] to go on. *)
Fixpoint for_loop {S R} (n : nat) (i d : Z) (body : Z -> M S (option R)) : M S (option R) :=
  match n with
  | O => ret None
  | Datatypes.S n' =>
      let! r := body i in
      match r with
      | Some v => ret (Some v)
      | None => for_loop n' (i + d) d body
      end
  end.

(** The same loop for a body that never leaves early. *)
Fixpoint for_each {S} (n : nat) (i d : Z) (body : Z -> M S unit) : M S unit :=
  match n with
  | O => ret tt
  | Datatypes.S n' => do! body i in for_each n' (i + d) d body
  end.

(** ** Weakest preconditions

    [wp m Q s]: the run of [m] from [s] completes, with no undefined access
    and without running out of fuel, and its result satisfies [Q]. *)
Definition wp {S A} (m : M S A) (Q : A -> S -> Prop) (s : S) : Prop :=
  match m s with
  | Done (a, s') => Q a s'
  | _ => False
  end.

Section wp_rules.
Context {S : Type}.

Lemma wp_ret {A} (a : A) (Q : A -> S -> Prop) s : Q a s -> wp (ret a) Q s.
Proof. done. Qed.

Lemma wp_bind {A B} (m : M S A) (k : A -> M S B) Q s :
  wp m (fun a => wp (k a) Q) s -> wp (bind m k) Q s.
Proof. unfold wp, bind. by destruct (m s) as [[a s']| |]. Qed.

Lemma wp_gets {A} (f : S -> A) (Q : A -> S -> Prop) s : Q (f s) s -> wp (gets f) Q s.
Proof. done. Qed.

Lemma wp_modify (f : S -> S) (Q : unit -> S -> Prop) s : Q tt (f s) -> wp (modify f) Q s.
Proof. done. Qed.

Lemma wp_act {A} (f : S -> A * S) (Q : A -> S -> Prop) s :
  Q (f s).1 (f s).2 -> wp (act f) Q s.
Proof. unfold wp, act. by destruct (f s). Qed.

Lemma wp_checked {A} (o : option A) (a : A) (Q : A -> S -> Prop) s :
  o = Some a -> Q a s -> wp (checked o) Q s.
Proof. intros -> ?. done. Qed.

Lemma wp_lift {T A} (get : S -> T) put (m : M T A) (Q : A -> S -> Prop) s :
  wp m (fun a t => Q a (put t s)) (get s) -> wp (lift get put m) Q s.
Proof. unfold wp, lift. by destruct (m (get s)) as [[a t]| |]. Qed.

Lemma wp_mono {A} (m : M S A) (Q Q' : A -> S -> Prop) s :
  wp m Q s -> (forall a s', Q a s' -> Q' a s') -> wp m Q' s.
Proof. unfold wp. destruct (m s) as [[a s']| |]; eauto. Qed.

Lemma wp_conj {A} (m : M S A) (Q Q' : A -> S -> Prop) s :
  wp m Q s -> wp m Q' s -> wp m (fun a s' => Q a s' /\ Q' a s') s.
Proof. unfold wp. by destruct (m s) as [[a s']| |]. Qed.

Lemma wp_done {A} (m : M S A) (Q : A -> S -> Prop) s :
  wp m Q s -> exists a s', m s = Done (a, s') /\ Q a s'.
Proof. unfold wp. destruct (m s) as [[a s']| |]; naive_solver. Qed.

Lemma done_wp {A} (m : M S A) (Q : A -> S -> Prop) s a s' :
  m s = Done (a, s') -> wp m Q s -> Q a s'.
Proof. unfold wp. by intros ->. Qed.

(** Loop rule: the invariant speaks of the loop counter. *)
Lemma wp_for_loop {R} (I : Z -> S -> Prop) n i d (body : Z -> M S (option R))
    (Q : option R -> S -> Prop) s :
  I i s ->
  (forall k s, 0 <= k < Z.of_nat n -> I (i + k * d) s ->
     wp (body (i + k * d))
        (fun r s' => match r with
                     | Some v => Q (Some v) s'
                     | None => I (i + (k + 1) * d) s'
                     end) s) ->
  (forall s, I (i + Z.of_nat n * d) s -> Q None s) ->
  wp (for_loop n i d body) Q s.
Proof.
  revert i s. induction n as [|n IH]; intros i s HI Hbody Hend; simpl.
  - apply wp_ret, Hend. by rewrite Z.mul_0_l, Z.add_0_r.
  - apply wp_bind. specialize (Hbody 0 s) as H0.
    rewrite Z.mul_0_l, Z.add_0_r in H0.
    eapply wp_mono; [apply H0; [lia|done]|].
    intros [v|] s' Hr; [by apply wp_ret|].
    apply IH.
    + by replace (i + (0 + 1) * d) with (i + d) in Hr by lia.
    + intros k s'' Hk HI'. specialize (Hbody (k + 1) s'').
      replace (i + (k + 1) * d) with (i + d + k * d) in Hbody by lia.
      replace (i + d + (k + 1) * d) with (i + (k + 1 + 1) * d) by lia.
      apply Hbody; [lia|done].
    + intros s'' HI'. apply Hend.
      by replace (i + Z.of_nat (Datatypes.S n) * d) with (i + d + Z.of_nat n * d) by lia.
Qed.

Lemma wp_for_each (I : Z -> S -> Prop) n i d (body : Z -> M S unit)
    (Q : unit -> S -> Prop) s :
  I i s ->
  (forall k s, 0 <= k < Z.of_nat n -> I (i + k * d) s ->
     wp (body (i + k * d)) (fun _ s' => I (i + (k + 1) * d) s') s) ->
  (forall s, I (i + Z.of_nat n * d) s -> Q tt s) ->
  wp (for_each n i d body) Q s.
Proof.
  revert i s. induction n as [|n IH]; intros i s HI Hbody Hend; simpl.
  - apply wp_ret, Hend. by rewrite Z.mul_0_l, Z.add_0_r.
  - apply wp_bind. specialize (Hbody 0 s) as H0.
    rewrite Z.mul_0_l, Z.add_0_r in H0.
    eapply wp_mono; [apply H0; [lia|done]|].
    intros [] s' Hr. apply IH.
    + by replace (i + (0 + 1) * d) with (i + d) in Hr by lia.
    + intros k s'' Hk HI'. specialize (Hbody (k + 1) s'').
      replace (i + (k + 1) * d) with (i + d + k * d) in Hbody by lia.
      replace (i + d + (k + 1) * d) with (i + (k + 1 + 1) * d) by lia.
      apply Hbody; [lia|done].
    + intros s'' HI'. apply Hend.
      by replace (i + Z.of_nat (Datatypes.S n) * d) with (i + d + Z.of_nat n * d) by lia.
Qed.
End wp_rules.

(** One step of symbolic execution; [wp_steps] runs straight-line code. *)
Ltac wp_step :=
  match goal with
  | |- wp (bind _ _) _ _ => apply wp_bind
  | |- wp (ret _) _ _ => apply wp_ret
  | |- wp (gets _) _ _ => apply wp_gets
  | |- wp (modify _) _ _ => apply wp_modify
  | |- wp (act _) _ _ => apply wp_act
  | |- wp (lift _ _ _) _ _ => apply wp_lift
  end; cbv beta.
Ltac wp_steps := repeat wp_step.

(** ** Arrays indexed by C integers *)

Definition znth {A} (l : list A) (i : Z) : option A :=
  if 0 <=? i then l !! Z.to_nat i else None.

(** Store at an index inside the array. *)
Definition zset {A} (l : list A) (i : Z) (v : A) : option (list A) :=
  if (0 <=? i) && (i <? Z.of_nat (length l)) then Some (<[Z.to_nat i := v]> l) else None.

Section arrays.
Context {A : Type}.
Implicit Type l : list A.

Lemma znth_lookup l (i : Z) : 0 <= i -> znth l i = l !! Z.to_nat i.
Proof. intros Hi. unfold znth. by rewrite (proj2 (Z.leb_le 0 i)). Qed.

Lemma znth_Some l (i : Z) : 0 <= i < Z.of_nat (length l) -> exists x, znth l i = Some x.
Proof.
  intros Hi. rewrite znth_lookup by lia.
  destruct (lookup_lt_is_Some_2 l (Z.to_nat i)) as [x Hx]; [lia|eauto].
Qed.

Lemma znth_range l (i : Z) x : znth l i = Some x -> 0 <= i < Z.of_nat (length l).
Proof.
  unfold znth. destruct (Z.leb_spec 0 i); [|done]. intros Hx%lookup_lt_Some. lia.
Qed.

Lemma zset_Some l (i : Z) (v : A) :
  0 <= i < Z.of_nat (length l) -> zset l i v = Some (<[Z.to_nat i := v]> l).
Proof.
  intros Hi. unfold zset.
  by rewrite (proj2 (Z.leb_le 0 i)), (proj2 (Z.ltb_lt i _)) by lia.
Qed.

Lemma znth_insert l i j v :
  0 <= i < Z.of_nat (length l) -> 0 <= j ->
  znth (<[Z.to_nat i := v]> l) j = if decide (j = i) then Some v else znth l j.
Proof.
  intros Hi Hj. rewrite !znth_lookup by lia. destruct (decide (j = i)) as [->|].
  - apply list_lookup_insert_eq. lia.
  - apply list_lookup_insert_ne. lia.
Qed.
End arrays.

(** [memcpy(dst + off, src, |src|)] inside the object [dst]. *)
Definition splice {A} (dst : list A) (off : Z) (src : list A) : list A :=
  take (Z.to_nat off) dst ++ src ++ drop (Z.to_nat off + length src) dst.

Lemma splice_length {A} (dst src : list A) off :
  0 <= off -> off + Z.of_nat (length src) <= Z.of_nat (length dst) ->
  length (splice dst off src) = length dst.
Proof. intros Ho Hl. unfold splice. rewrite !length_app, length_take, length_drop. lia. Qed.

(** [memset(p, v, n)]. *)
Definition memset {A} (v : A) (n : Z) : list A := replicate (Z.to_nat n) v.

(** ** Little-endian integers in byte buffers *)

Fixpoint le_bytes (n : nat) (z : Z) : list Z :=
  match n with
  | O => []
  | S n' => z mod 256 :: le_bytes n' (z / 256)
  end.

Fixpoint le_val (bs : list Z) : Z :=
  match bs with
  | [] => 0
  | b :: bs' => b + 256 * le_val bs'
  end.

Definition bytes (l : list Z) : Prop := Forall is_u8 l.

(** Executable form, for closed buffers. *)
Definition bytesb (l : list Z) : bool := forallb (fun b => (0 <=? b) && (b <? 256)) l.

Lemma bytesb_bytes l : bytesb l = true -> bytes l.
Proof.
  unfold bytesb, bytes. rewrite forallb_forall, Forall_forall.
  intros H b Hb. apply list_elem_of_In, H in Hb. unfold is_u8. lia.
Qed.

Ltac bytes_tac := apply bytesb_bytes; vm_compute; reflexivity.

Section le_lemmas.
Lemma le_bytes_length n z : length (le_bytes n z) = n.
Proof. revert z. induction n; intros; simpl; auto. Qed.

Lemma le_bytes_bytes n z : bytes (le_bytes n z).
Proof.
  revert z. induction n; intros z; simpl; constructor; [|by apply IHn].
  unfold is_u8. apply Z.mod_pos_bound. lia.
Qed.

Lemma le_val_bytes n z : 0 <= z < 256 ^ Z.of_nat n -> le_val (le_bytes n z) = z.
Proof.
  revert z. induction n as [|n IH]; intros z Hz; simpl.
  - change (256 ^ Z.of_nat 0) with 1 in Hz. lia.
  - rewrite IH.
    + pose proof (Z.div_mod z 256). lia.
    + rewrite Nat2Z.inj_succ, Z.pow_succ_r in Hz by lia. split.
      * apply Z.div_pos; lia.
      * apply Z.div_lt_upper_bound; lia.
Qed.

Lemma le_val_bound bs : bytes bs -> 0 <= le_val bs < 256 ^ Z.of_nat (length bs).
Proof.
  induction 1 as [|b bs Hb _ IH]; simpl; [change (256 ^ 0) with 1; lia|].
  rewrite Nat2Z.inj_succ, Z.pow_succ_r by lia.
  unfold is_u8 in Hb. change (2 ^ 8) with 256 in Hb. lia.
Qed.

Lemma le_bytes_val bs : bytes bs -> le_bytes (length bs) (le_val bs) = bs.
Proof.
  induction 1 as [|b bs Hb _ IH]; simpl; [done|].
  unfold is_u8 in Hb. change (2 ^ 8) with 256 in Hb.
  replace (b + 256 * le_val bs) with (b + le_val bs * 256) by lia.
  rewrite Z_mod_plus_full, Z.div_add, Z.mod_small, Z.div_small, Z.add_0_l by lia.
  by rewrite IH.
Qed.
End le_lemmas.
