(* ===== verification/Crc.v ===== *)
(** CRC-32 of [lib/crc32.c], as the image checks of the boot loader use it.

    [crc_table] is the static table, [make_crc_table] the routine that
    generates it under [DYNAMIC_CRC_TABLE], [crc32_no_comp] the word-wise
    update with its unaligned head and tail, [crc32] the complemented form and
    [crc32_wd] the chunked form.  The target is little endian, so [tole],
    [cpu_to_le32] and [le32_to_cpu] are the identity and [DO_CRC] is the
    little-endian variant.  The reference definition is the bit-serial shift
    register [crc_step]; the theorems relate the word-wise code to it. *)

From stdpp Require Import base numbers list option.
From Stdlib Require Import ZArith Lia.
From S2P Require Import Prelude.

(** ** The code *)

(** The static table [crc_table]. *)
Definition crc_table : list Z :=
  [0x00000000; 0x77073096; 0xee0e612c; 0x990951ba; 0x076dc419; 0x706af48f;
   0xe963a535; 0x9e6495a3; 0x0edb8832; 0x79dcb8a4; 0xe0d5e91e; 0x97d2d988;
   0x09b64c2b; 0x7eb17cbd; 0xe7b82d07; 0x90bf1d91; 0x1db71064; 0x6ab020f2;
   0xf3b97148; 0x84be41de; 0x1adad47d; 0x6ddde4eb; 0xf4d4b551; 0x83d385c7;
   0x136c9856; 0x646ba8c0; 0xfd62f97a; 0x8a65c9ec; 0x14015c4f; 0x63066cd9;
   0xfa0f3d63; 0x8d080df5; 0x3b6e20c8; 0x4c69105e; 0xd56041e4; 0xa2677172;
   0x3c03e4d1; 0x4b04d447; 0xd20d85fd; 0xa50ab56b; 0x35b5a8fa; 0x42b2986c;
   0xdbbbc9d6; 0xacbcf940; 0x32d86ce3; 0x45df5c75; 0xdcd60dcf; 0xabd13d59;
   0x26d930ac; 0x51de003a; 0xc8d75180; 0xbfd06116; 0x21b4f4b5; 0x56b3c423;
   0xcfba9599; 0xb8bda50f; 0x2802b89e; 0x5f058808; 0xc60cd9b2; 0xb10be924;
   0x2f6f7c87; 0x58684c11; 0xc1611dab; 0xb6662d3d; 0x76dc4190; 0x01db7106;
   0x98d220bc; 0xefd5102a; 0x71b18589; 0x06b6b51f; 0x9fbfe4a5; 0xe8b8d433;
   0x7807c9a2; 0x0f00f934; 0x9609a88e; 0xe10e9818; 0x7f6a0dbb; 0x086d3d2d;
   0x91646c97; 0xe6635c01; 0x6b6b51f4; 0x1c6c6162; 0x856530d8; 0xf262004e;
   0x6c0695ed; 0x1b01a57b; 0x8208f4c1; 0xf50fc457; 0x65b0d9c6; 0x12b7e950;
   0x8bbeb8ea; 0xfcb9887c; 0x62dd1ddf; 0x15da2d49; 0x8cd37cf3; 0xfbd44c65;
   0x4db26158; 0x3ab551ce; 0xa3bc0074; 0xd4bb30e2; 0x4adfa541; 0x3dd895d7;
   0xa4d1c46d; 0xd3d6f4fb; 0x4369e96a; 0x346ed9fc; 0xad678846; 0xda60b8d0;
   0x44042d73; 0x33031de5; 0xaa0a4c5f; 0xdd0d7cc9; 0x5005713c; 0x270241aa;
   0xbe0b1010; 0xc90c2086; 0x5768b525; 0x206f85b3; 0xb966d409; 0xce61e49f;
   0x5edef90e; 0x29d9c998; 0xb0d09822; 0xc7d7a8b4; 0x59b33d17; 0x2eb40d81;
   0xb7bd5c3b; 0xc0ba6cad; 0xedb88320; 0x9abfb3b6; 0x03b6e20c; 0x74b1d29a;
   0xead54739; 0x9dd277af; 0x04db2615; 0x73dc1683; 0xe3630b12; 0x94643b84;
   0x0d6d6a3e; 0x7a6a5aa8; 0xe40ecf0b; 0x9309ff9d; 0x0a00ae27; 0x7d079eb1;
   0xf00f9344; 0x8708a3d2; 0x1e01f268; 0x6906c2fe; 0xf762575d; 0x806567cb;
   0x196c3671; 0x6e6b06e7; 0xfed41b76; 0x89d32be0; 0x10da7a5a; 0x67dd4acc;
   0xf9b9df6f; 0x8ebeeff9; 0x17b7be43; 0x60b08ed5; 0xd6d6a3e8; 0xa1d1937e;
   0x38d8c2c4; 0x4fdff252; 0xd1bb67f1; 0xa6bc5767; 0x3fb506dd; 0x48b2364b;
   0xd80d2bda; 0xaf0a1b4c; 0x36034af6; 0x41047a60; 0xdf60efc3; 0xa867df55;
   0x316e8eef; 0x4669be79; 0xcb61b38c; 0xbc66831a; 0x256fd2a0; 0x5268e236;
   0xcc0c7795; 0xbb0b4703; 0x220216b9; 0x5505262f; 0xc5ba3bbe; 0xb2bd0b28;
   0x2bb45a92; 0x5cb36a04; 0xc2d7ffa7; 0xb5d0cf31; 0x2cd99e8b; 0x5bdeae1d;
   0x9b64c2b0; 0xec63f226; 0x756aa39c; 0x026d930a; 0x9c0906a9; 0xeb0e363f;
   0x72076785; 0x05005713; 0x95bf4a82; 0xe2b87a14; 0x7bb12bae; 0x0cb61b38;
   0x92d28e9b; 0xe5d5be0d; 0x7cdcefb7; 0x0bdbdf21; 0x86d3d2d4; 0xf1d4e242;
   0x68ddb3f8; 0x1fda836e; 0x81be16cd; 0xf6b9265b; 0x6fb077e1; 0x18b74777;
   0x88085ae6; 0xff0f6a70; 0x66063bca; 0x11010b5c; 0x8f659eff; 0xf862ae69;
   0x616bffd3; 0x166ccf45; 0xa00ae278; 0xd70dd2ee; 0x4e048354; 0x3903b3c2;
   0xa7672661; 0xd06016f7; 0x4969474d; 0x3e6e77db; 0xaed16a4a; 0xd9d65adc;
   0x40df0b66; 0x37d83bf0; 0xa9bcae53; 0xdebb9ec5; 0x47b2cf7f; 0x30b5ffe9;
   0xbdbdf21c; 0xcabac28a; 0x53b39330; 0x24b4a3a6; 0xbad03605; 0xcdd70693;
   0x54de5729; 0x23d967bf; 0xb3667a2e; 0xc4614ab8; 0x5d681b02; 0x2a6f2b94;
   0xb40bbe37; 0xc30c8ea1; 0x5a05df1b; 0x2d02ef8d].

(** The exponents of the polynomial, [p] in [make_crc_table]. *)
Definition crc_poly_terms : list Z := [0;1;2;4;5;7;8;10;11;12;16;22;23;26].

(** [poly |= 1L << (31 - p[n])] over the terms. *)
Definition crc_poly : Z :=
  fold_left (fun poly p => Z.lor poly (Z.shiftl 1 (31 - p))) crc_poly_terms 0.

(** One round of the inner loop: [c & 1 ? poly ^ (c >> 1) : c >> 1]. *)
Definition crc_step (c : Z) : Z :=
  if Z.odd c then Z.lxor crc_poly (Z.shiftr c 1) else Z.shiftr c 1.

Definition crc_steps (k : nat) (c : Z) : Z := Nat.iter k crc_step c.

Definition make_crc_table : list Z :=
  (fun n => crc_steps 8 (Z.of_nat n)) <$> seq 0 256.

(** [crc = tab[(crc ^ (x)) & 255] ^ (crc >> 8)] *)
Definition DO_CRC (crc x : Z) : Z :=
  Z.lxor (nth (Z.to_nat (Z.land (Z.lxor crc x) 255)) crc_table 0) (Z.shiftr crc 8).

(** The head loop: bytes up to the next multiple of four.  [addr] is the
    address of the byte to come; answers the crc and the bytes that are left. *)
Fixpoint crc_head (addr crc : Z) (buf : list Z) : Z * list Z :=
  match buf with
  | [] => (crc, [])
  | b :: buf' =>
      let crc' := DO_CRC crc b in
      match buf' with
      | [] => (crc', [])                                     (* --len *)
      | _ => if Z.land (addr + 1) 3 =? 0 then (crc', buf')   (* ((long)p)&3 *)
             else crc_head (addr + 1) crc' buf'
      end
  end.

(** The loop over 32-bit words: [crc ^= *++b] and four [DO_CRC(0)]. *)
Fixpoint crc_words (n : nat) (crc : Z) (buf : list Z) : Z * list Z :=
  match n with
  | O => (crc, buf)
  | S n' =>
      let crc := Z.lxor crc (le_val (take 4 buf)) in
      let crc := DO_CRC crc 0 in
      let crc := DO_CRC crc 0 in
      let crc := DO_CRC crc 0 in
      let crc := DO_CRC crc 0 in
      crc_words n' crc (drop 4 buf)
  end.

(** [crc32_no_comp(crc, buf, len)]: [addr] is the address of [buf], the list
    holds the [len] bytes at it. *)
Definition crc32_no_comp (addr crc : Z) (buf : list Z) : Z :=
  let '(crc, buf) :=
    if negb (Z.land addr 3 =? 0) && negb (Z.of_nat (length buf) =? 0)
    then crc_head addr crc buf else (crc, buf) in
  let len := Z.of_nat (length buf) in
  let rem_len := Z.land len 3 in
  let '(crc, buf) := crc_words (Z.to_nat (Z.shiftr len 2)) crc buf in
  fold_left DO_CRC (take (Z.to_nat rem_len) buf) crc.

Definition crc32 (addr crc : Z) (buf : list Z) : Z :=
  Z.lxor (crc32_no_comp addr (Z.lxor crc 0xffffffff) buf) 0xffffffff.

(** The [while (curr < end)] loop of [crc32_wd]. *)
Fixpoint crc32_wd_loop (fuel : nat) (addr crc : Z) (buf : list Z) (chunk_sz : Z) : outcome Z :=
  match buf with
  | [] => Done crc
  | _ =>
      match fuel with
      | O => OutOfFuel
      | S fuel' =>
          let left := Z.of_nat (length buf) in
          let chunk := if chunk_sz <? left then chunk_sz else left in
          let crc := crc32 addr crc (take (Z.to_nat chunk) buf) in
          crc32_wd_loop fuel' (addr + chunk) crc (drop (Z.to_nat chunk) buf) chunk_sz
      end
  end.

(** [crc32_wd]; [watchdog] is the configuration test around its body. *)
Definition crc32_wd (watchdog : bool) (fuel : nat) (addr crc : Z) (buf : list Z)
    (chunk_sz : Z) : outcome Z :=
  if watchdog then crc32_wd_loop fuel addr crc buf chunk_sz
  else Done (crc32 addr crc buf).

(** [crc = htonl(crc); memcpy(output, &crc, sizeof(crc))]: the four bytes
    stored at [output], most significant first. *)
Definition crc32_wd_buf (watchdog : bool) (fuel : nat) (addr : Z) (input : list Z)
    (chunk_sz : Z) : outcome (list Z) :=
  match crc32_wd watchdog fuel addr 0 input chunk_sz with
  | Done crc => Done (rev (le_bytes 4 crc))
  | Undef => Undef
  | OutOfFuel => OutOfFuel
  end.

(** ** The reference and its algebra *)

(** Bit-serial update by one byte. *)
Definition crc_byte (crc x : Z) : Z := crc_steps 8 (Z.lxor crc x).

Lemma crc_poly_value : crc_poly = 0xedb88320.
Proof. reflexivity. Qed.

Lemma odd_lxor x y : Z.odd (Z.lxor x y) = xorb (Z.odd x) (Z.odd y).
Proof. by rewrite <- !Z.bit0_odd, Z.lxor_spec. Qed.

Lemma crc_step_lxor x y : crc_step (Z.lxor x y) = Z.lxor (crc_step x) (crc_step y).
Proof.
  unfold crc_step. rewrite odd_lxor, Z.shiftr_lxor.
  destruct (Z.odd x), (Z.odd y); simpl xorb; cbv iota.
  - rewrite <- Z.lxor_assoc, (Z.lxor_comm crc_poly), (Z.lxor_assoc _ crc_poly crc_poly).
    by rewrite Z.lxor_nilpotent, Z.lxor_0_r.
  - by rewrite Z.lxor_assoc.
  - by rewrite <- !Z.lxor_assoc, (Z.lxor_comm crc_poly).
  - done.
Qed.

Lemma crc_steps_lxor k x y : crc_steps k (Z.lxor x y) = Z.lxor (crc_steps k x) (crc_steps k y).
Proof.
  induction k as [|k IH]; [done|].
  unfold crc_steps in *; simpl. by rewrite IH, crc_step_lxor.
Qed.

Lemma crc_steps_add j k c : crc_steps (j + k) c = crc_steps j (crc_steps k c).
Proof.
  induction j as [|j IH]; [done|].
  unfold crc_steps in *. simpl. by rewrite IH.
Qed.

(** Bits above the ones shifted out are only moved. *)
Lemma crc_steps_high k w : crc_steps k (w * 2 ^ Z.of_nat k) = w.
Proof.
  revert w. induction k as [|k IH]; intros w.
  - change (2 ^ Z.of_nat 0) with 1. unfold crc_steps; simpl. lia.
  - replace (S k) with (k + 1)%nat by lia. rewrite crc_steps_add.
    rewrite Nat2Z.inj_add, Z.pow_add_r by lia.
    change (2 ^ Z.of_nat 1) with 2. rewrite Z.mul_assoc, (Z.mul_comm _ 2).
    rewrite <- (IH w) at 2. f_equal.
    unfold crc_steps; simpl. unfold crc_step.
    rewrite Z.odd_mul. simpl. rewrite Z.shiftr_div_pow2 by lia.
    change (2 ^ 1) with 2. by rewrite Z.mul_comm, Z.div_mul by lia.
Qed.

Lemma split_low_byte z : z = Z.lxor (Z.land z 255) (Z.shiftr z 8 * 2 ^ 8).
Proof.
  rewrite <- Z.shiftl_mul_pow2 by lia. change 255 with (Z.ones 8).
  apply Z.bits_inj'. intros n Hn.
  rewrite Z.lxor_spec, Z.land_spec, Z.shiftl_spec by lia.
  destruct (decide (n < 8)).
  - rewrite Z.ones_spec_low, (Z.testbit_neg_r _ (n - 8)) by lia.
    by rewrite andb_true_r, xorb_false_r.
  - rewrite Z.ones_spec_high, Z.shiftr_spec by lia.
    rewrite andb_false_r, xorb_false_l. f_equal. lia.
Qed.

(** ** The table *)

(** The static table is the one [make_crc_table] computes. *)
Lemma crc_table_generated : crc_table = make_crc_table.
Proof. vm_compute. reflexivity. Qed.

Lemma crc_table_nth i : 0 <= i < 256 -> nth (Z.to_nat i) crc_table 0 = crc_steps 8 i.
Proof.
  intros Hi. rewrite crc_table_generated. unfold make_crc_table.
  rewrite (nth_lookup_Some _ _ _ (crc_steps 8 i)); [done|].
  rewrite list_lookup_fmap, lookup_seq_lt by lia. simpl. by rewrite Z2Nat.id by lia.
Qed.

Lemma land_255_range z : 0 <= Z.land z 255 < 256.
Proof. change 255 with (Z.ones 8). rewrite Z.land_ones by lia. apply Z.mod_pos_bound. lia. Qed.

(** The table-driven update is the bit-serial one. *)
Lemma DO_CRC_byte crc x : 0 <= x < 256 -> DO_CRC crc x = crc_byte crc x.
Proof.
  intros Hx. unfold DO_CRC, crc_byte.
  rewrite crc_table_nth by apply land_255_range.
  rewrite (split_low_byte (Z.lxor crc x)) at 2.
  rewrite crc_steps_lxor. f_equal.
  rewrite (crc_steps_high 8), Z.shiftr_lxor.
  rewrite (Z.shiftr_div_pow2 x), Z.div_small by lia. by rewrite Z.lxor_0_r.
Qed.

Lemma fold_DO_CRC buf crc : bytes buf -> fold_left DO_CRC buf crc = fold_left crc_byte buf crc.
Proof.
  intros H. revert crc. induction H as [|b buf Hb _ IH]; intros crc; simpl; [done|].
  by rewrite DO_CRC_byte, IH.
Qed.

(** ** Head, words and tail *)

Lemma crc_head_fold addr crc buf c rest :
  crc_head addr crc buf = (c, rest) ->
  exists pre, buf = pre ++ rest /\ c = fold_left DO_CRC pre crc.
Proof.
  revert addr crc. induction buf as [|b buf IH]; intros addr crc; simpl.
  - intros [= <- <-]. by exists [].
  - destruct buf as [|b' buf'].
    + intros [= <- <-]. by exists [b].
    + destruct (_ =? 0).
      * intros [= <- <-]. by exists [b].
      * intros H. apply IH in H as (pre & -> & ->). by exists (b :: pre).
Qed.

(** Absorbing a byte before or after eight shifts of a longer word. *)
Lemma crc_steps8_absorb c v : crc_steps 8 (Z.lxor c (v * 2 ^ 8)) = Z.lxor (crc_steps 8 c) v.
Proof. by rewrite crc_steps_lxor, (crc_steps_high 8). Qed.

Lemma lxor_add_high b v : 0 <= b < 256 -> b + 256 * v = Z.lxor b (v * 2 ^ 8).
Proof.
  intros Hb. rewrite (split_low_byte (b + 256 * v)).
  replace (b + 256 * v) with (b + v * 256) by lia.
  change 255 with (Z.ones 8). rewrite Z.land_ones, Z.shiftr_div_pow2 by lia.
  change (2 ^ 8) with 256.
  rewrite Z_mod_plus_full, Z.div_add, Z.mod_small, Z.div_small by lia. done.
Qed.

(** Xoring a little-endian word and shifting it out is updating by its
    bytes in address order. *)
Lemma crc_steps_word bs crc :
  bytes bs ->
  crc_steps (8 * length bs) (Z.lxor crc (le_val bs)) = fold_left crc_byte bs crc.
Proof.
  intros H. revert crc. induction H as [|b bs Hb _ IH]; intros crc.
  - simpl. by rewrite Z.lxor_0_r.
  - cbn [length le_val fold_left].
    replace (8 * S (length bs))%nat with (8 * length bs + 8)%nat by lia.
    rewrite crc_steps_add, lxor_add_high by exact Hb.
    rewrite <- Z.lxor_assoc, crc_steps8_absorb. apply IH.
Qed.

Lemma DO_CRC_0_4 crc : DO_CRC (DO_CRC (DO_CRC (DO_CRC crc 0) 0) 0) 0 = crc_steps 32 crc.
Proof.
  rewrite !DO_CRC_byte by lia. unfold crc_byte. rewrite !Z.lxor_0_r.
  rewrite <- !crc_steps_add. done.
Qed.

Lemma crc_words_fold n crc buf :
  bytes buf -> (4 * n <= length buf)%nat ->
  crc_words n crc buf = (fold_left crc_byte (take (4 * n) buf) crc, drop (4 * n) buf).
Proof.
  revert crc buf. induction n as [|n IH]; intros crc buf Hb Hlen; [by rewrite take_0, drop_0|].
  cbn [crc_words]. rewrite DO_CRC_0_4.
  assert (length (take 4 buf) = 4%nat) as H4 by (rewrite length_take; lia).
  replace 32%nat with (8 * length (take 4 buf))%nat by lia.
  rewrite crc_steps_word by (by apply Forall_take).
  rewrite IH; [|by apply Forall_drop|rewrite length_drop; lia].
  rewrite drop_drop. replace (4 + 4 * n)%nat with (4 * S n)%nat by lia. f_equal.
  rewrite <- fold_left_app. f_equal.
  replace (4 * S n)%nat with (4 + 4 * n)%nat by lia. by rewrite take_take_drop.
Qed.

Lemma crc32_no_comp_fold addr crc buf :
  bytes buf -> crc32_no_comp addr crc buf = fold_left crc_byte buf crc.
Proof.
  intros Hb. unfold crc32_no_comp.
  assert (exists pre rest c,
    (if negb (Z.land addr 3 =? 0) && negb (Z.of_nat (length buf) =? 0)
     then crc_head addr crc buf else (crc, buf)) = (c, rest) /\
    buf = pre ++ rest /\ c = fold_left crc_byte pre crc) as (pre & rest & c & -> & -> & ->).
  { destruct (negb _ && negb _).
    - destruct (crc_head addr crc buf) as [c rest] eqn:Hh.
      apply crc_head_fold in Hh as (pre & -> & ->). exists pre, rest. eexists.
      split_and!; [done|done|]. apply fold_DO_CRC.
      by apply Forall_app in Hb as [? _].
    - by exists [], buf, crc. }
  apply Forall_app in Hb as [Hpre Hrest].
  assert (Z.to_nat (Z.shiftr (Z.of_nat (length rest)) 2) = (length rest / 4)%nat) as ->.
  { rewrite Z.shiftr_div_pow2 by lia. change (2 ^ 2) with 4.
    change 4 with (Z.of_nat 4). by rewrite <- Nat2Z.inj_div, Nat2Z.id. }
  assert (Z.to_nat (Z.land (Z.of_nat (length rest)) 3) = (length rest mod 4)%nat) as ->.
  { change 3 with (Z.ones 2). rewrite Z.land_ones by lia. change (2 ^ 2) with (Z.of_nat 4).
    by rewrite <- Nat2Z.inj_mod, Nat2Z.id. }
  pose proof (Nat.div_mod_eq (length rest) 4) as Hdm.
  rewrite crc_words_fold by (done || lia).
  rewrite fold_DO_CRC by (by apply Forall_take, Forall_drop).
  rewrite (take_ge (drop _ _)) by (rewrite length_drop; lia).
  rewrite <- fold_left_app, take_drop. by rewrite <- fold_left_app.
Qed.

(** ** Ranges and chaining *)

Lemma lxor_u32 x y : is_u32 x -> is_u32 y -> is_u32 (Z.lxor x y).
Proof.
  unfold is_u32. intros Hx Hy. split.
  - apply Z.lxor_nonneg. lia.
  - destruct (decide (Z.lxor x y = 0)) as [->|Hne]; [lia|].
    apply Z.log2_lt_pow2; [pose proof (proj2 (Z.lxor_nonneg x y)); lia|].
    eapply Z.le_lt_trans; [apply Z.log2_lxor; lia|].
    apply Z.max_lub_lt.
    + destruct (decide (x = 0)) as [->|]; [simpl; lia|apply Z.log2_lt_pow2; lia].
    + destruct (decide (y = 0)) as [->|]; [simpl; lia|apply Z.log2_lt_pow2; lia].
Qed.

Lemma crc_step_u32 c : is_u32 c -> is_u32 (crc_step c).
Proof.
  intros Hc. unfold crc_step.
  assert (is_u32 (Z.shiftr c 1)) as Hs.
  { unfold is_u32 in *. rewrite Z.shiftr_div_pow2 by lia. change (2 ^ 1) with 2.
    split; [apply Z.div_pos; lia|]. apply Z.div_lt_upper_bound; lia. }
  destruct (Z.odd c); [|done]. apply lxor_u32; [|done].
  rewrite crc_poly_value. unfold is_u32. lia.
Qed.

Lemma crc_steps_u32 k c : is_u32 c -> is_u32 (crc_steps k c).
Proof. intros Hc. induction k; [done|]. by apply crc_step_u32. Qed.

Lemma fold_crc_byte_u32 buf c : bytes buf -> is_u32 c -> is_u32 (fold_left crc_byte buf c).
Proof.
  intros H. revert c. induction H as [|b buf Hb _ IH]; intros c Hc; simpl; [done|].
  apply IH, crc_steps_u32, lxor_u32; [done|]. unfold is_u8, is_u32 in *. lia.
Qed.

Lemma lxor_cancel_r x y : Z.lxor (Z.lxor x y) y = x.
Proof. by rewrite Z.lxor_assoc, Z.lxor_nilpotent, Z.lxor_0_r. Qed.

Lemma crc32_fold addr crc buf :
  bytes buf ->
  crc32 addr crc buf = Z.lxor (fold_left crc_byte buf (Z.lxor crc 0xffffffff)) 0xffffffff.
Proof. intros Hb. unfold crc32. by rewrite crc32_no_comp_fold. Qed.

Lemma crc32_app a1 a2 a3 crc xs ys :
  bytes xs -> bytes ys -> crc32 a1 (crc32 a2 crc xs) ys = crc32 a3 crc (xs ++ ys).
Proof.
  intros Hx Hy. rewrite !crc32_fold by (done || by apply Forall_app).
  by rewrite lxor_cancel_r, fold_left_app.
Qed.

Lemma crc32_wd_loop_ok fuel addr crc buf chunk_sz :
  bytes buf -> 0 < chunk_sz -> (length buf <= fuel)%nat ->
  crc32_wd_loop fuel addr crc buf chunk_sz = Done (crc32 addr crc buf).
Proof.
  revert addr crc buf. induction fuel as [|fuel IH]; intros addr crc buf Hb Hc Hlen.
  - destruct buf; [|simpl in Hlen; lia]. simpl. f_equal.
    rewrite crc32_fold by done. symmetry. apply lxor_cancel_r.
  - destruct buf as [|b buf']; simpl.
    { f_equal. rewrite crc32_fold by done. symmetry. apply lxor_cancel_r. }
    set (buf := b :: buf') in *.
    set (chunk := if _ <? _ then _ else _).
    assert (0 < chunk <= Z.of_nat (length buf)) as Hchunk.
    { unfold chunk. simpl length. destruct (Z.ltb_spec chunk_sz (Z.of_nat (S (length buf')))); lia. }
    rewrite IH.
    + f_equal. rewrite (crc32_app _ _ addr) by (by apply Forall_take || by apply Forall_drop).
      by rewrite take_drop.
    + by apply Forall_drop.
    + done.
    + rewrite length_drop. simpl in *. lia.
Qed.

(** ** Properties *)

(** C37: for every alignment of the buffer, the word-wise update of
    [crc32_no_comp] (unaligned head bytes, 32-bit words, tail bytes, table
    lookups) computes the bit-serial CRC of the bytes in order, and stays a
    32-bit value. *)
Theorem crc32_no_comp_bit_serial addr crc buf :
  bytes buf -> is_u32 crc ->
  crc32_no_comp addr crc buf = fold_left crc_byte buf crc /\
  is_u32 (crc32_no_comp addr crc buf).
Proof.
  intros Hb Hc. rewrite crc32_no_comp_fold by done. split; [done|].
  by apply fold_crc_byte_u32.
Qed.

Lemma crc32_no_comp_bit_serial_witness :
  is_u32 0xffffffff /\
  crc32_no_comp 1 0xffffffff [0x31;0x32;0x33;0x34;0x35;0x36;0x37;0x38;0x39]
  = fold_left crc_byte [0x31;0x32;0x33;0x34;0x35;0x36;0x37;0x38;0x39] 0xffffffff.
Proof.
  split; [unfold is_u32; lia|].
  apply (crc32_no_comp_bit_serial 1 0xffffffff [0x31;0x32;0x33;0x34;0x35;0x36;0x37;0x38;0x39]).
  - bytes_tac.
  - unfold is_u32; lia.
Defined.

(** The published check value of CRC-32 on "123456789". *)
Example crc32_check : crc32 2 0 [0x31;0x32;0x33;0x34;0x35;0x36;0x37;0x38;0x39] = 0xcbf43926.
Proof. vm_compute. reflexivity. Qed.

(** [crc32_wd] terminates for every positive chunk size and, with the
    watchdog configuration or without, returns the CRC of the whole buffer. *)
Theorem crc32_wd_total watchdog fuel addr crc buf chunk_sz :
  bytes buf -> 0 < chunk_sz -> (length buf <= fuel)%nat ->
  crc32_wd watchdog fuel addr crc buf chunk_sz = Done (crc32 addr crc buf).
Proof.
  intros Hb Hc Hf. unfold crc32_wd. destruct watchdog; [|done].
  by apply crc32_wd_loop_ok.
Qed.

Lemma crc32_wd_total_witness :
  crc32_wd true 5 0 0 [1;2;3;4;5] 2 = Done (crc32 0 0 [1;2;3;4;5]).
Proof. apply (crc32_wd_total true 5 0 0 [1;2;3;4;5] 2); [bytes_tac|lia|simpl; lia]. Defined.
