(* ===== verification/NandIf.v ===== *)
(** The interface to the NAND driver.

    [bmt.c] reaches the flash through five driver calls and
    [spi_nand_erase_block]; the driver itself ([spi_nand_flash.c]) is copied
    into the tree by the build and is not part of the repository, so it is
    the class [NandDev], whose operations the definitions take as arguments.
    [NandLaws] states what the block management relies on: an operation on
    one block leaves the others alone, a mark that was written is permanent
    until the block is erased, erasing a block or programming it with an
    all-ones spare area does not mark it, a successful erase leaves blank pages
    and a successful program of a blank page reads back.  Every operation may
    fail under these laws, writing a mark included.

    [NandMarks] is the further assumption that writing a mark succeeds.  The
    code needs it and ignores the answer of the call: where a mark can fail,
    the retries of [migrate_from_bad] need not end ([BmtProps]).  [SimNand] is a
    concrete device with injected read, program and erase failures that
    satisfies both; [StuckNand] is one that satisfies only the laws, because a
    block can no longer be programmed at all. *)

From stdpp Require Import base numbers list option gmap.
From Stdlib Require Import ZArith Lia.
From S2P Require Import Prelude.

(** The sizes [bmt.c] takes from [ra->flash]. *)
Record chip := Chip {
  chip_shift : Z;
  erase_shift : Z;
  page_shift : Z;
  oob_shift : Z
}.

Definition block_size (c : chip) : Z := Z.shiftl 1 (erase_shift c).
Definition page_size (c : chip) : Z := Z.shiftl 1 (page_shift c).
Definition oob_size (c : chip) : Z := Z.shiftl 1 (oob_shift c).
Definition chip_blocks (c : chip) : Z := Z.shiftl 1 (chip_shift c) / block_size c.
Definition chip_ppb (c : chip) : Z := block_size c / page_size c.

Definition BAD_BLOCK_RAW : Z := 0.
Definition BMT_BADBLOCK_GENERATE_LATER : Z := 1.

(** Driver calls.  Status 0 is success; a successful read answers the bytes it
    stored in the data and the spare buffer, a failed one stores nothing. *)
Class NandDev (D : Type) := {
  nd_read_page : D -> Z -> Z * (list Z * list Z);
  nd_block_bad : D -> Z -> Z -> Z;
  nd_erase : D -> Z -> Z * D;
  nd_mark_bad : D -> Z -> Z -> Z * D;
  nd_write_page : D -> Z -> list Z -> list Z -> Z * D;
  spi_nand_erase_block : D -> Z -> Z * D
}.

Section nand_views.
Context {D : Type} `{NandDev D}.

(** A block is unusable when either mark is found. *)
Definition is_bad (c : chip) (d : D) (b : Z) : bool :=
  negb (nd_block_bad d (b * block_size c) BAD_BLOCK_RAW =? 0) ||
  negb (nd_block_bad d (b * block_size c) BMT_BADBLOCK_GENERATE_LATER =? 0).

Definition page_blank (c : chip) (d : D) (p : Z) : Prop :=
  nd_read_page d p = (0, (memset 255 (page_size c), memset 255 (oob_size c))).

Definition block_blank (c : chip) (d : D) (b : Z) : Prop :=
  forall k, 0 <= k < chip_ppb c -> page_blank c d (b * chip_ppb c + k).

(** The pages of block [b] read the same on both devices. *)
Definition same_block (c : chip) (d d' : D) (b : Z) : Prop :=
  forall k, 0 <= k < chip_ppb c ->
    nd_read_page d' (b * chip_ppb c + k) = nd_read_page d (b * chip_ppb c + k).

(** Nothing but the pages and the marks of block [b] differs. *)
Definition only_block (c : chip) (b : Z) (d d' : D) : Prop :=
  forall b', 0 <= b' < chip_blocks c -> b' <> b ->
    same_block c d d' b' /\ is_bad c d' b' = is_bad c d b'.
End nand_views.

Class NandLaws (D : Type) `{NandDev D} (c : chip) : Prop := {
  nl_read_len d p :
    let '(rc, (dat, oob)) := nd_read_page d p in
    rc = 0 -> Z.of_nat (length dat) = page_size c /\ Z.of_nat (length oob) = oob_size c;
  nl_erase_only d b rc d' :
    0 <= b < chip_blocks c -> nd_erase d (b * block_size c) = (rc, d') -> only_block c b d d';
  nl_erase_blank d b d' :
    0 <= b < chip_blocks c -> nd_erase d (b * block_size c) = (0, d') -> block_blank c d' b;
  nl_erase_clean d b rc d' :
    0 <= b < chip_blocks c -> nd_erase d (b * block_size c) = (rc, d') ->
    is_bad c d b = false -> is_bad c d' b = false;
  nl_mark_only d off k rc d' :
    0 <= off < chip_blocks c * block_size c -> nd_mark_bad d off k = (rc, d') ->
    only_block c (off / block_size c) d d';
  nl_mark_bad d off k d' :
    0 <= off < chip_blocks c * block_size c ->
    (k = BAD_BLOCK_RAW \/ k = BMT_BADBLOCK_GENERATE_LATER) ->
    nd_mark_bad d off k = (0, d') -> is_bad c d' (off / block_size c) = true;
  nl_write_only d b k dat oob rc d' :
    0 <= b < chip_blocks c -> 0 <= k < chip_ppb c ->
    nd_write_page d (b * chip_ppb c + k) dat oob = (rc, d') ->
    only_block c b d d' /\
    (is_bad c d b = true -> is_bad c d' b = true) /\
    (forall k', 0 <= k' < chip_ppb c -> k' <> k ->
       nd_read_page d' (b * chip_ppb c + k') = nd_read_page d (b * chip_ppb c + k'));
  nl_write_clean d b k dat n rc d' :
    0 <= b < chip_blocks c -> 0 <= k < chip_ppb c ->
    nd_write_page d (b * chip_ppb c + k) dat (memset 255 n) = (rc, d') ->
    is_bad c d b = false -> is_bad c d' b = false;
  nl_write_read d b k dat oob d' :
    0 <= b < chip_blocks c -> 0 <= k < chip_ppb c ->
    page_size c <= Z.of_nat (length dat) -> oob_size c <= Z.of_nat (length oob) ->
    page_blank c d (b * chip_ppb c + k) ->
    nd_write_page d (b * chip_ppb c + k) dat oob = (0, d') ->
    nd_read_page d' (b * chip_ppb c + k)
      = (0, (take (Z.to_nat (page_size c)) dat, take (Z.to_nat (oob_size c)) oob));
  nl_spi_erase_only d b rc d' :
    0 <= b < chip_blocks c -> spi_nand_erase_block d b = (rc, d') -> only_block c b d d';
  nl_spi_erase_blank d b d' :
    0 <= b < chip_blocks c -> spi_nand_erase_block d b = (0, d') -> block_blank c d' b
}.

(** Writing a bad-block mark never fails. *)
Class NandMarks (D : Type) `{NandDev D} (c : chip) : Prop := {
  nm_mark d off k rc d' :
    0 <= off < chip_blocks c * block_size c ->
    (k = BAD_BLOCK_RAW \/ k = BMT_BADBLOCK_GENERATE_LATER) ->
    nd_mark_bad d off k = (rc, d') -> rc = 0
}.

(** So a mark takes effect whenever it is written. *)
Lemma mark_takes_effect {D : Type} `{NandDev D} (c : chip) `{!NandLaws D c, !NandMarks D c}
    d off k rc d' :
  0 <= off < chip_blocks c * block_size c ->
  (k = BAD_BLOCK_RAW \/ k = BMT_BADBLOCK_GENERATE_LATER) ->
  nd_mark_bad d off k = (rc, d') -> is_bad c d' (off / block_size c) = true.
Proof.
  intros Ho Hk He. pose proof (nm_mark _ _ _ _ _ Ho Hk He) as ->. by eapply nl_mark_bad.
Qed.

(** ** Geometry *)

(** The sizes nest, a page and its spare bytes fit the static buffers
    [dat_buf[0x1000]] and [oob_buf[0x100]], and byte offsets fit an [int]. *)
Record chip_ok (c : chip) : Prop := {
  ck_page : 0 <= page_shift c <= 12;
  ck_erase : page_shift c <= erase_shift c;
  ck_chip : erase_shift c <= chip_shift c <= 30;
  ck_oob : 2 <= oob_shift c <= 8
}.

Section geometry.
Context (c : chip) (Hc : chip_ok c).

Lemma block_size_pow : block_size c = 2 ^ erase_shift c.
Proof. destruct Hc. unfold block_size. rewrite Z.shiftl_mul_pow2 by lia. lia. Qed.
Lemma page_size_pow : page_size c = 2 ^ page_shift c.
Proof. destruct Hc. unfold page_size. rewrite Z.shiftl_mul_pow2 by lia. lia. Qed.
Lemma oob_size_pow : oob_size c = 2 ^ oob_shift c.
Proof. destruct Hc. unfold oob_size. rewrite Z.shiftl_mul_pow2 by lia. lia. Qed.
Lemma chip_ppb_pow : chip_ppb c = 2 ^ (erase_shift c - page_shift c).
Proof.
  destruct Hc. unfold chip_ppb. rewrite block_size_pow, page_size_pow.
  symmetry. apply Z.pow_sub_r; lia.
Qed.
Lemma chip_blocks_pow : chip_blocks c = 2 ^ (chip_shift c - erase_shift c).
Proof.
  destruct Hc. unfold chip_blocks. rewrite block_size_pow, Z.shiftl_mul_pow2, Z.mul_1_l by lia.
  symmetry. apply Z.pow_sub_r; lia.
Qed.

Lemma block_size_pos : 0 < block_size c.
Proof. destruct Hc. rewrite block_size_pow. apply Z.pow_pos_nonneg; lia. Qed.
Lemma page_size_pos : 0 < page_size c.
Proof. destruct Hc. rewrite page_size_pow. apply Z.pow_pos_nonneg; lia. Qed.
Lemma oob_size_pos : 0 < oob_size c.
Proof. destruct Hc. rewrite oob_size_pow. apply Z.pow_pos_nonneg; lia. Qed.
Lemma chip_ppb_pos : 0 < chip_ppb c.
Proof. destruct Hc. rewrite chip_ppb_pow. apply Z.pow_pos_nonneg; lia. Qed.
Lemma chip_blocks_pos : 0 < chip_blocks c.
Proof. destruct Hc. rewrite chip_blocks_pow. apply Z.pow_pos_nonneg; lia. Qed.

Lemma page_size_le : page_size c <= 4096.
Proof.
  destruct Hc. rewrite page_size_pow. change 4096 with (2 ^ 12).
  apply Z.pow_le_mono_r; lia.
Qed.
Lemma oob_size_le : oob_size c <= 256.
Proof.
  destruct Hc. rewrite oob_size_pow. change 256 with (2 ^ 8).
  apply Z.pow_le_mono_r; lia.
Qed.

Lemma oob_size_ge : 4 <= oob_size c.
Proof.
  destruct Hc. rewrite oob_size_pow. change 4 with (2 ^ 2).
  apply Z.pow_le_mono_r; lia.
Qed.

Lemma block_size_split : block_size c = chip_ppb c * page_size c.
Proof.
  destruct Hc. rewrite block_size_pow, chip_ppb_pow, page_size_pow, <- Z.pow_add_r by lia.
  f_equal. lia.
Qed.
Lemma chip_size_split : 2 ^ chip_shift c = chip_blocks c * block_size c.
Proof.
  destruct Hc. rewrite block_size_pow, chip_blocks_pow, <- Z.pow_add_r by lia.
  f_equal. lia.
Qed.
Lemma chip_size_bound : chip_blocks c * block_size c <= 2 ^ 30.
Proof.
  destruct Hc. rewrite <- chip_size_split. apply Z.pow_le_mono_r; lia.
Qed.
End geometry.

(** ** A simulated device *)

Module SimNand.

(** Eight blocks of two pages of 1024 bytes, 32 spare bytes per page. *)
Definition geo : chip := Chip 14 11 10 5.

Record sim := Sim {
  sim_pages : gmap Z (list Z * list Z);   (* programmed pages *)
  sim_marks : list (Z * Z);               (* (block, kind) of bad-block marks *)
  sim_fail_write : list Z;                (* pages whose program operation fails *)
  sim_fail_erase : list Z;                (* blocks whose erase fails *)
  sim_fail_read : list Z                  (* pages whose contents have decayed *)
}.

Definition memZ (x : Z) (l : list Z) : bool := existsb (Z.eqb x) l.
Definition marked (b k : Z) (l : list (Z * Z)) : bool :=
  existsb (fun '(b', k') => (b =? b') && (k =? k')) l.

Definition pad (n : Z) (l : list Z) : list Z :=
  take (Z.to_nat n) (l ++ memset 255 n).

Definition blank : list Z * list Z := (memset 255 (page_size geo), memset 255 (oob_size geo)).

Definition read (d : sim) (p : Z) : Z * (list Z * list Z) :=
  (if memZ p (sim_fail_read d) then -1 else 0,
      match sim_pages d !! p with
      | Some (dat, oob) => (pad (page_size geo) dat, pad (oob_size geo) oob)
      | None => blank
      end).

Definition erase_block (d : sim) (b : Z) (clear : bool) : Z * sim :=
  if memZ b (sim_fail_erase d) then (1, d)
  else (0, Sim (filter (fun e => ~ (e.1 / chip_ppb geo = b)) (sim_pages d))
               (if clear then List.filter (fun e => negb (e.1 =? b)) (sim_marks d)
                else sim_marks d)
               (sim_fail_write d) (sim_fail_erase d)
               (List.filter (fun p => negb (p / chip_ppb geo =? b)) (sim_fail_read d))).

Definition write (d : sim) (p : Z) (dat oob : list Z) : Z * sim :=
  if memZ p (sim_fail_write d) then (1, d)
  else (0, Sim (<[p := (dat, oob)]> (sim_pages d)) (sim_marks d)
               (sim_fail_write d) (sim_fail_erase d)
               (List.filter (fun p' => negb (p' =? p)) (sim_fail_read d))).

Definition mark (d : sim) (off k : Z) : Z * sim :=
  (0, Sim (sim_pages d) ((off / block_size geo, k) :: sim_marks d)
          (sim_fail_write d) (sim_fail_erase d) (sim_fail_read d)).

#[export] Instance sim_dev : NandDev sim := {|
  nd_read_page := read;
  nd_block_bad d off k := if marked (off / block_size geo) k (sim_marks d) then 1 else 0;
  nd_erase d off := erase_block d (off / block_size geo) false;
  nd_mark_bad := mark;
  nd_write_page := write;
  spi_nand_erase_block d b := erase_block d b true
|}.

(** A fresh chip. *)
Definition fresh : sim := Sim ∅ [] [] [] [].

Lemma geo_chip_ok : chip_ok geo.
Proof. split; simpl; lia. Qed.

Lemma pad_length n l : 0 <= n -> Z.of_nat (length (pad n l)) = n.
Proof.
  intros Hn. unfold pad, memset. rewrite length_take, length_app, length_replicate. lia.
Qed.

Lemma pad_take n l : 0 <= n -> n <= Z.of_nat (length l) -> pad n l = take (Z.to_nat n) l.
Proof. intros Hn Hl. unfold pad. rewrite take_app_le by lia. done. Qed.

Lemma page_of_block b k b' : 0 <= k < chip_ppb geo -> (b * chip_ppb geo + k) / chip_ppb geo = b' -> b = b'.
Proof.
  intros Hk <-. change (chip_ppb geo) with 2 in *.
  rewrite Z.div_add_l, Z.div_small by lia. lia.
Qed.

Lemma block_of_offset b : b * block_size geo / block_size geo = b.
Proof. apply Z.div_mul. done. Qed.

Lemma marked_filter b b' k l :
  b' <> b -> marked b' k (List.filter (fun e => negb (e.1 =? b)) l) = marked b' k l.
Proof.
  intros Hne. induction l as [|[x y] l IH]; simpl; [done|].
  destruct (Z.eqb_spec x b) as [->|]; simpl; rewrite IH; [|done].
  by rewrite (proj2 (Z.eqb_neq b' b)).
Qed.

Lemma memZ_filter (f : Z -> bool) x l : f x = true -> memZ x (List.filter f l) = memZ x l.
Proof.
  intros Hf. induction l as [|y l IH]; simpl; [done|].
  destruct (f y) eqn:E; simpl; rewrite IH; [done|].
  destruct (Z.eqb_spec x y) as [->|]; [congruence|done].
Qed.

Lemma memZ_filter_out (f : Z -> bool) x l : f x = false -> memZ x (List.filter f l) = false.
Proof.
  intros Hf. induction l as [|y l IH]; simpl; [done|].
  destruct (f y) eqn:E; simpl; rewrite ?IH; [|done].
  destruct (Z.eqb_spec x y) as [->|]; [congruence|done].
Qed.

Lemma page_block b k : 0 <= k < chip_ppb geo -> (b * chip_ppb geo + k) / chip_ppb geo = b.
Proof. intros Hk. change (chip_ppb geo) with 2 in *. rewrite Z.div_add_l, Z.div_small by lia. lia. Qed.

Lemma erase_block_only d b clear rc d' :
  erase_block d b clear = (rc, d') -> only_block geo b d d'.
Proof.
  unfold erase_block. destruct (memZ _ _); intros [= <- <-] b' Hb' Hne; [done|]. split.
  - intros k Hk. unfold nd_read_page; simpl. unfold read; simpl. f_equal.
    + rewrite memZ_filter; [done|]. rewrite page_block by done. apply negb_true_iff, Z.eqb_neq. done.
    + rewrite map_lookup_filter. destruct (sim_pages d !! _) as [e|]; simpl; [|done].
      rewrite option_guard_True; [done|]. intros He. by apply page_of_block in He.
  - unfold is_bad; simpl. rewrite !block_of_offset.
    destruct clear; [|done]. by rewrite !marked_filter.
Qed.

Lemma erase_block_blank d b clear d' :
  erase_block d b clear = (0, d') -> block_blank geo d' b.
Proof.
  unfold erase_block. destruct (memZ _ _); intros [= <-] k Hk.
  unfold page_blank; simpl. unfold read; simpl.
  rewrite memZ_filter_out by (rewrite page_block by done; by rewrite Z.eqb_refl).
  rewrite map_lookup_filter. destruct (sim_pages d !! _) as [e|]; simpl; [|done].
  rewrite option_guard_False; [done|]. intros He. apply He. simpl. by apply page_block.
Qed.

Lemma write_other d p dat oob rc d' p' :
  write d p dat oob = (rc, d') -> p' <> p -> read d' p' = read d p'.
Proof.
  unfold write. destruct (memZ _ _); intros [= <- <-] Hne; [done|]. unfold read; simpl.
  rewrite memZ_filter by (by apply negb_true_iff, Z.eqb_neq). by rewrite lookup_insert_ne.
Qed.

Lemma write_back d p dat oob d' :
  write d p dat oob = (0, d') -> read d' p = (0, (pad (page_size geo) dat, pad (oob_size geo) oob)).
Proof.
  unfold write. destruct (memZ _ _); intros [= <-]. unfold read; simpl.
  rewrite memZ_filter_out by (by rewrite Z.eqb_refl). by rewrite lookup_insert_eq.
Qed.

Lemma write_marks d p dat oob rc d' : write d p dat oob = (rc, d') -> sim_marks d' = sim_marks d.
Proof. unfold write. by destruct (memZ _ _); intros [= <- <-]. Qed.

Lemma read_length d p rc dat oob : read d p = (rc, (dat, oob)) ->
  Z.of_nat (length dat) = page_size geo /\ Z.of_nat (length oob) = oob_size geo.
Proof.
  unfold read. destruct (sim_pages d !! p) as [[? ?]|]; intros [= _ <- <-]; [|by vm_compute].
  split; apply pad_length; vm_compute; discriminate.
Qed.

Lemma is_bad_marks d d' b : sim_marks d' = sim_marks d -> is_bad geo d' b = is_bad geo d b.
Proof. intros E. unfold is_bad; simpl. by rewrite E. Qed.

#[export] Instance sim_laws : NandLaws sim geo.
Proof.
  split.
  - intros d p. change (nd_read_page d p) with (read d p). destruct (read d p) as [rc [dat oob]] eqn:E.
    intros _. by eapply read_length.
  - intros d b rc d' Hb. simpl. rewrite block_of_offset. apply erase_block_only.
  - intros d b d' Hb. simpl. rewrite block_of_offset. apply erase_block_blank.
  - intros d b rc d' Hb. simpl. rewrite block_of_offset. unfold erase_block.
    by destruct (memZ _ _); intros [= <- <-].
  - intros d off k rc d' Hb. simpl. unfold mark.
    intros [= <- <-] b' Hb' Hne. split; [done|].
    unfold is_bad; simpl. rewrite !block_of_offset.
    by rewrite (proj2 (Z.eqb_neq b' _)).
  - intros d off k d' Hb Hk. simpl. unfold mark.
    intros [= <-]. unfold is_bad; simpl. rewrite !block_of_offset, Z.eqb_refl.
    destruct Hk as [-> | ->]; simpl; by rewrite ?orb_true_r.
  - intros d b k dat oob rc d' Hb Hk Hw. simpl in Hw. pose proof (write_marks _ _ _ _ _ _ Hw) as Hm.
    split_and!; [|by rewrite (is_bad_marks d d')|].
    + intros b' Hb' Hne. split; [|by apply is_bad_marks]. intros k' Hk'.
      eapply write_other; [exact Hw|]. change (chip_ppb geo) with 2 in *. lia.
    + intros k' Hk' Hne. eapply write_other; [exact Hw|]. lia.
  - intros d b k dat n rc d' Hb Hk Hw. simpl in Hw. apply write_marks in Hw.
    by rewrite (is_bad_marks d d').
  - intros d b k dat oob d' Hb Hk Hdat Hoob _ Hw. simpl in Hw. apply write_back in Hw. simpl.
    rewrite Hw, !pad_take by (done || vm_compute; discriminate). done.
  - intros d b rc d' Hb. apply erase_block_only.
  - intros d b d' Hb. apply erase_block_blank.
Qed.

#[export] Instance sim_marks_ok : NandMarks sim geo.
Proof. split. intros d off k rc d' _ _. simpl. unfold mark. by intros [= <- _]. Qed.
End SimNand.

(** ** A device with a block that cannot be programmed

    The simulated device with the blocks whose mark cannot be written: writing
    the mark fails and leaves the chip as it was.  The laws hold; marks fail. *)

Module StuckNand.
Import SimNand.

Record stuck := Stuck { chip_of : sim; no_mark : list Z }.

Definition lift (d : stuck) (r : Z * sim) : Z * stuck := (r.1, Stuck r.2 (no_mark d)).

#[export] Instance stuck_dev : NandDev stuck := {|
  nd_read_page d := nd_read_page (chip_of d);
  nd_block_bad d := nd_block_bad (chip_of d);
  nd_erase d off := lift d (nd_erase (chip_of d) off);
  nd_mark_bad d off k :=
    if memZ (off / block_size geo) (no_mark d) then (-1, d)
    else lift d (nd_mark_bad (chip_of d) off k);
  nd_write_page d p dat oob := lift d (nd_write_page (chip_of d) p dat oob);
  spi_nand_erase_block d b := lift d (spi_nand_erase_block (chip_of d) b)
|}.

Lemma stuck_lift_inv d r rc d' : lift d r = (rc, d') -> r = (rc, chip_of d').
Proof. destruct r. by intros [= <- <-]. Qed.

#[export] Instance stuck_laws : NandLaws stuck geo.
Proof.
  split.
  - intros d p. apply (nl_read_len (chip_of d) p).
  - intros d b rc d' Hb He%stuck_lift_inv. exact (nl_erase_only _ _ _ _ Hb He).
  - intros d b d' Hb He%stuck_lift_inv. exact (nl_erase_blank _ _ _ Hb He).
  - intros d b rc d' Hb He%stuck_lift_inv. exact (nl_erase_clean _ _ _ _ Hb He).
  - intros d off k rc d' Hb. simpl. destruct (memZ _ _).
    { intros [= _ <-]. by intros b' _ _. }
    intros He%stuck_lift_inv. exact (nl_mark_only _ _ _ _ _ Hb He).
  - intros d off k d' Hb Hk. simpl. destruct (memZ _ _); [done|].
    intros He%stuck_lift_inv. exact (nl_mark_bad _ _ _ _ Hb Hk He).
  - intros d b k dat oob rc d' Hb Hk Hw%stuck_lift_inv. exact (nl_write_only _ _ _ _ _ _ _ Hb Hk Hw).
  - intros d b k dat n rc d' Hb Hk Hw%stuck_lift_inv. exact (nl_write_clean _ _ _ _ _ _ _ Hb Hk Hw).
  - intros d b k dat oob d' Hb Hk Hd Ho Hbl Hw%stuck_lift_inv.
    exact (nl_write_read (chip_of d) _ _ _ _ _ Hb Hk Hd Ho Hbl Hw).
  - intros d b rc d' Hb He%stuck_lift_inv. exact (nl_spi_erase_only _ _ _ _ Hb He).
  - intros d b d' Hb He%stuck_lift_inv. exact (nl_spi_erase_blank _ _ _ Hb He).
Qed.
End StuckNand.
