(* ===== verification/BmtData.v ===== *)
(** Data of the bad-block management ([drivers/misc/ecnt/flash/bmt.c],
    [bmt.h]): the in-memory tables, their images in flash with signature and
    checksum, and the globals of the component.

    A [bmt_entry] maps a bad block to its replacement; a [phys_bmt_struct] is
    what the boot loader writes to the BMT block and [init_table_struct] what it
    writes to the BBT block.  Structs are records; the conversions
    [phys_bmt_bytes]/[phys_bmt_of_bytes] and
    [init_table_bytes]/[init_table_of_bytes] give their byte layout (little
    endian, the alignments of the ARM ABI leave no padding) and stand for the
    casts and [memcpy]s between a struct and [dat_buf]. *)

From stdpp Require Import base numbers list option gmap.
From Stdlib Require Import ZArith Lia.
From S2P Require Import Prelude NandIf.

Definition MAX_RAW_BAD_BLOCK_SIZE : Z := 250.
Definition MAX_BMT_SIZE : Z := 0x80.
Definition BBT_VERSION : Z := 1.
Definition BMT_VERSION : Z := 1.
Definition MAX_DAT_SIZE : Z := 0x1000.
Definition MAX_OOB_SIZE : Z := 0x100.
Definition MAX_RAW_BBT_SIZE : Z := 4096.
Definition OOB_INDEX_OFFSET : Z := 2.

Definition BBT_SIGNATURE : list Z := [0x52; 0x41; 0x57; 0x42].  (* "RAWB" *)
Definition MAIN_SIGNATURE : list Z := [0x42; 0x4d; 0x54].       (* "BMT" *)

(** ** Tables in memory *)

Record bmt_entry := Entry { bad_index : Z; mapped_index : Z }.

#[export] Instance bmt_entry_eq_dec : EqDecision bmt_entry.
Proof. solve_decision. Defined.

Inductive update_reason_t :=
| UPDATE_ERASE_FAIL
| UPDATE_WRITE_FAIL
| UPDATE_UNMAPPED_BLOCK
| UPDATE_READ_CHECK_FAIL
| UPDATE_REASON_COUNT.

#[export] Instance update_reason_eq_dec : EqDecision update_reason_t.
Proof. solve_decision. Defined.

Record bmt_struct := Bmt {
  table : list bmt_entry;
  version : Z;
  mapped_count : Z;
  bad_count : Z
}.

Record init_bbt_struct := Bbt {
  badblock_table : list Z;
  bbt_version : Z;
  badblock_count : Z
}.

(** ** Tables in flash *)

Record phys_bmt_header := PhysHdr {
  signature : list Z;        (* char[3] *)
  h_version : Z;
  h_bad_count : Z;
  h_mapped_count : Z;
  checksum : Z;
  reseverd : list Z          (* u8[13] *)
}.

Record phys_bmt_struct := Phys {
  header : phys_bmt_header;
  phys_table : list bmt_entry
}.

Record init_table_header := InitHdr {
  t_signature : list Z;      (* char[4] *)
  t_checksum : Z;            (* u32 *)
  t_version : Z;
  t_badblock_count : Z;
  t_reserved : list Z        (* u8[2] *)
}.

Record init_table_struct := InitTable {
  t_header : init_table_header;
  t_table : list Z           (* u16[250] *)
}.

(** ** Byte layout *)

Definition entry_bytes (e : bmt_entry) : list Z :=
  le_bytes 2 (bad_index e) ++ le_bytes 2 (mapped_index e).

Definition table_bytes (t : list bmt_entry) : list Z := t ≫= entry_bytes.

Definition phys_hdr_bytes (h : phys_bmt_header) : list Z :=
  signature h ++ [h_version h; h_bad_count h; h_mapped_count h; checksum h] ++ reseverd h.

Definition phys_bmt_bytes (p : phys_bmt_struct) : list Z :=
  phys_hdr_bytes (header p) ++ table_bytes (phys_table p).

Definition sizeof_bmt_entry : Z := 4.
Definition sizeof_phys_bmt_header : Z := 20.
Definition sizeof_phys_bmt_struct : Z := 532.

(** The bytes of an object, zero past the end of the list. *)
Definition byte_at (l : list Z) (i : nat) : Z := nth i l 0.

Fixpoint entries_of_bytes (n : nat) (l : list Z) : list bmt_entry :=
  match n with
  | O => []
  | S n' => Entry (le_val (take 2 l)) (le_val (take 2 (drop 2 l)))
            :: entries_of_bytes n' (drop 4 l)
  end.

Fixpoint u16s_of_bytes (n : nat) (l : list Z) : list Z :=
  match n with
  | O => []
  | S n' => le_val (take 2 l) :: u16s_of_bytes n' (drop 2 l)
  end.

Definition phys_bmt_of_bytes (l : list Z) : phys_bmt_struct :=
  Phys (PhysHdr (take 3 l) (byte_at l 3) (byte_at l 4) (byte_at l 5) (byte_at l 6)
                (take 13 (drop 7 l)))
       (entries_of_bytes (Z.to_nat MAX_BMT_SIZE) (drop 20 l)).

Definition u16s_bytes (t : list Z) : list Z := t ≫= le_bytes 2.

Definition init_table_bytes (t : init_table_struct) : list Z :=
  (t_signature (t_header t) ++ le_bytes 4 (t_checksum (t_header t))
   ++ [t_version (t_header t); t_badblock_count (t_header t)] ++ t_reserved (t_header t))
  ++ u16s_bytes (t_table t).

Definition sizeof_init_table_struct : Z := 512.

Definition init_table_of_bytes (l : list Z) : init_table_struct :=
  InitTable (InitHdr (take 4 l) (le_val (take 4 (drop 4 l))) (byte_at l 8) (byte_at l 9)
                     (take 2 (drop 10 l)))
            (u16s_of_bytes (Z.to_nat MAX_RAW_BAD_BLOCK_SIZE) (drop 12 l)).

(** ** Globals *)

(** What [init_bmt] computes from the chip once. *)
Record layout := Layout {
  nand_chip_bmt : chip;
  total_block_count : Z;
  system_block_count : Z;
  bmt_block_count : Z;
  page_per_block : Z
}.

Record st (D : Type) := St {
  dev : D;                       (* the flash behind the driver *)
  lay : layout;
  bmt : bmt_struct;
  bmt_block_index : Z;
  init_bbt : init_bbt_struct;
  bbt_block_index : Z;
  pBbt : list Z;
  dat_buf : list Z;
  oob_buf : list Z;
  pool_erased : bool;
  isUpdateBmt : bool;
  need_write_bmt_to_nand : bool;
  need_write_bbt_to_nand : bool;
  nand_logic_size : Z
}.
Arguments St {D}.
Arguments dev {D}.
Arguments lay {D}.
Arguments bmt {D}.
Arguments bmt_block_index {D}.
Arguments init_bbt {D}.
Arguments bbt_block_index {D}.
Arguments pBbt {D}.
Arguments dat_buf {D}.
Arguments oob_buf {D}.
Arguments pool_erased {D}.
Arguments isUpdateBmt {D}.
Arguments need_write_bmt_to_nand {D}.
Arguments need_write_bbt_to_nand {D}.
Arguments nand_logic_size {D}.

Section setters.
Context {D : Type}.
Implicit Type s : st D.

Definition set_dev v s : st D :=
  St v (lay s) (bmt s) (bmt_block_index s) (init_bbt s) (bbt_block_index s) (pBbt s) (dat_buf s) (oob_buf s) (pool_erased s) (isUpdateBmt s) (need_write_bmt_to_nand s) (need_write_bbt_to_nand s) (nand_logic_size s).
Definition set_lay v s : st D :=
  St (dev s) v (bmt s) (bmt_block_index s) (init_bbt s) (bbt_block_index s) (pBbt s) (dat_buf s) (oob_buf s) (pool_erased s) (isUpdateBmt s) (need_write_bmt_to_nand s) (need_write_bbt_to_nand s) (nand_logic_size s).
Definition set_bmt v s : st D :=
  St (dev s) (lay s) v (bmt_block_index s) (init_bbt s) (bbt_block_index s) (pBbt s) (dat_buf s) (oob_buf s) (pool_erased s) (isUpdateBmt s) (need_write_bmt_to_nand s) (need_write_bbt_to_nand s) (nand_logic_size s).
Definition set_bmt_index v s : st D :=
  St (dev s) (lay s) (bmt s) v (init_bbt s) (bbt_block_index s) (pBbt s) (dat_buf s) (oob_buf s) (pool_erased s) (isUpdateBmt s) (need_write_bmt_to_nand s) (need_write_bbt_to_nand s) (nand_logic_size s).
Definition set_init_bbt v s : st D :=
  St (dev s) (lay s) (bmt s) (bmt_block_index s) v (bbt_block_index s) (pBbt s) (dat_buf s) (oob_buf s) (pool_erased s) (isUpdateBmt s) (need_write_bmt_to_nand s) (need_write_bbt_to_nand s) (nand_logic_size s).
Definition set_bbt_index v s : st D :=
  St (dev s) (lay s) (bmt s) (bmt_block_index s) (init_bbt s) v (pBbt s) (dat_buf s) (oob_buf s) (pool_erased s) (isUpdateBmt s) (need_write_bmt_to_nand s) (need_write_bbt_to_nand s) (nand_logic_size s).
Definition set_pBbt v s : st D :=
  St (dev s) (lay s) (bmt s) (bmt_block_index s) (init_bbt s) (bbt_block_index s) v (dat_buf s) (oob_buf s) (pool_erased s) (isUpdateBmt s) (need_write_bmt_to_nand s) (need_write_bbt_to_nand s) (nand_logic_size s).
Definition set_pool_erased v s : st D :=
  St (dev s) (lay s) (bmt s) (bmt_block_index s) (init_bbt s) (bbt_block_index s) (pBbt s) (dat_buf s) (oob_buf s) v (isUpdateBmt s) (need_write_bmt_to_nand s) (need_write_bbt_to_nand s) (nand_logic_size s).
Definition set_updating v s : st D :=
  St (dev s) (lay s) (bmt s) (bmt_block_index s) (init_bbt s) (bbt_block_index s) (pBbt s) (dat_buf s) (oob_buf s) (pool_erased s) v (need_write_bmt_to_nand s) (need_write_bbt_to_nand s) (nand_logic_size s).
Definition set_need_bmt v s : st D :=
  St (dev s) (lay s) (bmt s) (bmt_block_index s) (init_bbt s) (bbt_block_index s) (pBbt s) (dat_buf s) (oob_buf s) (pool_erased s) (isUpdateBmt s) v (need_write_bbt_to_nand s) (nand_logic_size s).
Definition set_need_bbt v s : st D :=
  St (dev s) (lay s) (bmt s) (bmt_block_index s) (init_bbt s) (bbt_block_index s) (pBbt s) (dat_buf s) (oob_buf s) (pool_erased s) (isUpdateBmt s) (need_write_bmt_to_nand s) v (nand_logic_size s).
Definition set_logic_size v s : st D :=
  St (dev s) (lay s) (bmt s) (bmt_block_index s) (init_bbt s) (bbt_block_index s) (pBbt s) (dat_buf s) (oob_buf s) (pool_erased s) (isUpdateBmt s) (need_write_bmt_to_nand s) (need_write_bbt_to_nand s) v.
Definition set_bufs d o s : st D :=
  St (dev s) (lay s) (bmt s) (bmt_block_index s) (init_bbt s) (bbt_block_index s) (pBbt s) d o (pool_erased s) (isUpdateBmt s) (need_write_bmt_to_nand s) (need_write_bbt_to_nand s) (nand_logic_size s).
End setters.
