(* ===== verification/Bmt.v ===== *)
(** Operations of the bad-block management ([drivers/misc/ecnt/flash/bmt.c]).

    Every function of the file that touches the globals is a computation in
    [M (st D)], over the driver interface [NandDev D]: the signature and
    checksum tests and the two buffer fillers, the BMT and BBT scans at start
    up, [find_available_block], the migration of a failing block, the writers
    of the two tables, [update_bmt], [recover_bmt] and the address
    translation.  An array access outside its object is [Undef].  The
    functions that call themselves ([migrate_from_bad], [write_bmt_to_flash],
    [write_bbt_to_flash]) and the 16-bit counted scan take fuel. *)

From stdpp Require Import base numbers list option gmap.
From Stdlib Require Import ZArith Lia.
From S2P Require Import Prelude NandIf BmtData.

(** ** Buffers and checksums *)

Definition match_bmt_signature (dat : list Z) : bool :=
  bool_decide (take 3 dat = MAIN_SIGNATURE).

Definition match_bbt_signature (dat : list Z) : bool :=
  bool_decide (take 4 dat = BBT_SIGNATURE).

Definition cal_bmt_checksum (phys : phys_bmt_struct) (bmt_size : Z) : Z :=
  let checksum := u8 (0 + h_version (header phys)) in
  let checksum := u8 (checksum + h_mapped_count (header phys)) in
  fold_left (fun checksum b => u8 (checksum + b))
    (take (Z.to_nat (bmt_size * sizeof_bmt_entry)) (table_bytes (phys_table phys))) checksum.

Definition cal_bbt_checksum (bbt : init_table_struct) : Z :=
  let checksum := u16 (0 + t_version (t_header bbt)) in
  let checksum := u16 (checksum + t_badblock_count (t_header bbt)) in
  fold_left (fun checksum b => u16 (checksum + b)) (u16s_bytes (t_table bbt)) checksum.

(** [fill_nand_bmt_buffer]: the new contents of [dat]. *)
Definition blank_entry : bmt_entry := Entry 0xFFFF 0xFFFF.

Definition fill_nand_bmt_buffer (bmt_block_count : Z) (b : bmt_struct) (dat : list Z) : list Z :=
  let n := Z.to_nat bmt_block_count in
  let tab := take n (table b) ++ drop n (replicate (Z.to_nat MAX_BMT_SIZE) blank_entry) in
  let hdr c := PhysHdr MAIN_SIGNATURE BMT_VERSION 0xFF (mapped_count b) c (memset 0xFF 13) in
  let checksum := cal_bmt_checksum (Phys (hdr 0xFF) tab) bmt_block_count in
  splice dat 0 (phys_bmt_bytes (Phys (hdr checksum) tab)).

Definition fill_nand_bbt_buffer (b : init_bbt_struct) (dat : list Z) : list Z :=
  let hdr c := InitHdr BBT_SIGNATURE c BBT_VERSION (badblock_count b) (memset 0xFF 2) in
  let checksum := cal_bbt_checksum (InitTable (hdr 0xFFFFFFFF) (badblock_table b)) in
  splice dat 0 (init_table_bytes (InitTable (hdr checksum) (badblock_table b))).

Definition get_bad_index_from_oob (oob : list Z) : Z :=
  le_val (take 2 (drop (Z.to_nat OOB_INDEX_OFFSET) oob)).

Definition set_bad_index_to_oob (oob : list Z) (index : Z) : list Z :=
  splice oob OOB_INDEX_OFFSET (le_bytes 2 (u16 index)).

Section bmt_ops.
Context {D : Type} `{NandDev D}.

(** ** Geometry macros *)

Definition BLOCK_SIZE_BMT (l : layout) : Z := block_size (nand_chip_bmt l).
Definition PAGE_SIZE_BMT (l : layout) : Z := page_size (nand_chip_bmt l).
Definition OFFSET (l : layout) (block : Z) : Z := u32 (block * BLOCK_SIZE_BMT l).
Definition PAGE_ADDR (l : layout) (block : Z) : Z :=
  u32 (block * BLOCK_SIZE_BMT l) / PAGE_SIZE_BMT l.

(** ** Adaptors to the driver *)

Definition nand_read_page_bmt (page : Z) : M (st D) Z := fun s =>
  let '(rc, (dat, oob)) := nd_read_page (dev s) page in
  if rc =? 0
  then Done (rc, set_bufs (splice (dat_buf s) 0 dat) (splice (oob_buf s) 0 oob) s)
  else Done (rc, s).

Definition nand_block_bad_bmt (offset kind : Z) : M (st D) bool :=
  gets (fun s => negb (nd_block_bad (dev s) offset kind =? 0)).

Definition nand_erase_bmt (offset : Z) : M (st D) Z :=
  act (fun s => let '(rc, d) := nd_erase (dev s) offset in (rc, set_dev d s)).

Definition mark_block_bad_bmt (offset kind : Z) : M (st D) Z :=
  act (fun s => let '(rc, d) := nd_mark_bad (dev s) offset kind in (rc, set_dev d s)).

Definition nand_write_page_bmt (page : Z) (dat oob : list Z) : M (st D) Z :=
  act (fun s => let '(rc, d) := nd_write_page (dev s) page dat oob in (rc, set_dev d s)).

Definition spi_erase (block : Z) : M (st D) Z :=
  act (fun s => let '(rc, d) := spi_nand_erase_block (dev s) block in (rc, set_dev d s)).

(** [nand_block_bad_bmt(o, RAW) || nand_block_bad_bmt(o, GENERATE_LATER)] *)
Definition block_bad_either (block : Z) : M (st D) bool :=
  let! l := gets lay in
  let! raw := nand_block_bad_bmt (OFFSET l block) BAD_BLOCK_RAW in
  if raw then ret true
  else nand_block_bad_bmt (OFFSET l block) BMT_BADBLOCK_GENERATE_LATER.

(** ** Table queries *)

Definition table_get (b : bmt_struct) (i : Z) : M (st D) bmt_entry :=
  checked (znth (table b) i).

Definition is_block_mapped (index : Z) : M (st D) Z :=
  let! b := gets bmt in
  let! r := for_loop (Z.to_nat (mapped_count b)) 0 1 (fun i =>
    let! e := table_get b i in
    ret (if index =? mapped_index e then Some i else None)) in
  ret (default (-1) r).

Definition is_badblock_raw (index : Z) : M (st D) Z :=
  let! b := gets bmt in
  let! r := for_loop (Z.to_nat (mapped_count b)) 0 1 (fun i =>
    let! e := table_get b i in
    ret (if index =? bad_index e then Some 0 else None)) in
  ret (default 1 r).

Definition valid_bmt_data (phys : phys_bmt_struct) : M (st D) bool :=
  let! l := gets lay in
  if negb (checksum (header phys) =? cal_bmt_checksum phys (bmt_block_count l))
  then ret false
  else
    let! r := for_loop (Z.to_nat (h_mapped_count (header phys))) 0 1 (fun i =>
      let! e := checked (znth (phys_table phys) i) in
      ret (if (total_block_count l <=? bad_index e)
              || (total_block_count l <=? mapped_index e)
              || (mapped_index e <? system_block_count l)
           then Some false else None)) in
    ret (default true r).

Definition valid_bbt_data (t : init_table_struct) : M (st D) bool :=
  let! l := gets lay in
  if negb (t_checksum (t_header t) =? cal_bbt_checksum t) then ret false
  else
    let! r := for_loop (Z.to_nat (t_badblock_count (t_header t))) 0 1 (fun i =>
      let! b := checked (znth (t_table t) i) in
      ret (if system_block_count l <=? b then Some false else None)) in
    ret (default true r).

(** ** Loading the tables *)

(** [memcpy(dst, src, n * sizeof(elt))] between two arrays of elements. *)
Definition copy_prefix {A} (n : Z) (src dst : list A) : option (list A) :=
  if (Z.of_nat (length src) <? n) || (Z.of_nat (length dst) <? n) then None
  else Some (take (Z.to_nat n) src ++ drop (Z.to_nat n) dst).

(** The loop at the end of [load_bmt_data]: entries whose block is not
    marked are marked again. *)
Definition remark_bad_blocks : M (st D) unit :=
  let! b := gets bmt in
  let! l := gets lay in
  for_each (Z.to_nat (mapped_count b)) 0 1 (fun i =>
    let! e := table_get b i in
    let! bad := nand_block_bad_bmt (OFFSET l (bad_index e)) BAD_BLOCK_RAW in
    if negb bad then
      do! mark_block_bad_bmt (OFFSET l (bad_index e)) BAD_BLOCK_RAW in ret tt
    else ret tt).

Definition load_bmt_data (start pool_size : Z) : M (st D) Z :=
  let! l := gets lay in
  let! r := for_loop (Z.to_nat pool_size) (start + pool_size - 1) (-1) (fun idx =>
    let! bad := block_bad_either idx in
    if bad then ret None else
    let! rc := nand_read_page_bmt (PAGE_ADDR l idx) in
    if negb (rc =? 0) then ret None else
    let! dat := gets dat_buf in
    if negb (match_bmt_signature dat) then ret None else
    let phys := phys_bmt_of_bytes dat in
    let! ok := valid_bmt_data phys in
    if negb ok then ret None else
    let! b := gets bmt in
    let n := h_mapped_count (header phys) in
    let! t := checked (copy_prefix n (phys_table phys) (table b)) in
    do! modify (set_bmt (Bmt t (h_version (header phys)) n (bad_count b))) in
    do! remark_bad_blocks in
    ret (Some idx)) in
  ret (default 0 r).

Definition load_bbt_data (start pool_size : Z) : M (st D) Z :=
  let! l := gets lay in
  let! r := for_loop (Z.to_nat pool_size) start 1 (fun idx =>
    let! bad := block_bad_either idx in
    if bad then ret None else
    let! rc := nand_read_page_bmt (PAGE_ADDR l idx) in
    if negb (rc =? 0) then ret None else
    let! dat := gets dat_buf in
    if negb (match_bbt_signature dat) then ret None else
    let t := init_table_of_bytes dat in
    let! ok := valid_bbt_data t in
    if negb ok then ret None else
    let! b := gets init_bbt in
    let n := t_badblock_count (t_header t) in
    let! tab := checked (copy_prefix n (t_table t) (badblock_table b)) in
    do! modify (set_init_bbt (Bbt tab (t_version (t_header t)) n)) in
    ret (Some idx)) in
  ret (default 0 r).

(** ** Allocation in the replacement pool *)

(** The body of the first loop of [find_available_block]. *)
Definition erase_if_unused (blk : Z) : M (st D) unit :=
  let! l := gets lay in
  let! bi := gets bmt_block_index in
  if blk =? bi then ret tt else
  let! bbi := gets bbt_block_index in
  if blk =? bbi then ret tt else
  let! bad := block_bad_either blk in
  if bad then ret tt else
  let! m := is_block_mapped blk in
  if 0 <=? m then ret tt else
  let! rc := nand_erase_bmt (OFFSET l blk) in
  if negb (rc =? 0) then
    do! mark_block_bad_bmt (OFFSET l blk) BMT_BADBLOCK_GENERATE_LATER in ret tt
  else ret tt.

Definition erase_pool : M (st D) unit :=
  let! l := gets lay in
  for_each (Z.to_nat (bmt_block_count l)) 0 1 (fun i =>
    erase_if_unused (system_block_count l + i)).

(** The tests of the second loop: may [blk] be handed out? *)
Definition usable (blk : Z) : M (st D) bool :=
  let! bi := gets bmt_block_index in
  if blk =? bi then ret false else
  let! bbi := gets bbt_block_index in
  if blk =? bbi then ret false else
  let! bad := block_bad_either blk in
  if bad then ret false else
  let! m := is_block_mapped blk in
  ret (negb (0 <=? m)).

Definition find_available_block (start_from_end : bool) : M (st D) Z :=
  let! l := gets lay in
  let! erased := gets pool_erased in
  do! (if negb erased then
         do! erase_pool in modify (set_pool_erased true)
       else ret tt) in
  let block := if start_from_end then total_block_count l - 1 else system_block_count l in
  let direction := if start_from_end then -1 else 1 in
  let! r := for_loop (Z.to_nat (bmt_block_count l)) block direction (fun blk =>
    let! u := usable blk in
    ret (if u then Some blk else None)) in
  ret (default 0 r).

(** ** Migration of a failing block *)

(** One round of the copy loop of [migrate_from_bad]; answers whether the
    program operation failed. *)
Definition migrate_page (error_block to_index page : Z) : M (st D) bool :=
  let! l := gets lay in
  do! nand_read_page_bmt (PAGE_ADDR l error_block + page) in
  do! (if u32 error_block <? system_block_count l
       then modify (fun s => set_bufs (dat_buf s)
                               (set_bad_index_to_oob (oob_buf s) error_block) s)
       else ret tt) in
  let! dat := gets dat_buf in
  let! oob := gets oob_buf in
  let! rc := nand_write_page_bmt (PAGE_ADDR l to_index + page) dat oob in
  ret (negb (rc =? 0)).

(** The write of the failing page itself, from the caller's data. *)
Definition migrate_error_page (error_block error_page to_index : Z)
    (write_dat write_oob : list Z) : M (st D) bool :=
  let! l := gets lay in
  do! modify (fun s =>
    set_bufs (dat_buf s)
      (splice (memset 0xFF MAX_OOB_SIZE) 0
         (take (Z.to_nat (oob_size (nand_chip_bmt l))) write_oob)) s) in
  do! (if u32 error_block <? system_block_count l
       then modify (fun s => set_bufs (dat_buf s)
                               (set_bad_index_to_oob (oob_buf s) error_block) s)
       else ret tt) in
  let! oob := gets oob_buf in
  let! rc := nand_write_page_bmt (PAGE_ADDR l to_index + error_page) write_dat oob in
  ret (negb (rc =? 0)).

Fixpoint migrate_from_bad (fuel : nat) (offset : Z) (reason : update_reason_t)
    (write_dat write_oob : list Z) : M (st D) Z :=
  match fuel with
  | O => out_of_fuel
  | S fuel' =>
      let! l := gets lay in
      let error_block := Z.quot (s32 offset) (BLOCK_SIZE_BMT l) in
      let error_page := Z.rem (Z.quot (s32 offset) (PAGE_SIZE_BMT l)) (page_per_block l) in
      let migrate_amount :=
        if bool_decide (reason = UPDATE_WRITE_FAIL) then error_page else page_per_block l in
      let! to_index := find_available_block false in
      if to_index =? 0 then ret 0 else
      let! failed := for_loop (Z.to_nat migrate_amount) 0 1 (fun page =>
        if page =? error_page then ret None
        else let! f := migrate_page error_block to_index page in
             ret (if f then Some tt else None)) in
      let! failed :=
        match failed with
        | Some _ => ret true
        | None => migrate_error_page error_block error_page to_index write_dat write_oob
        end in
      if failed : bool then
        do! mark_block_bad_bmt (OFFSET l to_index) BMT_BADBLOCK_GENERATE_LATER in
        migrate_from_bad fuel' offset reason write_dat write_oob
      else ret to_index
  end.

(** ** Writing the tables *)

Fixpoint write_bmt_to_flash (fuel : nat) (dat oob : list Z) : M (st D) bool :=
  match fuel with
  | O => out_of_fuel
  | S fuel' =>
      let! l := gets lay in
      let! bi := gets bmt_block_index in
      let need_erase := negb (bi =? 0) in
      let! bi := (if bi =? 0 then
                    let! b := find_available_block true in
                    do! modify (set_bmt_index b) in ret b
                  else ret bi) in
      if bi =? 0 then ret false else
      let! erc := (if need_erase then nand_erase_bmt (OFFSET l bi) else ret 0) in
      if negb (erc =? 0) then
        do! mark_block_bad_bmt (OFFSET l bi) BMT_BADBLOCK_GENERATE_LATER in
        do! modify (set_bmt_index 0) in
        write_bmt_to_flash fuel' dat oob
      else
      let! rc := nand_write_page_bmt (PAGE_ADDR l bi) dat oob in
      if negb (rc =? 0) then
        do! mark_block_bad_bmt (OFFSET l bi) BMT_BADBLOCK_GENERATE_LATER in
        do! modify (set_bmt_index 0) in
        write_bmt_to_flash fuel' dat oob
      else ret true
  end.

Fixpoint write_bbt_to_flash (fuel : nat) (dat oob : list Z) : M (st D) bool :=
  match fuel with
  | O => out_of_fuel
  | S fuel' =>
      let! l := gets lay in
      let! bbi := find_available_block false in
      do! modify (set_bbt_index bbi) in
      if bbi =? 0 then ret false else
      let! rc := nand_write_page_bmt (PAGE_ADDR l bbi) dat oob in
      if negb (rc =? 0) then
        do! mark_block_bad_bmt (OFFSET l bbi) BMT_BADBLOCK_GENERATE_LATER in
        do! modify (set_bbt_index 0) in
        write_bbt_to_flash fuel' dat oob
      else ret true
  end.

(** ** Reconstruction by scanning the flash *)

Fixpoint scan_loop (fuel : nat) (block count : Z) : M (st D) Z :=
  let! l := gets lay in
  if negb (block <? system_block_count l) then
    do! modify (fun s => set_init_bbt
          (Bbt (badblock_table (init_bbt s)) (bbt_version (init_bbt s)) (u8 count)) s) in
    ret 0
  else
  match fuel with
  | O => out_of_fuel
  | S fuel' =>
      let! bad := nand_block_bad_bmt (OFFSET l block) BAD_BLOCK_RAW in
      if bad then
        let! r := is_badblock_raw block in
        if negb (r =? 0) then
          if MAX_RAW_BAD_BLOCK_SIZE <=? count then ret (-1) else
          let! b := gets init_bbt in
          let! t := checked (zset (badblock_table b) count block) in
          do! modify (set_init_bbt (Bbt t (bbt_version b) (badblock_count b))) in
          scan_loop fuel' (u16 (block + 1)) (count + 1)
        else scan_loop fuel' (u16 (block + 1)) count
      else scan_loop fuel' (u16 (block + 1)) count
  end.

Definition scan_badblock_raw (fuel : nat) : M (st D) Z := scan_loop fuel 1 0.

(** The body of the scan of the replacement pool. *)
Definition reconstruct_entry (index : Z) : M (st D) unit :=
  let! l := gets lay in
  let! bad := block_bad_either index in
  if bad then ret tt else
  do! nand_read_page_bmt (PAGE_ADDR l index) in
  let! oob := gets oob_buf in
  let bad_idx := get_bad_index_from_oob oob in
  if system_block_count l <=? bad_idx then ret tt else
  let! raw := nand_block_bad_bmt (OFFSET l bad_idx) BAD_BLOCK_RAW in
  do! (if negb raw then
         do! mark_block_bad_bmt (OFFSET l bad_idx) BAD_BLOCK_RAW in ret tt
       else ret tt) in
  let! b := gets bmt in
  let! t := checked (zset (table b) (mapped_count b) (Entry bad_idx (u16 index))) in
  modify (set_bmt (Bmt t (version b) (u8 (mapped_count b + 1)) (bad_count b))).

Definition clear_table (n : Z) : M (st D) unit :=
  let! b := gets bmt in
  let! t := checked (copy_prefix n (replicate (Z.to_nat n) (Entry 0 0)) (table b)) in
  modify (set_bmt (Bmt t (version b) (mapped_count b) (bad_count b))).

Definition reconstruct_bmt : M (st D) unit :=
  let! l := gets lay in
  do! modify (fun s => set_bmt (Bmt (table (bmt s)) BMT_VERSION 0 0) s) in
  do! clear_table (bmt_block_count l) in
  for_each (Z.to_nat (bmt_block_count l)) (system_block_count l) 1 reconstruct_entry.

Definition reconstruct_bbt (fuel : nat) : M (st D) bool :=
  do! modify (set_init_bbt (Bbt (memset 0 MAX_RAW_BAD_BLOCK_SIZE) BBT_VERSION 0)) in
  let! r := scan_badblock_raw fuel in
  ret (r =? 0).

(** ** Entry points at start up *)

Definition init_bmt (ra : chip) (size : Z) : M (st D) bool :=
  if negb ((0 <? size) && (size <=? MAX_BMT_SIZE)) then ret false else
  let total := chip_blocks ra in
  let sys := u32 (total - size) in
  do! modify (set_lay (Layout ra total sys size (chip_ppb ra))) in
  do! modify (set_pool_erased false) in
  do! clear_table size in
  let! bi := load_bmt_data sys size in
  do! modify (set_bmt_index bi) in
  if negb (bi =? 0) then ret true
  else
    do! reconstruct_bmt in
    do! modify (set_need_bmt true) in
    ret true.

Definition start_init_bbt (fuel : nat) : M (st D) bool :=
  let! l := gets lay in
  let! bbi := load_bbt_data (system_block_count l) (bmt_block_count l) in
  do! modify (set_bbt_index bbi) in
  if negb (bbi =? 0) then ret true
  else
    let! ok := reconstruct_bbt fuel in
    if ok : bool then do! modify (set_need_bbt true) in ret true
    else ret false.

(** [memset(dat_buf, 0xFF, ..); memset(oob_buf, 0xFF, ..);
    fill_nand_bmt_buffer(&bmt, dat_buf, oob_buf);] *)
Definition prepare_bmt_buffers : M (st D) unit :=
  modify (fun s => set_bufs
    (fill_nand_bmt_buffer (bmt_block_count (lay s)) (bmt s) (memset 0xFF MAX_DAT_SIZE))
    (memset 0xFF MAX_OOB_SIZE) s).

Definition prepare_bbt_buffers : M (st D) unit :=
  modify (fun s => set_bufs
    (fill_nand_bbt_buffer (init_bbt s) (memset 0xFF MAX_DAT_SIZE))
    (memset 0xFF MAX_OOB_SIZE) s).

(** [write_bmt_to_flash(dat_buf, oob_buf)]: the buffers are not written
    while the table is. *)
Definition save_bmt (fuel : nat) : M (st D) bool :=
  do! prepare_bmt_buffers in
  let! dat := gets dat_buf in
  let! oob := gets oob_buf in
  write_bmt_to_flash fuel dat oob.

Definition write_bbt_or_bmt_to_flash (fuel : nat) : M (st D) Z :=
  let! nb := gets need_write_bmt_to_nand in
  let! ok := (if nb : bool then save_bmt fuel else ret true) in
  if negb ok then ret (-1) else
  let! nb := gets need_write_bbt_to_nand in
  if nb : bool then
    do! prepare_bbt_buffers in
    let! dat := gets dat_buf in
    let! oob := gets oob_buf in
    let! ok := write_bbt_to_flash fuel dat oob in
    ret (if ok : bool then 0 else -1)
  else ret 0.

(** ** The table of good blocks *)

Definition pBbt_get (i : Z) : M (st D) Z :=
  let! t := gets pBbt in checked (znth t i).

Definition pBbt_put (i v : Z) : M (st D) unit :=
  let! t := gets pBbt in
  let! t := checked (zset t i (u16 v)) in
  modify (set_pBbt t).

(** One bad block of [create_badblock_table_by_bbt]: the search from [j],
    then the increments from [k]; [j] and [k] live across iterations. *)
Definition bbt_shift (size b j k : Z) : M (st D) (Z * Z) :=
  let! r := for_loop (Z.to_nat (size - j)) j 1 (fun j =>
    let! v := pBbt_get j in
    ret (if v =? b then Some j else None)) in
  let '(j, k) := match r with Some j' => (j', j') | None => (Z.max j size, k) end in
  do! for_each (Z.to_nat (size - k)) k 1 (fun k =>
    let! v := pBbt_get k in pBbt_put k (v + 1)) in
  ret (j, Z.max k size).

Fixpoint bbt_shifts (n : nat) (size i j k : Z) : M (st D) unit :=
  match n with
  | O => ret tt
  | S n' =>
      let! b := gets init_bbt in
      let! v := checked (znth (badblock_table b) i) in
      let! jk := bbt_shift size v j k in
      bbt_shifts n' size (i + 1) (fst jk) (snd jk)
  end.

Definition create_badblock_table_by_bbt : M (st D) Z :=
  let! l := gets lay in
  let badblock_table_size := system_block_count l in
  do! for_each (Z.to_nat badblock_table_size) 0 1 (fun i => pBbt_put i i) in
  let! b := gets init_bbt in
  do! bbt_shifts (Z.to_nat (badblock_count b)) badblock_table_size 0 0 0 in
  do! modify (set_logic_size
        (s32 (u32 (system_block_count l - badblock_count b) * BLOCK_SIZE_BMT l))) in
  ret 0.

(** ** Address translation *)

Definition get_mapping_block_index_by_bmt (index : Z) : M (st D) Z :=
  let! l := gets lay in
  if system_block_count l <=? u32 index then ret index else
  let! b := gets bmt in
  let! r := for_loop (Z.to_nat (mapped_count b)) 0 1 (fun i =>
    let! e := table_get b i in
    ret (if bad_index e =? index then Some (mapped_index e) else None)) in
  ret (default index r).

Definition get_mapping_block_index_by_bbt (index : Z) : M (st D) Z :=
  let! l := gets lay in
  let! b := gets init_bbt in
  if u32 (system_block_count l - badblock_count b) <=? u32 index then ret index
  else pBbt_get index.

(** Answers the block and what is stored through [phy_block_bbt]. *)
Definition get_mapping_block_index (index : Z) : M (st D) (Z * Z) :=
  let! block := get_mapping_block_index_by_bbt index in
  let phy_block_bbt := u16 block in
  let! block := get_mapping_block_index_by_bmt block in
  ret (block, phy_block_bbt).

Definition block_is_in_bmt_region (index : Z) : M (st D) Z :=
  let! l := gets lay in
  ret (if system_block_count l <=? u32 index then 1 else 0).

Definition is_beyond_total_block_count (offset : Z) : M (st D) bool :=
  let! l := gets lay in
  ret (total_block_count l <=? offset / BLOCK_SIZE_BMT l).

(** ** Updating and recovering *)

(** The rest of [update_bmt] once the replacement is known: the table, its
    copy in flash and the mark on the failing block. *)
Definition update_table (bad_idx map_index : Z) : M (st D) unit :=
  let! l := gets lay in
  let! b := gets bmt in
  if system_block_count l <=? u32 bad_idx then
    let! r := for_loop (Z.to_nat (bmt_block_count l)) 0 1 (fun i =>
      let! e := table_get b i in
      ret (if mapped_index e =? bad_idx then Some i else None)) in
    let i := default (bmt_block_count l) r in
    let! e := table_get b i in
    let! t := checked (zset (table b) i (Entry (bad_index e) (u16 map_index))) in
    modify (set_bmt (Bmt t (version b) (mapped_count b) (bad_count b)))
  else
    let! t := checked (zset (table b) (mapped_count b) (Entry (u16 bad_idx) (u16 map_index))) in
    modify (set_bmt (Bmt t (version b) (u8 (mapped_count b + 1)) (bad_count b))).

Definition update_bmt (fuel : nat) (offset : Z) (reason : update_reason_t)
    (dat oob : list Z) : M (st D) bool :=
  let! l := gets lay in
  let bad_idx := offset / BLOCK_SIZE_BMT l in
  let! mapped := (if u32 bad_idx <? system_block_count l
                  then get_mapping_block_index_by_bmt bad_idx else ret bad_idx) in
  if negb (mapped =? bad_idx) then ret true else
  let! busy := gets isUpdateBmt in
  if busy : bool then ret true else
  do! modify (set_updating true) in
  let! map_index :=
    (if bool_decide (reason = UPDATE_WRITE_FAIL) || bool_decide (reason = UPDATE_READ_CHECK_FAIL)
     then migrate_from_bad fuel offset reason dat oob
     else find_available_block false) in
  if map_index =? 0 then do! modify (set_updating false) in ret false else
  do! update_table bad_idx map_index in
  let! ok := save_bmt fuel in
  if negb ok then do! modify (set_updating false) in ret false else
  do! (if system_block_count l <=? u32 bad_idx
       then mark_block_bad_bmt offset BMT_BADBLOCK_GENERATE_LATER
       else mark_block_bad_bmt offset BAD_BLOCK_RAW) in
  do! modify (set_updating false) in
  ret true.

(** Answers 0, or the number of the step that failed. *)
Definition recover_data_from_bmt (recovered_offset mapped_offset : Z) : M (st D) Z :=
  let! l := gets lay in
  let mapped_block_index := mapped_offset / BLOCK_SIZE_BMT l in
  let recovered_block_index := recovered_offset / BLOCK_SIZE_BMT l in
  let! rc := spi_erase recovered_block_index in
  if negb (rc =? 0) then ret 3 else
  let! r := for_loop (Z.to_nat (page_per_block l)) 0 1 (fun page =>
    do! nand_read_page_bmt (PAGE_ADDR l mapped_block_index + page) in
    let! dat := gets dat_buf in
    let! oob := gets oob_buf in
    let! rc := nand_write_page_bmt (PAGE_ADDR l recovered_block_index + page) dat oob in
    ret (if negb (rc =? 0) then Some 1 else None)) in
  match r with
  | Some v => ret v
  | None =>
      let! rc := spi_erase mapped_block_index in
      ret (if rc =? 0 then 0 else 2)
  end.

(** The branch of [recover_bmt] for a block without an entry. *)
Definition recover_pool_block (bad_block_index : Z) : M (st D) bool :=
  let! l := gets lay in
  let! bad := block_bad_either bad_block_index in
  if bad && (system_block_count l <? u32 bad_block_index) then
    let! rc := spi_erase bad_block_index in
    ret (rc =? 0)
  else ret true.

(** [for(i = 0; ...) if(table_idx < i) table[i-1] = table[i]] and the clearing
    of [table[i]], where [i] is [mapped_count] after the loop. *)
Definition remove_entry (table_idx : Z) : M (st D) unit :=
  let! b := gets bmt in
  do! for_each (Z.to_nat (mapped_count b)) 0 1 (fun i =>
    if table_idx <? i then
      let! b := gets bmt in
      let! e := table_get b i in
      let! t := checked (zset (table b) (i - 1) e) in
      modify (set_bmt (Bmt t (version b) (mapped_count b) (bad_count b)))
    else ret tt) in
  let! b := gets bmt in
  let! t := checked (zset (table b) (mapped_count b) (Entry 0 0)) in
  modify (set_bmt (Bmt t (version b) (u8 (mapped_count b - 1)) (bad_count b))).

(** The search of [recover_bmt]: the last matching entry, or -1. *)
Fixpoint find_bad_entry (n : nat) (b : bmt_struct) (i bad_idx table_idx : Z) : M (st D) Z :=
  match n with
  | O => ret table_idx
  | S n' =>
      let! e := table_get b i in
      find_bad_entry n' b (i + 1) bad_idx (if bad_idx =? bad_index e then i else table_idx)
  end.

Definition recover_bmt (fuel : nat) (bad_offset : Z) : M (st D) bool :=
  let! l := gets lay in
  let bad_block_index := bad_offset / BLOCK_SIZE_BMT l in
  let! b := gets bmt in
  let! table_idx := find_bad_entry (Z.to_nat (mapped_count b)) b 0 bad_block_index (-1) in
  let! e := table_get b table_idx in      (* arguments of the second printf *)
  if 0 <=? table_idx then
    let mapped_offset := s32 (mapped_index e * BLOCK_SIZE_BMT l) in
    let! rc := recover_data_from_bmt bad_offset (u32 mapped_offset) in
    if negb (rc =? 0) then ret false else
    do! remove_entry table_idx in
    save_bmt fuel
  else recover_pool_block bad_block_index.
End bmt_ops.
