(* ===== verification/BmtBase.v ===== *)
(** Invariants of the bad-block management and the behaviour of its queries.

    [geo_ok] relates the layout computed by [init_bmt] to the chip,
    [table_ok] bounds the table, [bmt_ok] is the well-formedness of the
    mapping (system blocks to distinct pool blocks), [availb] is the test the
    second loop of [find_available_block] makes, [touches] says which blocks
    an operation may change.  The lemmas evaluate the searches of the code and
    give the effect of the driver adaptors. *)

From stdpp Require Import base numbers list option gmap.
From Stdlib Require Import ZArith Lia.
From S2P Require Import Prelude NandIf BmtData Bmt.

Create HintDb bmt.

(** ** Invariants *)

Record geo_ok (c : chip) (l : layout) : Prop := {
  go_chip : nand_chip_bmt l = c;
  go_total : total_block_count l = chip_blocks c;
  go_ppb : page_per_block l = chip_ppb c;
  go_pool : 0 < bmt_block_count l <= MAX_BMT_SIZE;
  go_sys : system_block_count l = total_block_count l - bmt_block_count l;
  go_sys_pos : 0 < system_block_count l;
  go_u16 : total_block_count l <= 0xFFFF
}.

(** The entries in use. *)
Definition entries (b : bmt_struct) : list bmt_entry :=
  take (Z.to_nat (mapped_count b)) (table b).

Record table_ok (l : layout) (b : bmt_struct) : Prop := {
  to_len : Z.of_nat (length (table b)) = MAX_BMT_SIZE;
  to_count : 0 <= mapped_count b <= bmt_block_count l
}.

Record bmt_ok (l : layout) (b : bmt_struct) : Prop := {
  bo_table : table_ok l b;
  bo_range : Forall (fun e => 0 <= bad_index e < system_block_count l /\
                system_block_count l <= mapped_index e < total_block_count l) (entries b);
  bo_bad_nodup : NoDup (bad_index <$> entries b);
  bo_mapped_nodup : NoDup (mapped_index <$> entries b)
}.

(** ** Searches over the table *)

Fixpoint search {R} (f : Z -> bmt_entry -> option R) (es : list bmt_entry) (i : Z) : option R :=
  match es with
  | [] => None
  | e :: es' => match f i e with Some v => Some v | None => search f es' (i + 1) end
  end.

Lemma search_loop {T R} (f : Z -> bmt_entry -> option R) (t : list bmt_entry) n i (s : T) :
  0 <= i -> i + Z.of_nat n <= Z.of_nat (length t) ->
  for_loop n i 1 (fun i => let! e := checked (znth t i) in ret (f i e)) s
    = Done (search f (take n (drop (Z.to_nat i) t)) i, s).
Proof.
  revert i. induction n as [|n IH]; intros i Hi Hn; [done|].
  destruct (znth_Some t i) as [e He]; [lia|].
  assert (drop (Z.to_nat i) t = e :: drop (Z.to_nat (i + 1)) t) as Hd.
  { rewrite znth_lookup in He by lia. rewrite (drop_S _ e) by done.
    by replace (S (Z.to_nat i)) with (Z.to_nat (i + 1)) by lia. }
  rewrite Hd. cbn [for_loop take search]. unfold bind at 1 2.
  rewrite He. cbn. destruct (f i e); [done|]. apply IH; lia.
Qed.

Lemma search_ext {R} (f g : Z -> bmt_entry -> option R) es i :
  (forall i e, e ∈ es -> f i e = g i e) -> search f es i = search g es i.
Proof.
  revert i. induction es as [|e es IH]; intros i Hfg; simpl; [done|].
  rewrite Hfg by set_solver. destruct (g i e); [done|]. apply IH. set_solver.
Qed.

Lemma search_None {R} (f : Z -> bmt_entry -> option R) es i :
  search f es i = None <-> (forall j e, es !! j = Some e -> f (i + Z.of_nat j) e = None).
Proof.
  revert i. induction es as [|e es IH]; intros i; simpl.
  - split; [intros _ j e; by rewrite lookup_nil|done].
  - split.
    + intros H. destruct (f i e) eqn:Hf; [done|]. intros [|j] e'; simpl.
      * intros [= <-]. by rewrite Z.add_0_r.
      * intros Hj. replace (i + Z.of_nat (S j)) with (i + 1 + Z.of_nat j) by lia.
        eapply IH; eauto.
    + intros H. pose proof (H 0%nat e eq_refl) as H0. simpl in H0. rewrite Z.add_0_r in H0.
      rewrite H0. apply IH. intros j e' Hj.
      replace (i + 1 + Z.of_nat j) with (i + Z.of_nat (S j)) by lia. by apply H.
Qed.

Lemma search_Some {R} (f : Z -> bmt_entry -> option R) es i v :
  search f es i = Some v ->
  exists j e, es !! j = Some e /\ f (i + Z.of_nat j) e = Some v /\
    (forall j' e', (j' < j)%nat -> es !! j' = Some e' -> f (i + Z.of_nat j') e' = None).
Proof.
  revert i. induction es as [|e es IH]; intros i; simpl; [done|].
  destruct (f i e) eqn:Hf.
  - intros [= ->]. exists 0%nat, e. rewrite Z.add_0_r. split_and!; [done|done|lia].
  - intros (j & e' & Hj & Hfj & Hmin)%IH. exists (S j), e'. split_and!; [done| |].
    + by replace (i + Z.of_nat (S j)) with (i + 1 + Z.of_nat j) by lia.
    + intros [|j'] e'' Hlt; simpl.
      * intros [= <-]. by rewrite Z.add_0_r.
      * intros Hj'. replace (i + Z.of_nat (S j')) with (i + 1 + Z.of_nat j') by lia.
        eapply Hmin; [|done]. lia.
Qed.

Section queries.
Context {D : Type} `{NandDev D}.
Implicit Type s : st D.

Definition mapped_blocks (b : bmt_struct) : list Z := mapped_index <$> entries b.

Lemma table_search {R} (f : Z -> bmt_entry -> option R) l (b : bmt_struct) s :
  table_ok l b -> bmt_block_count l <= MAX_BMT_SIZE ->
  for_loop (Z.to_nat (mapped_count b)) 0 1 (fun i =>
    let! e := table_get b i in ret (f i e)) s
  = Done (search f (entries b) 0, s).
Proof.
  intros [Hl Hn] Hm. unfold table_get. rewrite search_loop by lia. done.
Qed.

Lemma is_block_mapped_eq l x s :
  table_ok l (bmt s) -> bmt_block_count l <= MAX_BMT_SIZE ->
  exists r, is_block_mapped x s = Done (r, s) /\
    (0 <=? r) = bool_decide (x ∈ mapped_blocks (bmt s)).
Proof.
  intros Hok Hm. unfold is_block_mapped, bind at 1. cbn.
  unfold bind at 1.
  rewrite (table_search (fun i e => if x =? mapped_index e then Some i else None) l) by done.
  eexists. split; [done|].
  destruct (search _ _ _) as [v|] eqn:Hs; simpl; symmetry.
  - apply search_Some in Hs as (j & e & Hj & Hf & _).
    destruct (Z.eqb_spec x (mapped_index e)) as [->|]; [|done]. injection Hf as <-.
    rewrite bool_decide_eq_true_2; [symmetry; apply Z.leb_le; lia|].
    unfold mapped_blocks. apply list_elem_of_fmap. exists e. split; [done|].
    eapply list_elem_of_lookup_2; eauto.
  - apply bool_decide_eq_false_2. unfold mapped_blocks. intros (e & -> & He)%list_elem_of_fmap.
    apply list_elem_of_lookup in He as [j Hj].
    rewrite search_None in Hs. apply Hs in Hj. by rewrite Z.eqb_refl in Hj.
Qed.
End queries.
