(* ===== verification/BmtAlloc.v ===== *)
(** Allocation in the replacement pool: [find_available_block].

    [availb s b] is the outcome of the tests the code makes on a block,
    [touches P d d'] says that only blocks in [P] differ between two devices,
    [pool_blank] that, once the pool has been erased, every block that may be
    handed out is blank.  The main lemma, [find_available_block_spec], gives
    the result, the effect on the device and the preserved invariant. *)

From stdpp Require Import base numbers list option gmap.
From Stdlib Require Import ZArith Lia.
From S2P Require Import Prelude NandIf BmtData Bmt BmtBase.

Section alloc.
Context {D : Type} {HD : NandDev D} {c : chip} {HL : NandLaws D c} {HM : NandMarks D c} (Hc : chip_ok c).
Implicit Type s : st D.
Implicit Type P : Z -> Prop.

(** ** Which blocks differ *)

Definition touches P (d d' : D) : Prop :=
  forall b, 0 <= b < chip_blocks c -> ~ P b ->
    same_block c d d' b /\ is_bad c d' b = is_bad c d b.

(** Marks are never lost. *)
Definition bad_mono (d d' : D) : Prop :=
  forall b, 0 <= b < chip_blocks c -> is_bad c d b = true -> is_bad c d' b = true.

Lemma touches_refl P d : touches P d d.
Proof. intros b _ _. by split. Qed.

Lemma touches_trans P d1 d2 d3 : touches P d1 d2 -> touches P d2 d3 -> touches P d1 d3.
Proof.
  intros H12 H23 b Hb Hn. destruct (H12 b Hb Hn) as [S1 B1], (H23 b Hb Hn) as [S2 B2].
  split; [|congruence]. intros k Hk. rewrite S2, S1 by done. done.
Qed.

Lemma touches_mono P P' d d' : (forall b, P b -> P' b) -> touches P d d' -> touches P' d d'.
Proof. intros HP Ht b Hb Hn. apply Ht; [done|]. auto. Qed.

Lemma only_block_touches P b d d' : P b -> only_block c b d d' -> touches P d d'.
Proof. intros HP Ho b' Hb' Hn. apply Ho; [done|]. by intros ->. Qed.

Lemma bad_mono_refl d : bad_mono d d.
Proof. by intros b _. Qed.

Lemma bad_mono_trans d1 d2 d3 : bad_mono d1 d2 -> bad_mono d2 d3 -> bad_mono d1 d3.
Proof. intros H1 H2 b Hb Hbad. auto. Qed.

Lemma only_block_bad_mono b d d' :
  only_block c b d d' -> (is_bad c d b = true -> is_bad c d' b = true) -> bad_mono d d'.
Proof.
  intros Ho Hb b' Hb' Hbad. destruct (decide (b' = b)) as [->|Hne]; [auto|].
  destruct (Ho b' Hb' Hne) as [_ Heq]. congruence.
Qed.

Lemma block_blank_same d d' b : same_block c d d' b -> block_blank c d b -> block_blank c d' b.
Proof. intros Hs Hb k Hk. unfold page_blank. rewrite Hs by done. by apply Hb. Qed.

(** ** Addresses *)

Lemma OFFSET_eq l b :
  geo_ok c l -> 0 <= b < total_block_count l -> OFFSET l b = b * block_size c.
Proof.
  intros [] Hb. unfold OFFSET, BLOCK_SIZE_BMT, u32. rewrite go_chip.
  pose proof (chip_size_bound c Hc). pose proof (block_size_pos c Hc).
  apply Z.mod_small. nia.
Qed.

Lemma PAGE_ADDR_eq l b :
  geo_ok c l -> 0 <= b < total_block_count l -> PAGE_ADDR l b = b * chip_ppb c.
Proof.
  intros Hg Hb. unfold PAGE_ADDR. fold (OFFSET l b). rewrite OFFSET_eq by done.
  unfold PAGE_SIZE_BMT. rewrite (go_chip c l Hg), block_size_split by done.
  rewrite Z.mul_assoc, Z.div_mul; [done|]. pose proof (page_size_pos c Hc). lia.
Qed.

(** ** Driver adaptors *)

Lemma block_bad_either_eq s b :
  geo_ok c (lay s) -> 0 <= b < total_block_count (lay s) ->
  block_bad_either b s = Done (is_bad c (dev s) b, s).
Proof.
  intros Hg Hb. unfold block_bad_either, nand_block_bad_bmt, bind, gets, is_bad.
  rewrite OFFSET_eq by done. by destruct (nd_block_bad _ _ BAD_BLOCK_RAW =? 0).
Qed.

Lemma erase_spec s b Q :
  geo_ok c (lay s) -> 0 <= b < total_block_count (lay s) ->
  (forall rc d', only_block c b (dev s) d' -> (rc = 0 -> block_blank c d' b) ->
     (is_bad c (dev s) b = false -> is_bad c d' b = false) -> Q rc (set_dev d' s)) ->
  wp (nand_erase_bmt (OFFSET (lay s) b)) Q s.
Proof.
  intros Hg Hb HQ. unfold nand_erase_bmt. apply wp_act. rewrite OFFSET_eq by done.
  rewrite (go_total c _ Hg) in Hb.
  destruct (nd_erase (dev s) (b * block_size c)) as [rc d'] eqn:He. cbn [fst snd]. apply HQ.
  - by eapply nl_erase_only.
  - intros ->. by eapply nl_erase_blank.
  - by eapply nl_erase_clean.
Qed.

Lemma mark_spec s b k Q :
  geo_ok c (lay s) -> 0 <= b < total_block_count (lay s) ->
  (k = BAD_BLOCK_RAW \/ k = BMT_BADBLOCK_GENERATE_LATER) ->
  (forall rc d', only_block c b (dev s) d' -> is_bad c d' b = true -> Q rc (set_dev d' s)) ->
  wp (mark_block_bad_bmt (OFFSET (lay s) b) k) Q s.
Proof.
  intros Hg Hb Hk HQ. unfold mark_block_bad_bmt. apply wp_act. rewrite OFFSET_eq by done.
  rewrite (go_total c _ Hg) in Hb. pose proof (block_size_pos c Hc).
  assert (0 <= b * block_size c < chip_blocks c * block_size c) as Ho by nia.
  destruct (nd_mark_bad (dev s) (b * block_size c) k) as [rc d'] eqn:He.
  cbn [fst snd]. apply HQ.
  - pose proof (nl_mark_only _ _ _ _ _ Ho He) as Hm.
    by rewrite Z.div_mul in Hm by lia.
  - pose proof (mark_takes_effect _ _ _ _ _ _ Ho Hk He) as Hm.
    by rewrite Z.div_mul in Hm by lia.
Qed.

(** ** Blocks that may be handed out *)

Definition availb s (b : Z) : bool :=
  negb (b =? bmt_block_index s) && negb (b =? bbt_block_index s) &&
  negb (is_bad c (dev s) b) && negb (bool_decide (b ∈ mapped_blocks (bmt s))).

Definition in_pool (l : layout) (b : Z) : Prop :=
  system_block_count l <= b < total_block_count l.

Definition pool_avail s (b : Z) : Prop := in_pool (lay s) b /\ availb s b = true.

(** Once the pool has been erased, the blocks that may be handed out are
    blank; [pool_blank_but x] leaves out block [x], which [update_bmt] has just
    released. *)
Definition pool_blank_but (x : Z) s : Prop :=
  pool_erased s = true -> forall b, pool_avail s b -> b <> x -> block_blank c (dev s) b.

Definition pool_blank s : Prop :=
  pool_erased s = true -> forall b, pool_avail s b -> block_blank c (dev s) b.

Lemma pool_blank_weaken x s : pool_blank s -> pool_blank_but x s.
Proof. intros Hb He b Hav _. by apply Hb. Qed.

(** Leaving out a block that is not available leaves out nothing. *)
Lemma pool_blank_but_iff x s :
  ~ pool_avail s x -> pool_blank_but x s -> pool_blank s.
Proof. intros Hx Hb He b Hav. apply Hb; [done|done|]. by intros ->. Qed.

Lemma usable_eq s b :
  geo_ok c (lay s) -> table_ok (lay s) (bmt s) -> 0 <= b < total_block_count (lay s) ->
  usable b s = Done (availb s b, s).
Proof.
  intros Hg Ht Hb. unfold usable, availb, bind, gets.
  destruct (b =? bmt_block_index s); [done|].
  destruct (b =? bbt_block_index s); [done|]. rewrite block_bad_either_eq by done.
  destruct (is_bad c (dev s) b); [done|].
  destruct (is_block_mapped_eq (lay s) b s Ht) as (r & -> & ->); [apply (go_pool c _ Hg)|done].
Qed.

(** The tests of the erase loop are the same tests. *)
Lemma erase_if_unused_eq s b :
  geo_ok c (lay s) -> table_ok (lay s) (bmt s) -> 0 <= b < total_block_count (lay s) ->
  erase_if_unused b s =
    (if availb s b then
       (let! rc := nand_erase_bmt (OFFSET (lay s) b) in
        if negb (rc =? 0) then
          do! mark_block_bad_bmt (OFFSET (lay s) b) BMT_BADBLOCK_GENERATE_LATER in ret tt
        else ret tt) s
     else Done (tt, s)).
Proof.
  intros Hg Ht Hb. unfold erase_if_unused, availb.
  unfold bind at 1 2; unfold gets at 1 2. cbv beta iota.
  destruct (b =? bmt_block_index s); [done|].
  unfold bind at 1; unfold gets at 1; cbv beta iota.
  destruct (b =? bbt_block_index s); [done|].
  unfold bind at 1. rewrite block_bad_either_eq by done.
  destruct (is_bad c (dev s) b); [done|]. unfold bind at 1.
  destruct (is_block_mapped_eq (lay s) b s Ht) as (r & -> & ->); [apply (go_pool c _ Hg)|].
  by destruct (bool_decide _).
Qed.

Lemma erase_if_unused_spec s b Q :
  geo_ok c (lay s) -> table_ok (lay s) (bmt s) -> in_pool (lay s) b ->
  (forall d', (if availb s b
               then only_block c b (dev s) d' /\ (is_bad c d' b = true \/ block_blank c d' b)
               else d' = dev s) -> Q tt (set_dev d' s)) ->
  wp (erase_if_unused b) Q s.
Proof.
  intros Hg Ht Hb HQ.
  assert (0 <= b < total_block_count (lay s)) as Hb'.
  { destruct Hb. pose proof (go_sys_pos c _ Hg). lia. }
  unfold wp. rewrite erase_if_unused_eq by done. destruct (availb s b) eqn:Ha.
  - change (wp (let! rc := nand_erase_bmt (OFFSET (lay s) b) in
        if negb (rc =? 0) then
          do! mark_block_bad_bmt (OFFSET (lay s) b) BMT_BADBLOCK_GENERATE_LATER in ret tt
        else ret tt) Q s).
    apply wp_bind, erase_spec; [done..|]. intros rc d1 Ho Hblank _.
    destruct (Z.eqb_spec rc 0) as [->|_]; simpl negb; cbv iota.
    + apply wp_ret, HQ. eauto.
    + apply wp_bind. change (lay s) with (lay (set_dev d1 s)).
      apply mark_spec; [done|done|by right|]. intros rc' d2 Ho2 Hbad.
      apply wp_ret. apply (HQ d2). split; [|by left].
      intros b' Hr Hne. destruct (Ho b' Hr Hne) as [S1 B1], (Ho2 b' Hr Hne) as [S2 B2].
      simpl in *. split; [|congruence]. intros k Hk. by rewrite S2, S1.
  - destruct s. apply (HQ dev). done.
Qed.

Lemma availb_set_dev s d' b :
  is_bad c d' b = is_bad c (dev s) b -> availb (set_dev d' s) b = availb s b.
Proof. unfold availb. simpl. by intros ->. Qed.

Lemma availb_mono s d' b :
  bad_mono (dev s) d' -> 0 <= b < chip_blocks c ->
  availb (set_dev d' s) b = true -> availb s b = true.
Proof.
  unfold availb. simpl. intros Hm Hb. rewrite !andb_true_iff, !negb_true_iff.
  intros [[[? ?] Hbad] ?]. split_and!; [done..| |done].
  destruct (is_bad c (dev s) b) eqn:E; [|done]. apply Hm in E; [|done]. congruence.
Qed.

Lemma in_pool_range l b : geo_ok c l -> in_pool l b -> 0 < b < chip_blocks c.
Proof. intros [] []. lia. Qed.

Lemma pool_avail_not_bad s b : pool_avail s b -> is_bad c (dev s) b = false.
Proof.
  intros [_ Ha]. unfold availb in Ha. rewrite !andb_true_iff, !negb_true_iff in Ha. tauto.
Qed.

Lemma erase_pool_spec s Q :
  geo_ok c (lay s) -> table_ok (lay s) (bmt s) ->
  (forall d', touches (pool_avail s) (dev s) d' -> bad_mono (dev s) d' ->
     (forall b, pool_avail (set_dev d' s) b -> block_blank c d' b) -> Q tt (set_dev d' s)) ->
  wp erase_pool Q s.
Proof.
  intros Hg Ht HQ. unfold erase_pool. apply wp_bind, wp_gets.
  pose proof (go_pool c _ Hg) as Hpool. pose proof (go_sys c _ Hg) as Hsys.
  apply (wp_for_each (fun i s' => exists d', s' = set_dev d' s /\
    touches (pool_avail s) (dev s) d' /\ bad_mono (dev s) d' /\
    (forall b, in_pool (lay s) b -> b < system_block_count (lay s) + i ->
       availb s b = true -> is_bad c d' b = true \/ block_blank c d' b) /\
    (forall b, system_block_count (lay s) + i <= b < total_block_count (lay s) ->
       is_bad c d' b = is_bad c (dev s) b))).
  - exists (dev s). split_and!; [by destruct s|apply touches_refl|apply bad_mono_refl| |done].
    unfold in_pool. lia.
  - intros k s' Hk (d1 & -> & Ht1 & Hm1 & Hdone & Hrest). rewrite Z.mul_1_r, Z.add_0_l in *.
    set (b := system_block_count (lay s) + k).
    assert (in_pool (lay s) b) as Hb by (unfold in_pool, b; lia).
    apply erase_if_unused_spec; [done|done|done|].
    intros d2 Hd2. exists d2. rewrite availb_set_dev in Hd2 by (apply Hrest; unfold in_pool in *; lia).
    pose proof (in_pool_range _ _ Hg Hb) as Hbr. simpl in Hd2.
    destruct (availb s b) eqn:Hav.
    + destruct Hd2 as [Ho Hres]. split_and!; [done| | | |].
      * eapply touches_trans; [exact Ht1|]. eapply only_block_touches; [|exact Ho]. by split.
      * eapply bad_mono_trans; [exact Hm1|]. eapply only_block_bad_mono; [exact Ho|].
        rewrite Hrest by (unfold in_pool in *; lia).
        rewrite (pool_avail_not_bad s b) by (by split). done.
      * intros b' Hb' Hlt Hav'. destruct (decide (b' = b)) as [->|Hne]; [done|].
        pose proof (in_pool_range _ _ Hg Hb') as Hbr'.
        destruct (Ho b' ltac:(lia) Hne) as [Hs Hbad]. rewrite Hbad.
        destruct (Hdone b' Hb' ltac:(lia) Hav'); [by left|right].
        by eapply block_blank_same.
      * intros b' Hb'. rewrite <- Hrest by lia.
        apply Ho; [|lia]. rewrite <- (go_total c _ Hg). pose proof (go_sys_pos c _ Hg). lia.
    + subst d2. split_and!; [done|done|done| |].
      * intros b' Hb' Hlt Hav'. destruct (decide (b' = b)) as [->|Hne]; [congruence|].
        apply Hdone; [done|lia|done].
      * intros b' Hb'. apply Hrest. lia.
  - intros s' (d' & -> & Ht1 & Hm1 & Hdone & _). apply HQ; [done|done|].
    intros b Hb. pose proof (in_pool_range _ _ Hg (proj1 Hb)) as Hbr.
    pose proof (pool_avail_not_bad _ _ Hb) as Hnb. destruct Hb as [Hin Hav]. simpl in *.
    assert (availb s b = true) as Hav0 by (eapply availb_mono; [exact Hm1|lia|exact Hav]).
    destruct (Hdone b) as [Hbad|]; [done|unfold in_pool in Hin; lia|done|congruence|done].
Qed.

Definition first_avail s (from_end : bool) (b : Z) : Prop :=
  pool_avail s b /\
  (forall b', in_pool (lay s) b' -> (if from_end then b < b' else b' < b) -> availb s b' = false).

(** The scan for the first usable block. *)
Lemma scan_usable s start d n :
  geo_ok c (lay s) -> table_ok (lay s) (bmt s) ->
  (forall k, 0 <= k < Z.of_nat n -> in_pool (lay s) (start + k * d)) ->
  exists r, for_loop n start d (fun blk =>
        let! u := usable blk in ret (if u then Some blk else None)) s = Done (r, s) /\
    match r with
    | None => forall k, 0 <= k < Z.of_nat n -> availb s (start + k * d) = false
    | Some b => exists k, 0 <= k < Z.of_nat n /\ b = start + k * d /\ availb s b = true /\
                  forall j, 0 <= j < k -> availb s (start + j * d) = false
    end.
Proof.
  intros Hg Ht. revert start. induction n as [|n IH]; intros start Hin.
  { exists None. split; [done|]. lia. }
  pose proof (Hin 0 ltac:(lia)) as H0. rewrite Z.mul_0_l, Z.add_0_r in H0.
  cbn [for_loop]. unfold bind at 1 2. rewrite usable_eq; [|done|done|].
  2: { pose proof (in_pool_range _ _ Hg H0). rewrite (go_total c _ Hg). lia. }
  cbn. destruct (availb s start) eqn:Hav.
  - exists (Some start). split; [done|]. exists 0.
    split_and!; [lia|lia|lia|done|lia].
  - destruct (IH (start + d)) as (r & -> & Hr).
    { intros k Hk. replace (start + d + k * d) with (start + (k + 1) * d) by lia. apply Hin. lia. }
    exists r. split; [done|].
    assert (forall m, (forall j, 0 <= j < m -> availb s (start + d + j * d) = false) ->
      forall j, 0 <= j < m + 1 -> availb s (start + j * d) = false) as Hshift.
    { intros m Hm j Hj. destruct (decide (j = 0)) as [->|].
      - by rewrite Z.mul_0_l, Z.add_0_r.
      - replace (start + j * d) with (start + d + (j - 1) * d) by lia. apply Hm. lia. }
    destruct r as [b|].
    + destruct Hr as (k & Hk & -> & Hb & Hj). exists (k + 1).
      split_and!; [lia|lia|lia|done|by apply Hshift].
    + intros k Hk. apply (Hshift (Z.of_nat n)); [done|lia].
Qed.

(** ** [find_available_block] *)

Lemma find_available_block_but_spec x s from_end Q :
  geo_ok c (lay s) -> table_ok (lay s) (bmt s) -> pool_blank_but x s ->
  (forall r d' s', s' = set_pool_erased true (set_dev d' s) ->
     touches (pool_avail s) (dev s) d' -> bad_mono (dev s) d' -> pool_blank_but x s' ->
     (r = 0 /\ (forall b, ~ pool_avail s' b) \/ first_avail s' from_end r) -> Q r s') ->
  wp (find_available_block from_end) Q s.
Proof.
  intros Hg Ht Hblank HQ. unfold find_available_block. wp_steps.
  apply (wp_mono _ (fun _ s' => exists d', s' = set_pool_erased true (set_dev d' s) /\
    touches (pool_avail s) (dev s) d' /\ bad_mono (dev s) d' /\ pool_blank_but x s')).
  { destruct (pool_erased s) eqn:He; simpl negb; cbv iota.
    - apply wp_ret. exists (dev s). split_and!.
      + destruct s; simpl in *. by rewrite He.
      + apply touches_refl.
      + apply bad_mono_refl.
      + done.
    - apply wp_bind, erase_pool_spec; [done..|]. intros d' Ht1 Hm1 Hb1. apply wp_modify.
      exists d'. split_and!; [done..|]. intros _ b Hb _. by apply Hb1. }
  intros _ s' (d' & Hs' & Ht1 & Hm1 & Hb1).
  assert (lay s' = lay s) as Hl by (by subst s').
  assert (bmt s' = bmt s) as Hbm by (by subst s').
  pose proof (go_pool c _ Hg) as Hpool. pose proof (go_sys c _ Hg) as Hsys.
  apply wp_bind. rewrite <- Hl in *. rewrite <- Hbm in Ht.
  edestruct (scan_usable s'
    (if from_end then total_block_count (lay s') - 1 else system_block_count (lay s'))
    (if from_end then -1 else 1) (Z.to_nat (bmt_block_count (lay s')))) as (r & Hrun & Hr);
    [done|done| |].
  { intros k Hk. unfold in_pool. destruct from_end; lia. }
  unfold wp at 1. rewrite Hrun. apply wp_ret, (HQ _ d'); [done..|].
  destruct r as [b|]; simpl; [right|left].
  - destruct Hr as (k & Hk & -> & Hb & Hj). split.
    + split; [|done]. unfold in_pool. destruct from_end; lia.
    + intros b' Hin Hlt. unfold in_pool in Hin.
      destruct from_end.
      * specialize (Hj (total_block_count (lay s') - 1 - b')).
        replace b' with (total_block_count (lay s') - 1 + (total_block_count (lay s') - 1 - b') * -1) by lia.
        apply Hj. lia.
      * specialize (Hj (b' - system_block_count (lay s'))).
        replace b' with (system_block_count (lay s') + (b' - system_block_count (lay s')) * 1) by lia.
        apply Hj. lia.
  - split; [done|]. intros b [Hin Hb]. unfold in_pool in Hin. destruct from_end.
    + specialize (Hr (total_block_count (lay s') - 1 - b) ltac:(lia)).
      replace (_ + _) with b in Hr by lia. congruence.
    + specialize (Hr (b - system_block_count (lay s')) ltac:(lia)).
      replace (_ + _) with b in Hr by lia. congruence.
Qed.

Lemma find_available_block_spec s from_end Q :
  geo_ok c (lay s) -> table_ok (lay s) (bmt s) -> pool_blank s ->
  (forall r d' s', s' = set_pool_erased true (set_dev d' s) ->
     touches (pool_avail s) (dev s) d' -> bad_mono (dev s) d' -> pool_blank s' ->
     (r = 0 /\ (forall b, ~ pool_avail s' b) \/ first_avail s' from_end r) -> Q r s') ->
  wp (find_available_block from_end) Q s.
Proof.
  intros Hg Ht Hbl HQ. apply (find_available_block_but_spec 0); [done|done|by apply pool_blank_weaken|].
  intros r d' s' Hs Ht1 Hm1 Hb1. apply (HQ r d' s' Hs Ht1 Hm1).
  apply (pool_blank_but_iff 0); [|done]. subst s'. intros [Hin _].
  pose proof (in_pool_range (lay s) 0 Hg Hin). lia.
Qed.
End alloc.
