(* ===== verification/BmtMigrate.v ===== *)
(** Migration of a failing block: [migrate_from_bad].

    [avail_count] is the number of blocks that may be handed out; it bounds
    the recursion of the code.  [migrated] states what the replacement block
    holds when the migration succeeds. *)

From stdpp Require Import base numbers list option gmap.
From Stdlib Require Import ZArith Lia.
From S2P Require Import Prelude NandIf BmtData Bmt BmtBase BmtAlloc.

Lemma splice_0 {A} (dst src : list A) : splice dst 0 src = src ++ drop (length src) dst.
Proof. unfold splice. done. Qed.

Lemma take_splice_0 {A} (dst src : list A) n :
  Z.of_nat (length src) = n -> take (Z.to_nat n) (splice dst 0 src) = src.
Proof. intros <-. rewrite splice_0, Nat2Z.id, take_app_length. done. Qed.

Lemma length_splice_0 {A} (dst src : list A) :
  Z.of_nat (length src) <= Z.of_nat (length (splice dst 0 src)).
Proof. rewrite splice_0, length_app. lia. Qed.

Lemma set_bad_index_take oob idx n :
  4 <= n <= Z.of_nat (length oob) ->
  take (Z.to_nat n) (set_bad_index_to_oob oob idx)
    = set_bad_index_to_oob (take (Z.to_nat n) oob) idx.
Proof.
  intros Hn. destruct oob as [|b0 [|b1 [|b2 [|b3 oob]]]]; simpl in Hn; try lia.
  destruct (Z.to_nat n) as [|[|[|[|m]]]] eqn:E; try lia. reflexivity.
Qed.

Lemma length_set_bad_index oob idx :
  4 <= Z.of_nat (length oob) -> length (set_bad_index_to_oob oob idx) = length oob.
Proof.
  intros Hn. unfold set_bad_index_to_oob, splice. rewrite le_bytes_length.
  change (Z.to_nat OOB_INDEX_OFFSET) with 2%nat.
  rewrite !length_app, length_take, length_drop, le_bytes_length. lia.
Qed.

(** The index written to the spare area is the one read back. *)
Lemma get_set_bad_index oob idx :
  4 <= Z.of_nat (length oob) -> is_u16 idx ->
  get_bad_index_from_oob (set_bad_index_to_oob oob idx) = idx.
Proof.
  intros Hn Hi. unfold get_bad_index_from_oob, set_bad_index_to_oob, splice.
  rewrite le_bytes_length. change (Z.to_nat OOB_INDEX_OFFSET) with 2%nat.
  rewrite drop_app_length' by (rewrite length_take; lia).
  rewrite take_app_length' by (rewrite le_bytes_length; done).
  unfold is_u16 in Hi. rewrite le_val_bytes.
  - unfold u16. by rewrite Z.mod_small.
  - unfold u16. rewrite Z.mod_small by done. change (256 ^ Z.of_nat 2) with (2 ^ 16). lia.
Qed.

Lemma filter_length_le {A} (f g : A -> bool) (l : list A) :
  (forall y, y ∈ l -> f y = true -> g y = true) ->
  (length (List.filter f l) <= length (List.filter g l))%nat.
Proof.
  induction l as [|y l IH]; intros Hfg; simpl; [done|].
  specialize (IH ltac:(set_solver)). pose proof (Hfg y ltac:(set_solver)) as Hy.
  destruct (f y), (g y); simpl; first [lia | by specialize (Hy eq_refl)].
Qed.

Lemma filter_length_lt {A} (f g : A -> bool) (l : list A) x :
  (forall y, y ∈ l -> f y = true -> g y = true) ->
  x ∈ l -> f x = false -> g x = true ->
  (length (List.filter f l) < length (List.filter g l))%nat.
Proof.
  induction l as [|y l IH]; intros Hfg Hx Hf Hg; [set_solver|]. simpl.
  apply elem_of_cons in Hx as [->|Hx].
  - rewrite Hf, Hg. simpl. pose proof (filter_length_le f g l ltac:(set_solver)). lia.
  - specialize (IH ltac:(set_solver) Hx Hf Hg). pose proof (Hfg y ltac:(set_solver)) as Hy.
    destruct (f y), (g y); simpl; first [lia | by specialize (Hy eq_refl)].
Qed.

Section migrate.
Context {D : Type} {HD : NandDev D} {c : chip} {HL : NandLaws D c} {HM : NandMarks D c} (Hc : chip_ok c).
Implicit Type s : st D.

(** ** Counting the available blocks *)

Definition pool_list (l : layout) : list Z :=
  seqZ (system_block_count l) (bmt_block_count l).

Definition avail_count s : nat := length (List.filter (availb (c:=c) s) (pool_list (lay s))).

Lemma elem_of_pool_list l b : geo_ok c l -> b ∈ pool_list l <-> in_pool l b.
Proof.
  intros Hg. unfold pool_list. rewrite elem_of_seqZ. unfold in_pool.
  pose proof (go_sys c _ Hg). lia.
Qed.

Lemma avail_count_bound s : geo_ok c (lay s) -> (avail_count s <= 128)%nat.
Proof.
  intros Hg. unfold avail_count. rewrite List.filter_length_le. unfold pool_list.
  rewrite length_seqZ. pose proof (go_pool c _ Hg). unfold MAX_BMT_SIZE in *. lia.
Qed.

Lemma avail_count_lt s s' b :
  geo_ok c (lay s) -> lay s' = lay s ->
  (forall b, pool_avail (c:=c) s' b -> pool_avail (c:=c) s b) ->
  pool_avail (c:=c) s b -> availb (c:=c) s' b = false -> (avail_count s' < avail_count s)%nat.
Proof.
  intros Hg Hl Hsub [Hb Hav] Hn. unfold avail_count. rewrite Hl.
  apply (filter_length_lt _ _ _ b); [|by apply elem_of_pool_list|done|done].
  intros b' Hb' Ha. apply elem_of_pool_list in Hb'; [|done].
  apply Hsub. split; [by rewrite Hl|done].
Qed.

(** Marks only accumulate: what is available later was available before. *)
Lemma pool_avail_back s d' b :
  geo_ok c (lay s) -> bad_mono (c:=c) (dev s) d' ->
  pool_avail (c:=c) (set_dev d' s) b -> pool_avail (c:=c) s b.
Proof.
  intros Hg Hm [Hb Hav]. split; [done|]. eapply availb_mono; [exact Hm| |exact Hav].
  pose proof (in_pool_range (lay s) b Hg Hb). lia.
Qed.

(** ** Pages *)

Lemma read_spec s b k Q :
  geo_ok c (lay s) -> 0 <= b < total_block_count (lay s) ->
  (forall rc dat oob da oo, nd_read_page (dev s) (b * chip_ppb c + k) = (rc, (dat, oob)) ->
     (rc = 0 -> Z.of_nat (length dat) = page_size c /\ Z.of_nat (length oob) = oob_size c /\
        da = splice (dat_buf s) 0 dat /\ oo = splice (oob_buf s) 0 oob) ->
     Q rc (set_bufs da oo s)) ->
  wp (nand_read_page_bmt (PAGE_ADDR (lay s) b + k)) Q s.
Proof.
  intros Hg Hb HQ. rewrite (PAGE_ADDR_eq Hc) by done.
  unfold wp, nand_read_page_bmt.
  pose proof (nl_read_len (dev s) (b * chip_ppb c + k)) as Hlen.
  destruct (nd_read_page (dev s) (b * chip_ppb c + k)) as [rc [dat oob]] eqn:E.
  destruct (Z.eqb_spec rc 0) as [->|Hrc].
  - destruct (Hlen eq_refl). by eapply HQ.
  - specialize (HQ rc dat oob (dat_buf s) (oob_buf s) eq_refl ltac:(done)). by destruct s.
Qed.

Lemma write_spec s b k dat oob Q :
  geo_ok c (lay s) -> 0 <= b < total_block_count (lay s) -> 0 <= k < chip_ppb c ->
  (forall rc d', only_block c b (dev s) d' -> bad_mono (c:=c) (dev s) d' ->
     (forall k', 0 <= k' < chip_ppb c -> k' <> k ->
        nd_read_page d' (b * chip_ppb c + k') = nd_read_page (dev s) (b * chip_ppb c + k')) ->
     (rc = 0 -> page_size c <= Z.of_nat (length dat) -> oob_size c <= Z.of_nat (length oob) ->
        page_blank c (dev s) (b * chip_ppb c + k) ->
        nd_read_page d' (b * chip_ppb c + k)
        = (0, (take (Z.to_nat (page_size c)) dat, take (Z.to_nat (oob_size c)) oob))) ->
     (forall n, oob = memset 255 n -> is_bad c (dev s) b = false -> is_bad c d' b = false) ->
     Q rc (set_dev d' s)) ->
  wp (nand_write_page_bmt (PAGE_ADDR (lay s) b + k) dat oob) Q s.
Proof.
  intros Hg Hb Hk HQ. rewrite (PAGE_ADDR_eq Hc) by done.
  unfold nand_write_page_bmt. apply wp_act. rewrite (go_total c _ Hg) in Hb.
  destruct (nd_write_page (dev s) (b * chip_ppb c + k) dat oob) as [rc d'] eqn:E.
  pose proof (nl_write_only _ _ _ _ _ _ _ Hb Hk E) as (Ho & Hbad & Hother).
  cbn [fst snd]. apply HQ; [done|by eapply only_block_bad_mono|done| |].
  - intros -> Hdat Hoob Hblank. by eapply nl_write_read.
  - intros n ->. by eapply nl_write_clean.
Qed.

(** ** What a migration leaves in the replacement block *)

(** The page can be read. *)
Definition readable (d : D) (p : Z) : Prop := (nd_read_page d p).1 = 0.

Definition migrated_oob (l : layout) (error_block : Z) (oob : list Z) : list Z :=
  if error_block <? system_block_count l then set_bad_index_to_oob oob error_block else oob.

Definition migrated_page s (eb k : Z) : Z * (list Z * list Z) :=
  let '(_, (dat, oob)) := nd_read_page (dev s) (eb * chip_ppb c + k) in
  (0, (dat, migrated_oob (lay s) eb oob)).

Record migrated s (eb ep : Z) (reason : update_reason_t) (dat oob : list Z) (d' : D) (to : Z)
    : Prop := {
  mg_copy k : 0 <= k < chip_ppb c -> k <> ep -> (reason = UPDATE_WRITE_FAIL -> k < ep) ->
    readable (dev s) (eb * chip_ppb c + k) ->
    nd_read_page d' (to * chip_ppb c + k) = migrated_page s eb k;
  mg_error : nd_read_page d' (to * chip_ppb c + ep)
    = (0, (take (Z.to_nat (page_size c)) dat,
           migrated_oob (lay s) eb (take (Z.to_nat (oob_size c)) oob)));
  mg_rest k : reason = UPDATE_WRITE_FAIL -> ep < k < chip_ppb c ->
    page_blank c d' (to * chip_ppb c + k)
}.

(** The globals after an operation that writes the device and the buffers. *)
Definition upd (d : D) (da oo : list Z) s : st D :=
  set_pool_erased true (set_bufs da oo (set_dev d s)).

Lemma u32_small z : 0 <= z < 2 ^ 32 -> u32 z = z.
Proof. intros. by apply Z.mod_small. Qed.

Lemma block_u32 l b : geo_ok c l -> 0 <= b < total_block_count l -> u32 b = b.
Proof. intros Hg Hb. apply u32_small. pose proof (go_u16 c _ Hg). lia. Qed.

Lemma migrate_page_spec s eb to k Q :
  geo_ok c (lay s) -> 0 <= eb < total_block_count (lay s) ->
  0 <= to < total_block_count (lay s) -> to <> eb -> 0 <= k < chip_ppb c ->
  page_blank c (dev s) (to * chip_ppb c + k) ->
  (forall failed d' da oo, only_block c to (dev s) d' -> bad_mono (c:=c) (dev s) d' ->
     (forall k', 0 <= k' < chip_ppb c -> k' <> k ->
        nd_read_page d' (to * chip_ppb c + k') = nd_read_page (dev s) (to * chip_ppb c + k')) ->
     (failed = false -> readable (dev s) (eb * chip_ppb c + k) ->
        nd_read_page d' (to * chip_ppb c + k) = migrated_page s eb k) ->
     Q failed (set_bufs da oo (set_dev d' s))) ->
  wp (migrate_page eb to k) Q s.
Proof.
  intros Hg Heb Hto Hne Hk Hblank HQ. unfold migrate_page. apply wp_bind, wp_gets, wp_bind.
  apply read_spec; [done..|]. intros rc dat oob da0 oo0 Hread Hrd.
  set (s1 := set_bufs da0 oo0 s).
  apply wp_bind. rewrite (block_u32 (lay s)) by done.
  pose proof (oob_size_ge c Hc) as Hge.
  apply (wp_mono _ (fun _ s' => exists oo, s' = set_bufs (dat_buf s1) oo s1 /\
     (rc = 0 -> oob_size c <= Z.of_nat (length oo) /\
        take (Z.to_nat (oob_size c)) oo = migrated_oob (lay s) eb oob))).
  { unfold migrated_oob. destruct (eb <? system_block_count (lay s)).
    - apply wp_modify. eexists. split; [done|]. intros (Hdat & Hoob & -> & ->)%Hrd. simpl.
      pose proof (length_splice_0 (oob_buf s) oob). split.
      + rewrite length_set_bad_index by lia. lia.
      + rewrite set_bad_index_take by lia. by rewrite take_splice_0.
    - apply wp_ret. exists (oob_buf s1). split; [done|]. intros (Hdat & Hoob & -> & ->)%Hrd. simpl.
      pose proof (length_splice_0 (oob_buf s) oob).
      rewrite take_splice_0 by done. split; [lia|done]. }
  intros _ s' (oo & -> & Hoo). wp_steps.
  apply (write_spec (set_bufs (dat_buf s1) oo s1)); [done|done|done|].
  intros rc' d' Ho Hm Hother Hw _. apply wp_ret. simpl in *.
  apply (HQ _ d' _ oo); [done..|].
  intros Hf Hrc. unfold readable in Hrc. rewrite Hread in Hrc. simpl in Hrc.
  destruct (Hrd Hrc) as (Hdat & Hoob & -> & ->). destruct (Hoo Hrc) as [Hool Hoo'].
  pose proof (length_splice_0 (dat_buf s) dat).
  rewrite Hw; [|by destruct (Z.eqb_spec rc' 0)|lia|done|done].
  unfold migrated_page. rewrite Hread, Hoo', take_splice_0 by done. done.
Qed.

Lemma only_block_refl b d : only_block c b d d.
Proof. by intros b' _ _. Qed.

Lemma only_block_trans b d1 d2 d3 :
  only_block c b d1 d2 -> only_block c b d2 d3 -> only_block c b d1 d3.
Proof.
  intros H12 H23 b' Hb' Hne. destruct (H12 b' Hb' Hne) as [S1 B1], (H23 b' Hb' Hne) as [S2 B2].
  split; [|congruence]. intros k Hk. by rewrite S2, S1.
Qed.

Lemma copy_loop_spec s eb ep to n Q :
  geo_ok c (lay s) -> 0 <= eb < total_block_count (lay s) ->
  0 <= to < total_block_count (lay s) -> to <> eb ->
  0 <= n <= chip_ppb c -> block_blank c (dev s) to ->
  (forall r d' da oo, only_block c to (dev s) d' -> bad_mono (c:=c) (dev s) d' ->
     (r = None ->
        (forall k, 0 <= k < n -> k <> ep -> readable (dev s) (eb * chip_ppb c + k) ->
           nd_read_page d' (to * chip_ppb c + k) = migrated_page s eb k) /\
        (forall k, 0 <= k < chip_ppb c -> k = ep \/ n <= k ->
           page_blank c d' (to * chip_ppb c + k))) ->
     Q r (set_bufs da oo (set_dev d' s))) ->
  wp (for_loop (Z.to_nat n) 0 1 (fun page =>
        if page =? ep then ret None
        else let! f := migrate_page eb to page in ret (if f then Some tt else None))) Q s.
Proof.
  intros Hg Heb Hto Hne Hn Hblank HQ.
  apply (wp_for_loop (fun i s' => exists d' da oo, s' = set_bufs da oo (set_dev d' s) /\
    only_block c to (dev s) d' /\ bad_mono (c:=c) (dev s) d' /\
    (forall k, 0 <= k < i -> k <> ep -> readable (dev s) (eb * chip_ppb c + k) ->
       nd_read_page d' (to * chip_ppb c + k) = migrated_page s eb k) /\
    (forall k, 0 <= k < chip_ppb c -> k = ep \/ i <= k ->
       page_blank c d' (to * chip_ppb c + k)))).
  - exists (dev s), (dat_buf s), (oob_buf s).
    split_and!; [by destruct s|apply only_block_refl|apply bad_mono_refl|lia|].
    intros k Hk _. by apply Hblank.
  - intros k s' Hk (d1 & da & oo & -> & Ho & Hm & Hcp & Hbl).
    rewrite Z.mul_1_r, Z.add_0_l in *. destruct (Z.eqb_spec k ep) as [->|Hke].
    { apply wp_ret. exists d1, da, oo. split_and!; [done..| |].
      - intros k' Hk' Hk'e. apply Hcp; [lia|done].
      - intros k' Hk' Hor. apply Hbl; [done|]. lia. }
    apply wp_bind. apply migrate_page_spec; [done|done|done|done|lia|apply Hbl; lia|].
    intros failed d2 da2 oo2 Ho2 Hm2 Hother Hok. simpl in *. apply wp_ret.
    assert (only_block c to (dev s) d2) as Ho' by (by eapply only_block_trans).
    assert (bad_mono (c:=c) (dev s) d2) as Hm' by (by eapply bad_mono_trans).
    destruct failed.
    { by apply (HQ (Some tt) d2). }
    exists d2, da2, oo2. split_and!; [done..| |].
    + intros k' Hk' Hk'e Hrd. destruct (decide (k' = k)) as [->|Hkk].
      * destruct (Ho eb) as [Hs _]; [by rewrite <- (go_total c _ Hg)|by apply not_eq_sym|].
        specialize (Hs k ltac:(lia)).
        rewrite Hok; [|done|unfold readable; simpl; by rewrite Hs].
        unfold migrated_page; simpl. by rewrite Hs.
      * rewrite Hother by lia. apply Hcp; [lia|done|done].
    + intros k' Hk' Hor. unfold page_blank. rewrite Hother by lia. apply Hbl; lia.
  - intros s' (d' & da & oo & -> & Ho & Hm & Hcp & Hbl).
    rewrite Z.mul_1_r, Z.add_0_l, Z2Nat.id in * by lia. by apply HQ.
Qed.

Lemma migrate_error_page_spec s eb ep to dat oob Q :
  geo_ok c (lay s) -> 0 <= eb < total_block_count (lay s) ->
  0 <= to < total_block_count (lay s) -> 0 <= ep < chip_ppb c ->
  page_size c <= Z.of_nat (length dat) -> oob_size c <= Z.of_nat (length oob) ->
  page_blank c (dev s) (to * chip_ppb c + ep) ->
  (forall failed d' da oo, only_block c to (dev s) d' -> bad_mono (c:=c) (dev s) d' ->
     (forall k', 0 <= k' < chip_ppb c -> k' <> ep ->
        nd_read_page d' (to * chip_ppb c + k') = nd_read_page (dev s) (to * chip_ppb c + k')) ->
     (failed = false -> nd_read_page d' (to * chip_ppb c + ep)
        = (0, (take (Z.to_nat (page_size c)) dat,
               migrated_oob (lay s) eb (take (Z.to_nat (oob_size c)) oob)))) ->
     Q failed (set_bufs da oo (set_dev d' s))) ->
  wp (migrate_error_page eb ep to dat oob) Q s.
Proof.
  intros Hg Heb Hto Hep Hdat Hoob Hblank HQ. unfold migrate_error_page. wp_steps.
  rewrite (block_u32 (lay s)) by done. rewrite (go_chip c _ Hg).
  pose proof (oob_size_ge c Hc) as Hge. pose proof (oob_size_le c Hc) as Hle.
  set (o := take (Z.to_nat (oob_size c)) oob).
  assert (Z.of_nat (length o) = oob_size c) as Ho by (unfold o; rewrite length_take; lia).
  set (o1 := splice (memset 255 MAX_OOB_SIZE) 0 o).
  assert (take (Z.to_nat (oob_size c)) o1 = o) as Ho1 by (by apply take_splice_0).
  pose proof (length_splice_0 (memset 255 MAX_OOB_SIZE) o) as Hl.
  apply (wp_mono _ (fun _ s' => exists oo, s' = set_bufs (dat_buf s) oo s /\
     oob_size c <= Z.of_nat (length oo) /\
     take (Z.to_nat (oob_size c)) oo = migrated_oob (lay s) eb o)).
  { unfold migrated_oob. destruct (eb <? system_block_count (lay s)).
    - apply wp_modify. eexists. split; [done|]. simpl. fold o1 in Hl |- *. split.
      + rewrite length_set_bad_index by lia. lia.
      + rewrite set_bad_index_take by lia. by rewrite Ho1.
    - apply wp_ret. exists o1. split; [done|]. fold o1 in Hl. split; [lia|done]. }
  intros _ s' (oo & -> & Hool & Hoo). wp_steps.
  apply (write_spec (set_bufs (dat_buf s) oo s)); [done..|].
  intros rc' d' Hob Hm Hother Hw _. apply wp_ret. simpl in *.
  apply (HQ _ d' _ oo); [done..|].
  intros Hf. rewrite Hw; [|by destruct (Z.eqb_spec rc' 0)|done..]. by rewrite Hoo.
Qed.

(** ** The recursion of [migrate_from_bad] *)

Lemma s32_small z : 0 <= z < 2 ^ 31 -> s32 z = z.
Proof. intros Hz. unfold s32. rewrite Z.mod_small by lia. lia. Qed.

(** The block and the page of a byte offset inside the chip. *)
Lemma offset_split l offset :
  geo_ok c l -> 0 <= offset < chip_blocks c * block_size c ->
  Z.quot (s32 offset) (BLOCK_SIZE_BMT l) = offset / block_size c /\
  Z.rem (Z.quot (s32 offset) (PAGE_SIZE_BMT l)) (page_per_block l)
    = (offset / page_size c) mod chip_ppb c /\
  0 <= offset / block_size c < total_block_count l /\
  0 <= (offset / page_size c) mod chip_ppb c < chip_ppb c.
Proof.
  intros Hg Ho. pose proof (chip_size_bound c Hc). pose proof (block_size_pos c Hc).
  pose proof (page_size_pos c Hc). pose proof (chip_ppb_pos c Hc).
  rewrite s32_small by lia. unfold BLOCK_SIZE_BMT, PAGE_SIZE_BMT.
  rewrite (go_chip c _ Hg), (go_ppb c _ Hg), (go_total c _ Hg).
  rewrite !Z.quot_div_nonneg by lia.
  rewrite Z.rem_mod_nonneg by (done || apply Z.div_pos; lia).
  split_and!; [done|done|apply Z.div_pos; lia| | |].
  - apply Z.div_lt_upper_bound; lia.
  - apply Z.mod_pos_bound. lia.
  - apply Z.mod_pos_bound. lia.
Qed.

(** Marking the block that was handed out, after work that touched only it. *)
Lemma mark_found s1 r d2 d3 from_end :
  geo_ok c (lay s1) -> pool_blank (c:=c) s1 -> first_avail (c:=c) s1 from_end r ->
  only_block c r (dev s1) d2 -> bad_mono (c:=c) (dev s1) d2 ->
  only_block c r d2 d3 -> is_bad c d3 r = true ->
  pool_blank (c:=c) (set_dev d3 s1) /\ touches (c:=c) (pool_avail (c:=c) s1) (dev s1) d3 /\
  bad_mono (c:=c) (dev s1) d3 /\
  (forall b, pool_avail (c:=c) (set_dev d3 s1) b -> pool_avail (c:=c) s1 b) /\
  availb (c:=c) (set_dev d3 s1) r = false.
Proof.
  intros Hg Hbl [Hr _] Ho2 Hm2 Ho3 Hbad.
  assert (bad_mono (c:=c) (dev s1) d3) as Hm3.
  { eapply bad_mono_trans; [exact Hm2|]. by eapply only_block_bad_mono. }
  assert (availb (c:=c) (set_dev d3 s1) r = false) as Hav.
  { unfold availb. simpl. rewrite Hbad. by destruct (r =? _), (r =? _). }
  assert (forall b, pool_avail (c:=c) (set_dev d3 s1) b -> pool_avail (c:=c) s1 b) as Hsub.
  { intros b [Hb Hbav]. split; [done|]. eapply availb_mono; [exact Hm3| |done].
    pose proof (in_pool_range (lay s1) b Hg Hb). lia. }
  pose proof (only_block_trans _ _ _ _ Ho2 Ho3) as Ho. split_and!; [|by eapply only_block_touches|done..].
  intros He b Hb. destruct (decide (b = r)) as [->|Hne].
  { destruct Hb as [_ Hb]. simpl in *. congruence. }
  pose proof (Hsub b Hb) as Hb1.
  pose proof (in_pool_range (lay s1) b Hg (proj1 Hb1)) as Hrange.
  destruct (Ho b ltac:(lia) Hne) as [Hs _]. simpl in *.
  eapply block_blank_same; [exact Hs|]. by apply Hbl.
Qed.

Definition migrate_post s offset reason dat oob (r : Z) (s' : st D) : Prop :=
  exists d' da oo, s' = upd d' da oo s /\
    touches (c:=c) (pool_avail (c:=c) s) (dev s) d' /\ bad_mono (c:=c) (dev s) d' /\
    (r = 0 /\ pool_blank (c:=c) s' /\ (forall b, ~ pool_avail (c:=c) s' b) \/
     pool_avail (c:=c) s r /\
     migrated s (offset / block_size c) ((offset / page_size c) mod chip_ppb c) reason dat oob d' r /\
     (forall b, pool_avail (c:=c) s' b -> b <> r -> block_blank c d' b)).

(** The contents to migrate do not change when other blocks do. *)
Lemma migrated_same s s0 eb ep reason dat oob d' to :
  lay s = lay s0 -> same_block c (dev s0) (dev s) eb ->
  migrated s eb ep reason dat oob d' to -> migrated s0 eb ep reason dat oob d' to.
Proof.
  intros Hl Hs []. split.
  - intros k Hk Hke Hw Hr. unfold readable in *. rewrite mg_copy0; [|done..|by rewrite Hs].
    unfold migrated_page. rewrite Hs, Hl by done. done.
  - by rewrite mg_error0, Hl.
  - done.
Qed.

Lemma migrate_post_trans s s1 offset reason dat oob r s' d1 da oo :
  geo_ok c (lay s) -> 0 <= offset < chip_blocks c * block_size c ->
  ~ pool_avail (c:=c) s (offset / block_size c) ->
  s1 = upd d1 da oo s -> touches (c:=c) (pool_avail (c:=c) s) (dev s) d1 ->
  bad_mono (c:=c) (dev s) d1 ->
  migrate_post s1 offset reason dat oob r s' -> migrate_post s offset reason dat oob r s'.
Proof.
  intros Hg Ho Hna Hs1 Ht1 Hm1 (d' & da' & oo' & Hs' & Ht' & Hm' & Hcase).
  assert (forall b, pool_avail (c:=c) s1 b -> pool_avail (c:=c) s b) as Hsub.
  { subst s1. intros b [Hb Hbav]. split; [done|]. eapply availb_mono; [exact Hm1| |done].
    pose proof (in_pool_range (lay s) b Hg Hb). lia. }
  assert (dev s1 = d1) as Hd1 by (by subst s1). rewrite Hd1 in *.
  exists d', da', oo'. split_and!.
  - by subst s1.
  - eapply touches_trans; [exact Ht1|]. by eapply touches_mono.
  - by eapply bad_mono_trans.
  - destruct Hcase as [?|(Hr & Hmig & Hbl)]; [by left|right]. split_and!; [auto| |done].
    destruct (offset_split (lay s) offset Hg Ho) as (_ & _ & Hebr & _).
    eapply migrated_same; [|rewrite Hd1|exact Hmig]; [by subst s1|].
    apply Ht1; [|done]. by rewrite <- (go_total c _ Hg).
Qed.

(** One attempt at copying block [eb] to [r]. *)
Lemma migrate_attempt_spec s1 eb ep r reason dat oob (k : bool -> M (st D) Z) Q :
  let amount := if bool_decide (reason = UPDATE_WRITE_FAIL) then ep else chip_ppb c in
  geo_ok c (lay s1) -> 0 <= eb < total_block_count (lay s1) -> 0 <= ep < chip_ppb c ->
  0 <= r < total_block_count (lay s1) -> r <> eb -> block_blank c (dev s1) r ->
  page_size c <= Z.of_nat (length dat) -> oob_size c <= Z.of_nat (length oob) ->
  (forall failed d' da oo, only_block c r (dev s1) d' -> bad_mono (c:=c) (dev s1) d' ->
     (failed = false -> migrated s1 eb ep reason dat oob d' r) ->
     wp (k failed) Q (set_bufs da oo (set_dev d' s1))) ->
  wp (for_loop (Z.to_nat amount) 0 1 (fun page =>
        if page =? ep then ret None
        else let! f := migrate_page eb r page in ret (if f then Some tt else None)))
    (fun rl => wp (let! failed := match rl with
                                  | Some _ => ret true
                                  | None => migrate_error_page eb ep r dat oob
                                  end in k failed) Q) s1.
Proof.
  intros amount Hg Heb Hep Hr Hne Hblank Hdat Hoob HQ.
  assert (0 <= amount <= chip_ppb c) as Ham by (unfold amount; case_bool_decide; lia).
  apply (copy_loop_spec s1 eb ep r amount); [done..|].
  intros rl d2 da oo Ho2 Hm2 Hcopy. apply wp_bind. destruct rl as [[]|].
  { by apply wp_ret, HQ. }
  destruct Hcopy as [Hcp Hrest]; [done|].
  apply migrate_error_page_spec; [done..| |].
  { apply Hrest; [done|by left]. }
  intros failed d3 da3 oo3 Ho3 Hm3 Hother Hok. simpl in *. apply (HQ failed d3 da3 oo3).
  - by eapply only_block_trans.
  - by eapply bad_mono_trans.
  - intros Hf. split.
    + intros i Hi Hie Hw Hrd. rewrite Hother by done. apply Hcp; [|done|done].
      unfold amount. case_bool_decide; [|lia]. split; [lia|]. by apply Hw.
    + by apply Hok.
    + intros i Hw Hi. unfold page_blank. rewrite Hother by lia. apply Hrest; [lia|].
      unfold amount. rewrite bool_decide_eq_true_2 by done. lia.
Qed.

(** The attempt succeeded. *)
Lemma migrate_post_found s s1 d1 offset reason dat oob r d' da oo :
  geo_ok c (lay s) -> 0 <= offset < chip_blocks c * block_size c ->
  ~ pool_avail (c:=c) s (offset / block_size c) ->
  s1 = set_pool_erased true (set_dev d1 s) ->
  touches (c:=c) (pool_avail (c:=c) s) (dev s) d1 -> bad_mono (c:=c) (dev s) d1 ->
  pool_blank (c:=c) s1 -> pool_avail (c:=c) s1 r ->
  only_block c r d1 d' -> bad_mono (c:=c) d1 d' ->
  migrated s1 (offset / block_size c) ((offset / page_size c) mod chip_ppb c) reason dat oob d' r ->
  migrate_post s offset reason dat oob r (set_bufs da oo (set_dev d' s1)).
Proof.
  intros Hg Ho Hna -> Ht1 Hm1 Hb1 Hr Ho' Hm' Hmig.
  assert (bad_mono (c:=c) (dev s) d') as Hm by by eapply bad_mono_trans.
  assert (pool_avail (c:=c) s r) as Hrs by exact (pool_avail_back s d1 r Hg Hm1 Hr).
  destruct (offset_split (lay s) offset Hg Ho) as (_ & _ & Hebr & _).
  exists d', da, oo. split_and!; [done| |done|right; split_and!; [done| |]].
  - eapply touches_trans; [exact Ht1|]. by apply (only_block_touches _ r).
  - eapply migrated_same; [| |exact Hmig]; [done|].
    apply Ht1; [|done]. by rewrite <- (go_total c _ Hg).
  - intros b Hb Hbr.
    pose proof (pool_avail_back (set_pool_erased true (set_dev d1 s)) d' b Hg Hm' Hb) as Hb1'.
    pose proof (in_pool_range (lay s) b Hg (proj1 Hb1')) as Hbrange.
    destruct (Ho' b ltac:(lia) Hbr) as [Hs _]. eapply block_blank_same; [exact Hs|]. by apply Hb1.
Qed.

Lemma migrate_from_bad_spec fuel s offset reason dat oob Q :
  geo_ok c (lay s) -> table_ok (lay s) (bmt s) -> pool_blank (c:=c) s ->
  0 <= offset < chip_blocks c * block_size c ->
  page_size c <= Z.of_nat (length dat) -> oob_size c <= Z.of_nat (length oob) ->
  ~ pool_avail (c:=c) s (offset / block_size c) ->
  (avail_count s < fuel)%nat ->
  (forall r s', migrate_post s offset reason dat oob r s' -> Q r s') ->
  wp (migrate_from_bad fuel offset reason dat oob) Q s.
Proof.
  revert s. induction fuel as [|fuel IH]; intros s Hg Ht Hbl Ho Hdat Hoob Hna Hfuel HQ; [lia|].
  cbn [migrate_from_bad]. wp_steps.
  destruct (offset_split (lay s) offset Hg Ho) as (-> & -> & Heb & Hep). rewrite (go_ppb c _ Hg).
  apply (find_available_block_spec Hc); [done..|].
  intros r d1 s1 Hs1 Ht1 Hm1 Hb1 Hr.
  assert (lay s1 = lay s) as Hl1 by (by subst s1).
  assert (forall b, pool_avail (c:=c) s1 b -> pool_avail (c:=c) s b) as Hsub.
  { subst s1. intros b Hb. by apply (pool_avail_back s d1). }
  destruct (Z.eqb_spec r 0) as [->|Hr0].
  { apply wp_ret, HQ. exists d1, (dat_buf s), (oob_buf s).
    split_and!; [by subst s1; destruct s|done..|].
    destruct Hr as [[_ Hnone]|[[Hr _] _]]; [by left|]. rewrite Hl1 in Hr.
    pose proof (in_pool_range (lay s) 0 Hg Hr). lia. }
  destruct Hr as [[? _]|Hr]; [done|]. pose proof (proj1 Hr) as Hrav.
  pose proof (in_pool_range (lay s) r Hg (proj1 (Hsub r Hrav))) as Hrange.
  apply wp_bind, (migrate_attempt_spec s1 _ _ r reason dat oob
    (fun failed => if failed then _ else ret r)); [by rewrite Hl1..|done|rewrite Hl1, (go_total c _ Hg); lia| | |done|done|].
  { intros ->. by apply Hna, Hsub. }
  { apply Hb1; [by subst s1|done]. }
  intros failed d2 da oo Ho2 Hm2 Hok. destruct failed.
  2: { apply wp_ret, HQ. subst s1. apply (migrate_post_found s _ d1); auto. }
  apply wp_bind. change (lay s) with (lay s). rewrite <- Hl1.
  change (lay s1) with (lay (set_bufs da oo (set_dev d2 s1))).
  apply (mark_spec Hc); [by simpl; rewrite Hl1|simpl; rewrite Hl1, (go_total c _ Hg); lia|by right|].
  intros rc d3 Ho3 Hbad. simpl in *.
  destruct (mark_found s1 r d2 d3 false) as (Hb3 & Ht3 & Hm3 & Hsub3 & Hav3); [by rewrite ?Hl1..|].
  assert (set_dev d3 (set_bufs da oo (set_dev d2 s1)) = upd d3 da oo s) as -> by (by subst s1).
  subst s1. apply IH; [done|done|exact Hb3|done|done|done| | |].
  - intros H. by apply Hna, Hsub, Hsub3.
  - eapply Nat.lt_le_trans; [|apply Nat.lt_succ_r, Hfuel].
    apply (avail_count_lt s _ r); [done|done| |by apply Hsub|done].
    intros b Hb. by apply Hsub, Hsub3.
  - intros r' s' Hpost. apply HQ. eapply migrate_post_trans; [done|done|done|done| | |done].
    + eapply touches_trans; [exact Ht1|]. by eapply touches_mono.
    + by eapply bad_mono_trans.
Qed.
End migrate.
