(* ===== verification/BmtWrite.v ===== *)
(** Writing the tables to the pool: [write_bmt_to_flash], [write_bbt_to_flash].

    [index_ok] is what the index of the BMT block satisfies between
    operations.  The specification leaves out one block, [x], which the caller
    has released and which may hold data: if the writer chooses that block the
    table need not be readable.  Any number that is no pool block leaves out
    nothing.  Both writers retry on another block when the flash refuses
    one; the number of available blocks bounds the retries. *)

From stdpp Require Import base numbers list option gmap.
From Stdlib Require Import ZArith Lia.
From S2P Require Import Prelude NandIf BmtData Bmt BmtBase BmtAlloc BmtMigrate.

Section write.
Context {D : Type} {HD : NandDev D} {c : chip} {HL : NandLaws D c} {HM : NandMarks D c} (Hc : chip_ok c).
Implicit Type s : st D.

(** The block of a table: none yet, or a healthy block of the pool that is
    not handed out. *)
Definition index_ok s (i : Z) : Prop :=
  i = 0 \/ in_pool (lay s) i /\ is_bad c (dev s) i = false /\ i ∉ mapped_blocks (bmt s).

(** The first page of the block holds the buffers. *)
Definition holds (d : D) (b : Z) (dat oob : list Z) : Prop :=
  nd_read_page d (b * chip_ppb c) =
    (0, (take (Z.to_nat (page_size c)) dat, take (Z.to_nat (oob_size c)) oob)).

(** The globals after a writer: device, pool flag and BMT index. *)
Definition updw (d : D) (pe : bool) (i : Z) s : st D :=
  set_pool_erased pe (set_bmt_index i (set_dev d s)).

(** What a writer may touch. *)
Definition owned s (b : Z) : Prop :=
  in_pool (lay s) b /\ b = bmt_block_index s \/ pool_avail (c:=c) s b.

Definition write_post (x : Z) s (dat oob : list Z) (r : bool) (s' : st D) : Prop :=
  exists d' pe i, s' = updw d' pe i s /\
    touches (c:=c) (owned s) (dev s) d' /\
    bad_mono (c:=c) (dev s) d' /\ pool_blank_but (c:=c) x s' /\
    (forall b, pool_avail (c:=c) s' b -> pool_avail (c:=c) s b) /\
    (if r
     then owned s i /\ is_bad c d' i = false /\ (i <> x -> holds d' i dat oob)
     else i = 0 /\ forall b, ~ pool_avail (c:=c) s' b).

Lemma pool_avail_sub s d pe i :
  geo_ok c (lay s) -> bad_mono (c:=c) (dev s) d ->
  (i = bmt_block_index s \/ is_bad c d (bmt_block_index s) = true \/ bmt_block_index s = 0) ->
  forall b, pool_avail (c:=c) (updw d pe i s) b -> pool_avail (c:=c) s b.
Proof.
  intros Hg Hm Hi b [Hb Hav]. split; [done|].
  pose proof (in_pool_range (lay s) b Hg Hb) as Hr.
  unfold availb in *. simpl in *. rewrite !andb_true_iff, !negb_true_iff, !Z.eqb_neq in *.
  destruct Hav as [[[Hi' ?] Hbad] ?]. split_and!; [|done| |done].
  - destruct Hi as [->|[Hi| ->]]; [done| |lia]. intros ->. congruence.
  - destruct (is_bad c (dev s) b) eqn:E; [|done]. apply Hm in E; [|lia]. congruence.
Qed.

Lemma PAGE_ADDR_0 l b : PAGE_ADDR l b = PAGE_ADDR l b + 0.
Proof. lia. Qed.

(** Erasing (if asked) and programming the chosen block. *)
Definition program_block (bi : Z) (need_erase : bool) (dat oob : list Z) : M (st D) bool :=
  let! l := gets lay in
  let! erc := (if need_erase then nand_erase_bmt (OFFSET l bi) else ret 0) in
  if negb (erc =? 0) then ret false else
  let! rc := nand_write_page_bmt (PAGE_ADDR l bi) dat oob in
  ret (rc =? 0).

Lemma program_block_spec x s bi need_erase dat oob n Q :
  geo_ok c (lay s) -> in_pool (lay s) bi -> is_bad c (dev s) bi = false ->
  (need_erase = false -> bi <> x -> block_blank c (dev s) bi) ->
  page_size c <= Z.of_nat (length dat) -> oob_size c <= Z.of_nat (length oob) ->
  oob = memset 255 n ->
  (forall ok d', only_block c bi (dev s) d' -> bad_mono (c:=c) (dev s) d' ->
     (ok = true -> is_bad c d' bi = false /\ (bi <> x -> holds d' bi dat oob)) -> Q ok (set_dev d' s)) ->
  wp (program_block bi need_erase dat oob) Q s.
Proof.
  intros Hg Hb Hnb Hblank Hdat Hoob Hff HQ. unfold program_block. apply wp_bind, wp_gets, wp_bind.
  pose proof (in_pool_range _ _ Hg Hb) as Hr. pose proof (chip_ppb_pos c Hc) as Hppb.
  assert (0 <= bi < total_block_count (lay s)) as Hbt by (rewrite (go_total c _ Hg); lia).
  apply (wp_mono _ (fun erc s' => exists d1, s' = set_dev d1 s /\ only_block c bi (dev s) d1 /\
    is_bad c d1 bi = false /\ (erc = 0 -> bi <> x -> block_blank c d1 bi))).
  { destruct need_erase.
    - apply (erase_spec Hc); [done..|]. intros rc d1 Ho Hbl Hcl. exists d1. auto.
    - apply wp_ret. exists (dev s). split_and!; [by destruct s|apply only_block_refl|done|auto]. }
  intros erc s' (d1 & -> & Ho1 & Hnb1 & Hbl1).
  assert (bad_mono (c:=c) (dev s) d1) as Hm1.
  { eapply only_block_bad_mono; [exact Ho1|]. congruence. }
  destruct (Z.eqb_spec erc 0) as [->|]; simpl negb; cbv iota.
  2: { by apply wp_ret, HQ. }
  apply wp_bind. rewrite PAGE_ADDR_0. change (lay s) with (lay (set_dev d1 s)).
  apply (write_spec Hc); [done|done|lia|].
  intros rc d2 Ho2 Hm2 _ Hw Hcl. apply wp_ret. simpl in *. apply (HQ _ d2).
  - by eapply only_block_trans.
  - by eapply bad_mono_trans.
  - intros Hrc. apply Z.eqb_eq in Hrc as ->. split; [by eapply Hcl|].
    intros Hx. unfold holds. rewrite Z.add_0_r in Hw. apply Hw; [done..|].
    specialize (Hbl1 eq_refl Hx 0 ltac:(lia)). by rewrite Z.add_0_r in Hbl1.
Qed.

(** The code of both failure paths of [write_bmt_to_flash] is the same. *)
Lemma program_retry bi need_erase dat oob (retry : M (st D) bool) Q l s :
  l = lay s ->
  wp (let! ok := program_block bi need_erase dat oob in if ok then ret true else retry) Q s ->
  wp (let! erc := (if need_erase then nand_erase_bmt (OFFSET l bi) else ret 0) in
      if negb (erc =? 0) then retry else
      let! rc := nand_write_page_bmt (PAGE_ADDR l bi) dat oob in
      if negb (rc =? 0) then retry else ret true) Q s.
Proof.
  intros ->. unfold wp, program_block, bind, gets, ret. destruct need_erase.
  - destruct (nand_erase_bmt (OFFSET (lay s) bi) s) as [[erc s1]| |]; [|done..].
    destruct (erc =? 0); cbn [negb]; [|done].
    destruct (nand_write_page_bmt (PAGE_ADDR (lay s) bi) dat oob s1) as [[rc s2]| |]; [|done..].
    by destruct (rc =? 0).
  - cbn [negb Z.eqb].
    destruct (nand_write_page_bmt (PAGE_ADDR (lay s) bi) dat oob s) as [[rc s2]| |]; [|done..].
    by destruct (rc =? 0).
Qed.

(** The state in which a writer starts again. *)
Lemma retry_state s bi d pe :
  geo_ok c (lay s) -> bad_mono (c:=c) (dev s) d -> in_pool (lay s) bi -> owned s bi ->
  touches (c:=c) (owned s) (dev s) d -> is_bad c d bi = true ->
  bmt_block_index s = bi \/ bmt_block_index s = 0 ->
  (forall b, pool_avail (c:=c) (updw d pe 0%Z s) b -> pool_avail (c:=c) s b) /\
  (avail_count (c:=c) (updw d pe 0%Z s) <= avail_count (c:=c) s)%nat /\
  (bmt_block_index s = 0%Z -> avail_count (c:=c) (updw d pe 0%Z s) < avail_count (c:=c) s)%nat.
Proof.
  intros Hg Hm Hb Hown Ht Hbad Hidx.
  pose proof (in_pool_range _ _ Hg Hb) as Hr.
  assert (forall b, pool_avail (c:=c) (updw d pe 0%Z s) b -> pool_avail (c:=c) s b) as Hsub.
  { apply pool_avail_sub; [done|done|]. right. destruct Hidx as [->|]; auto. }
  split_and!; [done| |].
  - unfold avail_count. apply filter_length_le.
    intros b Hin Hav. apply (proj1 (elem_of_pool_list (lay s) b Hg)) in Hin. by apply Hsub.
  - intros H0. apply (avail_count_lt s _ bi); [done|done|done| |].
    + destruct Hown as [[_ Hx]|]; [lia|done].
    + unfold availb. simpl. rewrite Hbad. by destruct (_ =? _), (_ =? _).
Qed.

Lemma write_post_trans x s s2 d pe dat oob r s' :
  geo_ok c (lay s) -> s2 = updw d pe 0 s ->
  touches (c:=c) (owned s) (dev s) d -> bad_mono (c:=c) (dev s) d ->
  (forall b, pool_avail (c:=c) s2 b -> pool_avail (c:=c) s b) ->
  write_post x s2 dat oob r s' -> write_post x s dat oob r s'.
Proof.
  intros Hg Hs2 Ht Hm Hsub (d' & pe' & i & Hs' & Ht' & Hm' & Hbl & Hsub' & Hr).
  assert (forall b, owned s2 b -> owned s b) as Hown.
  { intros b [[Hb Hb0]|Hb]; [|right; auto]. subst s2. simpl in *.
    pose proof (in_pool_range _ _ Hg Hb). lia. }
  assert (dev s2 = d) as Hd by (by subst s2). rewrite Hd in *.
  exists d', pe', i. split_and!; [by subst s2| | |done|auto|].
  - eapply touches_trans; [exact Ht|]. by eapply touches_mono.
  - by eapply bad_mono_trans.
  - destruct r; [|done]. destruct Hr as [? ?]. auto.
Qed.

(** Between the choice of block [bi] and its use: [d] is the device, [pe] the
    pool flag. *)
Record chosen (x : Z) s (bi : Z) (d : D) (pe : bool) : Prop := {
  ch_in : in_pool (lay s) bi;
  ch_owned : owned s bi;
  ch_touches : touches (c:=c) (owned s) (dev s) d;
  ch_mono : bad_mono (c:=c) (dev s) d;
  ch_blank : pe = true -> forall b, b <> bi -> b <> x -> pool_avail (c:=c) (updw d pe 0 s) b ->
    block_blank c d b;
  ch_index : bmt_block_index s = bi \/ bmt_block_index s = 0
}.

(** An operation on [bi] keeps the other available blocks blank. *)
Lemma chosen_blank x s bi d d' i b :
  geo_ok c (lay s) -> chosen x s bi d true -> only_block c bi d d' -> bad_mono (c:=c) d d' ->
  pool_avail (c:=c) (updw d' true i s) b -> b <> bi -> b <> x -> block_blank c d' b.
Proof.
  intros Hg Hch Ho Hm [Hin Hav] Hne Hx. pose proof (in_pool_range (lay s) b Hg Hin) as Hr.
  destruct (Ho b ltac:(lia) Hne) as [Hs _]. eapply block_blank_same; [exact Hs|].
  apply (ch_blank _ _ _ _ _ Hch); [done|done|done|]. split; [done|].
  apply (availb_mono (updw d true 0 s) d'); [exact Hm|lia|].
  unfold availb in *. simpl in *. rewrite !andb_true_iff in *.
  destruct Hav as [[[_ ->] ->] ->]. by rewrite (proj2 (Z.eqb_neq b 0)) by lia.
Qed.

Lemma chosen_touches x s bi d d' pe :
  chosen x s bi d pe -> only_block c bi d d' -> bad_mono (c:=c) d d' ->
  touches (c:=c) (owned s) (dev s) d' /\ bad_mono (c:=c) (dev s) d'.
Proof.
  intros [] Ho Hm. split; [|by eapply bad_mono_trans].
  eapply touches_trans; [done|]. by eapply only_block_touches.
Qed.

(** The block has been programmed. *)
Lemma chosen_written x s bi d d' pe dat oob :
  geo_ok c (lay s) -> chosen x s bi d pe -> only_block c bi d d' -> bad_mono (c:=c) d d' ->
  is_bad c d' bi = false -> (bi <> x -> holds d' bi dat oob) ->
  write_post x s dat oob true (updw d' pe bi s).
Proof.
  intros Hg Hch Ho Hm Hnb Hh. destruct (chosen_touches x s bi d d' pe Hch Ho Hm) as [Ht' Hm'].
  exists d', pe, bi. split_and!; [done|done|done| | |apply Hch|done|done].
  - intros Hpe b Hav Hx. simpl in Hpe. subst pe. eapply chosen_blank; [done..| |done].
    intros ->. destruct Hav as [_ Hav]. unfold availb in Hav. simpl in Hav.
    by rewrite Z.eqb_refl in Hav.
  - apply pool_avail_sub; [done|done|]. destruct (ch_index _ _ _ _ _ Hch) as [?|?]; auto.
Qed.

(** What holds when the writer starts again from [s']. *)
Definition retry_ok (x : Z) s (s' : st D) : Prop :=
  exists d pe, s' = updw d pe 0 s /\
    touches (c:=c) (owned s) (dev s) d /\ bad_mono (c:=c) (dev s) d /\
    pool_blank_but (c:=c) x s' /\ (forall b, pool_avail (c:=c) s' b -> pool_avail (c:=c) s b) /\
    (avail_count (c:=c) s' < avail_count (c:=c) s + (if (bmt_block_index s =? 0)%Z then 0 else 1))%nat.

Lemma chosen_retry x s bi d d' pe :
  geo_ok c (lay s) -> chosen x s bi d pe -> only_block c bi d d' -> bad_mono (c:=c) d d' ->
  is_bad c d' bi = true -> retry_ok x s (updw d' pe 0 s).
Proof.
  intros Hg Hch Ho Hm Hbad. destruct (chosen_touches x s bi d d' pe Hch Ho Hm) as [Ht' Hm'].
  destruct (retry_state s bi d' pe) as (Hsub & Hle & Hlt); [done..|apply Hch|apply Hch|done|done|apply Hch|].
  exists d', pe. split_and!; [done|done|done| |done|].
  - intros Hpe b Hav Hx. simpl in Hpe. subst pe. eapply chosen_blank; [done..| |done].
    intros ->. apply (pool_avail_not_bad (c:=c)) in Hav. simpl in Hav. congruence.
  - destruct (Z.eqb_spec (bmt_block_index s) 0) as [e|]; [specialize (Hlt e)|]; lia.
Qed.

Lemma program_or_retry_spec x s bi ne dat oob n d pe (retry : M (st D) bool) Q :
  geo_ok c (lay s) -> page_size c <= Z.of_nat (length dat) ->
  oob_size c <= Z.of_nat (length oob) -> oob = memset 255 n ->
  chosen x s bi d pe -> is_bad c d bi = false -> (ne = false -> bi <> x -> block_blank c d bi) ->
  (forall s', retry_ok x s s' -> wp retry Q s') ->
  (forall s', write_post x s dat oob true s' -> Q true s') ->
  wp (let! ok := program_block bi ne dat oob in
      if ok then ret true
      else do! mark_block_bad_bmt (OFFSET (lay s) bi) BMT_BADBLOCK_GENERATE_LATER in
           do! modify (set_bmt_index 0) in retry) Q (updw d pe bi s).
Proof.
  intros Hg Hdat Hoob Hff Hch Hnb Hblank Hretry HQ. apply wp_bind.
  pose proof (in_pool_range _ _ Hg (ch_in _ _ _ _ _ Hch)) as Hr.
  assert (0 <= bi < total_block_count (lay s)) as Hbt by (rewrite (go_total c _ Hg); lia).
  eapply (program_block_spec x (updw d pe bi s)); [done|apply Hch|done..|].
  intros ok d2 Ho2 Hm2 Hok. simpl in *. destruct ok.
  { destruct Hok; [done|]. apply wp_ret, HQ. by apply (chosen_written x s bi d). }
  apply wp_bind. change (lay s) with (lay (updw d2 pe bi s)).
  apply (mark_spec Hc); [done|done|by right|]. intros rc d3 Ho3 Hbad. simpl in *. wp_steps.
  assert (bad_mono (c:=c) d2 d3) as Hm3 by by eapply only_block_bad_mono.
  apply Hretry. change (retry_ok x s (updw d3 pe 0 s)). apply (chosen_retry x s bi d); [done|done| | |done].
  - by eapply only_block_trans.
  - by eapply bad_mono_trans.
Qed.

(** The block [find_available_block] has answered. *)
Lemma chosen_allocated x s s1 d1 r :
  geo_ok c (lay s) -> s1 = set_pool_erased true (set_dev d1 s) -> bmt_block_index s = 0 ->
  touches (c:=c) (pool_avail (c:=c) s) (dev s) d1 -> bad_mono (c:=c) (dev s) d1 ->
  pool_blank_but (c:=c) x s1 -> pool_avail (c:=c) s1 r ->
  chosen x s r d1 true /\ is_bad c d1 r = false /\ (r <> x -> block_blank c d1 r).
Proof.
  intros Hg -> H0 Ht1 Hm1 Hb1 Hr.
  assert (updw d1 true 0 s = set_pool_erased true (set_dev d1 s)) as Hu
    by (rewrite <- H0; by destruct s).
  split_and!; [|by apply (pool_avail_not_bad (c:=c)) in Hr|by apply Hb1].
  split; [apply Hr| |eapply touches_mono; [|exact Ht1]; by right|done| |by right].
  - right. rewrite <- Hu in Hr. revert Hr. apply pool_avail_sub; auto.
  - intros _ b _ Hx Hb. rewrite Hu in Hb. by apply Hb1.
Qed.

(** The block the table is already in. *)
Lemma chosen_current x s :
  geo_ok c (lay s) -> pool_blank_but (c:=c) x s -> in_pool (lay s) (bmt_block_index s) ->
  chosen x s (bmt_block_index s) (dev s) (pool_erased s).
Proof.
  intros Hg Hbl Hin. split; [done|by left|apply touches_refl|apply bad_mono_refl| |by left].
  intros He b Hne Hx [Hb Hav]. apply Hbl; [done| |done]. split; [done|].
  unfold availb in *. simpl in *. rewrite !andb_true_iff in *.
  destruct Hav as [[[_ ->] ->] ->]. by rewrite (proj2 (Z.eqb_neq _ _) Hne).
Qed.

Lemma write_bmt_to_flash_spec x fuel s dat oob n Q :
  geo_ok c (lay s) -> table_ok (lay s) (bmt s) -> pool_blank_but (c:=c) x s ->
  index_ok s (bmt_block_index s) ->
  page_size c <= Z.of_nat (length dat) -> oob_size c <= Z.of_nat (length oob) ->
  oob = memset 255 n ->
  (avail_count (c:=c) s + (if (bmt_block_index s =? 0)%Z then 0 else 1) < fuel)%nat ->
  (forall r s', write_post x s dat oob r s' -> Q r s') ->
  wp (write_bmt_to_flash fuel dat oob) Q s.
Proof.
  revert s. induction fuel as [|fuel IH]; intros s Hg Ht Hbl Hidx Hdat Hoob Hff Hfuel HQ; [lia|].
  cbn [write_bmt_to_flash]. wp_steps.
  assert (forall s', retry_ok x s s' -> wp (write_bmt_to_flash fuel dat oob) Q s') as Hretry.
  { intros s' (d & pe & Hs' & Ht' & Hm' & Hbl' & Hsub' & Hn').
    apply IH; [by subst s'|by subst s'|done|by subst s'; left|done|done|done| |].
    - subst s'. simpl in *. lia.
    - intros r s'' Hpost. apply HQ. by eapply write_post_trans. }
  assert (forall s', write_post x s dat oob true s' -> Q true s') as Hdone by auto.
  destruct (Z.eqb_spec (bmt_block_index s) 0) as [H0|H0]; cbn [negb].
  - wp_steps. apply (find_available_block_but_spec Hc x); [done..|].
    intros r d1 s1 Hs1 Ht1 Hm1 Hb1 Hr. wp_steps.
    destruct (Z.eqb_spec r 0) as [->|Hr0].
    { assert (updw d1 true 0 s = s1) as Hu by (rewrite <- H0; by subst s1; destruct s).
      apply wp_ret, HQ. exists d1, true, 0. subst s1. rewrite <- Hu in Hb1, Hr |- *.
      destruct Hr as [[_ Hnone]|[[Hr _] _]].
      2: { pose proof (in_pool_range (lay s) 0 Hg Hr). lia. }
      split_and!; [done|eapply touches_mono; [|exact Ht1]; by right|done|done| |done|done].
      apply pool_avail_sub; auto. }
    destruct Hr as [[? _]|[Hr _]]; [done|]. apply (program_retry r false); [by subst s1|].
    destruct (chosen_allocated x s s1 d1 r) as (Hch & Hnb & Hblank); [done..|].
    assert (set_bmt_index r s1 = updw d1 true r s) as -> by (by subst s1).
    by apply (program_or_retry_spec x s r false dat oob n d1 true).
  - wp_steps. destruct Hidx as [?|(Hin & Hnb & Hnm)]; [done|].
    rewrite (proj2 (Z.eqb_neq _ _)) by done. apply (program_retry _ true); [done|].
    assert (s = updw (dev s) (pool_erased s) (bmt_block_index s) s) as Hs by (by destruct s).
    pose proof (program_or_retry_spec x s (bmt_block_index s) true dat oob n (dev s) (pool_erased s)
      (write_bmt_to_flash fuel dat oob) Q Hg Hdat Hoob Hff (chosen_current x s Hg Hbl Hin) Hnb
      ltac:(done) Hretry Hdone) as Hw.
    by rewrite <- Hs in Hw.
Qed.
End write.
