(* ===== verification/BmtMap.v ===== *)
(** The mapping a table represents.

    [bmt_map] is the abstract state of the bad-block table: a finite map from
    bad blocks to their replacements.  The address translation of the code is
    a lookup in it, [update_table] an insertion, [remove_entry] (on the entry
    it is meant for) a deletion.  [inv] is the invariant of the component
    between calls. *)

From stdpp Require Import base numbers list option gmap.
From Stdlib Require Import ZArith Lia.
From S2P Require Import Prelude NandIf BmtData Bmt BmtBase BmtAlloc BmtMigrate BmtWrite.

Definition pair_of (e : bmt_entry) : Z * Z := (bad_index e, mapped_index e).

Definition map_of (es : list bmt_entry) : gmap Z Z := list_to_map (pair_of <$> es).

Definition bmt_map (b : bmt_struct) : gmap Z Z := map_of (entries b).

Lemma fst_pair_of es : (pair_of <$> es).*1 = bad_index <$> es.
Proof. rewrite <- list_fmap_compose. done. Qed.

Lemma search_map_of es i index :
  search (fun _ e => if bad_index e =? index then Some (mapped_index e) else None) es i
  = map_of es !! index.
Proof.
  revert i. induction es as [|e es IH]; intros i; simpl; [done|].
  unfold map_of. simpl. destruct (Z.eqb_spec (bad_index e) index) as [->|Hne].
  - by rewrite lookup_insert_eq.
  - rewrite lookup_insert_ne by done. apply IH.
Qed.

Lemma map_of_None es k : map_of es !! k = None <-> k ∉ bad_index <$> es.
Proof. unfold map_of. rewrite <- not_elem_of_list_to_map, fst_pair_of. done. Qed.

Lemma map_of_snoc es e :
  bad_index e ∉ bad_index <$> es -> map_of (es ++ [e]) = <[bad_index e := mapped_index e]> (map_of es).
Proof.
  intros Hn. unfold map_of. rewrite fmap_app, list_to_map_app. simpl.
  rewrite insert_empty. symmetry. apply insert_union_singleton_r.
  by apply map_of_None.
Qed.

(** Entries are independent of their order as long as no block occurs twice. *)
Lemma map_of_middle es1 e es2 :
  NoDup (bad_index <$> (es1 ++ e :: es2)) ->
  map_of (es1 ++ e :: es2) = <[bad_index e := mapped_index e]> (map_of (es1 ++ es2)).
Proof.
  intros Hnd. unfold map_of. rewrite <- fst_pair_of in Hnd.
  rewrite (list_to_map_proper _ (pair_of <$> (e :: es1 ++ es2))); [done|done|].
  by rewrite Permutation_middle.
Qed.

Lemma entries_snoc b (e : bmt_entry) v bc :
  0 <= mapped_count b < Z.of_nat (length (table b)) ->
  entries (Bmt (<[Z.to_nat (mapped_count b) := e]> (table b)) v (mapped_count b + 1) bc)
    = entries b ++ [e].
Proof.
  intros Hn. unfold entries. simpl.
  replace (Z.to_nat (mapped_count b + 1)) with (S (Z.to_nat (mapped_count b))) by lia.
  rewrite (take_S_r _ _ e) by (rewrite list_lookup_insert_eq by lia; done).
  by rewrite take_insert_ge by lia.
Qed.

Lemma entries_insert b j (e : bmt_entry) :
  (j < Z.to_nat (mapped_count b))%nat ->
  entries (Bmt (<[j := e]> (table b)) (version b) (mapped_count b) (bad_count b))
    = <[j := e]> (entries b).
Proof. intros Hj. unfold entries. simpl. by rewrite take_insert_lt. Qed.

Section map_queries.
Context {D : Type} `{NandDev D}.
Implicit Type s : st D.

Lemma get_mapping_by_bmt_eq s index :
  table_ok (lay s) (bmt s) -> bmt_block_count (lay s) <= MAX_BMT_SIZE ->
  0 <= index < 2 ^ 32 ->
  get_mapping_block_index_by_bmt index s =
    Done (if index <? system_block_count (lay s)
          then default index (bmt_map (bmt s) !! index) else index, s).
Proof.
  intros Ht Hm Hi. unfold get_mapping_block_index_by_bmt, bind at 1, gets. cbv beta iota.
  rewrite u32_small by done. rewrite Z.ltb_antisym.
  destruct (system_block_count (lay s) <=? index); [done|]. unfold bind at 1 2.
  rewrite (table_search (fun _ e => if bad_index e =? index then Some (mapped_index e) else None)
    (lay s)) by done.
  rewrite search_map_of. done.
Qed.
End map_queries.

(** ** Extending and changing a well-formed table *)

Section table_update.
Context {c : chip} {l : layout} (Hg : geo_ok c l).

Lemma mapped_room b to :
  bmt_ok l b -> in_pool l to -> to ∉ mapped_blocks b -> mapped_count b < bmt_block_count l.
Proof.
  intros [[Hlen Hcount] Hrange _ Hnd] Hto Hn.
  assert (length (mapped_blocks b) = Z.to_nat (mapped_count b)) as Hl.
  { unfold mapped_blocks, entries. rewrite length_fmap, length_take.
    pose proof (go_pool c l Hg). lia. }
  assert ((to :: mapped_blocks b) ⊆+ pool_list l) as Hsub%submseteq_length.
  { apply NoDup_submseteq; [by constructor|].
    intros x [->|Hx]%elem_of_cons; apply (elem_of_pool_list l _ Hg); [done|].
    unfold mapped_blocks in Hx. apply list_elem_of_fmap in Hx as (e & -> & He).
    rewrite Forall_forall in Hrange. apply Hrange in He. unfold in_pool. lia. }
  unfold pool_list in Hsub. rewrite length_seqZ in Hsub. simpl in Hsub.
  pose proof (go_pool c l Hg). lia.
Qed.

(** A new entry for a system block. *)
Lemma bmt_ok_snoc b bad to v bc :
  bmt_ok l b -> 0 <= bad < system_block_count l -> bmt_map b !! bad = None ->
  in_pool l to -> to ∉ mapped_blocks b ->
  let b' := Bmt (<[Z.to_nat (mapped_count b) := Entry bad to]> (table b)) v (mapped_count b + 1) bc in
  bmt_ok l b' /\ bmt_map b' = <[bad := to]> (bmt_map b) /\
  mapped_blocks b' = mapped_blocks b ++ [to].
Proof.
  intros Hok Hbad Hnone Hto Hn. pose proof (mapped_room b to Hok Hto Hn) as Hroom.
  pose proof (go_pool c l Hg) as Hpool. destruct Hok as [[Hlen Hcount] Hrange Hndb Hndm].
  intros b'. assert (entries b' = entries b ++ [Entry bad to]) as He.
  { apply entries_snoc. unfold MAX_BMT_SIZE in *. lia. }
  apply map_of_None in Hnone. unfold bmt_map, mapped_blocks. rewrite He. split_and!.
  - split.
    + split; simpl; [by rewrite length_insert|lia].
    + rewrite He. apply Forall_app. split; [done|]. apply Forall_singleton. done.
    + rewrite He, fmap_app. apply NoDup_app. split_and!; [done| |apply NoDup_singleton].
      simpl. set_solver.
    + rewrite He, fmap_app. apply NoDup_app. split_and!; [done| |apply NoDup_singleton].
      simpl. set_solver.
  - by apply (map_of_snoc _ (Entry bad to)).
  - by rewrite fmap_app.
Qed.

(** The entry whose replacement failed gets another one. *)
Lemma bmt_ok_remap b j e to :
  bmt_ok l b -> entries b !! j = Some e -> in_pool l to -> to ∉ mapped_blocks b ->
  let b' := Bmt (<[j := Entry (bad_index e) to]> (table b)) (version b) (mapped_count b) (bad_count b) in
  bmt_ok l b' /\ bmt_map b' = <[bad_index e := to]> (bmt_map b) /\
  (forall x, x ∈ mapped_blocks b' <-> x = to \/ x ∈ mapped_blocks b /\ x <> mapped_index e).
Proof.
  intros [[Hlen Hcount] Hrange Hndb Hndm] Hj Hto Hn. intros b'.
  assert (j < Z.to_nat (mapped_count b))%nat as Hlt.
  { apply lookup_lt_Some in Hj. unfold entries in Hj. rewrite length_take in Hj. lia. }
  apply list_elem_of_split_length in Hj as (es1 & es2 & Hes & ->).
  assert (entries b' = es1 ++ Entry (bad_index e) to :: es2) as He.
  { unfold b'. rewrite entries_insert by done. rewrite Hes. by rewrite insert_app_r_alt, Nat.sub_diag by lia. }
  assert (bad_index <$> entries b' = bad_index <$> entries b) as Hb.
  { rewrite He, Hes, !fmap_app. done. }
  assert (mapped_blocks b = (mapped_index <$> es1) ++ mapped_index e :: (mapped_index <$> es2)) as Hm.
  { unfold mapped_blocks. by rewrite Hes, fmap_app. }
  assert (mapped_blocks b' = (mapped_index <$> es1) ++ to :: (mapped_index <$> es2)) as Hm'.
  { unfold mapped_blocks. by rewrite He, fmap_app. }
  change (NoDup (mapped_blocks b)) in Hndm. rewrite Hm in Hndm, Hn.
  apply NoDup_app in Hndm as (Hnd1 & Hdisj & Hnd2). apply NoDup_cons in Hnd2 as [Hne2 Hnd2].
  split_and!.
  - split.
    + split; simpl; [by rewrite length_insert|done].
    + rewrite He. rewrite Hes in Hrange. apply Forall_app in Hrange as [Hr1 Hr2].
      apply Forall_cons in Hr2 as [Hr Hr2]. apply Forall_app; split; [done|].
      apply Forall_cons; split; [simpl; split; [lia|exact Hto]|done].
    + by rewrite Hb.
    + change (NoDup (mapped_blocks b')). rewrite Hm'. apply NoDup_app. split_and!; [done| |].
      * intros x Hx [->|Hx2]%elem_of_cons.
        -- by apply Hn, elem_of_app; left.
        -- by apply (Hdisj x Hx), elem_of_cons; right.
      * apply NoDup_cons. split; [|done].
        intros Hx. by apply Hn, elem_of_app; right; apply elem_of_cons; right.
  - unfold bmt_map. rewrite He, Hes. rewrite <- Hb, He in Hndb.
    rewrite (map_of_middle es1 (Entry (bad_index e) to) es2) by done.
    rewrite (map_of_middle es1 e es2) by (by rewrite fmap_app in Hndb |- *).
    simpl. by rewrite insert_insert_eq.
  - intros x. rewrite Hm', Hm, !elem_of_app, !elem_of_cons. split.
    + intros [Hx|[->|Hx]]; [right|by left|right].
      * split; [by left|]. intros ->. by apply (Hdisj _ Hx), elem_of_cons; left.
      * split; [by right; right|]. by intros ->.
    + intros [->|[[Hx|[->|Hx]] Hne]]; auto; done.
Qed.
End table_update.
