(* ===== verification/BmtUpdate.v ===== *)
(** [update_bmt]: the replacement of a failing block.

    [inv] is the invariant of the component between calls.  The specification
    works through the steps of the function: the replacement
    ([replacement_spec]), the table ([update_table_sys], [update_table_pool]),
    its copy in flash ([save_bmt_spec]) and the mark ([mark_at_spec]). *)

From stdpp Require Import base numbers list option gmap.
From Stdlib Require Import ZArith Lia.
From S2P Require Import Prelude NandIf BmtData Bmt BmtBase BmtAlloc BmtMigrate BmtWrite BmtMap.

Section update.
Context {D : Type} {HD : NandDev D} {c : chip} {HL : NandLaws D c} {HM : NandMarks D c} (Hc : chip_ok c).
Implicit Type s : st D.

Record inv s : Prop := {
  inv_geo : geo_ok c (lay s);
  inv_bmt : bmt_ok (lay s) (bmt s);
  inv_blank : pool_blank (c:=c) s;
  inv_index : index_ok (c:=c) s (bmt_block_index s)
}.

Definition migrates (reason : update_reason_t) : bool :=
  bool_decide (reason = UPDATE_WRITE_FAIL) || bool_decide (reason = UPDATE_READ_CHECK_FAIL).

(** What the replacement block holds. *)
Definition content s offset reason dat oob (d' : D) (to : Z) : Prop :=
  if migrates reason
  then migrated (c:=c) s (offset / block_size c) ((offset / page_size c) mod chip_ppb c)
         reason dat oob d' to
  else block_blank c d' to.

Definition repl_post s offset reason dat oob (r : Z) (s' : st D) : Prop :=
  exists d' da oo, s' = upd d' da oo s /\
    touches (c:=c) (pool_avail (c:=c) s) (dev s) d' /\ bad_mono (c:=c) (dev s) d' /\
    (r = 0 /\ pool_blank (c:=c) s' /\ (forall b, ~ pool_avail (c:=c) s' b) \/
     pool_avail (c:=c) s r /\ content s offset reason dat oob d' r /\
     (forall b, pool_avail (c:=c) s' b -> b <> r -> block_blank c d' b)).

Lemma replacement_spec fuel s offset reason dat oob Q :
  inv s -> 0 <= offset < chip_blocks c * block_size c ->
  page_size c <= Z.of_nat (length dat) -> oob_size c <= Z.of_nat (length oob) ->
  ~ pool_avail (c:=c) s (offset / block_size c) ->
  (avail_count (c:=c) s < fuel)%nat ->
  (forall r s', repl_post s offset reason dat oob r s' -> Q r s') ->
  wp (if migrates reason then migrate_from_bad fuel offset reason dat oob
      else find_available_block false) Q s.
Proof.
  intros [Hg [Ht _ _ _] Hbl _] Ho Hdat Hoob Hna Hfuel HQ. unfold repl_post, content in HQ.
  destruct (migrates reason) eqn:Hmig.
  { by apply (migrate_from_bad_spec Hc). }
  apply (find_available_block_spec Hc); [done..|].
  intros r d1 s1 Hs1 Ht1 Hm1 Hb1 Hr.
  assert (s1 = upd d1 (dat_buf s) (oob_buf s) s) as Hu by (by subst s1; destruct s).
  apply HQ. exists d1, (dat_buf s), (oob_buf s). split_and!; [done..|].
  destruct Hr as [[-> Hr]|[Hr _]]; [left; by auto|right].
  assert (pool_avail (c:=c) s r) as Hrs.
  { destruct Hr as [Hin Hav]. subst s1. split; [done|].
    eapply (availb_mono s); [exact Hm1| |exact Hav].
    pose proof (in_pool_range (lay s) r Hg Hin). lia. }
  assert (forall b, pool_avail (c:=c) s1 b -> block_blank c d1 b) as Hbl1.
  { intros b Hb. subst s1. by apply Hb1. }
  split_and!; [done| |]; auto.
Qed.

Lemma content_same s offset reason dat oob d d' to :
  0 <= (offset / page_size c) mod chip_ppb c < chip_ppb c ->
  same_block c d d' to -> content s offset reason dat oob d to ->
  content s offset reason dat oob d' to.
Proof.
  intros Hep Hs. unfold content. destruct (migrates reason).
  - intros [Hcp He Hr]. split.
    + intros k Hk Hne Hw. rewrite Hs by done. by apply Hcp.
    + by rewrite Hs.
    + intros k Hw Hk. unfold page_blank. rewrite Hs by lia. by apply Hr.
  - intros Hb. by eapply block_blank_same.
Qed.

(** ** Saving the table *)

Definition bmt_image s : list Z :=
  fill_nand_bmt_buffer (bmt_block_count (lay s)) (bmt s) (memset 0xFF MAX_DAT_SIZE).

Definition ones : list Z := memset 0xFF MAX_OOB_SIZE.

Lemma length_memset {A} (v : A) n : 0 <= n -> Z.of_nat (length (memset v n)) = n.
Proof. intros Hn. unfold memset. rewrite length_replicate. lia. Qed.

Lemma length_bmt_image s : MAX_DAT_SIZE <= Z.of_nat (length (bmt_image s)).
Proof.
  unfold bmt_image, fill_nand_bmt_buffer, splice. rewrite !length_app, length_drop.
  pose proof (length_memset 255 MAX_DAT_SIZE ltac:(done)). lia.
Qed.

Lemma save_bmt_spec x fuel s Q :
  geo_ok c (lay s) -> table_ok (lay s) (bmt s) -> pool_blank_but (c:=c) x s ->
  index_ok (c:=c) s (bmt_block_index s) -> (129 < fuel)%nat ->
  (forall r s', write_post (c:=c) x (set_bufs (bmt_image s) ones s) (bmt_image s) ones r s' ->
     Q r s') ->
  wp (save_bmt fuel) Q s.
Proof.
  intros Hg Ht Hbl Hi Hf HQ. unfold save_bmt, prepare_bmt_buffers. wp_steps.
  pose proof (page_size_le c Hc). pose proof (oob_size_le c Hc).
  pose proof (length_bmt_image s) as Hlen. unfold MAX_DAT_SIZE in Hlen.
  eapply (write_bmt_to_flash_spec Hc x _ (set_bufs (bmt_image s) ones s));
    [done|done|exact Hbl|exact Hi| | | | |exact HQ].
  - unfold bmt_image, MAX_DAT_SIZE in *. simpl in *. lia.
  - simpl. unfold MAX_OOB_SIZE. lia.
  - done.
  - pose proof (avail_count_bound (set_bufs (bmt_image s) ones s) Hg). destruct (_ =? _); lia.
Qed.

(** ** The mark *)

Lemma mark_at_spec s offset k Q :
  0 <= offset < chip_blocks c * block_size c ->
  (k = BAD_BLOCK_RAW \/ k = BMT_BADBLOCK_GENERATE_LATER) ->
  (forall rc d', only_block c (offset / block_size c) (dev s) d' ->
     is_bad c d' (offset / block_size c) = true -> Q rc (set_dev d' s)) ->
  wp (mark_block_bad_bmt offset k) Q s.
Proof.
  intros Ho Hk HQ. unfold mark_block_bad_bmt. apply wp_act.
  destruct (nd_mark_bad (dev s) offset k) as [rc d'] eqn:He. cbn [fst snd].
  apply HQ; [by eapply nl_mark_only|by eapply mark_takes_effect].
Qed.

(** ** The table *)

(** The system block whose replacement is being chosen: the failing block
    itself, or the one the failing pool block stands for. *)
Definition key_of (l : layout) (b : bmt_struct) (bad key : Z) : Prop :=
  if bad <? system_block_count l then key = bad else bmt_map b !! key = Some bad.

Record table_step (l : layout) (b : bmt_struct) (bad to : Z) (b' : bmt_struct) : Prop := {
  ts_ok : bmt_ok l b';
  ts_map : exists key, key_of l b bad key /\ bmt_map b' = <[key := to]> (bmt_map b);
  ts_mapped x : x ∈ mapped_blocks b' <-> x = to \/ x ∈ mapped_blocks b /\ x <> bad;
  ts_entry : exists j e, table b' = <[j := e]> (table b) /\
    is_u16 (bad_index e) /\ is_u16 (mapped_index e)
}.

Lemma u16_block l b : geo_ok c l -> 0 <= b < total_block_count l -> u16 b = b.
Proof. intros Hg Hb. apply Z.mod_small. pose proof (go_u16 c _ Hg). lia. Qed.

Lemma mapped_in_pool l b x : bmt_ok l b -> x ∈ mapped_blocks b -> in_pool l x.
Proof.
  intros [_ Hr _ _] (e & -> & He)%list_elem_of_fmap. rewrite Forall_forall in Hr.
  apply Hr in He. unfold in_pool. lia.
Qed.

Lemma update_table_sys s bad to :
  geo_ok c (lay s) -> bmt_ok (lay s) (bmt s) -> 0 <= bad < system_block_count (lay s) ->
  bmt_map (bmt s) !! bad = None -> in_pool (lay s) to -> to ∉ mapped_blocks (bmt s) ->
  exists b', update_table bad to s = Done (tt, set_bmt b' s) /\
    table_step (lay s) (bmt s) bad to b'.
Proof.
  intros Hg Hok Hbad Hnone Hto Hn.
  pose proof (mapped_room Hg _ _ Hok Hto Hn) as Hroom.
  pose proof (go_pool c _ Hg) as Hpool. pose proof (go_sys c _ Hg) as Hsys.
  destruct (bmt_ok_snoc Hg (bmt s) bad to (version (bmt s)) (bad_count (bmt s))
    Hok Hbad Hnone Hto Hn) as (Hok' & Hmap & Hmb).
  eexists. split.
  - unfold update_table, bind, gets, modify, checked. rewrite (block_u32 (lay s)) by (done || lia).
    rewrite (proj2 (Z.leb_gt _ _)) by lia. destruct Hok as [[Hlen Hcount] _ _ _].
    rewrite zset_Some by (unfold MAX_BMT_SIZE in *; lia). cbn.
    rewrite !(u16_block (lay s)) by (done || unfold in_pool in Hto; lia). 
    unfold u8. unfold MAX_BMT_SIZE in *. rewrite (Z.mod_small (mapped_count (bmt s) + 1)) by lia. done.
  - split; [done| | |].
    + exists bad. unfold key_of. by rewrite (proj2 (Z.ltb_lt _ _)) by lia.
    + intros x. rewrite Hmb, elem_of_app, list_elem_of_singleton. split; [|tauto].
      intros [Hx| ->]; [right|by left]. split; [done|]. intros ->.
      pose proof (mapped_in_pool _ _ _ Hok Hx). unfold in_pool in *. lia.
    + eexists _, _. split; [done|]. pose proof (go_u16 c _ Hg). unfold in_pool, is_u16 in *. simpl. lia.
Qed.

Lemma find_mapped s bad :
  geo_ok c (lay s) -> bmt_ok (lay s) (bmt s) -> bad ∈ mapped_blocks (bmt s) ->
  exists j e, entries (bmt s) !! j = Some e /\ mapped_index e = bad /\
    for_loop (Z.to_nat (bmt_block_count (lay s))) 0 1 (fun i =>
      let! e := table_get (bmt s) i in
      ret (if mapped_index e =? bad then Some i else None)) s = Done (Some (Z.of_nat j), s).
Proof.
  intros Hg [[Hlen Hcount] _ _ _] Hin. pose proof (go_pool c _ Hg) as Hpool.
  set (f := fun (i : Z) (e : bmt_entry) => if mapped_index e =? bad then Some i else None).
  assert (search f (take (Z.to_nat (bmt_block_count (lay s))) (table (bmt s))) 0
    = search f (entries (bmt s)) 0) as Hs.
  { replace (take _ (table (bmt s))) with
      (entries (bmt s) ++ drop (Z.to_nat (mapped_count (bmt s)))
        (take (Z.to_nat (bmt_block_count (lay s))) (table (bmt s)))).
    2: { unfold entries. rewrite <- (take_drop (Z.to_nat (mapped_count (bmt s)))
           (take (Z.to_nat (bmt_block_count (lay s))) _)) at 2.
         by rewrite take_take, Nat.min_l by lia. }
    apply list_elem_of_fmap in Hin as (e & -> & He).
    generalize (drop (Z.to_nat (mapped_count (bmt s)))
        (take (Z.to_nat (bmt_block_count (lay s))) (table (bmt s)))). intros rest.
    generalize 0. induction (entries (bmt s)) as [|e' es IH]; intros i; [by apply elem_of_nil in He|].
    simpl. unfold f at 1 3. destruct (Z.eqb_spec (mapped_index e') (mapped_index e)); [done|].
    apply elem_of_cons in He as [->|He]; [done|]. by apply IH. }
  unfold table_get. rewrite (search_loop f) by (unfold MAX_BMT_SIZE in *; lia).
  change (drop (Z.to_nat 0) (table (bmt s))) with (table (bmt s)). rewrite Hs.
  destruct (search f (entries (bmt s)) 0) as [v|] eqn:E.
  - apply search_Some in E as (j & e & Hj & Hf & _). exists j, e. unfold f in Hf.
    destruct (Z.eqb_spec (mapped_index e) bad); [|done]. injection Hf as <-. done.
  - rewrite search_None in E. apply list_elem_of_fmap in Hin as (e & -> & He).
    apply list_elem_of_lookup in He as [j Hj]. specialize (E j e Hj). unfold f in E.
    by rewrite Z.eqb_refl in E.
Qed.

Lemma update_table_pool s bad to :
  geo_ok c (lay s) -> bmt_ok (lay s) (bmt s) -> bad ∈ mapped_blocks (bmt s) ->
  in_pool (lay s) to -> to ∉ mapped_blocks (bmt s) ->
  exists b', update_table bad to s = Done (tt, set_bmt b' s) /\
    table_step (lay s) (bmt s) bad to b'.
Proof.
  intros Hg Hok Hbad Hto Hn. pose proof (mapped_in_pool _ _ _ Hok Hbad) as Hbp.
  destruct (find_mapped s bad Hg Hok Hbad) as (j & e & Hj & He & Hrun).
  destruct (bmt_ok_remap (bmt s) j e to Hok Hj Hto Hn) as (Hok' & Hmap & Hmb).
  pose proof (in_pool_range (lay s) to Hg Hto) as Htr.
  pose proof (in_pool_range (lay s) bad Hg Hbp) as Hbr. pose proof (go_total c _ Hg) as Htot.
  assert (table (bmt s) !! j = Some e) as Htj.
  { unfold entries in Hj. by apply lookup_take_Some in Hj as [Hj _]. }
  pose proof (lookup_lt_Some _ _ _ Htj) as Hlt.
  eexists. split.
  - unfold update_table, bind, gets, modify, checked. rewrite (block_u32 (lay s)) by (done || lia).
    rewrite (proj2 (Z.leb_le _ _)) by apply Hbp. cbn. unfold bind in Hrun. rewrite Hrun. cbn.
    unfold table_get, checked. rewrite znth_lookup, Nat2Z.id, Htj by lia. cbn.
    rewrite zset_Some by lia. cbn. rewrite Nat2Z.id.
    rewrite (u16_block (lay s)) by (done || lia). done.
  - split; [done| | |].
    + exists (bad_index e). split; [|done]. unfold key_of.
      rewrite (proj2 (Z.ltb_ge _ _)) by apply Hbp. subst bad.
      unfold bmt_map, map_of. apply elem_of_list_to_map.
      * rewrite fst_pair_of. apply Hok.
      * apply list_elem_of_fmap. exists e. split; [done|]. by eapply list_elem_of_lookup_2.
    + intros x. by rewrite Hmb, He.
    + eexists _, _. split; [done|]. pose proof (go_u16 c _ Hg) as Hu.
      pose proof (bo_range _ _ Hok) as Hr. rewrite Forall_forall in Hr.
      apply list_elem_of_lookup_2, Hr in Hj. unfold in_pool, is_u16 in *. simpl. lia.
Qed.

(** ** The steps after the replacement *)

(** The failing block: a system block, or a replacement.  It need not have
    been marked. *)
Definition failing s (bad : Z) : Prop :=
  0 <= bad < system_block_count (lay s) \/ bad ∈ mapped_blocks (bmt s).

Lemma failing_range s bad : inv s -> failing s bad -> 0 <= bad < chip_blocks c.
Proof.
  intros [Hg Hok _ _] [Hb|Hb].
  - pose proof (go_sys c _ Hg). pose proof (go_pool c _ Hg). pose proof (go_total c _ Hg). lia.
  - pose proof (in_pool_range (lay s) bad Hg (mapped_in_pool _ _ _ Hok Hb)). lia.
Qed.

Lemma failing_not_avail s bad : inv s -> failing s bad -> ~ pool_avail (c:=c) s bad.
Proof.
  intros Hi [Hb|Hb] [[? ?] Hav]; [lia|].
  unfold availb in Hav. rewrite !andb_true_iff, !negb_true_iff, bool_decide_eq_false in Hav.
  by apply Hav.
Qed.

(** The table with the new entry: blocks are blank or in use as before, but
    for the failing block, which the table no longer lists. *)
Lemma after_table s s1 bad to offset reason dat oob b' :
  inv s -> failing s bad -> to <> 0 -> repl_post s offset reason dat oob to s1 ->
  table_step (lay s) (bmt s) bad to b' ->
  pool_blank_but (c:=c) bad (set_bmt b' s1) /\
  index_ok (c:=c) (set_bmt b' s1) (bmt_block_index s) /\
  (forall b, pool_avail (c:=c) (set_bmt b' s1) b ->
     (pool_avail (c:=c) s b \/ b = bad) /\ b <> to).
Proof.
  intros [Hg Hok Hbl Hidx] Hbad H0 (d1 & da & oo & -> & Ht1 & Hm1 & Hcase) [Hok' _ Hmb _].
  destruct Hcase as [[? _]|(Hto & _ & Hblank)]; [done|].
  assert (forall b, pool_avail (c:=c) (set_bmt b' (upd d1 da oo s)) b ->
    (pool_avail (c:=c) (upd d1 da oo s) b \/ b = bad) /\ b <> to) as Hsub.
  { intros b [Hin Hav]. unfold availb in Hav. simpl in Hav.
    rewrite !andb_true_iff, !negb_true_iff, bool_decide_eq_false in Hav.
    destruct Hav as [[[Hi Hi'] Hnb] Hnm]. rewrite Hmb in Hnm.
    split; [|naive_solver]. destruct (decide (b = bad)) as [->|Hne]; [by right|left].
    split; [done|]. unfold availb. simpl. rewrite Hi, Hi', Hnb. simpl.
    apply negb_true_iff, bool_decide_eq_false. naive_solver. }
  split_and!.
  - intros _ b Hb Hx. destruct (Hsub b Hb) as [[Hb1| ->] Hne]; [by apply Hblank|done].
  - destruct Hidx as [|(Hin & Hnb & Hnm)]; [by left|right]. split_and!; [done| |].
    + simpl. destruct (Ht1 (bmt_block_index s)) as [_ ->]; [| |done].
      * pose proof (in_pool_range (lay s) _ Hg Hin). lia.
      * intros [_ Hav]. unfold availb in Hav. by rewrite Z.eqb_refl in Hav.
    + simpl. rewrite Hmb. intros [Heq|[? _]]; [|done].
      destruct Hto as [_ Hav]. unfold availb in Hav. by rewrite Heq, Z.eqb_refl in Hav.
  - intros b Hb. destruct (Hsub b Hb) as [[[Hin Hav]| ->] Hne]; (split; [|done]); [left|by right].
    split; [done|].
    eapply (availb_mono s d1); [exact Hm1| |exact Hav].
    pose proof (in_pool_range (lay s) b Hg Hin). lia.
Qed.

(** ** [update_bmt] *)

Record updated s s' (offset : Z) (reason : update_reason_t) (dat oob : list Z) (to : Z) : Prop := {
  ud_avail : pool_avail (c:=c) s to;
  ud_table : table_step (lay s) (bmt s) (offset / block_size c) to (bmt s');
  ud_content : content s offset reason dat oob (dev s') to;
  ud_index : in_pool (lay s') (bmt_block_index s');
  ud_saved : bmt_block_index s' <> offset / block_size c ->
    inv s' /\ holds (c:=c) (dev s') (bmt_block_index s') (bmt_image s') ones;
  ud_lost : bmt_block_index s' = offset / block_size c ->
    offset / block_size c ∈ mapped_blocks (bmt s) /\
    is_bad c (dev s) (offset / block_size c) = false /\
    bmt_block_index s <> offset / block_size c;
  ud_bad : is_bad c (dev s') (offset / block_size c) = true;
  ud_others : touches (c:=c) (fun b => b = offset / block_size c \/ owned (c:=c) s b)
                (dev s) (dev s')
}.

(** What the writer of the table may touch: its own blocks, and the failing
    block if that has been released into the pool. *)
Definition released s (bad b : Z) : Prop :=
  owned (c:=c) s b \/ b = bad /\ in_pool (lay s) b.

(** The outcome once a replacement is looked for.  [ud_saved] is the normal
    case of a success; in the case of [ud_lost] the table had to move and went
    into the failing replacement itself. *)
Definition replaced s offset reason dat oob (r : bool) s' : Prop :=
  isUpdateBmt s' = false /\ lay s' = lay s /\
  if r then exists to, updated s s' offset reason dat oob to
  else inv s' /\ (forall b, ~ pool_avail (c:=c) s' b) /\
       touches (c:=c) (released s (offset / block_size c)) (dev s) (dev s') /\
       (bmt s' = bmt s \/ exists to, table_step (lay s) (bmt s) (offset / block_size c) to (bmt s')).

(** A block that has a replacement is left alone. *)
Definition update_post s offset reason dat oob (r : bool) s' : Prop :=
  r = true /\ s' = s /\ (exists to, bmt_map (bmt s) !! (offset / block_size c) = Some to) \/
  bmt_map (bmt s) !! (offset / block_size c) = None /\ replaced s offset reason dat oob r s'.

(** Where the table has been saved: not in a replacement. *)
Lemma saved_unmapped s2 i :
  geo_ok c (lay s2) -> index_ok (c:=c) s2 (bmt_block_index s2) -> owned (c:=c) s2 i ->
  in_pool (lay s2) i /\ i ∉ mapped_blocks (bmt s2).
Proof.
  intros Hg Hidx [[Hin ->]|[Hin Hav]]; (split; [done|]).
  - destruct Hidx as [Hx|(_ & _ & ?)]; [|done].
    pose proof (in_pool_range (lay s2) _ Hg Hin) as Hr. lia.
  - unfold availb in Hav. rewrite !andb_true_iff, !negb_true_iff, bool_decide_eq_false in Hav.
    apply Hav.
Qed.

(** It can be in the failing block only if that is a replacement without a
    mark. *)
Lemma saved_in_failing s d bad :
  inv s -> failing s bad -> bad_mono (c:=c) (dev s) d -> in_pool (lay s) bad ->
  is_bad c d bad = false ->
  bad ∈ mapped_blocks (bmt s) /\ is_bad c (dev s) bad = false /\ bmt_block_index s <> bad.
Proof.
  intros [Hg Hok _ Hidx] Hf Hm Hin Hnb. pose proof (in_pool_range (lay s) bad Hg Hin).
  assert (bad ∈ mapped_blocks (bmt s)) as Hmb by (destruct Hf as [?|?]; [destruct Hin; lia|done]).
  split_and!; [done| |].
  - destruct (is_bad c (dev s) bad) eqn:E; [|done]. rewrite Hm in Hnb by (done || lia). done.
  - intros Heq. destruct Hidx as [?|(_ & _ & Hn)]; [lia|]. by rewrite Heq in Hn.
Qed.

(** Marking a block other than the table's keeps the invariant. *)
Lemma inv_after_mark s3 bad d4 :
  geo_ok c (lay s3) -> bmt_ok (lay s3) (bmt s3) -> pool_blank_but (c:=c) bad s3 ->
  in_pool (lay s3) (bmt_block_index s3) -> bmt_block_index s3 ∉ mapped_blocks (bmt s3) ->
  is_bad c (dev s3) (bmt_block_index s3) = false -> bmt_block_index s3 <> bad ->
  only_block c bad (dev s3) d4 -> is_bad c d4 bad = true -> inv (set_dev d4 s3).
Proof.
  intros Hg Hok Hbl Hin Hnm Hnb Hne Ho Hbad. split; [done|done| |right; split_and!; [done| |done]].
  - intros Hpe b Hav. pose proof (in_pool_range (lay s3) b Hg (proj1 Hav)) as Hbr.
    assert (b <> bad) as Hneb.
    { intros ->. apply (pool_avail_not_bad (c:=c)) in Hav. simpl in Hav. congruence. }
    destruct (Ho b ltac:(lia) Hneb) as [Hs _]. eapply block_blank_same; [exact Hs|].
    apply Hbl; [exact Hpe| |done]. apply (pool_avail_back s3 d4); [done| |done].
    by eapply only_block_bad_mono.
  - pose proof (in_pool_range (lay s3) _ Hg Hin) as Hr. simpl.
    destruct (Ho (bmt_block_index s3) ltac:(lia) Hne) as [_ ->]. done.
Qed.

(** The last step of [update_bmt]. *)
Lemma mark_and_return s offset (Q : bool -> st D -> Prop) :
  0 <= offset < chip_blocks c * block_size c ->
  (forall d', only_block c (offset / block_size c) (dev s) d' ->
     is_bad c d' (offset / block_size c) = true -> Q true (set_updating false (set_dev d' s))) ->
  wp (do! (if system_block_count (lay s) <=? offset / block_size c
           then mark_block_bad_bmt offset BMT_BADBLOCK_GENERATE_LATER
           else mark_block_bad_bmt offset BAD_BLOCK_RAW) in
      do! modify (set_updating false) in ret true) Q s.
Proof.
  intros Ho HQ. apply wp_bind. destruct (_ <=? _).
  all: apply mark_at_spec; [done|by auto|]; intros rc d' Hob Hbad; wp_steps; by apply HQ.
Qed.

(** Saving the new table and marking the failing block. *)
Lemma finish_update_spec fuel s s1 to offset reason dat oob b' Q :
  inv s -> failing s (offset / block_size c) -> 0 <= offset < chip_blocks c * block_size c ->
  to <> 0 -> repl_post s offset reason dat oob to s1 ->
  table_step (lay s) (bmt s) (offset / block_size c) to b' -> (129 < fuel)%nat ->
  (forall (r : bool) s', isUpdateBmt s' = false -> lay s' = lay s ->
     (if r then exists to, updated s s' offset reason dat oob to
      else inv s' /\ (forall b, ~ pool_avail (c:=c) s' b) /\
           touches (c:=c) (released s (offset / block_size c)) (dev s) (dev s') /\
           exists to, table_step (lay s) (bmt s) (offset / block_size c) to (bmt s')) ->
     Q r s') ->
  wp (let! ok := save_bmt fuel in
      if negb ok then do! modify (set_updating false) in ret false else
      do! (if system_block_count (lay s) <=? offset / block_size c
           then mark_block_bad_bmt offset BMT_BADBLOCK_GENERATE_LATER
           else mark_block_bad_bmt offset BAD_BLOCK_RAW) in
      do! modify (set_updating false) in ret true) Q (set_bmt b' s1).
Proof.
  intros Hinv Hf Ho H0 Hrepl Hstep Hfuel HQ.
  destruct (after_table s s1 _ to offset reason dat oob b' Hinv Hf H0 Hrepl Hstep)
    as (Hbl2 & Hidx2 & Hsub2).
  pose proof (failing_range s _ Hinv Hf) as Hbr. pose proof Hinv as [Hg Hok Hbl Hidx].
  destruct Hrepl as (d1 & da & oo & -> & Ht1 & Hm1 & [[? _]|(Hto & Hcont & _)]); [done|].
  set (bad := offset / block_size c) in *. set (s2 := set_bmt b' (upd d1 da oo s)) in *.
  apply wp_bind, (save_bmt_spec bad); [done|apply Hstep|done|done|done|].
  intros r s3 (d3 & pe & i & -> & Ht3 & Hm3 & Hbl3 & Hsub3 & Hr).
  assert (touches (c:=c) (released s bad) (dev s) d3) as Ht03.
  { eapply touches_trans; [eapply touches_mono; [|exact Ht1]; intros b Hb; left; by right|].
    eapply touches_mono; [|exact Ht3]. intros b [Hb|Hb]; [left; by left|].
    destruct (Hsub2 b Hb) as [[Hb'| ->] _]; [left; by right|right; split; [done|apply Hb]]. }
  destruct r; cbn [negb].
  2: { wp_steps. destruct Hr as [-> Hnone].
       apply HQ; [done|done|split_and!; [|done|done|by exists to]].
       split; [done|apply Hstep| |by left]. eapply pool_blank_but_iff; [|exact Hbl3]. apply Hnone. }
  destruct Hr as (Hown & Hnbi & Hholds).
  destruct (saved_unmapped s2 i) as (Hiin & Hinm); [done..|].
  apply (mark_and_return (updw d3 pe i (set_bufs (bmt_image s2) ones s2))); [done|]. fold bad. intros d4 Ho4 Hbad4.
  apply HQ; [done|done|exists to; split; [done|exact Hstep| |exact Hiin| | |exact Hbad4|]].
  - destruct (offset_split Hc (lay s) offset Hg Ho) as (_ & _ & _ & Hep).
    pose proof (in_pool_range (lay s) to Hg (proj1 Hto)) as Htor.
    assert (to <> bad) as Htob by (intros ->; by apply (failing_not_avail s bad)).
    destruct (Ho4 to ltac:(lia) Htob) as [Hs4 _].
    eapply content_same; [done|exact Hs4|]. eapply content_same; [done| |exact Hcont].
    apply (Ht3 to); [lia|]. intros [[_ Hx]|Hx].
    + destruct Hto as [_ Hav]. unfold availb in Hav. simpl in Hx. by rewrite Hx, Z.eqb_refl in Hav.
    + by apply (Hsub2 to) in Hx as [_ ?].
  - simpl. intros Hib. split.
    { destruct (inv_after_mark (updw d3 pe i (set_bufs (bmt_image s2) ones s2)) bad d4)
        as [I1 I2 I3 I4]; [done|apply Hstep|exact Hbl3|done..|]. by split. }
    specialize (Hholds Hib). pose proof (in_pool_range (lay s) i Hg Hiin) as Hir.
    destruct (Ho4 i ltac:(lia) Hib) as [Hsi _]. unfold holds in *. simpl in *.
    pose proof (chip_ppb_pos c Hc). specialize (Hsi 0 ltac:(lia)).
    rewrite Z.add_0_r in Hsi. by rewrite Hsi, Hholds.
  - simpl. intros ->. apply (saved_in_failing s d3); [done|done| |done|done].
    by eapply bad_mono_trans.
  - eapply touches_trans; [|by apply (only_block_touches _ bad); [left|exact Ho4]].
    eapply touches_mono; [|exact Ht03]. intros b [Hb|[-> _]]; [by right|by left].
Qed.

(** The test whether the block already has a replacement. *)
Lemma mapped_query s bad (Q : Z -> st D -> Prop) :
  geo_ok c (lay s) -> bmt_ok (lay s) (bmt s) -> 0 <= bad < chip_blocks c ->
  Q (if bad <? system_block_count (lay s) then default bad (bmt_map (bmt s) !! bad) else bad) s ->
  wp (if u32 bad <? system_block_count (lay s)
      then get_mapping_block_index_by_bmt bad else ret bad) Q s.
Proof.
  intros Hg Hok Hbr HQ. pose proof (go_total c _ Hg) as Htot.
  pose proof (go_u16 c _ Hg) as Hu16. pose proof (go_pool c _ Hg) as Hpool.
  rewrite (block_u32 (lay s)) by (done || lia).
  destruct (Z.ltb_spec bad (system_block_count (lay s))); [|done].
  unfold wp. rewrite get_mapping_by_bmt_eq by (done || lia || apply Hok).
  by rewrite (proj2 (Z.ltb_lt _ _)) by done.
Qed.

Lemma bmt_map_range l b k v : bmt_ok l b -> bmt_map b !! k = Some v ->
  k < system_block_count l /\ in_pool l v /\ v ∈ mapped_blocks b.
Proof.
  intros [_ Hr _ _] E. unfold bmt_map in E.
  apply elem_of_list_to_map_2 in E. apply list_elem_of_fmap in E as (e & Hp & He).
  rewrite Forall_forall in Hr. specialize (Hr e He). injection Hp as -> ->.
  split_and!; [lia|unfold in_pool; lia|]. apply list_elem_of_fmap. eauto.
Qed.

Lemma update_table_spec s bad to :
  geo_ok c (lay s) -> bmt_ok (lay s) (bmt s) ->
  (0 <= bad < system_block_count (lay s) /\ bmt_map (bmt s) !! bad = None \/
   bad ∈ mapped_blocks (bmt s)) ->
  in_pool (lay s) to -> to ∉ mapped_blocks (bmt s) ->
  exists b', update_table bad to s = Done (tt, set_bmt b' s) /\
    table_step (lay s) (bmt s) bad to b'.
Proof. intros Hg Hok [[??]|?] ??; [by apply update_table_sys|by apply update_table_pool]. Qed.

(** No block to replace the failing one. *)
Lemma no_replacement s s1 offset reason dat oob :
  inv s -> repl_post s offset reason dat oob 0 s1 ->
  inv (set_updating false s1) /\ (forall b, ~ pool_avail (c:=c) s1 b) /\
  touches (c:=c) (owned (c:=c) s) (dev s) (dev s1) /\ bmt s1 = bmt s.
Proof.
  intros [Hg Hok Hbl Hidx] (d1 & da & oo & -> & Ht1 & Hm1 & Hcase).
  destruct Hcase as [(_ & Hb1 & Hnone)|([Hx _] & _)].
  2: { pose proof (in_pool_range _ _ Hg Hx). lia. }
  split_and!; [|exact Hnone|eapply touches_mono; [|exact Ht1]; intros b Hb; by right|done].
  split; [done|done|exact Hb1|].
  destruct Hidx as [|(Hin & Hnb & Hnm)]; [by left|right]. split_and!; [done| |done].
  simpl. destruct (Ht1 (bmt_block_index s)) as [_ ->]; [| |done].
  - pose proof (in_pool_range (lay s) _ Hg Hin). lia.
  - intros [_ Hav]. unfold availb in Hav. by rewrite Z.eqb_refl in Hav.
Qed.

(** A pool block that may be handed out is no replacement yet. *)
Lemma pool_avail_unmapped s b : pool_avail (c:=c) s b -> b ∉ mapped_blocks (bmt s).
Proof.
  intros [_ Hav]. unfold availb in Hav.
  rewrite !andb_true_iff, !negb_true_iff, bool_decide_eq_false in Hav. apply Hav.
Qed.

(** [update_bmt] once it is known that the block has no replacement. *)
Lemma replace_block_spec fuel su offset reason dat oob Q :
  let bad := offset / block_size c in
  inv su -> 0 <= offset < chip_blocks c * block_size c -> failing su bad ->
  (0 <= bad < system_block_count (lay su) /\ bmt_map (bmt su) !! bad = None \/
   bad ∈ mapped_blocks (bmt su)) ->
  page_size c <= Z.of_nat (length dat) -> oob_size c <= Z.of_nat (length oob) ->
  (129 < fuel)%nat ->
  (forall r s', replaced su offset reason dat oob r s' -> Q r s') ->
  wp (if migrates reason then migrate_from_bad fuel offset reason dat oob
      else find_available_block false)
    (fun map_index => wp (
      if map_index =? 0 then do! modify (set_updating false) in ret false else
      do! update_table bad map_index in
      let! ok := save_bmt fuel in
      if negb ok then do! modify (set_updating false) in ret false else
      do! (if system_block_count (lay su) <=? bad
           then mark_block_bad_bmt offset BMT_BADBLOCK_GENERATE_LATER
           else mark_block_bad_bmt offset BAD_BLOCK_RAW) in
      do! modify (set_updating false) in ret true) Q) su.
Proof.
  intros bad Hinv Ho Hf Hkey Hdat Hoob Hfuel HQ. pose proof Hinv as [Hg Hok _ _].
  apply (replacement_spec fuel su offset reason dat oob); [done|done|done|done| | |].
  { exact (failing_not_avail su bad Hinv Hf). }
  { pose proof (avail_count_bound (c:=c) su Hg). lia. }
  intros to s1 Hrepl. destruct (Z.eqb_spec to 0) as [->|H0].
  { destruct (no_replacement su s1 offset reason dat oob Hinv Hrepl) as (? & ? & ? & ?).
    wp_steps. apply HQ. split; [done|]. split; [by destruct Hrepl as (? & ? & ? & -> & _)|].
    split_and!; [done|done| |by left]. eapply touches_mono; [|done]. intros b Hb. by left. }
  pose proof Hrepl as (d1 & da & oo & Hs1 & _ & _ & [[? _]|[Hto _]]); [done|].
  destruct (update_table_spec s1 bad to) as (b' & Hrun & Hstep);
    [by subst s1|by subst s1|by subst s1|subst s1; apply Hto|by subst s1; apply (pool_avail_unmapped su)|].
  apply wp_bind. unfold wp at 1. rewrite Hrun. subst s1.
  apply (finish_update_spec fuel su (upd d1 da oo su) to offset reason dat oob b');
    [exact Hinv|exact Hf|exact Ho|exact H0|exact Hrepl|exact Hstep|exact Hfuel|].
  intros r s' Hup' Hl' Hr. apply HQ. split_and!; [done|done|]. destruct r; [done|].
  destruct Hr as (? & ? & ? & to' & ?). split_and!; [done|done|done|right; by exists to'].
Qed.

Lemma update_bmt_spec fuel s offset reason dat oob Q :
  inv s -> isUpdateBmt s = false -> 0 <= offset < chip_blocks c * block_size c ->
  failing s (offset / block_size c) ->
  page_size c <= Z.of_nat (length dat) -> oob_size c <= Z.of_nat (length oob) ->
  (129 < fuel)%nat ->
  (forall r s', update_post s offset reason dat oob r s' -> Q r s') ->
  wp (update_bmt fuel offset reason dat oob) Q s.
Proof.
  intros Hinv Hup Ho Hf Hdat Hoob Hfuel HQ.
  pose proof (failing_range s _ Hinv Hf) as Hbr. pose proof Hinv as [Hg Hok Hbl Hidx].
  unfold update_bmt. wp_steps. unfold BLOCK_SIZE_BMT. rewrite (go_chip c _ Hg).
  apply mapped_query; [done..|]. set (bad := offset / block_size c) in *.
  destruct (decide (bad < system_block_count (lay s) /\ is_Some (bmt_map (bmt s) !! bad)))
    as [[Hlt [v E]]|Hnone].
  { rewrite (proj2 (Z.ltb_lt _ _) Hlt), E. pose proof (bmt_map_range (lay s) _ _ _ Hok E) as Hr. change (default bad (Some v)) with v.
    destruct Hr as (_ & [? ?] & _). rewrite (proj2 (Z.eqb_neq v bad)) by lia.
    apply wp_ret, HQ. left. split_and!; [done|done|by exists v]. }
  assert (bmt_map (bmt s) !! bad = None) as Hnew.
  { apply eq_None_not_Some. intros [v Hv]. apply Hnone.
    pose proof (bmt_map_range (lay s) _ _ _ Hok Hv) as [Hlt _]. split; [done|by exists v]. }
  rewrite Hnew. change (default bad None) with bad.
  replace (if bad <? system_block_count (lay s) then bad else bad) with bad by (by destruct (_ <? _)).
  rewrite Z.eqb_refl. cbn [negb]. wp_steps. rewrite Hup. wp_steps.
  rewrite (block_u32 (lay s)) by (try done; rewrite (go_total c _ Hg); lia).
  apply (replace_block_spec fuel (set_updating true s)); [by split|done|done| |done|done|done|].
  - destruct Hf as [?|?]; [by left|by right].
  - intros r s' (Hu' & Hl' & Hr). apply HQ. right. split; [done|].
    split_and!; [done|done|]. destruct r; [|done].
    destruct Hr as [to [Ha Ht Hcn Hix Hsv Hls Hb Hoth]].
    exists to. split; [exact Ha|exact Ht| |exact Hix|exact Hsv|exact Hls|exact Hb|exact Hoth].
    unfold content in *. destruct (migrates reason); [by apply (migrated_same (set_updating true s))|done].
Qed.
End update.
