(* ===== verification/BmtPersist.v ===== *)
(** Persistence of the bad-block table.

    What [fill_nand_bmt_buffer] writes is recognised by [match_bmt_signature],
    accepted by [valid_bmt_data] and decoded to the same entries, and
    [load_bmt_data] finds it again after a restart. *)

From stdpp Require Import base numbers list option gmap.
From Stdlib Require Import ZArith Lia.
From S2P Require Import Prelude NandIf BmtData Bmt BmtBase BmtAlloc BmtMigrate BmtWrite BmtMap BmtUpdate.

(** ** Byte layout *)

Definition entry_u16 (e : bmt_entry) : Prop := is_u16 (bad_index e) /\ is_u16 (mapped_index e).

Lemma le2 z : is_u16 z -> le_val (le_bytes 2 z) = z.
Proof. intros Hz. apply le_val_bytes. exact Hz. Qed.

Lemma entry_bytes_length e : length (entry_bytes e) = 4%nat.
Proof. done. Qed.

Lemma entries_of_table_bytes t rest :
  Forall entry_u16 t -> entries_of_bytes (length t) (table_bytes t ++ rest) = t.
Proof.
  induction 1 as [|e t [Hb Hm] _ IH]; [done|].
  cbn [length entries_of_bytes]. unfold table_bytes in *. cbn [mbind list_bind].
  rewrite <- app_assoc. unfold entry_bytes at 1 2 3. rewrite <- !app_assoc.
  rewrite (take_app_length' (le_bytes 2 (bad_index e))) by done.
  rewrite (drop_app_length' (le_bytes 2 (bad_index e))) by done.
  rewrite (take_app_length' (le_bytes 2 (mapped_index e))) by done.
  rewrite !le2 by done.
  rewrite (drop_app_length' (entry_bytes e)) by done. rewrite IH. by destruct e.
Qed.

Lemma table_bytes_length t : length (table_bytes t) = (4 * length t)%nat.
Proof.
  induction t as [|e t IH]; [done|]. unfold table_bytes in *. cbn [mbind list_bind length].
  rewrite length_app, IH, entry_bytes_length. lia.
Qed.

Record phys_ok (p : phys_bmt_struct) : Prop := {
  po_sig : length (signature (header p)) = 3%nat;
  po_res : length (reseverd (header p)) = 13%nat;
  po_len : Z.of_nat (length (phys_table p)) = MAX_BMT_SIZE;
  po_u16 : Forall entry_u16 (phys_table p)
}.

Lemma phys_bmt_roundtrip p rest :
  phys_ok p -> phys_bmt_of_bytes (phys_bmt_bytes p ++ rest) = p.
Proof.
  intros [Hs Hr Hl Hu]. destruct p as [[sig v bc mc ck res] t]. cbn [header signature reseverd phys_table] in *.
  unfold phys_bmt_of_bytes. assert (Z.to_nat MAX_BMT_SIZE = length t) as -> by lia.
  destruct sig as [|x0 [|x1 [|x2 [|]]]]; simplify_eq/=.
  do 13 (destruct res as [|? res]; [done|]). destruct res; [|done]. unfold phys_bmt_bytes, phys_hdr_bytes. simpl.
  rewrite take_0, drop_0. by rewrite entries_of_table_bytes.
Qed.

(** ** The buffer the boot loader writes *)

Section image.
Context {c : chip} {l : layout} (Hg : geo_ok c l).

Definition image_table (b : bmt_struct) : list bmt_entry :=
  take (Z.to_nat (bmt_block_count l)) (table b)
  ++ drop (Z.to_nat (bmt_block_count l)) (replicate (Z.to_nat MAX_BMT_SIZE) blank_entry).

Definition image_phys (b : bmt_struct) (ck : Z) : phys_bmt_struct :=
  Phys (PhysHdr MAIN_SIGNATURE BMT_VERSION 0xFF (mapped_count b) ck (memset 0xFF 13))
       (image_table b).

Definition image_checksum (b : bmt_struct) : Z :=
  cal_bmt_checksum (image_phys b 0xFF) (bmt_block_count l).

Lemma fill_nand_bmt_buffer_eq b dat :
  fill_nand_bmt_buffer (bmt_block_count l) b dat
    = splice dat 0 (phys_bmt_bytes (image_phys b (image_checksum b))).
Proof. done. Qed.

Lemma image_phys_ok b ck :
  Z.of_nat (length (table b)) = MAX_BMT_SIZE -> Forall entry_u16 (table b) ->
  phys_ok (image_phys b ck).
Proof.
  intros Hlen Hu. pose proof (go_pool c l Hg). split; simpl; [done|done| |].
  - unfold image_table. rewrite length_app, length_take, length_drop, length_replicate.
    unfold MAX_BMT_SIZE in *. lia.
  - apply Forall_app. split; [by apply Forall_take|]. apply Forall_drop, Forall_replicate.
    by split; vm_compute.
Qed.

Lemma checksum_image b ck : cal_bmt_checksum (image_phys b ck) (bmt_block_count l) = image_checksum b.
Proof. done. Qed.

Lemma image_entries b :
  table_ok l b -> take (Z.to_nat (mapped_count b)) (image_table b) = entries b.
Proof.
  intros [Hlen Hn]. pose proof (go_pool c l Hg). unfold image_table, entries.
  rewrite take_app_le by (rewrite length_take; unfold MAX_BMT_SIZE in *; lia).
  rewrite take_take, Nat.min_l by lia. done.
Qed.

Lemma length_phys_bytes b ck :
  Z.of_nat (length (table b)) = MAX_BMT_SIZE ->
  Z.of_nat (length (phys_bmt_bytes (image_phys b ck))) = sizeof_phys_bmt_struct.
Proof.
  intros Hlen. pose proof (go_pool c l Hg). unfold phys_bmt_bytes. rewrite length_app.
  change (length (phys_hdr_bytes (header (image_phys b ck)))) with 20%nat.
  cbn [image_phys phys_table]. rewrite table_bytes_length. unfold image_table.
  rewrite length_app, length_take, length_drop, length_replicate.
  unfold MAX_BMT_SIZE, sizeof_phys_bmt_struct in *. lia.
Qed.

(** Decoding a page that starts with the image. *)
Lemma decode_image b dat n rest :
  Z.of_nat (length (table b)) = MAX_BMT_SIZE -> Forall entry_u16 (table b) ->
  sizeof_phys_bmt_struct <= n ->
  let page := take (Z.to_nat n) (fill_nand_bmt_buffer (bmt_block_count l) b dat) ++ rest in
  match_bmt_signature page = true /\
  phys_bmt_of_bytes page = image_phys b (image_checksum b).
Proof.
  intros Hlen Hu Hn page.
  assert (exists rest', page = phys_bmt_bytes (image_phys b (image_checksum b)) ++ rest')
    as [rest' ->].
  { unfold page. rewrite fill_nand_bmt_buffer_eq, splice_0.
    pose proof (length_phys_bytes b (image_checksum b) Hlen) as Hl.
    rewrite take_app_ge by lia. rewrite <- app_assoc. by eexists. }
  split.
  - unfold match_bmt_signature. apply bool_decide_eq_true_2. done.
  - apply phys_bmt_roundtrip. by apply image_phys_ok.
Qed.
End image.

(** ** Loading *)

Section load.
Context {D : Type} {HD : NandDev D} {c : chip} {HL : NandLaws D c} {HM : NandMarks D c} (Hc : chip_ok c).
Implicit Type s : st D.

Definition entry_in_range (l : layout) (e : bmt_entry) : bool :=
  negb ((total_block_count l <=? bad_index e) || (total_block_count l <=? mapped_index e)
        || (mapped_index e <? system_block_count l)).

(** The verdict of [valid_bmt_data] on an image whose count fits the table. *)
Lemma valid_bmt_data_eq phys s :
  0 <= h_mapped_count (header phys) <= Z.of_nat (length (phys_table phys)) ->
  valid_bmt_data phys s = Done (
    (checksum (header phys) =? cal_bmt_checksum phys (bmt_block_count (lay s))) &&
    forallb (entry_in_range (lay s))
      (take (Z.to_nat (h_mapped_count (header phys))) (phys_table phys)), s).
Proof.
  intros Hn. unfold valid_bmt_data, bind at 1, gets. cbv beta iota.
  destruct (_ =? _); [|done]. unfold bind at 1. cbn [negb andb].
  rewrite (search_loop (fun _ e => if (total_block_count (lay s) <=? bad_index e)
              || (total_block_count (lay s) <=? mapped_index e)
              || (mapped_index e <? system_block_count (lay s)) then Some false else None)) by lia.
  rewrite drop_0. generalize 0.
  induction (take _ (phys_table phys)) as [|e es IH]; intros i; [done|].
  cbn [search forallb]. unfold entry_in_range at 1.
  destruct (_ || _ || _); cbn; [done|apply IH].
Qed.

Lemma entries_in_range l b :
  geo_ok c l -> bmt_ok l b -> forallb (entry_in_range l) (entries b) = true.
Proof.
  intros Hg [_ Hr _ _]. apply forallb_forall. intros e He%list_elem_of_In.
  rewrite Forall_forall in Hr. apply Hr in He. unfold entry_in_range.
  pose proof (go_sys c _ Hg). pose proof (go_pool c _ Hg). lia.
Qed.

(** After the first [i] rounds of the loop. *)
Definition remarked s (i : Z) (d' : D) : Prop :=
  let es := entries (bmt s) in
  touches (c:=c) (fun b => b ∈ bad_index <$> es) (dev s) d' /\ bad_mono (c:=c) (dev s) d' /\
  forall j e, Z.of_nat j < i -> es !! j = Some e -> is_bad c d' (bad_index e) = true.

Lemma entry_lookup s k :
  geo_ok c (lay s) -> bmt_ok (lay s) (bmt s) -> 0 <= k < mapped_count (bmt s) ->
  exists e, entries (bmt s) !! Z.to_nat k = Some e /\ znth (table (bmt s)) k = Some e /\
    0 <= bad_index e < total_block_count (lay s).
Proof.
  intros Hg Hok Hk. pose proof (bo_table _ _ Hok) as [Hlen Hcount]. pose proof (go_pool c _ Hg) as Hpool.
  pose proof (go_sys c _ Hg) as Hsys.
  assert (exists e, entries (bmt s) !! Z.to_nat k = Some e) as [e He].
  { apply lookup_lt_is_Some_2. unfold entries. rewrite length_take. unfold MAX_BMT_SIZE in *. lia. }
  exists e. split_and!; [done| | |].
  - rewrite znth_lookup by lia. unfold entries in He. by apply lookup_take_Some in He as [He _].
  - pose proof (bo_range _ _ Hok) as Hr. rewrite Forall_forall in Hr.
    apply list_elem_of_lookup_2, Hr in He. lia.
  - pose proof (bo_range _ _ Hok) as Hr. rewrite Forall_forall in Hr.
    apply list_elem_of_lookup_2, Hr in He. lia.
Qed.

Lemma remarked_next s k d1 d2 e :
  geo_ok c (lay s) -> bmt_ok (lay s) (bmt s) -> 0 <= k < mapped_count (bmt s) ->
  remarked s k d1 -> entries (bmt s) !! Z.to_nat k = Some e ->
  only_block c (bad_index e) d1 d2 -> is_bad c d2 (bad_index e) = true -> remarked s (k + 1) d2.
Proof.
  intros Hg Hok Hk (Ht1 & Hm1 & Hdone) He Ho Hb.
  assert (bad_mono (c:=c) d1 d2) as Hm2 by by eapply only_block_bad_mono.
  split_and!; [|by eapply bad_mono_trans|].
  - eapply touches_trans; [exact Ht1|]. eapply only_block_touches; [|exact Ho].
    apply list_elem_of_fmap. exists e. split; [done|]. by eapply list_elem_of_lookup_2.
  - intros j e' Hj He'. destruct (decide (Z.of_nat j = k)) as [Hjk|Hne].
    + replace j with (Z.to_nat k) in He' by lia. rewrite He in He'. by injection He' as <-.
    + destruct (entry_lookup s (Z.of_nat j) Hg Hok ltac:(lia)) as (e'' & He'' & _ & Hr).
      rewrite Nat2Z.id in He''. assert (e'' = e') as -> by congruence.
      apply Hm2; [by rewrite <- (go_total c _ Hg)|]. apply (Hdone j e'); [lia|done].
Qed.

Lemma remark_bad_blocks_spec s Q :
  geo_ok c (lay s) -> bmt_ok (lay s) (bmt s) ->
  (forall d', touches (c:=c) (fun b => b ∈ bad_index <$> entries (bmt s)) (dev s) d' ->
     bad_mono (c:=c) (dev s) d' ->
     (forall b, b ∈ bad_index <$> entries (bmt s) -> is_bad c d' b = true) ->
     Q tt (set_dev d' s)) ->
  wp remark_bad_blocks Q s.
Proof.
  intros Hg Hok HQ. unfold remark_bad_blocks. wp_steps.
  pose proof (bo_table _ _ Hok) as [Hlen Hcount].
  apply (wp_for_each (fun i s' => exists d', s' = set_dev d' s /\ remarked s i d')).
  - exists (dev s). split; [by destruct s|].
    split_and!; [apply touches_refl|apply bad_mono_refl|lia].
  - intros k s' Hk (d1 & -> & Hd1). rewrite Z.mul_1_r, Z.add_0_l in *.
    replace (0 + (k + 1) * 1) with (k + 1) by lia.
    destruct (entry_lookup s k Hg Hok ltac:(lia)) as (e & He & Hz & Her).
    unfold table_get. apply wp_bind. eapply wp_checked; [done|]. apply wp_bind.
    unfold nand_block_bad_bmt. apply wp_gets.
    destruct (nd_block_bad _ _ _ =? 0) eqn:Hraw; cbn [negb].
    + apply wp_bind. change (lay s) with (lay (set_dev d1 s)).
      apply (mark_spec Hc); [done|done|by left|]. intros rc d2 Ho2 Hb2. apply wp_ret.
      exists d2. split; [done|]. by apply (remarked_next s k d1 d2 e); [done|done|lia|..].
    + apply wp_ret. exists d1. split; [done|]. apply (remarked_next s k d1 d1 e); [done|done|lia|done..| |].
      { apply only_block_refl. }
      simpl in Hraw. unfold is_bad. rewrite (OFFSET_eq Hc) in Hraw by done. by rewrite Hraw.
  - intros s' (d' & -> & Ht & Hm & Hdone). apply HQ; [done|done|].
    intros b (e & -> & He)%list_elem_of_fmap. apply list_elem_of_lookup in He as [j Hj].
    apply (Hdone j e); [|done]. apply lookup_lt_Some in Hj. unfold entries in Hj.
    rewrite length_take in Hj. lia.
Qed.

(** ** [load_bmt_data] *)

(** The scan passes over block [j]. *)
Definition skipped d (j : Z) : Prop :=
  is_bad c d j = true \/
  let '(rc, (dat, _)) := nd_read_page d (j * chip_ppb c) in
  rc <> 0 \/ match_bmt_signature dat = false.

Definition load_body (l : layout) (idx : Z) : M (st D) (option Z) :=
  let! bad := block_bad_either idx in
  if bad then ret None else
  let! rc := nand_read_page_bmt (PAGE_ADDR l idx) in
  if negb (rc =? 0) then ret None else
  let! dat := gets dat_buf in
  if negb (match_bmt_signature dat) then ret None else
  let phys := phys_bmt_of_bytes dat in
  let! ok := valid_bmt_data phys in
  if negb ok then ret None else
  let! b := gets bmt in
  let n := h_mapped_count (header phys) in
  let! t := checked (copy_prefix n (phys_table phys) (table b)) in
  do! modify (set_bmt (Bmt t (h_version (header phys)) n (bad_count b))) in
  do! remark_bad_blocks in
  ret (Some idx).

Lemma read_block_spec s b Q :
  geo_ok c (lay s) -> in_pool (lay s) b ->
  (forall rc dat oob da oo, nd_read_page (dev s) (b * chip_ppb c) = (rc, (dat, oob)) ->
     (rc = 0 -> Z.of_nat (length dat) = page_size c /\ exists rest, da = dat ++ rest) ->
     Q rc (set_bufs da oo s)) ->
  wp (nand_read_page_bmt (PAGE_ADDR (lay s) b)) Q s.
Proof.
  intros Hg Hb HQ. rewrite PAGE_ADDR_0. pose proof (in_pool_range (lay s) b Hg Hb).
  apply (read_spec Hc); [done|rewrite (go_total c _ Hg); lia|].
  intros rc dat oob da oo Hr Hd. rewrite Z.add_0_r in Hr. eapply HQ; [exact Hr|].
  intros (Hl & _ & -> & _)%Hd. split; [done|]. rewrite splice_0. by eexists.
Qed.

Lemma load_body_skip s j Q :
  geo_ok c (lay s) -> in_pool (lay s) j -> 3 <= page_size c -> skipped (dev s) j ->
  (forall da oo, Q None (set_bufs da oo s)) -> wp (load_body (lay s) j) Q s.
Proof.
  intros Hg Hj Hp Hskip HQ. unfold load_body. apply wp_bind.
  pose proof (in_pool_range (lay s) j Hg Hj).
  unfold wp at 1. rewrite (block_bad_either_eq Hc) by (done || rewrite (go_total c _ Hg); lia).
  destruct (is_bad c (dev s) j) eqn:Hbad.
  { apply wp_ret. specialize (HQ (dat_buf s) (oob_buf s)). by destruct s. }
  destruct Hskip as [?|Hskip]; [congruence|].
  apply wp_bind, read_block_spec; [done|done|].
  intros rc dat oob da oo Hr Hd. rewrite Hr in Hskip.
  destruct (Z.eqb_spec rc 0) as [Hrc|]; cbn [negb]; [|by apply wp_ret, HQ].
  destruct (Hd Hrc) as (Hl & rest & ->). destruct Hskip as [?|Hm]; [done|]. wp_steps. simpl.
  unfold match_bmt_signature in *. rewrite take_app_le by lia. rewrite Hm. by apply wp_ret, HQ.
Qed.

(** The table stored by [save_bmt] comes back. *)
Lemma load_body_found s b i dat0 oob0 Q :
  geo_ok c (lay s) -> in_pool (lay s) i -> is_bad c (dev s) i = false ->
  sizeof_phys_bmt_struct <= page_size c ->
  bmt_ok (lay s) b -> Forall entry_u16 (table b) ->
  Z.of_nat (length (table (bmt s))) = MAX_BMT_SIZE ->
  holds (c:=c) (dev s) i (fill_nand_bmt_buffer (bmt_block_count (lay s)) b dat0) oob0 ->
  (forall s', bmt_ok (lay s') (bmt s') -> entries (bmt s') = entries b ->
     mapped_count (bmt s') = mapped_count b -> lay s' = lay s ->
     touches (c:=c) (fun x => x ∈ bad_index <$> entries b) (dev s) (dev s') ->
     (forall x, x ∈ bad_index <$> entries b -> is_bad c (dev s') x = true) ->
     Q (Some i) s') ->
  wp (load_body (lay s) i) Q s.
Proof.
  intros Hg Hi Hnb Hps Hok Hu Hlen Hh HQ. unfold load_body. apply wp_bind.
  pose proof (in_pool_range (lay s) i Hg Hi). pose proof (go_pool c _ Hg) as Hpool.
  unfold wp at 1. rewrite (block_bad_either_eq Hc) by (done || rewrite (go_total c _ Hg); lia).
  rewrite Hnb. apply wp_bind, read_block_spec; [done|done|].
  intros rc dat oob da oo Hr Hd. unfold holds in Hh. rewrite Hr in Hh.
  injection Hh as -> -> ->. destruct (Hd eq_refl) as (_ & rest & ->). cbn [negb Z.eqb]. wp_steps. cbn [dat_buf set_bufs].
  pose proof (bo_table _ _ Hok) as [Hlb Hcb].
  destruct (decode_image Hg b dat0 (page_size c) rest Hlb Hu Hps) as [-> Hdec].
  cbn [negb]. rewrite Hdec. clear Hdec.
  pose proof (image_phys_ok Hg b (image_checksum (l:=lay s) b) Hlb Hu) as [_ _ Hpl _].
  cbn [phys_table image_phys] in Hpl.
  apply wp_bind. unfold wp at 1. rewrite valid_bmt_data_eq by (cbn; unfold MAX_BMT_SIZE in *; lia).
  cbn [image_phys header checksum h_mapped_count phys_table h_version].
  change (cal_bmt_checksum _ _) with (image_checksum (l:=lay s) b).
  rewrite Z.eqb_refl, (image_entries Hg) by done.
  cbn [lay set_bufs]. rewrite (entries_in_range (lay s) b Hg Hok).
  cbn [andb negb]. wp_steps. cbn [bmt set_bufs].
  eapply wp_checked.
  { unfold copy_prefix. rewrite Hlen, Hpl.
    rewrite (proj2 (Z.ltb_ge _ _)) by (unfold MAX_BMT_SIZE in *; lia). done. }
  rewrite (image_entries Hg) by done. wp_steps.
  set (t := entries b ++ drop (Z.to_nat (mapped_count b)) (table (bmt s))).
  set (s1 := set_bmt _ _). pose proof (length_take (table b) (Z.to_nat (mapped_count b))) as Hle.
  fold (entries b) in Hle.
  assert (entries (bmt s1) = entries b) as He.
  { unfold entries at 1, s1, t. simpl. rewrite take_app_length'; [done|].
    unfold MAX_BMT_SIZE in *. lia. }
  assert (bmt_ok (lay s1) (bmt s1)) as Hok1.
  { destruct Hok as [_ H1 H2 H3]. split; [|by rewrite He..].
    split; simpl; [|lia]. unfold t. rewrite length_app, length_drop. unfold MAX_BMT_SIZE in *. lia. }
  apply remark_bad_blocks_spec; [done|done|]. rewrite He.
  intros d' Ht Hm Hb. apply wp_ret, HQ; done.
Qed.

Lemma load_bmt_data_spec s b i dat0 oob0 Q :
  geo_ok c (lay s) -> in_pool (lay s) i -> is_bad c (dev s) i = false ->
  sizeof_phys_bmt_struct <= page_size c ->
  bmt_ok (lay s) b -> Forall entry_u16 (table b) ->
  Z.of_nat (length (table (bmt s))) = MAX_BMT_SIZE ->
  holds (c:=c) (dev s) i (fill_nand_bmt_buffer (bmt_block_count (lay s)) b dat0) oob0 ->
  (forall j, i < j < total_block_count (lay s) -> skipped (dev s) j) ->
  (forall s', bmt_ok (lay s') (bmt s') -> entries (bmt s') = entries b ->
     mapped_count (bmt s') = mapped_count b -> lay s' = lay s ->
     touches (c:=c) (fun x => x ∈ bad_index <$> entries b) (dev s) (dev s') ->
     (forall x, x ∈ bad_index <$> entries b -> is_bad c (dev s') x = true) ->
     Q i s') ->
  wp (load_bmt_data (system_block_count (lay s)) (bmt_block_count (lay s))) Q s.
Proof.
  intros Hg Hi Hnb Hps Hok Hu Hlen Hh Hskip HQ. unfold load_bmt_data. apply wp_bind, wp_gets, wp_bind.
  pose proof (go_sys c _ Hg) as Hsys. pose proof (go_pool c _ Hg) as Hpool.
  change (fun idx : Z => _) with (load_body (lay s)).
  apply (wp_for_loop (fun k s' => i <= k /\ exists da oo, s' = set_bufs da oo s)).
  - split; [unfold in_pool in Hi; lia|]. exists (dat_buf s), (oob_buf s). by destruct s.
  - intros k s' Hk (Hik & da & oo & ->).
    set (idx := _ + k * -1) in *.
    assert (idx = system_block_count (lay s) + bmt_block_count (lay s) - 1 - k) as Hidx
      by (subst idx; lia).
    assert (in_pool (lay s) idx) as Hin by (unfold in_pool; lia). unfold in_pool in Hin. change (lay s) with (lay (set_bufs da oo s)).
    destruct (decide (idx = i)) as [->|Hne].
    + eapply (load_body_found (set_bufs da oo s) b i); [done..|].
      intros s' Hok' He Hmc Hl Ht Hb. apply wp_ret. by apply HQ.
         + apply load_body_skip; [done|exact Hin|
        unfold sizeof_phys_bmt_struct in *; lia|apply Hskip; lia|].
      intros da' oo'. split; [simpl; lia|]. by exists da', oo'.
  - intros s' [Hik _]. exfalso. unfold in_pool in Hi. lia.
Qed.
End load.
