(* ===== verification/BmtBbt.v ===== *)
(** The table of good blocks: [create_badblock_table_by_bbt] and the address
    translation.

    The code turns the sorted list of initial bad blocks into an array that
    sends the [m]-th logical block to the [m]-th good block.  The proof keeps
    the array as [G ++ seqZ lo n]: the good blocks below [lo], then a run of
    consecutive numbers.  The scan that builds the sorted list is here too. *)

From stdpp Require Import base numbers list option gmap sorting.
From Stdlib Require Import ZArith Lia.
From S2P Require Import Prelude NandIf BmtData Bmt BmtBase BmtAlloc BmtMigrate BmtWrite BmtMap.

(** ** Lists of consecutive numbers *)

Lemma seqZ_split lo n x :
  lo <= x < lo + n -> seqZ lo n = seqZ lo (x - lo) ++ x :: seqZ (x + 1) (lo + n - (x + 1)).
Proof.
  intros Hx. replace n with ((x - lo) + (lo + n - x)) at 1 by lia.
  rewrite seqZ_app by lia. f_equal. rewrite seqZ_cons by lia.
  f_equal; [lia|]. f_equal; lia.
Qed.

Lemma fmap_succ_seqZ lo n : Z.succ <$> seqZ lo n = seqZ (lo + 1) n.
Proof.
  unfold seqZ. rewrite <- list_fmap_compose. apply list_fmap_ext. intros i x _. simpl. lia.
Qed.

Lemma filter_ext_in {A} (P Q : A -> Prop) `{!forall x, Decision (P x), !forall x, Decision (Q x)} (l : list A) :
  (forall x, x ∈ l -> (P x <-> Q x)) -> filter P l = filter Q l.
Proof.
  induction l as [|x l IH]; intros Hpq; [done|].
  pose proof (Hpq x ltac:(by left)) as Hx. rewrite !filter_cons.
  rewrite IH by (intros y Hy; apply Hpq; by right).
  destruct (decide (P x)), (decide (Q x)); tauto.
Qed.

Lemma filter_all {A} (P : A -> Prop) `{!forall x, Decision (P x)} (l : list A) :
  (forall x, x ∈ l -> P x) -> filter P l = l.
Proof.
  induction l as [|x l IH]; intros Hp; [done|].
  rewrite filter_cons_True by (apply Hp; by left). f_equal. apply IH. intros y Hy.
  apply Hp. by right.
Qed.

Lemma StronglySorted_filter_seqZ (f : Z -> bool) lo n :
  StronglySorted Z.lt (List.filter f (seqZ lo n)).
Proof.
  destruct (decide (n < 0)); [by rewrite seqZ_nil by lia; constructor|].
  rewrite <- (Z2Nat.id n) by lia. generalize (Z.to_nat n). clear n n0. intros n.
  revert lo. induction n as [|n IH]; intros lo; [constructor|].
  rewrite seqZ_cons by lia. replace (Z.pred (Z.of_nat (S n))) with (Z.of_nat n) by lia.
  cbn [List.filter]. destruct (f lo); [|apply IH]. constructor; [apply IH|].
  apply Forall_forall. intros x Hx%list_elem_of_In%filter_In. destruct Hx as [Hx _].
  apply list_elem_of_In, elem_of_seqZ in Hx. lia.
Qed.

(** The good blocks below [hi]. *)
Definition goods (bads : list Z) (hi : Z) : list Z := filter (.∉ bads) (seqZ 0 hi).

Lemma goods_run bads lo hi :
  0 <= lo <= hi -> Forall (fun b => b < lo) bads -> goods bads hi = goods bads lo ++ seqZ lo (hi - lo).
Proof.
  intros Hlo Hb. unfold goods. replace hi with (lo + (hi - lo)) at 1 by lia.
  rewrite seqZ_app by lia. rewrite filter_app. f_equal.
  rewrite Z.add_0_l. apply filter_all. intros x Hx Hin.
  rewrite Forall_forall in Hb. apply Hb in Hin. apply elem_of_seqZ in Hx. lia.
Qed.

Lemma goods_bad bads b :
  0 <= b -> Forall (fun b' => b' < b) bads -> goods (bads ++ [b]) (b + 1) = goods bads b.
Proof.
  intros Hb Hlt. unfold goods. rewrite seqZ_app by lia. rewrite filter_app, Z.add_0_l.
  rewrite (seqZ_cons b 1), (seqZ_nil (Z.succ b)) by lia. rewrite filter_cons_False by set_solver.
  rewrite filter_nil, app_nil_r. apply filter_ext_in. intros x Hx.
  apply elem_of_seqZ in Hx. rewrite elem_of_app, list_elem_of_singleton.
  split; [tauto|]. intros H [?| ->]; [done|lia].
Qed.

Lemma length_goods_le bads hi : 0 <= hi -> Z.of_nat (length (goods bads hi)) <= hi.
Proof.
  intros Hhi. unfold goods.
  pose proof (length_filter (.∉ bads) (seqZ 0 hi)) as H. rewrite length_seqZ in H. lia.
Qed.

Section bbt.
Context {D : Type} `{NandDev D}.
Implicit Type s : st D.

Lemma pBbt_get_eq s l1 x l2 :
  pBbt s = l1 ++ x :: l2 -> pBbt_get (Z.of_nat (length l1)) s = Done (x, s).
Proof.
  intros Hp. unfold pBbt_get, bind, gets, checked. rewrite Hp, znth_lookup, Nat2Z.id by lia.
  by rewrite list_lookup_middle.
Qed.

Lemma pBbt_put_eq s l1 x l2 v :
  pBbt s = l1 ++ x :: l2 ->
  pBbt_put (Z.of_nat (length l1)) v s = Done (tt, set_pBbt (l1 ++ u16 v :: l2) s).
Proof.
  intros Hp. unfold pBbt_put, bind, gets, checked. rewrite Hp, zset_Some.
  - rewrite Nat2Z.id, insert_app_r_alt, Nat.sub_diag by lia. done.
  - rewrite length_app. simpl. lia.
Qed.

(** Filling with the identity. *)
Lemma fill_identity n s l1 l2 :
  pBbt s = l1 ++ l2 -> (n <= length l2)%nat -> Z.of_nat (length l1) + Z.of_nat n <= 0x10000 ->
  for_each n (Z.of_nat (length l1)) 1 (fun i => pBbt_put i i) s
  = Done (tt, set_pBbt (l1 ++ seqZ (Z.of_nat (length l1)) (Z.of_nat n) ++ drop n l2) s).
Proof.
  revert s l1 l2. induction n as [|n IH]; intros s l1 l2 Hp Hn Hw.
  { cbn [for_each]. change (seqZ _ (Z.of_nat 0)) with (@nil Z). simpl. rewrite drop_0, <- Hp.
    by destruct s. }
  destruct l2 as [|x l2]; [simpl in Hn; lia|]. cbn [for_each]. unfold bind.
  erewrite pBbt_put_eq by done.
  replace (Z.of_nat (length l1) + 1) with (Z.of_nat (length (l1 ++ [Z.of_nat (length l1)])))
    by (rewrite length_app; simpl; lia).
  rewrite (IH _ _ l2).
  - do 2 f_equal. rewrite (seqZ_cons _ (Z.of_nat (S n))) by lia. rewrite <- !app_assoc. simpl.
    unfold set_pBbt. simpl. do 4 f_equal. rewrite length_app. simpl. f_equal; lia.
  - simpl. unfold u16. rewrite Z.mod_small by (change (2 ^ 16) with 65536; lia).
    by rewrite <- app_assoc.
  - simpl in Hn. lia.
  - rewrite length_app. simpl. lia.
Qed.

(** The increments. *)
Lemma shift_tail s l1 l2 l3 :
  pBbt s = l1 ++ l2 ++ l3 -> Forall (fun v => 0 <= v < 0xFFFF) l2 ->
  for_each (length l2) (Z.of_nat (length l1)) 1 (fun k =>
    let! v := pBbt_get k in pBbt_put k (v + 1)) s
  = Done (tt, set_pBbt (l1 ++ (Z.succ <$> l2) ++ l3) s).
Proof.
  intros Hp Hr. revert s l1 Hp. induction Hr as [|x l2 Hx _ IH]; intros s l1 Hp.
  { simpl in *. rewrite <- Hp. by destruct s. }
  cbn [length for_each]. unfold bind at 1 2. erewrite pBbt_get_eq by done.
  erewrite pBbt_put_eq by done.
  replace (Z.of_nat (length l1) + 1) with (Z.of_nat (length (l1 ++ [u16 (x + 1)])))
    by (rewrite length_app; simpl; lia).
  rewrite IH.
  - do 2 f_equal. unfold set_pBbt. simpl. f_equal. rewrite <- app_assoc. simpl.
    unfold u16. by rewrite Z.mod_small by (change (2 ^ 16) with 65536; lia).
  - simpl. by rewrite <- app_assoc.
Qed.

(** The search. *)
Lemma search_tail s l1 la b l3 n :
  pBbt s = l1 ++ la ++ b :: l3 -> b ∉ la -> (length la < n)%nat ->
  for_loop n (Z.of_nat (length l1)) 1 (fun j =>
    let! v := pBbt_get j in ret (if v =? b then Some j else None)) s
  = Done (Some (Z.of_nat (length l1 + length la)), s).
Proof.
  revert l1 n. induction la as [|x la IH]; intros l1 n Hp Hn Hlt; (destruct n as [|n]; [simpl in Hlt; lia|]).
  - cbn [for_loop]. unfold bind at 1 2. simpl in Hp. erewrite pBbt_get_eq by done. cbn.
    rewrite Z.eqb_refl. cbn. by rewrite Nat.add_0_r.
  - apply not_elem_of_cons in Hn as [Hne Hn]. cbn [for_loop]. unfold bind at 1 2.
    erewrite pBbt_get_eq by done. cbn. rewrite (proj2 (Z.eqb_neq x b)) by done.
    replace (Z.of_nat (length l1) + 1) with (Z.of_nat (length (l1 ++ [x])))
      by (rewrite length_app; simpl; lia).
    rewrite IH; [|by rewrite Hp, <- app_assoc|done|simpl in Hlt; lia].
    do 3 f_equal. rewrite length_app. simpl. lia.
Qed.

Lemma bbt_shift_eq s G lo size rest b k :
  pBbt s = G ++ seqZ lo (size - Z.of_nat (length G)) ++ rest ->
  Z.of_nat (length G) <= lo -> 0 <= lo <= b -> b < size ->
  lo + size - Z.of_nat (length G) <= 0xFFFF ->
  let G' := G ++ seqZ lo (b - lo) in
  bbt_shift size b (Z.of_nat (length G)) k s
  = Done ((Z.of_nat (length G'), size),
          set_pBbt (G' ++ seqZ (b + 1) (size - Z.of_nat (length G')) ++ rest) s).
Proof.
  intros Hp HG Hlo Hb Hw G'. unfold bbt_shift, bind at 1.
  assert (Z.of_nat (length G') = Z.of_nat (length G) + (b - lo)) as HG'.
  { unfold G'. rewrite length_app, length_seqZ. lia. }
  set (n := size - Z.of_nat (length G)) in *.
  rewrite (seqZ_split lo n b) in Hp by lia. rewrite <- app_assoc in Hp. simpl in Hp.
  rewrite (search_tail s G (seqZ lo (b - lo)) b (seqZ (b + 1) (lo + n - (b + 1)) ++ rest)).
  - rewrite <- length_app. fold G'. unfold bind.
    rewrite app_assoc in Hp. fold G' in Hp.
    assert (b :: seqZ (b + 1) (lo + n - (b + 1)) = seqZ b (size - Z.of_nat (length G'))) as Hseq.
    { rewrite (seqZ_cons b) by lia. f_equal. f_equal; lia. }
    assert (pBbt s = G' ++ seqZ b (size - Z.of_nat (length G')) ++ rest) as Hp'.
    { by rewrite <- Hseq. }
    replace (Z.to_nat (size - Z.of_nat (length G'))) with
      (length (seqZ b (size - Z.of_nat (length G')))) by (rewrite length_seqZ; lia).
    pose proof (shift_tail s G' _ rest Hp') as Hst. unfold bind in Hst. rewrite Hst.
    + rewrite fmap_succ_seqZ. cbn. assert (Z.of_nat (length G') `max` size = size) as -> by lia. done.
    + apply Forall_forall. intros x Hx%elem_of_seqZ. lia.
  - done.
  - rewrite elem_of_seqZ. lia.
  - rewrite length_seqZ. lia.
Qed.

(** Sorted from [lo] on. *)
Fixpoint increasing (lo : Z) (l : list Z) : Prop :=
  match l with
  | [] => True
  | b :: l' => lo <= b /\ increasing (b + 1) l'
  end.

Lemma sorted_increasing lo l :
  StronglySorted Z.lt l -> Forall (fun b => lo <= b) l -> increasing lo l.
Proof.
  intros Hs. revert lo. induction Hs as [|b l Hs IH Hb]; intros lo Hlo; simpl; [done|].
  apply Forall_cons in Hlo as [? _]. split; [done|]. apply IH.
  eapply Forall_impl; [exact Hb|]. simpl. lia.
Qed.

Lemma bbt_shifts_eq todo done s size rest lo k :
  0 <= lo -> Forall (fun b => b < lo) done -> increasing lo todo ->
  Forall (fun b => b < size) todo ->
  Z.of_nat (length (goods done lo)) = lo - Z.of_nat (length done) ->
  size + Z.of_nat (length done + length todo) <= 0xFFFF ->
  take (length done + length todo) (badblock_table (init_bbt s)) = done ++ todo ->
  pBbt s = goods done lo ++ seqZ lo (size - Z.of_nat (length (goods done lo))) ++ rest ->
  exists hi, bbt_shifts (length todo) size (Z.of_nat (length done))
      (Z.of_nat (length (goods done lo))) k s
    = Done (tt, set_pBbt (goods (done ++ todo) hi ++
                seqZ hi (size - Z.of_nat (length (goods (done ++ todo) hi))) ++ rest) s) /\
    0 <= hi <= Z.max lo size /\ Forall (fun b => b < hi) (done ++ todo) /\
    Z.of_nat (length (goods (done ++ todo) hi)) = hi - Z.of_nat (length (done ++ todo)).
Proof.
  revert done s lo k. induction todo as [|b todo IH]; intros dn s lo k Hlo Hdone Hinc Hsize Hlen Hw Htab Hp.
  { exists lo. rewrite app_nil_r. split_and!; [|lia|lia|done|done]. simpl. rewrite <- Hp. by destruct s. }
  destruct Hinc as [Hb Hinc]. apply Forall_cons in Hsize as [Hbs Hsize].
  cbn [length bbt_shifts]. unfold bind at 1 2 3, gets, checked.
  assert (znth (badblock_table (init_bbt s)) (Z.of_nat (length dn)) = Some b) as ->.
  { rewrite znth_lookup, Nat2Z.id by lia.
    erewrite <- (lookup_take_lt _ (length dn + length (b :: todo))) by (simpl; lia).
    rewrite Htab. by rewrite list_lookup_middle. }
  unfold ret at 1. cbn [length] in Hw.
  rewrite (bbt_shift_eq s (goods dn lo) lo size rest b k) by (done || lia).
  set (s1 := set_pBbt _ s). cbn [fst snd].
  assert (goods dn lo ++ seqZ lo (b - lo) = goods (dn ++ [b]) (b + 1)) as HG.
  { rewrite goods_bad; [|lia|eapply Forall_impl; [exact Hdone|simpl; lia]].
    symmetry. apply goods_run; [lia|done]. }
  rewrite HG in *.
  assert (Z.of_nat (length (goods (dn ++ [b]) (b + 1))) = b + 1 - Z.of_nat (length (dn ++ [b]))) as Hl.
  { rewrite <- HG, !length_app, length_seqZ. simpl. lia. }
  replace (Z.of_nat (length dn) + 1) with (Z.of_nat (length (dn ++ [b])))
    by (rewrite length_app; simpl; lia).
  destruct (IH (dn ++ [b]) s1 (b + 1) size) as (hi & Hrun & Hhi & Hlt & Hlh);
    [lia| |done|done|done| | | |].
  - apply Forall_app. split; [|apply Forall_singleton; lia].
    eapply Forall_impl; [exact Hdone|simpl; lia].
  - rewrite length_app. simpl. lia.
  - rewrite length_app, <- app_assoc. simpl.
    replace (length dn + 1 + length todo)%nat with (length dn + length (b :: todo))%nat by (simpl; lia).
    done.
  - unfold s1. simpl. by rewrite HG.
  - rewrite <- app_assoc in *. simpl in *. exists hi. split_and!; [|lia|lia|done|done].
    rewrite Hrun. done.
Qed.

(** The initial bad blocks recorded in the globals. *)
Definition initial_bads s : list Z :=
  take (Z.to_nat (badblock_count (init_bbt s))) (badblock_table (init_bbt s)).

Record bbt_ok s : Prop := {
  bb_len : Z.of_nat (length (badblock_table (init_bbt s))) = MAX_RAW_BAD_BLOCK_SIZE;
  bb_count : 0 <= badblock_count (init_bbt s) <= MAX_RAW_BAD_BLOCK_SIZE;
  bb_sorted : StronglySorted Z.lt (initial_bads s);
  bb_range : Forall (fun b => 0 <= b < system_block_count (lay s)) (initial_bads s);
  bb_array : Z.of_nat (length (pBbt s)) = MAX_RAW_BBT_SIZE;
  bb_fits : 0 < system_block_count (lay s) <= MAX_RAW_BBT_SIZE
}.

(** The first entries of the array enumerate the good blocks. *)
Definition enumerated s : Prop :=
  take (Z.to_nat (system_block_count (lay s) - badblock_count (init_bbt s))) (pBbt s)
    = goods (initial_bads s) (system_block_count (lay s)).

Lemma length_initial_bads s :
  bbt_ok s -> Z.of_nat (length (initial_bads s)) = badblock_count (init_bbt s).
Proof. intros [? ? _ _ _ _]. unfold initial_bads. rewrite length_take. lia. Qed.

Lemma create_badblock_table_eq s :
  bbt_ok s ->
  exists t, create_badblock_table_by_bbt s
      = Done (0, set_logic_size
          (s32 (u32 (system_block_count (lay s) - badblock_count (init_bbt s))
                * BLOCK_SIZE_BMT (lay s))) (set_pBbt t s)) /\
    Z.of_nat (length t) = MAX_RAW_BBT_SIZE /\ enumerated (set_pBbt t s).
Proof.
  intros Hok. pose proof (length_initial_bads s Hok) as Hl.
  destruct Hok as [Htl Hc Hs Hr Hpl Hf].
  set (size := system_block_count (lay s)) in *. set (n := badblock_count (init_bbt s)) in *.
  assert (MAX_RAW_BAD_BLOCK_SIZE = 250) as H250 by done.
  assert (MAX_RAW_BBT_SIZE = 4096) as H4096 by done.
  unfold create_badblock_table_by_bbt, bind at 1 2, gets at 1. fold size.
  pose proof (fill_identity (Z.to_nat size) s [] (pBbt s) eq_refl) as Hfill.
  change (Z.of_nat (length [])) with 0 in Hfill. rewrite Hfill by lia. clear Hfill.
  set (s1 := set_pBbt _ s).
  unfold bind at 1, gets at 1. fold n.
  destruct (bbt_shifts_eq (initial_bads s) [] s1 size (drop (Z.to_nat size) (pBbt s)) 0 0)
    as (hi & Hrun & Hhi & Hlt & Hlen).
  - lia.
  - done.
  - apply sorted_increasing; [done|]. eapply Forall_impl; [exact Hr|simpl; lia].
  - eapply Forall_impl; [exact Hr|simpl; lia].
  - done.
  - simpl. lia.
  - simpl. replace (length (initial_bads s)) with (Z.to_nat n) by lia. done.
  - simpl. rewrite Z.sub_0_r, Z2Nat.id by lia. done.
  - simpl in Hrun. change (goods [] 0) with (@nil Z) in Hrun. simpl in Hrun.
    replace (length (initial_bads s)) with (Z.to_nat n) in Hrun by lia.
    change (Z.of_nat 0) with 0 in Hrun. unfold bind at 1. change (init_bbt s1) with (init_bbt s). fold n. rewrite Hrun. cbn. eexists. split; [done|].
    set (G := goods (initial_bads s) hi) in *. cbn in Hlen. rewrite Hl in Hlen. fold G n in Hlen.
    split.
    + rewrite !length_app, length_seqZ, length_drop. lia.
    + unfold enumerated. simpl. fold size n.
      change (initial_bads (set_pBbt _ s)) with (initial_bads s).
      rewrite (goods_run (initial_bads s) hi size) by (done || lia). fold G.
      replace (size - Z.of_nat (length G)) with ((size - hi) + n) by lia.
      rewrite seqZ_app by lia. rewrite <- app_assoc, app_assoc.
      rewrite take_app_length'; [done|]. rewrite length_app, length_seqZ. lia.
Qed.

(** ** Address translation *)

Lemma bmt_map_elem b g v :
  bmt_map b !! g = Some v -> exists e, e ∈ entries b /\ bad_index e = g /\ mapped_index e = v.
Proof.
  intros Hv. apply elem_of_list_to_map_2, list_elem_of_fmap in Hv as (e & [= -> ->] & Hx). eauto.
Qed.

Lemma bmt_map_target b l g :
  bmt_ok l b -> 0 <= g < system_block_count l ->
  bmt_map b !! g = None \/ exists v, bmt_map b !! g = Some v /\ system_block_count l <= v.
Proof.
  intros Hok Hg. destruct (bmt_map b !! g) as [v|] eqn:V; [right|by left].
  exists v. split; [done|]. apply bmt_map_elem in V as (e & He & _ & <-).
  pose proof (bo_range _ _ Hok) as Hr. rewrite Forall_forall in Hr. apply Hr in He. lia.
Qed.

Lemma bmt_map_injective b l g1 g2 v :
  bmt_ok l b -> bmt_map b !! g1 = Some v -> bmt_map b !! g2 = Some v -> g1 = g2.
Proof.
  intros Hok (e1 & H1 & <- & <-)%bmt_map_elem (e2 & H2 & <- & Heq)%bmt_map_elem.
  apply list_elem_of_lookup in H1 as [n1 H1], H2 as [n2 H2].
  enough (n1 = n2) as -> by congruence.
  apply (NoDup_lookup (mapped_index <$> entries b) _ _ (mapped_index e1)).
  - apply Hok.
  - by rewrite list_lookup_fmap, H1.
  - by rewrite list_lookup_fmap, H2, <- Heq.
Qed.

Lemma goods_lookup s i :
  bbt_ok s -> enumerated s ->
  0 <= i < system_block_count (lay s) - badblock_count (init_bbt s) ->
  exists g, znth (pBbt s) i = Some g /\
    goods (initial_bads s) (system_block_count (lay s)) !! Z.to_nat i = Some g /\
    0 <= g < system_block_count (lay s) /\ g ∉ initial_bads s.
Proof.
  intros [Htl Hc Hs Hr Hpl Hf] He Hi. unfold enumerated in He.
  destruct (znth_Some (pBbt s) i) as [g Hg]; [lia|]. exists g. rewrite <- He.
  pose proof Hg as Hg'. rewrite znth_lookup in Hg' by lia.
  assert (goods (initial_bads s) (system_block_count (lay s)) !! Z.to_nat i = Some g) as Hgl.
  { rewrite <- He. rewrite lookup_take_lt by lia. done. }
  pose proof Hgl as Hel%list_elem_of_lookup_2. unfold goods in Hel.
  apply list_elem_of_filter in Hel as [Hn Hin]. apply elem_of_seqZ in Hin.
  split_and!; [done|by rewrite He|lia|lia|done].
Qed.

Lemma get_mapping_block_index_eq s i :
  table_ok (lay s) (bmt s) -> bmt_block_count (lay s) <= MAX_BMT_SIZE ->
  bbt_ok s -> enumerated s ->
  0 <= i < system_block_count (lay s) - badblock_count (init_bbt s) ->
  exists g, goods (initial_bads s) (system_block_count (lay s)) !! Z.to_nat i = Some g /\
    0 <= g < system_block_count (lay s) /\ g ∉ initial_bads s /\
    get_mapping_block_index i s = Done ((default g (bmt_map (bmt s) !! g), g), s).
Proof.
  intros Ht Hm Hok He Hi. destruct (goods_lookup s i Hok He Hi) as (g & Hz & Hg & Hgr & Hgb).
  exists g. split_and!; [done|lia|lia|done|]. destruct Hok as [Htl Hc Hs Hr Hpl Hf].
  unfold MAX_RAW_BBT_SIZE, MAX_RAW_BAD_BLOCK_SIZE in *.
  unfold get_mapping_block_index, bind at 1, get_mapping_block_index_by_bbt, bind at 1 2, gets.
  rewrite !u32_small by lia. rewrite (proj2 (Z.leb_gt _ _)) by lia.
  unfold pBbt_get, bind at 1, gets, checked. rewrite Hz. unfold ret at 1.
  unfold bind. rewrite get_mapping_by_bmt_eq by (done || lia).
  rewrite (proj2 (Z.ltb_lt _ _)) by lia. unfold ret, u16. by rewrite Z.mod_small by lia.
Qed.
End bbt.

(** ** The scan for initial bad blocks *)

Section scan.
Context {D : Type} {HD : NandDev D} {c : chip} (Hc : chip_ok c).
Implicit Type s : st D.

(** Marked as bad and not the subject of a replacement. *)
Definition initially_bad s (b : Z) : bool :=
  negb (nd_block_bad (dev s) (b * block_size c) BAD_BLOCK_RAW =? 0) &&
  negb (bool_decide (b ∈ bad_index <$> entries (bmt s))).

Lemma is_badblock_raw_eq s x :
  table_ok (lay s) (bmt s) -> bmt_block_count (lay s) <= MAX_BMT_SIZE ->
  is_badblock_raw x s
    = Done (if bool_decide (x ∈ bad_index <$> entries (bmt s)) then 0 else 1, s).
Proof.
  intros Ht Hm. unfold is_badblock_raw, bind at 1, gets. unfold bind at 1.
  rewrite (table_search (fun _ e => if x =? bad_index e then Some 0 else None) (lay s)) by done.
  assert (forall es i, search (fun (_ : Z) e => if x =? bad_index e then Some 0 else None) es i
    = if bool_decide (x ∈ bad_index <$> es) then Some 0 else None) as ->.
  { induction es as [|e es IH]; intros i; [done|]. cbn [search].
    destruct (Z.eqb_spec x (bad_index e)) as [->|Hne].
    - by rewrite bool_decide_eq_true_2 by (by left).
    - rewrite IH. erewrite bool_decide_ext; [done|]. cbn. rewrite elem_of_cons. tauto. }
  by destruct (bool_decide _).
Qed.

(** The bad blocks [scan_loop] still has to record. *)
Definition bads_from s (block : Z) : list Z :=
  List.filter (initially_bad s) (seqZ block (system_block_count (lay s) - block)).

Lemma bads_from_cons s block :
  block < system_block_count (lay s) ->
  bads_from s block = if initially_bad s block then block :: bads_from s (block + 1)
                      else bads_from s (block + 1).
Proof.
  intros Hb. unfold bads_from. rewrite seqZ_cons by lia. cbn [List.filter].
  by replace (Z.pred (system_block_count (lay s) - block))
    with (system_block_count (lay s) - (block + 1)) by lia.
Qed.

(** What the scan from [block] with [count] recorded blocks answers. *)
Definition scan_result s (count : Z) (found : list Z) (o : outcome (Z * st D)) : Prop :=
  if bool_decide (count + Z.of_nat (length found) <= MAX_RAW_BAD_BLOCK_SIZE)
  then exists t, o
         = Done (0, set_init_bbt (Bbt t (bbt_version (init_bbt s)) (count + Z.of_nat (length found))) s) /\
       length t = length (badblock_table (init_bbt s)) /\
       take (Z.to_nat count + length found) t
         = take (Z.to_nat count) (badblock_table (init_bbt s)) ++ found
  else exists s', o = Done (-1, s').

Lemma scan_loop_end fuel s count :
  0 <= count <= MAX_RAW_BAD_BLOCK_SIZE ->
  scan_result s count (bads_from s (system_block_count (lay s)))
    (scan_loop fuel (system_block_count (lay s)) count s).
Proof.
  intros Hcnt. unfold scan_result, bads_from. rewrite Z.sub_diag.
  change (List.filter _ (seqZ _ 0)) with (@nil Z). rewrite bool_decide_eq_true_2 by (simpl; lia).
  exists (badblock_table (init_bbt s)). split_and!; [|done|by rewrite app_nil_r, Nat.add_0_r].
  destruct fuel; simpl; unfold bind at 1, gets; rewrite (proj2 (Z.ltb_ge _ _)) by lia; cbn.
  all: unfold u8, MAX_RAW_BAD_BLOCK_SIZE in *; rewrite Z.add_0_r, Z.mod_small by lia; done.
Qed.

(** Recording a block and going on. *)
Lemma scan_result_record s block count o :
  let t1 := <[Z.to_nat count := block]> (badblock_table (init_bbt s)) in
  let s1 := set_init_bbt (Bbt t1 (bbt_version (init_bbt s)) (badblock_count (init_bbt s))) s in
  0 <= count < Z.of_nat (length (badblock_table (init_bbt s))) ->
  scan_result s1 (count + 1) (bads_from s (block + 1)) o ->
  scan_result s count (block :: bads_from s (block + 1)) o.
Proof.
  intros t1 s1 Hcnt. unfold scan_result. cbn [length]. set (rest := bads_from s (block + 1)).
  replace (count + Z.of_nat (S (length rest))) with (count + 1 + Z.of_nat (length rest)) by lia.
  destruct (bool_decide _); [|done]. intros (t & Hrun & Hlt & Htk). simpl in Hlt, Htk.
  assert (length t1 = length (badblock_table (init_bbt s))) as Hl1 by (apply length_insert).
  exists t. split_and!; [exact Hrun|by rewrite Hlt|].
  replace (Z.to_nat count + S (length rest))%nat with (Z.to_nat (count + 1) + length rest)%nat by lia.
  rewrite Htk. replace (Z.to_nat (count + 1)) with (S (Z.to_nat count)) by lia.
  unfold t1. rewrite (take_S_r _ _ block) by (apply list_lookup_insert_eq; lia).
  rewrite take_insert_ge by lia. by rewrite <- app_assoc.
Qed.

Lemma scan_loop_eq fuel s block count :
  geo_ok c (lay s) -> table_ok (lay s) (bmt s) ->
  Z.of_nat (length (badblock_table (init_bbt s))) = MAX_RAW_BAD_BLOCK_SIZE ->
  0 <= block <= system_block_count (lay s) -> 0 <= count <= MAX_RAW_BAD_BLOCK_SIZE ->
  system_block_count (lay s) - block <= Z.of_nat fuel ->
  scan_result s count (bads_from s block) (scan_loop fuel block count s).
Proof.
  revert s block count. induction fuel as [|fuel IH]; intros s block count Hg Ht Hlen Hb Hcnt Hf.
  { replace block with (system_block_count (lay s)) by lia. by apply scan_loop_end. }
  destruct (decide (block = system_block_count (lay s))) as [->|Hne]; [by apply scan_loop_end|].
  pose proof (go_pool c _ Hg) as Hpool. pose proof (go_sys c _ Hg) as Hsys.
  pose proof (go_u16 c _ Hg) as Hu16.
  rewrite bads_from_cons by lia.
  cbn [scan_loop]. erewrite (bind_run (gets lay)) by reflexivity.
  rewrite (proj2 (Z.ltb_lt _ _)) by lia. cbn [negb].
  erewrite (bind_run (nand_block_bad_bmt _ _)) by reflexivity.
  rewrite (OFFSET_eq Hc) by (done || lia).
  assert (u16 (block + 1) = block + 1) as Hu by (apply Z.mod_small; change (2 ^ 16) with 65536; lia).
  rewrite Hu. unfold initially_bad.
  destruct (negb (nd_block_bad (dev s) (block * block_size c) BAD_BLOCK_RAW =? 0)) eqn:Hraw;
    cbn [andb]; [|apply IH; (done || lia)].
  erewrite bind_run by (apply is_badblock_raw_eq; (done || lia)).
  destruct (bool_decide (block ∈ _)); cbn [negb Z.eqb] in *; [apply IH; (done || lia)|].
  destruct (Z.leb_spec MAX_RAW_BAD_BLOCK_SIZE count) as [Hfull|Hroom].
  { unfold scan_result. rewrite bool_decide_eq_false_2; [by eexists|]. cbn [length]. lia. }
  erewrite (bind_run (gets init_bbt)) by reflexivity. rewrite zset_Some by lia.
  erewrite (bind_run (checked _)) by reflexivity. erewrite (bind_run (modify _)) by reflexivity.
  apply scan_result_record; [lia|]. apply (IH (set_init_bbt _ s)); try done; simpl; try lia.
  by rewrite length_insert.
Qed.
End scan.

Section bbt_properties.
Context {D : Type} `{NandDev D}.
Implicit Type s : st D.

(** C19: after [create_badblock_table_by_bbt] the array enumerates, in
    increasing order and without gaps, exactly the system blocks that are
    not in the list of initial bad blocks; nothing is accessed out of
    range. *)
Theorem create_badblock_table_enumerates s :
  bbt_ok s ->
  exists s', create_badblock_table_by_bbt s = Done (0, s') /\
    take (Z.to_nat (system_block_count (lay s) - badblock_count (init_bbt s))) (pBbt s')
      = filter (.∉ initial_bads s) (seqZ 0 (system_block_count (lay s))) /\
    bmt s' = bmt s /\ init_bbt s' = init_bbt s /\ dev s' = dev s.
Proof.
  intros Hok. destruct (create_badblock_table_eq s Hok) as (t & Hrun & _ & He).
  eexists. split; [exact Hrun|]. split_and!; [exact He|done..].
Qed.

(** C18: two different logical blocks are never translated to the same
    physical block, whatever bad blocks have been replaced; the second
    result is the good block itself. *)
Theorem get_mapping_block_index_injective c s i j :
  geo_ok c (lay s) -> bmt_ok (lay s) (bmt s) -> bbt_ok s -> enumerated s ->
  0 <= i < system_block_count (lay s) - badblock_count (init_bbt s) ->
  0 <= j < system_block_count (lay s) - badblock_count (init_bbt s) ->
  i <> j ->
  exists bi bj gi gj,
    get_mapping_block_index i s = Done ((bi, gi), s) /\
    get_mapping_block_index j s = Done ((bj, gj), s) /\
    bi <> bj /\ gi ∉ initial_bads s /\ gj ∉ initial_bads s.
Proof.
  intros Hg Hok Hb He Hi Hj Hne.
  pose proof (go_pool c _ Hg) as Hpool. pose proof (bo_table _ _ Hok) as Ht.
  destruct (get_mapping_block_index_eq s i Ht ltac:(lia) Hb He Hi) as (g1 & Hg1 & Hr1 & Hn1 & E1).
  destruct (get_mapping_block_index_eq s j Ht ltac:(lia) Hb He Hj) as (g2 & Hg2 & Hr2 & Hn2 & E2).
  do 4 eexists. split_and!; [exact E1|exact E2| |done|done].
  assert (g1 <> g2) as Hgne.
  { intros ->. apply Hne. assert (NoDup (goods (initial_bads s) (system_block_count (lay s)))) as Hnd.
    { apply NoDup_filter, NoDup_seqZ. }
    pose proof (NoDup_lookup _ _ _ _ Hnd Hg1 Hg2). lia. }
  intros Heq. destruct (bmt_map_target (bmt s) (lay s) g1 Hok Hr1) as [V1|(v1 & V1 & Hv1)],
    (bmt_map_target (bmt s) (lay s) g2 Hok Hr2) as [V2|(v2 & V2 & Hv2)];
    rewrite V1, V2 in Heq; simpl in Heq; [done|lia|lia|].
  apply Hgne. subst v2. by eapply bmt_map_injective.
Qed.
End bbt_properties.
