(* ===== verification/BmtRecover.v ===== *)
(** [recover_bmt]: giving a recovered block back its place.

    The deletion of the entry ([remove_entry]), the search for it
    ([find_bad_entry]) and the defect of the unmapped case: the second trace
    message of the function reads [bmt.table[-1]] when the block has no entry. *)

From stdpp Require Import base numbers list option gmap.
From Stdlib Require Import ZArith Lia.
From S2P Require Import Prelude NandIf BmtData Bmt BmtBase BmtAlloc BmtMigrate BmtWrite BmtMap.

Lemma for_each_app {S} n m i d (body : Z -> M S unit) s s1 :
  for_each n i d body s = Done (tt, s1) ->
  for_each (n + m) i d body s = for_each m (i + Z.of_nat n * d) d body s1.
Proof.
  revert i s. induction n as [|n IH]; intros i s; cbn [for_each Nat.add].
  - intros [= ->]. f_equal. lia.
  - unfold bind. destruct (body i s) as [[[] s2]| |]; [|done..]. intros Hr.
    rewrite (IH _ _ Hr). f_equal. lia.
Qed.

Lemma last_cons_default {A} (l : list A) x y : List.last (y :: l) x = List.last l y.
Proof.
  revert x y. induction l as [|z l IH]; intros x y; [done|].
  change (List.last (z :: l) x = List.last (z :: l) y). by rewrite !IH.
Qed.

Section recover.
Context {D : Type} `{NandDev D}.
Implicit Type s : st D.

Definition set_table (t : list bmt_entry) s : st D :=
  set_bmt (Bmt t (version (bmt s)) (mapped_count (bmt s)) (bad_count (bmt s))) s.

Definition shift_body (table_idx i : Z) : M (st D) unit :=
  if table_idx <? i then
    let! b := gets bmt in
    let! e := table_get b i in
    let! t := checked (zset (table b) (i - 1) e) in
    modify (set_bmt (Bmt t (version b) (mapped_count b) (bad_count b)))
  else ret tt.

Lemma shift_idle table_idx n i s :
  i + Z.of_nat n <= table_idx + 1 -> for_each n i 1 (shift_body table_idx) s = Done (tt, s).
Proof.
  revert i. induction n as [|n IH]; intros i Hi; [done|]. cbn [for_each].
  rewrite (bind_run (shift_body table_idx i) _ _ tt s).
  - apply IH. lia.
  - unfold shift_body. by rewrite (proj2 (Z.ltb_ge _ _)) by lia.
Qed.

Lemma shift_left table_idx p x l rest s :
  table (bmt s) = p ++ x :: l ++ rest -> table_idx <= Z.of_nat (length p) ->
  for_each (length l) (Z.of_nat (length p) + 1) 1 (shift_body table_idx) s
    = Done (tt, set_table (p ++ l ++ List.last l x :: rest) s).
Proof.
  revert p x s. induction l as [|y l IH]; intros p x s Ht Hi.
  { cbn [length for_each List.last app]. simpl in Ht. unfold set_table. rewrite <- Ht.
    destruct s as [? ? []]. done. }
  cbn [length for_each].
  assert (table (bmt s) = (p ++ [x]) ++ y :: l ++ rest) as Ht2 by (by rewrite Ht, <- app_assoc).
  rewrite (bind_run (shift_body table_idx (Z.of_nat (length p) + 1)) _ _ tt
    (set_table (p ++ y :: y :: l ++ rest) s)).
  - replace (Z.of_nat (length p) + 1 + 1) with (Z.of_nat (length (p ++ [y])) + 1)
      by (rewrite length_app; simpl; lia).
    rewrite (IH (p ++ [y]) y).
    + assert ((p ++ [y]) ++ l ++ List.last l y :: rest = p ++ (y :: l) ++ List.last (y :: l) x :: rest)
        as -> by (rewrite <- app_assoc, last_cons_default; done). done.
    + simpl. by rewrite <- app_assoc.
    + rewrite length_app. simpl. lia.
  - unfold shift_body. rewrite (proj2 (Z.ltb_lt _ _)) by lia.
    erewrite (bind_run (gets bmt)) by reflexivity. unfold table_get.
    rewrite znth_lookup by lia.
    replace (Z.to_nat (Z.of_nat (length p) + 1)) with (length (p ++ [x]))
      by (rewrite length_app; simpl; lia).
    rewrite Ht2 at 1. rewrite list_lookup_middle by done.
    erewrite (bind_run (checked _)) by reflexivity.
    rewrite Z.add_simpl_r, zset_Some by (rewrite Ht, length_app; simpl; lia).
    erewrite (bind_run (checked _)) by reflexivity.
    rewrite Nat2Z.id, Ht, insert_app_r_alt, Nat.sub_diag by lia. done.
Qed.

(** The loop of [remove_entry] and the clearing of the slot behind it. *)
Lemma remove_entry_eq s p e l x rest :
  table (bmt s) = p ++ e :: l ++ x :: rest ->
  mapped_count (bmt s) = Z.of_nat (length p + S (length l)) -> mapped_count (bmt s) < 256 ->
  remove_entry (Z.of_nat (length p)) s
    = Done (tt, set_bmt (Bmt (p ++ l ++ List.last l e :: Entry 0 0 :: rest) (version (bmt s))
                          (mapped_count (bmt s) - 1) (bad_count (bmt s))) s).
Proof.
  intros Ht Hn H256. unfold remove_entry. erewrite (bind_run (gets bmt)) by reflexivity.
  set (s1 := set_table (p ++ l ++ List.last l e :: x :: rest) s).
  rewrite (bind_run _ _ s tt s1).
  - erewrite (bind_run (gets bmt)) by reflexivity.
    assert (table (bmt s1) = (p ++ l ++ [List.last l e]) ++ x :: rest) as Ht1.
    { unfold s1. simpl. by rewrite <- !app_assoc. }
    assert (mapped_count (bmt s1) = Z.of_nat (length (p ++ l ++ [List.last l e]))) as Hn1.
    { unfold s1. simpl. rewrite Hn, !length_app. simpl. lia. }
    rewrite Ht1, Hn1, zset_Some by (rewrite !length_app; simpl; lia).
    erewrite (bind_run (checked _)) by reflexivity.
    rewrite Nat2Z.id, insert_app_r_alt by done. rewrite Nat.sub_diag. cbn [insert list_insert].
    rewrite <- Hn1. change (mapped_count (bmt s1)) with (mapped_count (bmt s)).
    assert (u8 (mapped_count (bmt s) - 1) = mapped_count (bmt s) - 1) as ->.
    { unfold u8. rewrite Z.mod_small by (change (2 ^ 8) with 256; lia). done. }
    unfold modify, s1. rewrite <- !app_assoc. done.
  - change (fun i : Z => _) with (shift_body (Z.of_nat (length p))).
    replace (Z.to_nat (mapped_count (bmt s))) with (S (length p) + length l)%nat by lia.
    erewrite for_each_app by (apply shift_idle; lia).
    replace (0 + Z.of_nat (S (length p)) * 1) with (Z.of_nat (length p) + 1) by lia.
    by rewrite (shift_left _ p e l (x :: rest)).
Qed.

(** ** The search for the entry *)

Lemma find_bad_entry_none n b i bad idx s :
  0 <= i -> i + Z.of_nat n <= Z.of_nat (length (table b)) ->
  bad ∉ bad_index <$> take n (drop (Z.to_nat i) (table b)) ->
  find_bad_entry n b i bad idx s = Done (idx, s).
Proof.
  revert i. induction n as [|n IH]; intros i Hi Hn Hbad; [done|].
  destruct (znth_Some (table b) i) as [e He]; [lia|].
  assert (drop (Z.to_nat i) (table b) = e :: drop (Z.to_nat (i + 1)) (table b)) as Hd.
  { rewrite znth_lookup in He by lia. rewrite (drop_S _ e) by done.
    by replace (S (Z.to_nat i)) with (Z.to_nat (i + 1)) by lia. }
  rewrite Hd in Hbad. cbn in Hbad. apply not_elem_of_cons in Hbad as [Hne Hbad].
  cbn [find_bad_entry]. unfold table_get. rewrite He.
  erewrite (bind_run (checked _)) by reflexivity.
  rewrite (proj2 (Z.eqb_neq _ _)) by done. apply IH; [lia|lia|done].
Qed.

(** For a block without an entry [recover_bmt] always reads
    [bmt.table[-1]], in the arguments of its second trace message, before it
    reaches the branch meant for such blocks. *)
Theorem recover_bmt_unmapped_undef fuel s bad_offset :
  Z.of_nat (length (table (bmt s))) = MAX_BMT_SIZE ->
  0 <= mapped_count (bmt s) <= MAX_BMT_SIZE ->
  bad_offset / BLOCK_SIZE_BMT (lay s) ∉ bad_index <$> entries (bmt s) ->
  recover_bmt fuel bad_offset s = Undef.
Proof.
  intros Hl Hn Hbad. unfold recover_bmt. erewrite (bind_run (gets lay)) by reflexivity.
  erewrite (bind_run (gets bmt)) by reflexivity.
  erewrite bind_run by (apply find_bad_entry_none; [lia|lia|by rewrite drop_0]).
  done.
Qed.
End recover.

Section recover_table.
Context {D : Type} `{NandDev D} {c : chip}.
Implicit Type s : st D.

(** Removing the entry of a bad block deletes exactly that block from the
    mapping, keeps the table well formed, and accesses nothing outside the
    table as long as one of its 128 slots is free. *)
Theorem remove_entry_deletes s i e :
  geo_ok c (lay s) -> bmt_ok (lay s) (bmt s) -> mapped_count (bmt s) < MAX_BMT_SIZE ->
  entries (bmt s) !! i = Some e ->
  exists s', remove_entry (Z.of_nat i) s = Done (tt, s') /\
    bmt_map (bmt s') = delete (bad_index e) (bmt_map (bmt s)) /\
    bmt_ok (lay s) (bmt s') /\ entries (bmt s') = delete i (entries (bmt s)) /\
    dev s' = dev s.
Proof.
  intros Hg Hok Hn Hi. pose proof Hok as [[Hlen Hcount] Hr Hb Hm].
  apply list_elem_of_split_length in Hi as (p & l & Hes & ->).
  assert (exists x rest, drop (Z.to_nat (mapped_count (bmt s))) (table (bmt s)) = x :: rest)
    as (x & rest & Hd).
  { destruct (drop _ _) as [|x rest] eqn:E; [|eauto].
    apply (f_equal length) in E. rewrite length_drop in E. simpl in E. unfold MAX_BMT_SIZE in *. lia. }
  assert (table (bmt s) = p ++ e :: l ++ x :: rest) as Ht.
  { rewrite <- (take_drop (Z.to_nat (mapped_count (bmt s))) (table (bmt s))), Hd.
    fold (entries (bmt s)). rewrite Hes, <- app_assoc. done. }
  assert (mapped_count (bmt s) = Z.of_nat (length p + S (length l))) as Hc.
  { apply (f_equal length) in Hes. rewrite length_app in Hes. simpl in Hes.
    unfold entries in Hes. rewrite length_take in Hes. unfold MAX_BMT_SIZE in *. lia. }
  eexists. split; [apply (remove_entry_eq s p e l x rest Ht Hc); unfold MAX_BMT_SIZE in *; lia|].
  set (b' := Bmt _ _ _ _).
  assert (entries b' = p ++ l) as He.
  { unfold entries, b'. simpl. rewrite app_assoc. apply take_app_length'. rewrite length_app. lia. }
  change (bmt (set_bmt b' s)) with b'. rewrite Hes in *. split_and!.
  - unfold bmt_map. rewrite He, Hes, map_of_middle by done.
    rewrite delete_insert_id; [done|]. apply map_of_None.
    rewrite fmap_app in *. simpl in Hb. apply NoDup_app in Hb as (_ & Hd1 & Hd2).
    apply NoDup_cons in Hd2 as [Hd2 _]. rewrite elem_of_app. intros [Hx|Hx]; [|done].
    apply (Hd1 _ Hx). by left.
  - split.
    + split; unfold b'; simpl; [|lia]. rewrite Ht in Hlen. rewrite !length_app in *. simpl in *.
      rewrite length_app in Hlen. simpl in Hlen. lia.
    + rewrite He. apply Forall_app in Hr as [H1 H2]. apply Forall_cons in H2 as [_ H2].
      by apply Forall_app.
    + rewrite He, fmap_app in *. simpl in Hb. apply NoDup_app in Hb as (H1 & H2 & H3).
      apply NoDup_cons in H3 as [_ H3]. apply NoDup_app. split_and!; [done| |done].
      intros y Hy Hy'. apply (H2 y Hy). by right.
    + rewrite He, fmap_app in *. simpl in Hm. apply NoDup_app in Hm as (H1 & H2 & H3).
      apply NoDup_cons in H3 as [_ H3]. apply NoDup_app. split_and!; [done| |done].
      intros y Hy Hy'. apply (H2 y Hy). by right.
  - rewrite He. by rewrite delete_middle.
  - done.
Qed.
End recover_table.
