(* ===== verification/BmtRefine.v ===== *)
(** The block management as an ideal disk.

    The client of [bmt.c] sees system blocks.  [view s b k] is what page [k]
    of system block [b] reads as, through the mapping.  [ideal_update] says
    what replacing a failing block may do to an ideal disk: every other block
    keeps its contents, and the block itself receives the new data.
    [update_bmt] implements it for a failing system block as well as for a
    failing replacement; [run] is the transition system of failures and
    replacements, in which the invariant holds and no block is lost. *)

From stdpp Require Import base numbers list option gmap.
From Stdlib Require Import ZArith Lia.
From S2P Require Import Prelude NandIf BmtData Bmt BmtBase BmtAlloc BmtMigrate BmtWrite BmtMap BmtUpdate BmtPersist.

(** ** The ideal disk *)

(** What reading a page answers: status, data, spare bytes. *)
Definition page_result : Type := Z * (list Z * list Z).
Definition disk : Type := Z -> Z -> page_result.

Section ideal.
Context (c : chip) (l : layout).

(** The data of page [k] of the replacement of a block whose pages read as
    [old]; [eb] is the physical block that failed at page [ep]. *)
Definition ideal_page (reason : update_reason_t) (eb ep : Z) (dat oob : list Z)
    (old : Z -> page_result) (k : Z) : page_result :=
  let blank := (0, (memset 255 (page_size c), memset 255 (oob_size c))) in
  if migrates reason then
    if k =? ep then
      (0, (take (Z.to_nat (page_size c)) dat,
           migrated_oob l eb (take (Z.to_nat (oob_size c)) oob)))
    else if bool_decide (reason = UPDATE_WRITE_FAIL) && (ep <? k) then blank
    else (0, ((old k).2.1, migrated_oob l eb (old k).2.2))
  else blank.

(** Page [k] of the replacement is copied from the failing block. *)
Definition copied (reason : update_reason_t) (ep k : Z) : bool :=
  migrates reason && negb (k =? ep) && negb (bool_decide (reason = UPDATE_WRITE_FAIL) && (ep <? k)).

(** The block [key] is replaced; [false]: its contents are lost.  A page that
    had to be copied and could not be read holds no particular data. *)
Definition ideal_update (reason : update_reason_t) (key eb ep : Z) (dat oob : list Z)
    (r : bool) (d d' : disk) : Prop :=
  (forall b k, 0 <= b < system_block_count l -> 0 <= k < chip_ppb c -> b <> key -> d' b k = d b k) /\
  (r = true -> forall k, 0 <= k < chip_ppb c ->
     (copied reason ep k = true -> (d key k).1 = 0) ->
     d' key k = ideal_page reason eb ep dat oob (d key) k).
End ideal.

Section refine.
Context {D : Type} {HD : NandDev D} {c : chip} {HL : NandLaws D c} {HM : NandMarks D c} (Hc : chip_ok c).
Implicit Type s : st D.

(** ** The disk a state represents *)

Definition phys s (b : Z) : Z := default b (bmt_map (bmt s) !! b).

Definition view s : disk := fun b k => nd_read_page (dev s) (phys s b * chip_ppb c + k).

Lemma bmt_map_inj l b k1 k2 v :
  bmt_ok l b -> bmt_map b !! k1 = Some v -> bmt_map b !! k2 = Some v -> k1 = k2.
Proof.
  intros [_ _ _ Hnd] H1 H2. unfold bmt_map, map_of in *.
  apply elem_of_list_to_map_2, list_elem_of_fmap in H1 as (e1 & Hp1 & He1).
  apply elem_of_list_to_map_2, list_elem_of_fmap in H2 as (e2 & Hp2 & He2).
  injection Hp1 as -> Hv1. injection Hp2 as -> Hv2.
  apply list_elem_of_lookup in He1 as [i1 Hi1]. apply list_elem_of_lookup in He2 as [i2 Hi2].
  assert (i1 = i2) as ->; [|congruence].
  eapply NoDup_lookup; [exact Hnd| |]; rewrite list_lookup_fmap.
  - by rewrite Hi1.
  - rewrite Hi2. simpl. congruence.
Qed.

Lemma key_unique l b bad k1 k2 :
  bmt_ok l b -> key_of l b bad k1 -> key_of l b bad k2 -> k1 = k2.
Proof.
  unfold key_of. intros Hok. destruct (bad <? system_block_count l); [congruence|].
  intros. by eapply bmt_map_inj.
Qed.

Lemma mapped_key l b v : bmt_ok l b -> v ∈ mapped_blocks b -> exists k, bmt_map b !! k = Some v.
Proof.
  intros [_ _ Hnd _] (e & -> & He)%list_elem_of_fmap. exists (bad_index e).
  unfold bmt_map, map_of. apply elem_of_list_to_map.
  - by rewrite fst_pair_of.
  - apply list_elem_of_fmap. by exists e.
Qed.

Lemma bmt_map_key l b k v : bmt_ok l b -> bmt_map b !! k = Some v -> 0 <= k < system_block_count l.
Proof.
  intros [_ Hr _ _] Hk. unfold bmt_map, map_of in Hk.
  apply elem_of_list_to_map_2, list_elem_of_fmap in Hk as (e & Hp & He).
  rewrite Forall_forall in Hr. apply Hr in He. injection Hp as -> _. lia.
Qed.

(** A failing block has exactly one system block behind it. *)
Lemma failing_key s bad : inv (c:=c) s -> failing s bad ->
  exists key, key_of (lay s) (bmt s) bad key /\ 0 <= key < system_block_count (lay s).
Proof.
  intros [Hg Hok _ _] Hf. unfold key_of. destruct (Z.ltb_spec bad (system_block_count (lay s))).
  - destruct Hf as [?|Hf]; [by exists bad|].
    pose proof (mapped_in_pool _ _ _ Hok Hf). unfold in_pool in *. lia.
  - destruct Hf as [?|Hf]; [lia|]. destruct (mapped_key _ _ _ Hok Hf) as [k Hk].
    exists k. split; [done|]. by eapply bmt_map_key.
Qed.

Lemma phys_range s b : inv (c:=c) s -> 0 <= b < system_block_count (lay s) ->
  0 <= phys s b < chip_blocks c.
Proof.
  intros [Hg Hok _ _] Hb. unfold phys.
  pose proof (go_sys c _ Hg). pose proof (go_pool c _ Hg). pose proof (go_total c _ Hg).
  destruct (bmt_map (bmt s) !! b) as [v|] eqn:E; simpl; [|lia].
  destruct (bmt_map_range _ _ _ _ Hok E) as (_ & [? ?] & _). lia.
Qed.

(** A block that is not failing is neither the failing block nor one the
    writers may touch. *)
Lemma phys_safe s b bad key :
  inv (c:=c) s -> key_of (lay s) (bmt s) bad key -> 0 <= b < system_block_count (lay s) -> b <> key ->
  ~ (phys s b = bad \/ owned (c:=c) s (phys s b)).
Proof.
  intros [Hg Hok _ Hidx] Hkey Hb Hne. unfold phys, key_of in *.
  destruct (bmt_map (bmt s) !! b) as [v|] eqn:E; simpl.
  - destruct (bmt_map_range _ _ _ _ Hok E) as (_ & Hin & Hm). intros [->|[[_ Hx]|Hav]].
    + destruct (Z.ltb_spec bad (system_block_count (lay s))); [destruct Hin; lia|].
      by apply Hne, (bmt_map_inj (lay s) (bmt s) b key bad).
    + destruct Hidx as [H0|(_ & _ & Hn)]; [|congruence].
      pose proof (in_pool_range (lay s) v Hg Hin). lia.
    + by apply (pool_avail_unmapped (c:=c) s v).
  - intros [->|[[[? ?] _]|[[? ?] _]]]; [|lia..].
    destruct (Z.ltb_spec bad (system_block_count (lay s))); [congruence|lia].
Qed.

(** The mapping of the other blocks stays. *)
Lemma phys_step s s' bad key to b :
  bmt_ok (lay s) (bmt s) -> table_step (lay s) (bmt s) bad to (bmt s') ->
  key_of (lay s) (bmt s) bad key ->
  phys s' b = if decide (b = key) then to else phys s b.
Proof.
  intros Hok [_ (key' & Hk' & Hm) _ _] Hk.
  assert (key' = key) as -> by by eapply key_unique.
  unfold phys. rewrite Hm. destruct (decide (b = key)) as [->|Hne].
  - by rewrite lookup_insert_eq.
  - by rewrite lookup_insert_ne.
Qed.

Lemma view_same s s' b k :
  inv (c:=c) s -> 0 <= b < system_block_count (lay s) -> 0 <= k < chip_ppb c ->
  phys s' b = phys s b -> same_block c (dev s) (dev s') (phys s b) -> view s' b k = view s b k.
Proof. intros Hi Hb Hk Hp Hs. unfold view. rewrite Hp. by apply Hs. Qed.

(** ** One replacement *)

(** The replacement holds what the ideal disk shows. *)
Lemma content_ideal s offset reason dat oob d' to k :
  let eb := offset / block_size c in let ep := (offset / page_size c) mod chip_ppb c in
  content (c:=c) s offset reason dat oob d' to -> 0 <= k < chip_ppb c ->
  (copied reason ep k = true -> readable (dev s) (eb * chip_ppb c + k)) ->
  nd_read_page d' (to * chip_ppb c + k)
  = ideal_page c (lay s) reason eb ep dat oob
      (fun k => nd_read_page (dev s) (eb * chip_ppb c + k)) k.
Proof.
  intros eb ep. unfold content, ideal_page, copied. destruct (migrates reason) eqn:Hmig.
  2: { intros Hb Hk _. by apply Hb. }
  intros [Hcp He Hr] Hk Hrd. destruct (Z.eqb_spec k ep) as [->|Hne]; [exact He|].
  case_bool_decide as Hw; cbn [andb negb] in *; [destruct (Z.ltb_spec ep k)|].
  - apply Hr; [done|]. fold ep. lia.
  - rewrite Hcp; [|done..|intros _; fold ep; lia|by apply Hrd]. unfold migrated_page. fold eb.
    by destruct (nd_read_page (dev s) (eb * chip_ppb c + k)) as [? [? ?]].
  - rewrite Hcp; [|done..|by apply Hrd]. unfold migrated_page. fold eb.
    by destruct (nd_read_page (dev s) (eb * chip_ppb c + k)) as [? [? ?]].
Qed.

Lemma update_ideal s s' offset reason dat oob r key :
  let eb := offset / block_size c in let ep := (offset / page_size c) mod chip_ppb c in
  inv (c:=c) s -> key_of (lay s) (bmt s) eb key -> 0 <= key < system_block_count (lay s) ->
  bmt_map (bmt s) !! eb = None -> replaced (c:=c) s offset reason dat oob r s' ->
  ideal_update c (lay s) reason key eb ep dat oob r (view s) (view s').
Proof.
  intros eb ep Hinv Hkey Hkr Hnone (_ & _ & Hpost).
  assert (phys s key = eb) as Hpk.
  { unfold phys, key_of in *. destruct (eb <? system_block_count (lay s)).
    - subst key. by rewrite Hnone.
    - by rewrite Hkey. }
  assert (forall P b k, touches (c:=c) P (dev s) (dev s') ->
    (forall x, P x -> x = eb \/ owned (c:=c) s x) -> phys s' b = phys s b ->
    0 <= b < system_block_count (lay s) -> 0 <= k < chip_ppb c -> b <> key -> view s' b k = view s b k)
    as Hother.
  { intros P b k Ht HP Hp Hb Hk Hne. apply view_same; [done..|].
    apply Ht; [by apply phys_range|]. intros Hx%HP. by eapply phys_safe. }
  pose proof Hinv as [Hg Hok _ _]. destruct r; split.
  - intros b k Hb Hk Hne. destruct Hpost as (to & [_ Hts _ _ _ _ _ Hoth]).
    eapply Hother; [exact Hoth|done| |done..]. erewrite phys_step by done. by rewrite decide_False.
  - intros _ k Hk Hrd. destruct Hpost as (to & [_ Hts Hct _ _ _ _ _]).
    unfold view at 1. erewrite phys_step by done. rewrite decide_True by done.
    rewrite (content_ideal s offset reason dat oob _ to k Hct Hk).
    2: { unfold readable. intros Hcp%Hrd. unfold view in Hcp. by rewrite Hpk in Hcp. }
    fold eb ep.
    unfold ideal_page, view. by rewrite Hpk.
  - intros b k Hb Hk Hne. destruct Hpost as (_ & _ & Ht & Hb').
    eapply Hother; [exact Ht|intros x [?|[-> _]]; auto| |done..]. destruct Hb' as [Heq|[to Hts]].
    + unfold phys. by rewrite Heq.
    + erewrite phys_step by done. by rewrite decide_False.
  - done.
Qed.

(** ** Runs

    Replacements, marks on blocks in use and the client's own writes and
    erases, in any order.  A step carries the system block whose contents it
    may change.  A replacement may be asked for before or after the failing
    block has been marked; it is a step of a run unless it answered true with
    the table saved in the failing block itself. *)
Inductive step s : Z -> st D -> Prop :=
| step_update fuel offset reason dat oob key r s' :
    0 <= offset < chip_blocks c * block_size c ->
    failing s (offset / block_size c) ->
    page_size c <= Z.of_nat (length dat) -> oob_size c <= Z.of_nat (length oob) ->
    (129 < fuel)%nat -> key_of (lay s) (bmt s) (offset / block_size c) key ->
    update_bmt fuel offset reason dat oob s = Done (r, s') ->
    (r = true -> bmt_block_index s' <> offset / block_size c) ->
    step s key s'
| step_fail key kind rc d' :
    is_Some (bmt_map (bmt s) !! key) -> (kind = BAD_BLOCK_RAW \/ kind = BMT_BADBLOCK_GENERATE_LATER) ->
    nd_mark_bad (dev s) (phys s key * block_size c) kind = (rc, d') ->
    step s key (set_dev d' s)
| step_write b k dat oob rc d' :
    0 <= b < system_block_count (lay s) -> 0 <= k < chip_ppb c ->
    nd_write_page (dev s) (phys s b * chip_ppb c + k) dat oob = (rc, d') ->
    step s b (set_dev d' s)
| step_erase b rc d' :
    0 <= b < system_block_count (lay s) -> is_bad c (dev s) (phys s b) = false ->
    nd_erase (dev s) (phys s b * block_size c) = (rc, d') ->
    step s b (set_dev d' s).

Inductive run : st D -> list Z -> st D -> Prop :=
| run_refl s : run s [] s
| run_step s1 key s2 keys s3 : step s1 key s2 -> run s2 keys s3 -> run s1 (key :: keys) s3.

Lemma phys_not_owned s b : inv (c:=c) s -> 0 <= b < system_block_count (lay s) ->
  ~ owned (c:=c) s (phys s b).
Proof.
  intros [Hg Hok _ Hidx] Hb. unfold phys. destruct (bmt_map (bmt s) !! b) as [v|] eqn:E; simpl.
  - destruct (bmt_map_range _ _ _ _ Hok E) as (_ & Hin & Hm). intros [[_ Hx]|Hav].
    + destruct Hidx as [H0|(_ & _ & Hn)]; [|congruence].
      pose proof (in_pool_range (lay s) v Hg Hin). lia.
    + by apply (pool_avail_unmapped (c:=c) s v).
  - intros [[[? ?] _]|[[? ?] _]]; lia.
Qed.

Lemma phys_inj s b b' :
  inv (c:=c) s -> 0 <= b < system_block_count (lay s) -> 0 <= b' < system_block_count (lay s) ->
  phys s b = phys s b' -> b = b'.
Proof.
  intros [Hg Hok _ _] Hb Hb'. unfold phys.
  destruct (bmt_map (bmt s) !! b) as [v|] eqn:E, (bmt_map (bmt s) !! b') as [v'|] eqn:E'; simpl; intros Heq.
  - subst v'. by eapply bmt_map_inj.
  - destruct (bmt_map_range _ _ _ _ Hok E) as (_ & [? ?] & _). lia.
  - destruct (bmt_map_range _ _ _ _ Hok E') as (_ & [? ?] & _). lia.
  - done.
Qed.

(** What a step keeps: the invariant, and every other block. *)
Definition live s : Prop := inv (c:=c) s /\ isUpdateBmt s = false.

(** The component is alive after a replacement unless the table went into the
    failing block. *)
Lemma replaced_live s offset reason dat oob r s' :
  replaced (c:=c) s offset reason dat oob r s' ->
  (r = true -> bmt_block_index s' <> offset / block_size c) -> live s'.
Proof.
  intros (Hu & _ & Hr) Hix. split; [|done]. destruct r; [|apply Hr].
  destruct Hr as (to & [_ _ _ _ Hsv _ _ _]). by apply Hsv, Hix.
Qed.

Definition keeps s (key : Z) s' : Prop :=
  live s' /\ lay s' = lay s /\
  forall b k, 0 <= b < system_block_count (lay s) -> 0 <= k < chip_ppb c -> b <> key ->
    view s' b k = view s b k.

(** A driver operation on the physical block of a system block. *)
Lemma keeps_device s key d' :
  live s -> 0 <= key < system_block_count (lay s) -> only_block c (phys s key) (dev s) d' ->
  (is_bad c (dev s) (phys s key) = true -> is_bad c d' (phys s key) = true) ->
  keeps s key (set_dev d' s).
Proof.
  intros [Hi Hu] Hkey Ho Hm. pose proof (phys_not_owned s key Hi Hkey) as Hno.
  pose proof Hi as [Hg Hok Hbl Hidx]. split_and!; [split; [split; [done|done| |]|done]|done|].
  - intros Hpe b Hav. simpl in Hpe.
    apply (pool_avail_back s d') in Hav; [|done|by eapply only_block_bad_mono].
    pose proof (in_pool_range (lay s) b Hg (proj1 Hav)) as Hr.
    assert (b <> phys s key) as Hne by (intros ->; by apply Hno; right).
    destruct (Ho b ltac:(lia) Hne) as [Hs _]. eapply block_blank_same; [exact Hs|]. by apply Hbl.
  - destruct Hidx as [|(Hin & Hnb & Hnm)]; [by left|right]. split_and!; [done| |done]. simpl.
    pose proof (in_pool_range (lay s) _ Hg Hin) as Hr.
    destruct (Ho (bmt_block_index s)) as [_ ->]; [lia| |done].
    intros Heq. apply Hno. left. rewrite <- Heq. by split.
  - intros b k Hb Hk Hne. apply view_same; [done|done|done|done|].
    apply Ho; [by apply phys_range|]. intros Heq. by apply Hne, (phys_inj s).
Qed.

Lemma step_keeps s key s' : live s -> step s key s' -> keeps s key s'.
Proof.
  intros Hl Hstep. pose proof Hl as [Hi Hu]. pose proof (block_size_pos c Hc) as Hbs. destruct Hstep as
    [fuel offset reason dat oob key r s' Ho Hf Hd Hoo Hfu Hkey Hrun Hix
    |key kind rc d' [v Hv] Hk Hm|b p dat oob rc d' Hb Hp Hw|b rc d' Hb Hnb He].
  - assert (update_post (c:=c) s offset reason dat oob r s') as Hpost
      by (eapply done_wp; [exact Hrun|]; by apply (update_bmt_spec Hc)).
    destruct Hpost as [(-> & -> & _)|[Hnone Hrep]]; [done|].
    assert (live s') as Hl' by by eapply replaced_live.
    destruct (failing_key s _ Hi Hf) as (key' & Hkey' & Hr).
    assert (key' = key) as -> by (by eapply key_unique; [apply Hi|..]).
    split_and!; [done|apply Hrep|].
    apply (update_ideal s s' offset reason dat oob r key Hi Hkey Hr Hnone Hrep).
  - pose proof (bmt_map_key _ _ _ _ (inv_bmt _ Hi) Hv) as Hkr.
    pose proof (phys_range s key Hi Hkr) as Hpr.
    apply keeps_device; [done|done| |].
    + rewrite <- (Z.div_mul (phys s key) (block_size c)) by lia. eapply nl_mark_only; [|exact Hm]. nia.
    + intros _. rewrite <- (Z.div_mul (phys s key) (block_size c)) by lia.
      refine (mark_takes_effect c _ _ _ _ _ _ Hk Hm). nia.
  - destruct (nl_write_only _ _ _ _ _ _ _ (phys_range s b Hi Hb) Hp Hw) as (Ho & Hm & _).
    by apply keeps_device.
  - apply keeps_device; [done|done| |congruence].
    eapply nl_erase_only; [by apply phys_range|exact He].
Qed.

Lemma run_keeps s keys s' : run s keys s' -> live s ->
  live s' /\ lay s' = lay s /\
  forall b k, 0 <= b < system_block_count (lay s) -> 0 <= k < chip_ppb c -> b ∉ keys ->
    view s' b k = view s b k.
Proof.
  induction 1 as [s|s1 key s2 keys s3 Hstep Hrun IH]; intros Hl; [done|].
  destruct (step_keeps _ _ _ Hl Hstep) as (Hl2 & Hlay & Hv). destruct (IH Hl2) as (Hl3 & Hlay3 & Hv3).
  split_and!; [done|congruence|]. intros b k Hb Hk [Hne Hn]%not_elem_of_cons.
  rewrite Hv3, Hv by (rewrite ?Hlay; done). done.
Qed.

(** ** After a restart *)

(** The table read back shows the same disk. *)
Lemma view_reloaded s s3 b k :
  inv (c:=c) s -> entries (bmt s3) = entries (bmt s) ->
  touches (c:=c) (fun x => x ∈ bad_index <$> entries (bmt s)) (dev s) (dev s3) ->
  0 <= b < system_block_count (lay s) -> 0 <= k < chip_ppb c -> view s3 b k = view s b k.
Proof.
  intros Hi He Ht Hb Hk. apply view_same; [done..| |].
  - unfold phys, bmt_map. by rewrite He.
  - apply Ht; [by apply phys_range|]. unfold phys. pose proof Hi as [Hg Hok _ _].
    destruct (bmt_map (bmt s) !! b) as [v|] eqn:E; simpl.
    + destruct (bmt_map_range _ _ _ _ Hok E) as (_ & [? _] & _).
      intros (e & -> & Hx)%list_elem_of_fmap. pose proof (bo_range _ _ Hok) as Hr.
      rewrite Forall_forall in Hr. apply Hr in Hx. lia.
    + by apply map_of_None.
Qed.

(** A table saved by the running system is found again. *)
Lemma reload_after_save s s2 :
  inv (c:=c) s -> in_pool (lay s) (bmt_block_index s) ->
  holds (c:=c) (dev s) (bmt_block_index s) (bmt_image s) ones ->
  sizeof_phys_bmt_struct <= page_size c -> Forall entry_u16 (table (bmt s)) ->
  dev s2 = dev s -> lay s2 = lay s -> Z.of_nat (length (table (bmt s2))) = MAX_BMT_SIZE ->
  (forall j, bmt_block_index s < j < total_block_count (lay s) -> skipped (c:=c) (dev s) j) ->
  exists s3, load_bmt_data (system_block_count (lay s)) (bmt_block_count (lay s)) s2
      = Done (bmt_block_index s, s3) /\
    forall b k, 0 <= b < system_block_count (lay s) -> 0 <= k < chip_ppb c -> view s3 b k = view s b k.
Proof.
  intros Hi Hin Hh Hps Hu16 Hdev Hlay Hlen Hskip. pose proof Hi as [Hg Hok _ Hidx].
  assert (is_bad c (dev s) (bmt_block_index s) = false) as Hnb.
  { destruct Hidx as [H0|(_ & ? & _)]; [|done]. pose proof (in_pool_range (lay s) _ Hg Hin). lia. }
  rewrite <- Hlay in *. rewrite <- Hdev in *.
  destruct (wp_done (load_bmt_data (system_block_count (lay s2)) (bmt_block_count (lay s2)))
    (fun r s3 => r = bmt_block_index s /\ entries (bmt s3) = entries (bmt s) /\
      touches (c:=c) (fun x => x ∈ bad_index <$> entries (bmt s)) (dev s2) (dev s3)) s2)
    as (r & s3 & Hrun & -> & He & Ht).
  { eapply (load_bmt_data_spec Hc s2 (bmt s) (bmt_block_index s)); [done..| |done|].
    - unfold bmt_image in Hh. rewrite <- Hlay in Hh. exact Hh.
    - intros s3 _ He _ _ Ht _. done. }
  exists s3. split; [done|]. intros b k Hb Hk. rewrite Hdev, Hlay in *. by apply view_reloaded.
Qed.
End refine.
