(* ===== verification/BmtProps.v ===== *)
(** The properties of the bad-block management, and their witnesses.

    The theorems state the results of the previous files for complete runs:
    [update_bmt], [find_available_block], [migrate_from_bad],
    [write_bmt_to_flash], the round trip of the table through the flash and
    the scan for bad blocks.  [Instances] is a small system (eight blocks, a
    pool of four) on the simulated device. *)

From stdpp Require Import base numbers list option gmap sorting.
From Stdlib Require Import ZArith Lia.
From S2P Require Import Prelude NandIf BmtData Bmt BmtBase BmtAlloc BmtMigrate BmtWrite BmtMap BmtUpdate BmtPersist BmtBbt BmtRecover BmtRefine.

(** ** A small system *)

Module Instances.
Import SimNand.

Definition geometry : layout := Layout geo 8 4 4 2.

Definition empty_bmt : bmt_struct := Bmt (replicate 128 (Entry 0 0)) 1 0 0.

(** Block 1 has been replaced by block 5. *)
Definition one_entry : bmt_struct := Bmt (Entry 1 5 :: replicate 127 (Entry 0 0)) 1 1 0.

(** Block 2 was bad from the start. *)
Definition bbt_2 : init_bbt_struct := Bbt (2 :: replicate 249 0) 1 1.

Definition array_2 : list Z := [0; 1; 3; 4] ++ replicate 4092 0.

Definition with_bmt (b : bmt_struct) (d : sim) : st sim :=
  St d geometry b 0 bbt_2 0 array_2 (memset 0 0x1000) (memset 0 0x100) false false false false 0.

Definition page0 : list Z := memset 0x5a 1024.
Definition spare0 : list Z := memset 0xff 32.

(** A device on which programming page 8 (block 4) fails. *)
Definition faulty : sim := Sim ∅ [] [8] [] [].

(** [one_entry] saved in block 7. *)
Definition saved : sim :=
  Sim {[14 := (fill_nand_bmt_buffer 4 one_entry (memset 0xFF MAX_DAT_SIZE), memset 0xFF MAX_OOB_SIZE)]}
      [] [] [] [].

Lemma geometry_ok : geo_ok geo geometry.
Proof. by split. Qed.

Lemma empty_ok : bmt_ok geometry empty_bmt.
Proof. split; [by split|constructor..]. Qed.

Lemma one_ok : bmt_ok geometry one_entry.
Proof.
  split; [by split| |apply NoDup_singleton..].
  apply Forall_singleton. vm_compute. intuition discriminate.
Qed.

Lemma one_u16 : Forall entry_u16 (table one_entry).
Proof.
  apply Forall_cons. split; [by split; vm_compute|].
  apply Forall_replicate. by split; vm_compute.
Qed.

Lemma inv_empty d : inv (c:=geo) (with_bmt empty_bmt d).
Proof. split; [exact geometry_ok|exact empty_ok|done|by left]. Qed.

Lemma bbt_2_ok b d : bbt_ok (with_bmt b d).
Proof.
  split; [done|done| | |done|done].
  - repeat constructor.
  - apply Forall_singleton. simpl. lia.
Qed.

Lemma array_2_enumerates b d : enumerated (with_bmt b d).
Proof. reflexivity. Qed.
End Instances.

Section properties.
Context {D : Type} {HD : NandDev D} {c : chip} {HL : NandLaws D c} {HM : NandMarks D c} (Hc : chip_ok c).
Implicit Type s : st D.

(** C1: on a chip where writing a bad-block mark never fails ([NandMarks]; reads,
    erases and programs may fail), [update_bmt] on a failing block, that is a
    system block or a replacement, marked already or not, always completes
    without an access out of range.  When it answers true, either the block
    already had a replacement and nothing changed, or a pool block that was
    healthy and free became its replacement in the mapping and holds the data
    to preserve as far as it could be read, the failing block is marked and no
    other block in use was touched; and then the invariant of the component
    holds and the new table is in flash, unless the table was saved in the
    failing block itself, which happens only to a replacement that was not
    marked before, when the table has to move.  When it answers false, no
    usable block is left in the pool and the invariant holds. *)
Theorem update_bmt_correct fuel s offset reason dat oob :
  inv (c:=c) s -> isUpdateBmt s = false ->
  0 <= offset < chip_blocks c * block_size c ->
  failing s (offset / block_size c) ->
  page_size c <= Z.of_nat (length dat) -> oob_size c <= Z.of_nat (length oob) ->
  (129 < fuel)%nat ->
  exists r s', update_bmt fuel offset reason dat oob s = Done (r, s') /\
    update_post (c:=c) s offset reason dat oob r s'.
Proof.
  intros. apply wp_done. by apply (update_bmt_spec Hc); try done.
Qed.

(** [find_available_block] answers the first block of the pool, in the
    direction of the search, that is neither bad, nor mapped, nor used for a
    table; the block it answers is blank.  It answers 0 exactly when there
    is no such block.  It changes only blocks that were free. *)
Theorem find_available_block_correct s from_end :
  geo_ok c (lay s) -> table_ok (lay s) (bmt s) -> pool_blank (c:=c) s ->
  exists r s', find_available_block from_end s = Done (r, s') /\
    touches (c:=c) (pool_avail (c:=c) s) (dev s) (dev s') /\
    pool_blank (c:=c) s' /\ pool_erased s' = true /\ bmt s' = bmt s /\
    (r = 0 /\ (forall b, ~ pool_avail (c:=c) s' b) \/
     first_avail (c:=c) s' from_end r /\ block_blank c (dev s') r).
Proof.
  intros Hg Ht Hb. apply wp_done. apply (find_available_block_spec Hc); [done..|].
  intros r d' s' -> Ht1 Hm1 Hb1 Hr. split_and!; [done|done|done|done|].
  destruct Hr as [?|Hr]; [by left|right]. split; [done|]. apply Hb1; [done|apply Hr].
Qed.

(** C16: on a chip where writing a bad-block mark never fails ([NandMarks]),
    [migrate_from_bad] completes for every number of failing program
    operations.  It answers 0 when the pool is used up; otherwise the
    replacement holds every other readable page of the failing block (all of
    them, or those before the failing page when a write failed), the page the
    caller supplied, and the failing block's index in the spare area.  Where a
    mark can fail the recursion need not end: [migrate_without_mark_diverges]. *)
Theorem migrate_from_bad_correct fuel s offset reason dat oob :
  geo_ok c (lay s) -> table_ok (lay s) (bmt s) -> pool_blank (c:=c) s ->
  0 <= offset < chip_blocks c * block_size c ->
  page_size c <= Z.of_nat (length dat) -> oob_size c <= Z.of_nat (length oob) ->
  ~ (pool_avail (c:=c) s (offset / block_size c)) ->
  (128 < fuel)%nat ->
  exists r s', migrate_from_bad fuel offset reason dat oob s = Done (r, s') /\
    migrate_post (c:=c) s offset reason dat oob r s'.
Proof.
  intros Hg Ht Hb Ho Hd Hoo Hna Hf. apply wp_done.
  pose proof (avail_count_bound (c:=c) s Hg). by apply (migrate_from_bad_spec Hc); try lia.
Qed.

(** [write_bmt_to_flash] completes for every number of failing erase and
    program operations; when it answers true the buffers are in the first
    page of a healthy block of the pool, which is the recorded BMT block,
    and when it answers false no usable block is left (0, the block left out,
    is no pool block). *)
Theorem write_bmt_to_flash_correct fuel s dat n :
  geo_ok c (lay s) -> table_ok (lay s) (bmt s) -> pool_blank (c:=c) s ->
  index_ok (c:=c) s (bmt_block_index s) ->
  page_size c <= Z.of_nat (length dat) -> oob_size c <= n ->
  (129 < fuel)%nat ->
  exists r s', write_bmt_to_flash fuel dat (memset 0xFF n) s = Done (r, s') /\
    write_post (c:=c) 0 s dat (memset 0xFF n) r s'.
Proof.
  intros Hg Ht Hb Hi Hd Hn Hf. apply wp_done.
  pose proof (avail_count_bound (c:=c) s Hg). pose proof (oob_size_pos c Hc).
  eapply (write_bmt_to_flash_spec Hc 0); [done|done|by apply pool_blank_weaken|done|done| | | |].
  - unfold memset. rewrite length_replicate. lia.
  - done.
  - destruct (_ =? _); lia.
  - done.
Qed.

(** C17: a table the boot loader has written is found again: on any later
    start, whatever the globals hold, [load_bmt_data] answers the block that
    holds it, restores the same entries, and marks the listed blocks again.
    The blocks behind it in the scan hold no BMT signature. *)
Theorem bmt_save_load_roundtrip s b i dat0 oob0 :
  geo_ok c (lay s) -> in_pool (lay s) i -> is_bad c (dev s) i = false ->
  sizeof_phys_bmt_struct <= page_size c ->
  bmt_ok (lay s) b -> Forall entry_u16 (table b) ->
  Z.of_nat (length (table (bmt s))) = MAX_BMT_SIZE ->
  holds (c:=c) (dev s) i (fill_nand_bmt_buffer (bmt_block_count (lay s)) b dat0) oob0 ->
  (forall j, i < j < total_block_count (lay s) -> skipped (c:=c) (dev s) j) ->
  exists s', load_bmt_data (system_block_count (lay s)) (bmt_block_count (lay s)) s
      = Done (i, s') /\
    bmt_map (bmt s') = bmt_map b /\ entries (bmt s') = entries b /\
    bmt_ok (lay s) (bmt s') /\
    (forall x, x ∈ bad_index <$> entries b -> is_bad c (dev s') x = true) /\
    touches (c:=c) (fun x => x ∈ bad_index <$> entries b) (dev s) (dev s').
Proof.
  intros. destruct (wp_done _ (fun r s' => r = i /\
    bmt_map (bmt s') = bmt_map b /\ entries (bmt s') = entries b /\
    bmt_ok (lay s) (bmt s') /\
    (forall x, x ∈ bad_index <$> entries b -> is_bad c (dev s') x = true) /\
    touches (c:=c) (fun x => x ∈ bad_index <$> entries b) (dev s) (dev s')) s
    ltac:(eapply (load_bmt_data_spec Hc); [done..|];
      intros s' Hok He _ Hl Ht Hb; unfold bmt_map; rewrite He, <- Hl; done))
    as (r & s' & Hrun & -> & ?). by exists s'.
Qed.

(** [scan_badblock_raw] completes; with at most 250 bad blocks it
    records exactly the system blocks from 1 on that carry the mark and have
    no replacement, in increasing order, and answers 0; with more it answers
    an error instead of writing past the table. *)
Theorem scan_badblock_raw_collects fuel s :
  geo_ok c (lay s) -> table_ok (lay s) (bmt s) ->
  Z.of_nat (length (badblock_table (init_bbt s))) = MAX_RAW_BAD_BLOCK_SIZE ->
  system_block_count (lay s) <= Z.of_nat fuel ->
  let found := List.filter (initially_bad (c:=c) s) (seqZ 1 (system_block_count (lay s) - 1)) in
  exists r s', scan_badblock_raw fuel s = Done (r, s') /\
    if bool_decide (Z.of_nat (length found) <= MAX_RAW_BAD_BLOCK_SIZE)
    then r = 0 /\ initial_bads s' = found /\ StronglySorted Z.lt found /\ dev s' = dev s
    else r = -1.
Proof.
  intros Hg Ht Hl Hf found. pose proof (go_sys_pos c _ Hg) as Hpos.
  pose proof (scan_loop_eq Hc fuel s 1 0 Hg Ht Hl ltac:(lia) ltac:(done) ltac:(lia)) as Hs.
  unfold scan_badblock_raw, scan_result in *. change (bads_from s 1) with found in Hs.
  rewrite Z.add_0_l in Hs. destruct (bool_decide _); [|destruct Hs as [s' Hs]; by exists (-1), s'].
  destruct Hs as (t & Hrun & _ & Htk). do 2 eexists. split; [exact Hrun|].
  split_and!; [done| | |done].
  - unfold initial_bads. simpl. simpl in Htk. by rewrite Nat2Z.id.
  - unfold found. apply StronglySorted_filter_seqZ.
Qed.

(** C4: [update_bmt] refines the replacement of a block of an ideal disk, on a
    chip where writing a bad-block mark never fails ([NandMarks]).  On a failing
    block (a system block, or a replacement, marked or not) without a
    replacement of its own it always completes; every system block other than
    the one behind the failing block reads as before, and when it answers true
    every page of that one reads as the ideal disk says: the caller's page,
    the pages to preserve, and blank pages elsewhere.  Only a page that had to
    be copied and could not be read is left open.  The component stays alive
    unless the table was saved in the failing block itself. *)
Theorem update_bmt_refines fuel s offset reason dat oob :
  live (c:=c) s -> 0 <= offset < chip_blocks c * block_size c ->
  failing s (offset / block_size c) -> bmt_map (bmt s) !! (offset / block_size c) = None ->
  page_size c <= Z.of_nat (length dat) -> oob_size c <= Z.of_nat (length oob) ->
  (129 < fuel)%nat ->
  exists key r s', key_of (lay s) (bmt s) (offset / block_size c) key /\
    update_bmt fuel offset reason dat oob s = Done (r, s') /\
    ((r = true -> bmt_block_index s' <> offset / block_size c) -> live (c:=c) s') /\
    ideal_update c (lay s) reason key (offset / block_size c)
      ((offset / page_size c) mod chip_ppb c) dat oob r (view (c:=c) s) (view (c:=c) s').
Proof.
  intros [Hi Hu] Ho Hf Hnone Hd Hoo Hfu. destruct (failing_key s _ Hi Hf) as (key & Hkey & Hr).
  destruct (wp_done (update_bmt fuel offset reason dat oob) _ s
    ltac:(apply (update_bmt_spec Hc); [done..|]; intros r s' H; exact H))
    as (r & s' & Hrun & [(_ & _ & [to Hto])|[_ Hrep]]); [congruence|].
  exists key, r, s'. split_and!; [done|done|by eapply replaced_live|]. by apply update_ideal.
Qed.


(** C10: a replacement survives a restart, on a chip where writing a bad-block
    mark never fails ([NandMarks]).  After [update_bmt] has answered true for a
    block without replacement and the table is not in the failing block
    itself, [load_bmt_data] in any state whose flash is the same finds the
    table that was saved, and every system block reads as before the restart.
    The blocks behind the table in the order of the search are bad or hold no
    BMT signature. *)
Theorem update_survives_restart fuel s offset reason dat oob s' s2 :
  live (c:=c) s -> 0 <= offset < chip_blocks c * block_size c ->
  failing s (offset / block_size c) -> bmt_map (bmt s) !! (offset / block_size c) = None ->
  page_size c <= Z.of_nat (length dat) -> oob_size c <= Z.of_nat (length oob) ->
  (129 < fuel)%nat -> sizeof_phys_bmt_struct <= page_size c -> Forall entry_u16 (table (bmt s)) ->
  update_bmt fuel offset reason dat oob s = Done (true, s') ->
  bmt_block_index s' <> offset / block_size c ->
  dev s2 = dev s' -> lay s2 = lay s -> Z.of_nat (length (table (bmt s2))) = MAX_BMT_SIZE ->
  (forall j, bmt_block_index s' < j < total_block_count (lay s) -> skipped (c:=c) (dev s') j) ->
  exists s3, load_bmt_data (system_block_count (lay s)) (bmt_block_count (lay s)) s2
      = Done (bmt_block_index s', s3) /\
    forall b k, 0 <= b < system_block_count (lay s) -> 0 <= k < chip_ppb c ->
      view (c:=c) s3 b k = view (c:=c) s' b k.
Proof.
  intros [Hi Hu] Ho Hf Hnone Hd Hoo Hfu Hps Hu16 Hrun Hne Hdev Hlay Hlen Hskip.
  assert (update_post (c:=c) s offset reason dat oob true s') as Hpost
    by (eapply done_wp; [exact Hrun|]; by apply (update_bmt_spec Hc)).
  destruct Hpost as [(_ & _ & [to Hto])|(_ & _ & Hl' & to & [_ Hts _ Hix Hsv _ _ _])]; [congruence|].
  destruct (Hsv Hne) as [Hi' Hh].
  pose proof Hi' as [Hg' Hok' _ Hidx']. rewrite <- Hl' in *.
  apply (reload_after_save Hc s' s2); [done|done|done|done| |done|done|done|done].
  destruct Hts as [_ _ _ (j & e & -> & He)]. by apply Forall_insert.
Qed.
End properties.

(** ** Witnesses *)

Module Witnesses.
Import SimNand Instances.

(** The first block of the pool fails: block 1 ends up in block 5. *)
Example update_bmt_run :
  match update_bmt 130 3072 UPDATE_WRITE_FAIL page0 spare0 (with_bmt empty_bmt faulty) with
  | Done (r, s') => (r, entries (bmt s'), bmt_block_index s', is_bad geo (dev s') 1,
                     bool_decide (nd_read_page (dev s') 11
                       = (0, (page0, set_bad_index_to_oob spare0 1))))
  | _ => (false, [], 0, false, false)
  end = (true, [Entry 1 5], 7, true, true).
Proof. vm_compute. reflexivity. Qed.

Lemma update_bmt_correct_witness :
  exists r s', update_bmt 130 3072 UPDATE_WRITE_FAIL page0 spare0 (with_bmt empty_bmt faulty)
      = Done (r, s') /\
    update_post (c:=geo) (with_bmt empty_bmt faulty) 3072 UPDATE_WRITE_FAIL page0 spare0 r s'.
Proof.
  apply (update_bmt_correct geo_chip_ok);
    [apply inv_empty|done|vm_compute; intuition discriminate|left|vm_compute; discriminate..|lia].
  vm_compute. intuition discriminate.
Defined.

Lemma live_empty d : live (c:=geo) (with_bmt empty_bmt d).
Proof. split; [apply inv_empty|done]. Qed.

Lemma failing_1 d : failing (with_bmt empty_bmt d) (3072 / block_size geo).
Proof. left. vm_compute. intuition discriminate. Qed.

Lemma offset_3072 : 0 <= 3072 < chip_blocks geo * block_size geo.
Proof. vm_compute. intuition discriminate. Qed.

Lemma update_bmt_refines_witness :
  exists key r s', key_of geometry empty_bmt (3072 / block_size geo) key /\
    update_bmt 130 3072 UPDATE_WRITE_FAIL page0 spare0 (with_bmt empty_bmt faulty) = Done (r, s') /\
    ((r = true -> bmt_block_index s' <> 3072 / block_size geo) -> live (c:=geo) s') /\
    ideal_update geo geometry UPDATE_WRITE_FAIL key (3072 / block_size geo)
      ((3072 / page_size geo) mod chip_ppb geo) page0 spare0 r
      (view (c:=geo) (with_bmt empty_bmt faulty)) (view (c:=geo) s').
Proof.
  apply (update_bmt_refines geo_chip_ok 130 (with_bmt empty_bmt faulty) 3072 UPDATE_WRITE_FAIL page0 spare0);
    [apply live_empty|vm_compute; intuition discriminate|apply failing_1|vm_compute; reflexivity|
     vm_compute; discriminate..|lia].
Defined.

(** Block 1 fails and is replaced, then block 2 is erased. *)
Lemma run_1_2 : exists s', run (c:=geo) (with_bmt empty_bmt faulty) [1; 2] s'.
Proof.
  destruct (update_bmt 130 3072 UPDATE_WRITE_FAIL page0 spare0 (with_bmt empty_bmt faulty))
    as [[r s1]| |] eqn:E; [|by vm_compute in E..].
  assert (step (c:=geo) (with_bmt empty_bmt faulty) 1 s1) as Hstep.
  { eapply step_update; [| | | | | |exact E|];
      [vm_compute; intuition discriminate|apply failing_1|vm_compute; discriminate..|lia|reflexivity|].
    intros _. pose proof (f_equal (fun o => match o with Done (_, s) => bmt_block_index s | _ => 0 end) E) as H.
    cbv beta iota in H. rewrite <- H. vm_compute. discriminate. }
  destruct (step_keeps geo_chip_ok _ _ _ (live_empty faulty) Hstep) as (_ & Hl & _).
  destruct (nd_erase (dev s1) (phys s1 2 * block_size geo)) as [rc d'] eqn:Ee.
  exists (set_dev d' s1). eapply run_step; [exact Hstep|]. eapply run_step; [|apply run_refl].
  eapply step_erase; [rewrite Hl; by split| |exact Ee].
  pose proof (f_equal (fun o => match o with
    | Done (_, s) => is_bad geo (dev s) (phys s 2) | _ => true end) E) as H.
  cbv beta iota in H. rewrite <- H. vm_compute. reflexivity.
Qed.


(** The replacement of block 1 is written to block 5 and survives. *)
Lemma update_succeeds :
  exists s', update_bmt 130 3072 UPDATE_WRITE_FAIL page0 spare0 (with_bmt empty_bmt faulty)
      = Done (true, s') /\ bmt_block_index s' = 7.
Proof.
  destruct (update_bmt 130 3072 UPDATE_WRITE_FAIL page0 spare0 (with_bmt empty_bmt faulty))
    as [[r s1]| |] eqn:E; [|by vm_compute in E..]. exists s1.
  pose proof (f_equal (fun o => match o with Done (r, s) => (r, bmt_block_index s) | _ => (true, 0) end) E) as H.
  vm_compute in H. injection H as Hr Hi. clear E. subst r. split; [reflexivity|symmetry; exact Hi].
Qed.

Lemma empty_u16 : Forall entry_u16 (table empty_bmt).
Proof. apply Forall_replicate. by split; vm_compute. Qed.

Lemma update_survives_restart_witness :
  exists s' s3, update_bmt 130 3072 UPDATE_WRITE_FAIL page0 spare0 (with_bmt empty_bmt faulty)
      = Done (true, s') /\
    load_bmt_data 4 4 (with_bmt empty_bmt (dev s')) = Done (bmt_block_index s', s3) /\
    forall b k, 0 <= b < 4 -> 0 <= k < chip_ppb geo -> view (c:=geo) s3 b k = view (c:=geo) s' b k.
Proof.
  destruct update_succeeds as (s' & E & Hi).
  destruct (update_survives_restart geo_chip_ok 130 (with_bmt empty_bmt faulty) 3072 UPDATE_WRITE_FAIL
    page0 spare0 s' (with_bmt empty_bmt (dev s'))) as (s3 & Hrun & Hv);
    [apply live_empty|exact offset_3072|apply failing_1|vm_compute; reflexivity|
     apply Z.leb_le; vm_compute; reflexivity|apply Z.leb_le; vm_compute; reflexivity|clear; lia|
     apply Z.leb_le; vm_compute; reflexivity| |exact E| |reflexivity|reflexivity|reflexivity| |].
  - exact empty_u16.
  - rewrite Hi. vm_compute. discriminate.
  - rewrite Hi. clear. simpl. lia.
  - exists s', s3. split; [exact E|]. split; [exact Hrun|exact Hv].
Defined.

Lemma find_available_block_correct_witness :
  exists r s', find_available_block true (with_bmt one_entry faulty) = Done (r, s') /\
    touches (c:=geo) (pool_avail (c:=geo) (with_bmt one_entry faulty))
      (dev (with_bmt one_entry faulty)) (dev s') /\
    pool_blank (c:=geo) s' /\ pool_erased s' = true /\ bmt s' = bmt (with_bmt one_entry faulty) /\
    (r = 0 /\ (forall b, ~ pool_avail (c:=geo) s' b) \/
     first_avail (c:=geo) s' true r /\ block_blank geo (dev s') r).
Proof.
  apply (find_available_block_correct geo_chip_ok); [exact geometry_ok|apply one_ok|done].
Defined.

Lemma migrate_from_bad_correct_witness :
  exists r s', migrate_from_bad 129 3072 UPDATE_READ_CHECK_FAIL page0 spare0
      (with_bmt empty_bmt faulty) = Done (r, s') /\
    migrate_post (c:=geo) (with_bmt empty_bmt faulty) 3072 UPDATE_READ_CHECK_FAIL page0 spare0 r s'.
Proof.
  apply (migrate_from_bad_correct geo_chip_ok);
    [exact geometry_ok|apply empty_ok|done|vm_compute; intuition discriminate|
     vm_compute; discriminate..| |lia].
  intros [[H _] _]. vm_compute in H. by apply H.
Defined.

Lemma write_bmt_to_flash_correct_witness :
  exists r s', write_bmt_to_flash 130 page0 (memset 0xFF 32) (with_bmt one_entry faulty)
      = Done (r, s') /\
    write_post (c:=geo) 0 (with_bmt one_entry faulty) page0 (memset 0xFF 32) r s'.
Proof.
  apply (write_bmt_to_flash_correct geo_chip_ok);
    [exact geometry_ok|apply one_ok|done|by left|vm_compute; discriminate..|lia].
Defined.

Lemma bmt_save_load_roundtrip_witness :
  exists s', load_bmt_data 4 4 (with_bmt empty_bmt saved) = Done (7, s') /\
    bmt_map (bmt s') = bmt_map one_entry /\ entries (bmt s') = entries one_entry /\
    bmt_ok geometry (bmt s') /\
    (forall x, x ∈ bad_index <$> entries one_entry -> is_bad geo (dev s') x = true) /\
    touches (c:=geo) (fun x => x ∈ bad_index <$> entries one_entry) saved (dev s').
Proof.
  apply (bmt_save_load_roundtrip geo_chip_ok (with_bmt empty_bmt saved) one_entry 7
           (memset 0xFF MAX_DAT_SIZE) (memset 0xFF MAX_OOB_SIZE));
    [exact geometry_ok|vm_compute; intuition discriminate|done|vm_compute; discriminate|
     exact one_ok|exact one_u16|done|vm_compute; reflexivity|].
  intros j Hj. change (7 < j < 8) in Hj. lia.
Defined.

Lemma scan_badblock_raw_collects_witness :
  exists r s', scan_badblock_raw 8 (with_bmt one_entry faulty) = Done (r, s') /\
    if bool_decide (Z.of_nat (length (List.filter (initially_bad (c:=geo) (with_bmt one_entry faulty))
                                        (seqZ 1 3))) <= MAX_RAW_BAD_BLOCK_SIZE)
    then r = 0 /\
         initial_bads s' = List.filter (initially_bad (c:=geo) (with_bmt one_entry faulty)) (seqZ 1 3) /\
         StronglySorted Z.lt (List.filter (initially_bad (c:=geo) (with_bmt one_entry faulty)) (seqZ 1 3)) /\
         dev s' = dev (with_bmt one_entry faulty)
    else r = -1.
Proof.
  apply (scan_badblock_raw_collects geo_chip_ok 8 (with_bmt one_entry faulty));
    [exact geometry_ok|apply one_ok|done|vm_compute; discriminate].
Defined.

Lemma create_badblock_table_enumerates_witness :
  exists s', create_badblock_table_by_bbt (with_bmt one_entry fresh) = Done (0, s') /\
    take 3 (pBbt s') = filter (.∉ initial_bads (with_bmt one_entry fresh)) (seqZ 0 4) /\
    bmt s' = one_entry /\ init_bbt s' = bbt_2 /\ dev s' = fresh.
Proof. apply (create_badblock_table_enumerates (with_bmt one_entry fresh)), bbt_2_ok. Defined.

Lemma get_mapping_block_index_injective_witness :
  exists bi bj gi gj,
    get_mapping_block_index 1 (with_bmt one_entry fresh) = Done ((bi, gi), with_bmt one_entry fresh) /\
    get_mapping_block_index 2 (with_bmt one_entry fresh) = Done ((bj, gj), with_bmt one_entry fresh) /\
    bi <> bj /\ gi ∉ initial_bads (with_bmt one_entry fresh) /\
    gj ∉ initial_bads (with_bmt one_entry fresh).
Proof.
  apply (get_mapping_block_index_injective geo);
    [exact geometry_ok|exact one_ok|apply bbt_2_ok|apply array_2_enumerates|vm_compute; intuition discriminate..|done].
Defined.

Lemma remove_entry_deletes_witness :
  exists s', remove_entry (Z.of_nat 0) (with_bmt one_entry fresh) = Done (tt, s') /\
    bmt_map (bmt s') = delete 1 (bmt_map one_entry) /\
    bmt_ok geometry (bmt s') /\ entries (bmt s') = delete 0%nat (entries one_entry) /\
    dev s' = fresh.
Proof.
  apply (remove_entry_deletes (c:=geo) (with_bmt one_entry fresh) 0 (Entry 1 5));
    [exact geometry_ok|exact one_ok|vm_compute; reflexivity|done].
Defined.

Lemma recover_bmt_unmapped_undef_witness :
  recover_bmt 130 4096 (with_bmt one_entry fresh) = Undef.
Proof.
  apply recover_bmt_unmapped_undef; [done|vm_compute; intuition discriminate|].
  apply (bool_decide_unpack _). vm_compute. exact I.
Defined.

(** Block 1 is replaced by block 7, the table is in block 6, and block 6 can
    no longer be erased. *)
Definition worn : sim := Sim ∅ [] [] [6] [].
Definition one_entry_7 : bmt_struct := Bmt (Entry 1 7 :: replicate 127 (Entry 0 0)) 1 1 0.
Definition worn_state : st sim :=
  St worn geometry one_entry_7 6 bbt_2 0 array_2 (memset 0 0x1000) (memset 0 0x100)
     true false false false 0.

(** C38: when the replacement block itself fails and the table has to move,
    [update_bmt] releases the failing block before it marks it, so the
    search for a new table block can answer the failing block: the table is
    written to block 7, which is then marked bad.  [update_bmt] answers
    true, but the next [load_bmt_data] finds no table. *)
Theorem update_bmt_may_save_into_failing_block :
  exists s', update_bmt 130 (7 * 2048) UPDATE_ERASE_FAIL page0 spare0 worn_state = Done (true, s') /\
    bmt_block_index s' = 7 /\ is_bad geo (dev s') 7 = true /\
    exists s'', load_bmt_data 4 4 s' = Done (0, s'').
Proof.
  destruct (update_bmt 130 (7 * 2048) UPDATE_ERASE_FAIL page0 spare0 worn_state)
    as [[r s']| |] eqn:E.
  2, 3: by vm_compute in E.
  exists s'. assert (r = true) as ->.
  { pose proof (f_equal (fun o => match o with Done (r, _) => r | _ => true end) E) as H.
    vm_compute in H. done. }
  split; [done|]. split_and!.
  - pose proof (f_equal (fun o => match o with Done (_, s) => bmt_block_index s | _ => 0 end) E) as H.
    cbv beta iota in H. rewrite <- H. vm_compute. reflexivity.
  - pose proof (f_equal (fun o => match o with Done (_, s) => is_bad geo (dev s) 7 | _ => true end) E) as H.
    cbv beta iota in H. rewrite <- H. vm_compute. reflexivity.
  - pose proof (f_equal (fun o => match o with
      | Done (_, s) => match load_bmt_data 4 4 s with Done (r, _) => r | _ => 1 end
      | _ => 1 end) E) as H.
    cbv beta iota in H. destruct (load_bmt_data 4 4 s') as [[r s'']| |]; [|by vm_compute in H..].
    exists s''. do 2 f_equal. rewrite <- H. vm_compute. reflexivity.
Qed.

(** Block 4, the first of the pool, can neither be programmed nor marked.
    Block 1 is to be migrated; the buffers are those of a round before. *)
#[local] Existing Instance StuckNand.stuck_dev.
Definition stuck_chip : StuckNand.stuck := StuckNand.Stuck (Sim ∅ [] [8; 9] [] []) [4].
Definition stuck_state : st StuckNand.stuck :=
  St stuck_chip geometry empty_bmt 0 bbt_2 0 array_2
     (splice (memset 0 0x1000) 0 (memset 255 1024))
     (set_bad_index_to_oob (splice (memset 0 0x100) 0 (memset 255 32)) 1)
     true false false false 0.

(** One round of the migration leaves the state as it was. *)
Lemma stuck_round fuel :
  migrate_from_bad (S fuel) 3072 UPDATE_WRITE_FAIL page0 spare0 stuck_state
  = migrate_from_bad fuel 3072 UPDATE_WRITE_FAIL page0 spare0 stuck_state.
Proof.
  cbn [migrate_from_bad].
  generalize (migrate_from_bad fuel 3072 UPDATE_WRITE_FAIL page0 spare0). intros k.
  vm_compute. reflexivity.
Qed.

(** Where writing a mark can fail ([StuckNand]), every hypothesis of
    [migrate_from_bad_correct] but [NandMarks] holds and the recursion of
    [migrate_from_bad] does not end for any fuel: the block that could be
    neither programmed nor marked is answered again by every search. *)
Theorem migrate_without_mark_diverges :
  geo_ok geo (lay stuck_state) /\ table_ok (lay stuck_state) (bmt stuck_state) /\
  pool_blank (c:=geo) stuck_state /\
  ~ pool_avail (c:=geo) stuck_state (3072 / block_size geo) /\
  forall fuel, migrate_from_bad fuel 3072 UPDATE_WRITE_FAIL page0 spare0 stuck_state = OutOfFuel.
Proof.
  split_and!; [exact geometry_ok|apply empty_ok| | |].
  - intros _ b [Hin _] k Hk. unfold in_pool in Hin. change (chip_ppb geo) with 2 in Hk.
    change (4 <= b < 8) in Hin. vm_compute. reflexivity.
  - intros [[H _] _]. vm_compute in H. by apply H.
  - induction fuel as [|fuel IH]; [done|]. by rewrite stuck_round.
Qed.

(** A chip on which page 2 can no longer be read. *)
Definition decayed : sim := Sim {[2 := (page0, spare0)]} [] [] [] [2].

(** Block 1 is migrated because of page 3: its page 2 cannot be read, which
    [migrate_from_bad] does not notice.  The replacement, block 4, answers page
    2 without an error, with what the buffer held before. *)
Example unreadable_page_replaced_by_buffer :
  match migrate_from_bad 129 3072 UPDATE_READ_CHECK_FAIL page0 spare0 (with_bmt empty_bmt decayed) with
  | Done (r, s') => (r, (nd_read_page decayed 2).1,
      bool_decide (nd_read_page (dev s') 8 = (0, (memset 0 1024, set_bad_index_to_oob (memset 0 32) 1))))
  | _ => (0, 0, false)
  end = (4, -1, true).
Proof. vm_compute. reflexivity. Qed.
End Witnesses.
