(* ===== verification/FlashHal.v ===== *)
(** The flash abstraction layer ([drivers/misc/ecnt/flash/flashhal.c]).

    One set of entry points over three kinds of flash: eMMC, SPI NAND and SPI
    NOR.  The drivers behind it are not part of the repository's own code;
    they are the class [FlashDrv].  [FlashLaws] says what the read-modify-write
    functions rely on, in terms of the bytes of the flash. *)

From stdpp Require Import base numbers list option gmap.
From Stdlib Require Import ZArith Lia.
From S2P Require Import Prelude.

Inductive flash_kind := EMMC | NANDFLASH | SPIFLASH | NOFLASH.

#[export] Instance flash_kind_eq_dec : EqDecision flash_kind.
Proof. solve_decision. Defined.

(** A read answers its status and the bytes it stored; the eMMC calls work on
    whole blocks and answer the number of blocks they have processed. *)
Class FlashDrv (F : Type) := {
  nandflash_erase : F -> Z -> Z -> Z * F;
  nandflash_read : F -> Z -> Z -> Z * list Z;
  nandflash_write : F -> Z -> list Z -> Z * F;
  spiflash_erase : F -> Z -> Z -> Z * F;
  spiflash_read : F -> Z -> Z -> Z * list Z;
  spiflash_write : F -> Z -> list Z -> Z * F;
  mmc_block_read : F -> Z -> Z * list Z;
  mmc_block_write : F -> Z -> Z -> list Z -> Z * F;
  mmc_block_erase : F -> Z -> Z -> Z * F
}.

Definition _SPI_NAND_BLOCK_SIZE_512KBYTE : Z := 0x80000.

Record hal (F : Type) := Hal {
  kind : flash_kind;
  drv : F;
  read_bl_len : Z;          (* arht_mmc.read_bl_len, which is MMC_BLOCK_SIZE *)
  erase_shift_nand : Z;     (* ra.flash->erase_shift *)
  mtd_offset : Z;
  mtd_erasesize : Z;
  block_buf : list Z;
  image_read_mode : Z;
  ramfs : list Z            (* the memory from CONFIG_RAMFS_BASE on *)
}.
Arguments Hal {F}.
Arguments kind {F}.
Arguments drv {F}.
Arguments read_bl_len {F}.
Arguments erase_shift_nand {F}.
Arguments mtd_offset {F}.
Arguments mtd_erasesize {F}.
Arguments block_buf {F}.
Arguments image_read_mode {F}.
Arguments ramfs {F}.

Definition set_drv {F} v (s : hal F) : hal F :=
  Hal (kind s) v (read_bl_len s) (erase_shift_nand s) (mtd_offset s) (mtd_erasesize s)
      (block_buf s) (image_read_mode s) (ramfs s).
Definition set_block_buf {F} v (s : hal F) : hal F :=
  Hal (kind s) (drv s) (read_bl_len s) (erase_shift_nand s) (mtd_offset s) (mtd_erasesize s)
      v (image_read_mode s) (ramfs s).

(** [memcpy(dst + off, src, |src|)], undefined when it leaves [dst]. *)
Definition memcpy_at (dst : list Z) (off : Z) (src : list Z) : option (list Z) :=
  if (0 <=? off) && (off + Z.of_nat (length src) <=? Z.of_nat (length dst))
  then Some (splice dst off src) else None.

(** [memcpy(.., src + off, n)], undefined when it leaves [src]. *)
Definition mem_slice (src : list Z) (off n : Z) : option (list Z) :=
  if (0 <=? off) && (0 <=? n) && (off + n <=? Z.of_nat (length src))
  then Some (take (Z.to_nat n) (drop (Z.to_nat off) src)) else None.

Section hal_ops.
Context {F : Type} `{FlashDrv F}.

Definition drv_call (f : F -> Z * F) : M (hal F) Z :=
  act (fun s => let '(rc, d) := f (drv s) in (rc, set_drv d s)).

(** The number of eMMC blocks that cover [addr .. addr + size). *)
Definition mmc_block_span (bl addr size : Z) : Z * Z :=
  let blknr_start := addr / bl in
  let e := u32 (addr + size) in
  let blkcnt := if negb (e mod bl =? 0) then u32 (e / bl + 1) else e / bl in
  (blknr_start, u32 (blkcnt - blknr_start)).

Definition flash_erase (addr size : Z) : M (hal F) Z :=
  let! k := gets kind in
  match k with
  | EMMC =>
      let! bl := gets read_bl_len in
      if negb (addr mod bl =? 0) then undef else      (* assert *)
      let '(blknr_start, blkcnt) := mmc_block_span bl addr size in
      let! retlen := drv_call (fun f => mmc_block_erase f blknr_start blkcnt) in
      ret (if negb (retlen =? blkcnt) then -1 else 0)
  | NANDFLASH => drv_call (fun f => nandflash_erase f addr size)
  | SPIFLASH => drv_call (fun f => spiflash_erase f addr size)
  | NOFLASH => ret (-1)
  end.

Definition flash_write (to : Z) (buf : list Z) : M (hal F) Z :=
  let! k := gets kind in
  match k with
  | EMMC =>
      let! bl := gets read_bl_len in
      if negb (to mod bl =? 0) then undef else        (* assert *)
      let '(blknr_start, blkcnt) := mmc_block_span bl to (Z.of_nat (length buf)) in
      if Z.of_nat (length buf) <? blkcnt * bl then undef else   (* whole blocks are read *)
      let! blkcnt_write := drv_call (fun f => mmc_block_write f blknr_start blkcnt buf) in
      ret (if negb (blkcnt_write =? blkcnt) then -1 else 0)
  | NANDFLASH => drv_call (fun f => nandflash_write f to buf)
  | SPIFLASH => drv_call (fun f => spiflash_write f to buf)
  | NOFLASH => ret (-1)
  end.

(** One eMMC block into [block_buf]; [None] when the driver fails. *)
Definition mmc_read_one (blknr : Z) : M (hal F) (option (list Z)) :=
  let! s := gets (fun s => s) in
  let '(read_status, dat) := mmc_block_read (drv s) blknr in
  let! bb := checked (memcpy_at (block_buf s) 0 dat) in
  do! modify (set_block_buf bb) in
  ret (if negb (read_status =? 0) then None else Some bb).

(** The whole blocks [blkcntIdx .. blkcntIdx + n). *)
Fixpoint mmc_read_blocks (n : nat) (bl blkcntIdx : Z) (out : list Z) : M (hal F) (option (list Z)) :=
  match n with
  | O => ret (Some out)
  | S n' =>
      let! r := mmc_read_one blkcntIdx in
      match r with
      | None => ret None
      | Some bb =>
          let! dat := checked (mem_slice bb 0 bl) in
          mmc_read_blocks n' bl (blkcntIdx + 1) (out ++ dat)
      end
  end.

(** The eMMC branch of [flash_read]: head, whole blocks, tail.  Answers
    the status and the bytes stored from [buf] on. *)
Definition emmc_read (from len : Z) : M (hal F) (Z * list Z) :=
  let! bl := gets read_bl_len in
  let offset := from mod bl in
  let! head :=
    (if negb (offset =? 0) then
       let! r := mmc_read_one (from / bl) in
       match r with
       | None => ret None
       | Some bb =>
           let nonalignment_len := if len <? bl - offset then len else bl - offset in
           let! dat := checked (mem_slice bb offset nonalignment_len) in
           ret (Some dat)
       end
     else ret (Some [])) in
  match head with
  | None => ret (-1, [])
  | Some out =>
      let nonalignment_from := u32 (from + Z.of_nat (length out)) in
      let remain_len := len - Z.of_nat (length out) in
      let! body :=
        (if negb (remain_len =? 0) && (bl <=? remain_len) then
           let blknr_start := nonalignment_from / bl in
           let blknr_end := u32 (nonalignment_from + remain_len) / bl in
           mmc_read_blocks (Z.to_nat (blknr_end - blknr_start)) bl blknr_start out
         else ret (Some out)) in
      match body with
      | None => ret (-1, [])
      | Some out =>
          let nonalignment_from := u32 (from + Z.of_nat (length out)) in
          let remain_len := len - Z.of_nat (length out) in
          if negb (remain_len =? 0) then
            let! r := mmc_read_one (nonalignment_from / bl) in
            match r with
            | None => ret (-1, [])
            | Some bb =>
                let! dat := checked (mem_slice bb 0 remain_len) in
                ret (0, out ++ dat)
            end
          else ret (0, out)
      end
  end.

Definition flash_read (from len : Z) : M (hal F) (Z * list Z) :=
  let! k := gets kind in
  match k with
  | EMMC => emmc_read from len
  | NANDFLASH => gets (fun s => nandflash_read (drv s) from len)
  | SPIFLASH => gets (fun s => spiflash_read (drv s) from len)
  | NOFLASH => ret (-1, [])
  end.

(** [image_read] from the RAM file system or from flash. *)
Definition image_read (from len : Z) : M (hal F) (Z * list Z) :=
  let! mode := gets image_read_mode in
  if mode =? 0 then flash_read from len
  else
    let! mem := gets ramfs in
    let! dat := checked (mem_slice mem from len) in
    ret (0, dat).

(** Replace [len] bytes inside one erase block. *)
Definition flash_partial_write (to : Z) (buf : list Z) : M (hal F) Z :=
  let! s := gets (fun s => s) in
  match kind s with
  | NOFLASH => ret (-1)
  | k =>
      let to := match k with SPIFLASH => Z.land to (u32 (Z.lnot (mtd_offset s))) | _ => to end in
      let erasesize := match k with
                       | EMMC => read_bl_len s
                       | NANDFLASH => Z.shiftl 1 (erase_shift_nand s)
                       | _ => mtd_erasesize s
                       end in
      let len := Z.of_nat (length buf) in
      let block_offset_addr := to mod erasesize in
      let block_start_addr := to - block_offset_addr in
      if erasesize <? u32 (block_offset_addr + len) then ret (-1) else
      do! modify (set_block_buf (memset 0 _SPI_NAND_BLOCK_SIZE_512KBYTE)) in
      let! r := flash_read block_start_addr erasesize in
      let! bb := gets block_buf in
      let! bb := checked (memcpy_at bb 0 (snd r)) in
      do! modify (set_block_buf bb) in
      if negb (fst r =? 0) then ret (-1) else
      let! erc := flash_erase block_start_addr erasesize in
      if negb (erc =? 0) then ret (-1) else
      let! bb := gets block_buf in
      let! bb := checked (memcpy_at bb block_offset_addr buf) in
      do! modify (set_block_buf bb) in
      let! dat := checked (mem_slice bb 0 erasesize) in
      let! wrc := flash_write block_start_addr dat in
      ret (if negb (wrc =? 0) then -1 else 0)
  end.

(** Erase [size] bytes at [addr], keeping the rest of the first and of the
    last block.  [malloc] is taken to succeed. *)
Definition flash_erase_non_block (addr size : Z) : M (hal F) Z :=
  let! s := gets (fun s => s) in
  match kind s with
  | SPIFLASH | NOFLASH => ret (-1)
  | k =>
      let erase_size := match k with EMMC => read_bl_len s
                                   | _ => Z.shiftl 1 (erase_shift_nand s) end in
      let temp := addr mod erase_size in
      let start := if negb (temp =? 0) then addr - temp else 0 in
      let add_head_size := if negb (temp =? 0) then temp else 0 in
      let! head := (if negb (temp =? 0) then flash_read start add_head_size else ret (0, [])) in
      if negb (fst head =? 0) then ret (-1) else
      let temp := u32 (addr + size) mod erase_size in
      let endp := if negb (temp =? 0) then u32 (addr + size) else 0 in
      let add_tail_size := if negb (temp =? 0) then erase_size - temp else 0 in
      let! tail := (if negb (temp =? 0) then flash_read endp add_tail_size else ret (0, [])) in
      if negb (fst tail =? 0) then ret (-1) else
      if (add_head_size =? 0) && (add_tail_size =? 0) then flash_erase addr size
      else
        let! erc := flash_erase start (u32 (size + add_head_size + add_tail_size)) in
        if negb (erc =? 0) then ret (-1) else
        let! wrc := (if negb (add_head_size =? 0) then flash_write start (snd head) else ret 0) in
        if negb (wrc =? 0) then ret (-1) else
        let! wrc := (if negb (add_tail_size =? 0) then flash_write endp (snd tail) else ret 0) in
        ret (if negb (wrc =? 0) then -1 else 0)
  end.
End hal_ops.

(** ** The eMMC read *)

Section emmc.
Context {F : Type} `{FlashDrv F}.
Implicit Type s : hal F.

(** Every block reads without error and has the length of a block. *)
Definition mmc_reads (f : F) (bl : Z) (content : Z -> Z) : Prop :=
  forall b, mmc_block_read f b = (0, content <$> seqZ (b * bl) bl).

Lemma mem_slice_seqZ (content : Z -> Z) base rest n off m :
  0 <= off -> 0 <= m -> off + m <= n ->
  mem_slice ((content <$> seqZ base n) ++ rest) off m = Some (content <$> seqZ (base + off) m).
Proof.
  intros Ho Hm Hn. unfold mem_slice. rewrite length_app, length_fmap, length_seqZ.
  rewrite (proj2 (Z.leb_le _ _)), (proj2 (Z.leb_le 0 m)), (proj2 (Z.leb_le (off + m) _)) by lia.
  cbn [andb]. f_equal.
  replace n with (off + (m + (n - off - m))) by lia.
  rewrite seqZ_app by lia. rewrite fmap_app, <- app_assoc.
  rewrite drop_app_length' by (rewrite length_fmap, length_seqZ; lia).
  rewrite seqZ_app by lia. rewrite fmap_app, <- app_assoc.
  rewrite take_app_length' by (rewrite length_fmap, length_seqZ; lia). done.
Qed.

Record emmc_ok s (content : Z -> Z) : Prop := {
  eo_bl : 0 < read_bl_len s <= _SPI_NAND_BLOCK_SIZE_512KBYTE;
  eo_buf : Z.of_nat (length (block_buf s)) = _SPI_NAND_BLOCK_SIZE_512KBYTE;
  eo_read : mmc_reads (drv s) (read_bl_len s) content
}.

Lemma mmc_read_one_eq s content b :
  emmc_ok s content ->
  exists rest s', mmc_read_one b s
      = Done (Some ((content <$> seqZ (b * read_bl_len s) (read_bl_len s)) ++ rest), s') /\
    emmc_ok s' content /\ read_bl_len s' = read_bl_len s /\ drv s' = drv s.
Proof.
  intros [Hbl Hbuf Hr]. unfold mmc_read_one. erewrite (bind_run (gets _)) by reflexivity.
  rewrite Hr. set (dat := content <$> seqZ _ _).
  assert (Z.of_nat (length dat) = read_bl_len s) as Hl.
  { unfold dat. rewrite length_fmap, length_seqZ. lia. }
  unfold memcpy_at. rewrite (proj2 (Z.leb_le (0 + _) _)) by lia. cbn [andb Z.leb].
  erewrite (bind_run (checked _)) by reflexivity. erewrite (bind_run (modify _)) by reflexivity.
  exists (drop (length dat) (block_buf s)). eexists. split; [done|]. split; [|done].
  split; [done| |done]. simpl. unfold splice. rewrite Nat.add_0_l. simpl.
  rewrite length_app, length_drop. lia.
Qed.

Lemma mmc_read_blocks_eq n s content b out :
  emmc_ok s content ->
  exists s', mmc_read_blocks n (read_bl_len s) b out s
      = Done (Some (out ++ (content <$> seqZ (b * read_bl_len s) (Z.of_nat n * read_bl_len s))), s') /\
    emmc_ok s' content /\ read_bl_len s' = read_bl_len s /\ drv s' = drv s.
Proof.
  revert s b out. induction n as [|n IH]; intros s b out Hok.
  { exists s. split; [|done]. simpl. by rewrite app_nil_r. }
  pose proof (eo_bl _ _ Hok) as Hbl.
  destruct (mmc_read_one_eq s content b Hok) as (rest & s1 & Hrun & Hok1 & Hbl1 & Hd1).
  cbn [mmc_read_blocks]. rewrite (bind_run _ _ _ _ _ Hrun).
  rewrite mem_slice_seqZ by lia. erewrite (bind_run (checked _)) by reflexivity.
  destruct (IH s1 (b + 1) (out ++ (content <$> seqZ (b * read_bl_len s + 0) (read_bl_len s))) Hok1)
    as (s2 & Hrun2 & Hok2 & Hbl2 & Hd2).
  exists s2. rewrite Hbl1 in *. rewrite Hrun2. split_and!; [|done|congruence|congruence].
  do 3 f_equal. rewrite Z.add_0_r, <- app_assoc, <- fmap_app. do 2 f_equal.
  replace (Z.of_nat (S n) * read_bl_len s) with (read_bl_len s + Z.of_nat n * read_bl_len s) by lia.
  rewrite seqZ_app by lia. f_equal. f_equal. lia.
Qed.

(** The three parts of a read of [len] bytes: up to the first boundary of a
    block, whole blocks, the rest. *)
Definition head_len (bl from len : Z) : Z :=
  if from mod bl =? 0 then 0 else Z.min len (bl - from mod bl).
Definition body_len (bl from len : Z) : Z :=
  let hl := head_len bl from len in
  if bl <=? len - hl then ((from + len) / bl - (from + hl) / bl) * bl else 0.

Lemma head_len_bounds bl from len :
  0 < bl -> 0 <= len -> 0 <= head_len bl from len <= len /\
  (len = head_len bl from len \/
   from + head_len bl from len = (from + head_len bl from len) / bl * bl).
Proof.
  intros Hbl Hl. unfold head_len. pose proof (Z.div_mod from bl ltac:(lia)) as Hdm.
  pose proof (Z.mod_pos_bound from bl ltac:(lia)) as Hmod.
  destruct (Z.eqb_spec (from mod bl) 0) as [E|E]; (split; [lia|]).
  - right. rewrite !Z.add_0_r. lia.
  - destruct (Z.min_spec len (bl - from mod bl)) as [[? ->]|[? ->]]; [by left|right].
    replace (from + (bl - from mod bl)) with ((from / bl + 1) * bl) by nia.
    rewrite Z.div_mul by lia. lia.
Qed.

Lemma body_len_bounds bl from len :
  0 < bl -> 0 <= len -> let hl := head_len bl from len in let ml := body_len bl from len in
  0 <= ml <= len - hl /\ len - hl - ml < bl /\
  (hl + ml <> len -> (from + (hl + ml)) / bl * bl = from + (hl + ml)).
Proof.
  intros Hbl Hl hl ml. destruct (head_len_bounds bl from len Hbl Hl) as [Hhl Hal]. fold hl in Hhl, Hal.
  unfold ml, body_len. fold hl. destruct (Z.leb_spec bl (len - hl)) as [Hge|Hlt].
  - destruct Hal as [|Ha]; [lia|].
    pose proof (Z.div_mod (from + len) bl ltac:(lia)) as Hd2.
    pose proof (Z.mod_pos_bound (from + len) bl ltac:(lia)) as Hm2.
    assert ((from + hl) / bl <= (from + len) / bl) by (apply Z.div_le_mono; lia).
    split_and!; [nia|nia|nia|]. intros _.
    replace (from + (hl + _)) with ((from + len) / bl * bl) by lia. by rewrite Z.div_mul by lia.
  - split_and!; [lia|lia|lia|]. intros Hne. destruct Hal as [|Ha]; [lia|]. by rewrite Z.add_0_r.
Qed.

Lemma emmc_head_eq s content from len :
  let bl := read_bl_len s in
  emmc_ok s content -> 0 <= from -> 0 <= len ->
  exists s1, (if negb (from mod bl =? 0) then
       let! r := mmc_read_one (from / bl) in
       match r with
       | None => ret None
       | Some bb =>
           let cur := if len <? bl - from mod bl then len else bl - from mod bl in
           let! dat := checked (mem_slice bb (from mod bl) cur) in
           ret (Some dat)
       end
     else ret (Some [])) s = Done (Some (content <$> seqZ from (head_len bl from len)), s1) /\
    emmc_ok s1 content /\ read_bl_len s1 = bl /\ drv s1 = drv s.
Proof.
  intros bl Hok Hf Hl. pose proof (eo_bl _ _ Hok) as Hbl. fold bl in Hbl.
  pose proof (Z.div_mod from bl ltac:(lia)) as Hdm.
  pose proof (Z.mod_pos_bound from bl ltac:(lia)) as Hmod. unfold head_len.
  destruct (Z.eqb_spec (from mod bl) 0) as [E|E]; cbn [negb].
  { exists s. done. }
  destruct (mmc_read_one_eq s content (from / bl) Hok) as (rest & s1 & Hrun & Hok1 & Hbl1 & Hd1).
  exists s1. rewrite (bind_run _ _ _ _ _ Hrun). fold bl. cbv zeta.
  replace (if len <? bl - from mod bl then len else bl - from mod bl)
    with (Z.min len (bl - from mod bl)) by (destruct (Z.ltb_spec len (bl - from mod bl)); lia).
  rewrite mem_slice_seqZ by lia. erewrite (bind_run (checked _)) by reflexivity.
  split_and!; [|done..]. by replace (from / bl * bl + from mod bl) with from by lia.
Qed.

Lemma emmc_body_eq s s1 content from len :
  let bl := read_bl_len s in let hl := head_len bl from len in
  emmc_ok s1 content -> read_bl_len s1 = bl -> drv s1 = drv s -> 0 <= from -> 0 <= len ->
  exists s2, (if negb (len - hl =? 0) && (bl <=? len - hl) then
      mmc_read_blocks (Z.to_nat ((from + len) / bl - (from + hl) / bl)) bl ((from + hl) / bl)
        (content <$> seqZ from hl)
    else ret (Some (content <$> seqZ from hl))) s1
      = Done (Some (content <$> seqZ from (hl + body_len bl from len)), s2) /\
    emmc_ok s2 content /\ read_bl_len s2 = bl /\ drv s2 = drv s.
Proof.
  intros bl hl Hok1 Hbl1 Hd1 Hf Hl. pose proof (eo_bl _ _ Hok1) as Hbl. rewrite Hbl1 in Hbl.
  destruct (head_len_bounds bl from len) as [Hhl Hal]; [lia|done|].
  destruct (body_len_bounds bl from len) as (Hml & _ & _); [lia|done|].
  unfold body_len in *. fold hl in Hhl, Hal, Hml |- *.
  destruct (Z.leb_spec bl (len - hl)) as [Hge|Hlt].
  2: { rewrite andb_false_r. exists s1. rewrite Z.add_0_r. done. }
  rewrite (proj2 (Z.eqb_neq _ _)) by lia. cbn [negb andb].
  set (nb := (from + len) / bl - (from + hl) / bl) in *.
  destruct (mmc_read_blocks_eq (Z.to_nat nb) s1 content ((from + hl) / bl) (content <$> seqZ from hl) Hok1)
    as (s2 & Hrun & Hok2 & Hbl2 & Hd2).
  rewrite Hbl1, Z2Nat.id in * by nia. exists s2. rewrite Hrun.
  split_and!; [|done|congruence|congruence].
  do 3 f_equal. rewrite <- fmap_app, seqZ_app by lia. do 2 f_equal.
  destruct Hal as [|Ha]; [lia|]. by rewrite <- Ha.
Qed.

Lemma emmc_read_eq s content from len :
  emmc_ok s content -> 0 <= from -> 0 <= len -> from + len < 2 ^ 32 ->
  exists s', emmc_read from len s = Done ((0, content <$> seqZ from len), s') /\ drv s' = drv s.
Proof.
  intros Hok Hf Hl Hw. pose proof (eo_bl _ _ Hok) as Hbl.
  unfold emmc_read. erewrite (bind_run (gets _)) by reflexivity.
  destruct (emmc_head_eq s content from len Hok Hf Hl) as (s1 & Hh & Hok1 & Hbl1 & Hd1).
  rewrite (bind_run _ _ _ _ _ Hh). clear Hh.
  destruct (head_len_bounds (read_bl_len s) from len) as [Hhl _]; [lia|done|].
  destruct (body_len_bounds (read_bl_len s) from len) as (Hml & Hrest & Hal); [lia|done|].
  set (bl := read_bl_len s) in *. set (hl := head_len bl from len) in *.
  assert (forall z, 0 <= z < 2 ^ 32 -> u32 z = z) as Hu by (intros; by apply Z.mod_small).
  rewrite !length_fmap, !length_seqZ, Z2Nat.id, (Hu (from + hl)) by lia.
  replace (from + hl + (len - hl)) with (from + len) by lia. rewrite (Hu (from + len)) by lia.
  destruct (emmc_body_eq s s1 content from len) as (s2 & Hb & Hok2 & Hbl2 & Hd2); [done..|].
  fold bl hl in Hb. cbv zeta in Hb |- *. rewrite (bind_run _ _ _ _ _ Hb). clear Hb.
  set (ml := body_len bl from len) in *.
  rewrite !length_fmap, !length_seqZ, Z2Nat.id, (Hu (from + (hl + ml))) by lia.
  destruct (Z.eqb_spec (len - (hl + ml)) 0) as [E|E]; cbn [negb].
  { exists s2. split; [|done]. replace (hl + ml) with len by lia. done. }
  destruct (mmc_read_one_eq s2 content ((from + (hl + ml)) / bl) Hok2)
    as (rest & s3 & Hrun & Hok3 & Hbl3 & Hd3).
  exists s3. rewrite (bind_run _ _ _ _ _ Hrun), Hbl2, mem_slice_seqZ by lia.
  erewrite (bind_run (checked _)) by reflexivity.
  split; [|congruence]. unfold ret. do 3 f_equal. rewrite <- fmap_app. f_equal.
  fold bl. rewrite Z.add_0_r, Hal, <- seqZ_app by lia. f_equal. lia.
Qed.
End emmc.
