(* ===== verification/FlashRmw.v ===== *)
(** Read-modify-write on NAND: [flash_partial_write], [flash_erase_non_block].

    [NandMem] views the NAND as an array of bytes.  The partial write is
    correct; [flash_erase_non_block] is correct when its address is inside a
    block, but starts at byte 0 when only its end is unaligned. *)

From stdpp Require Import base numbers list option gmap.
From Stdlib Require Import ZArith Lia.
From S2P Require Import Prelude FlashHal.

(** What the two functions rely on.  An operation only changes the bytes it is
    given; a successful one has its documented effect.  Nothing is assumed of
    an erase whose length is no multiple of the erase block: the driver rounds
    it up. *)
Class NandMem (F : Type) `{FlashDrv F} (erase size : Z) := {
  mem : F -> Z -> Z;
  nm_read_len f from len : Z.of_nat (length (nandflash_read f from len).2) <= Z.max 0 len;
  nm_read f from len bs :
    0 <= from -> 0 <= len -> from + len <= size ->
    nandflash_read f from len = (0, bs) -> bs = mem f <$> seqZ from len;
  nm_erase_only f addr len rc f' a : len mod erase = 0 ->
    nandflash_erase f addr len = (rc, f') -> ~ addr <= a < addr + len -> mem f' a = mem f a;
  nm_erase f addr len f' a :
    0 <= addr -> addr + len <= size -> addr mod erase = 0 -> len mod erase = 0 ->
    nandflash_erase f addr len = (0, f') -> addr <= a < addr + len -> mem f' a = 255;
  nm_write_only f to buf rc f' a :
    nandflash_write f to buf = (rc, f') -> ~ to <= a < to + Z.of_nat (length buf) ->
    mem f' a = mem f a;
  nm_write f to buf f' a :
    0 <= to -> to + Z.of_nat (length buf) <= size ->
    (forall a, to <= a < to + Z.of_nat (length buf) -> mem f a = 255) ->
    nandflash_write f to buf = (0, f') -> to <= a < to + Z.of_nat (length buf) ->
    mem f' a = nth (Z.to_nat (a - to)) buf 255
}.

Section nand.
Context {F : Type} {HF : FlashDrv F} {erase size : Z} {HM : NandMem F erase size}.
Implicit Type s : hal F.

Record nand_ok s : Prop := {
  no_kind : kind s = NANDFLASH;
  no_shift : Z.shiftl 1 (erase_shift_nand s) = erase;
  no_erase : 0 < erase <= _SPI_NAND_BLOCK_SIZE_512KBYTE;
  no_size : size mod erase = 0 /\ size < 2 ^ 32
}.

(** The flash after an operation. *)
Definition bytes_of s : Z -> Z := mem (drv s).

Lemma flash_read_spec s from len Q :
  kind s = NANDFLASH ->
  (forall rc bs, Z.of_nat (length bs) <= Z.max 0 len ->
     (rc = 0 -> 0 <= from -> 0 <= len -> from + len <= size -> bs = bytes_of s <$> seqZ from len) ->
     Q (rc, bs) s) ->
  wp (flash_read from len) Q s.
Proof.
  intros Hk HQ. unfold flash_read. apply wp_bind, wp_gets. rewrite Hk. apply wp_gets.
  pose proof (nm_read_len (drv s) from len) as Hl.
  destruct (nandflash_read (drv s) from len) as [rc bs] eqn:E. apply HQ; [done|].
  intros -> ???. by eapply nm_read.
Qed.

Lemma flash_erase_spec s addr len Q :
  kind s = NANDFLASH ->
  len mod erase = 0 ->
  (forall rc f', (forall a, ~ addr <= a < addr + len -> mem f' a = bytes_of s a) ->
     (rc = 0 -> 0 <= addr -> addr + len <= size -> addr mod erase = 0 ->
        forall a, addr <= a < addr + len -> mem f' a = 255) ->
     Q rc (set_drv f' s)) ->
  wp (flash_erase addr len) Q s.
Proof.
  intros Hk Hm HQ. unfold flash_erase. apply wp_bind, wp_gets. rewrite Hk. unfold drv_call.
  apply wp_act. destruct (nandflash_erase (drv s) addr len) as [rc f'] eqn:E. cbn [fst snd]. apply HQ.
  - intros a Ha. by eapply nm_erase_only.
  - intros -> ??? a Ha. by eapply nm_erase.
Qed.

Lemma flash_write_spec s to buf Q :
  kind s = NANDFLASH ->
  (forall rc f', (forall a, ~ to <= a < to + Z.of_nat (length buf) -> mem f' a = bytes_of s a) ->
     (rc = 0 -> 0 <= to -> to + Z.of_nat (length buf) <= size ->
        (forall a, to <= a < to + Z.of_nat (length buf) -> bytes_of s a = 255) ->
        forall a, to <= a < to + Z.of_nat (length buf) -> mem f' a = nth (Z.to_nat (a - to)) buf 255) ->
     Q rc (set_drv f' s)) ->
  wp (flash_write to buf) Q s.
Proof.
  intros Hk HQ. unfold flash_write. apply wp_bind, wp_gets. rewrite Hk. unfold drv_call.
  apply wp_act. destruct (nandflash_write (drv s) to buf) as [rc f'] eqn:E. cbn [fst snd]. apply HQ.
  - intros a Ha. by eapply nm_write_only.
  - intros -> ??? a Ha. by eapply nm_write.
Qed.

Lemma length_memset_z (v : Z) n : 0 <= n -> Z.of_nat (length (memset v n)) = n.
Proof. intros Hn. unfold memset. rewrite length_replicate. lia. Qed.

Lemma memcpy_at_ok dst off src :
  0 <= off -> off + Z.of_nat (length src) <= Z.of_nat (length dst) ->
  memcpy_at dst off src = Some (splice dst off src).
Proof.
  intros Ho Hl. unfold memcpy_at.
  by rewrite (proj2 (Z.leb_le 0 off)), (proj2 (Z.leb_le (off + _) _)) by done.
Qed.

Lemma nth_splice {A} (dst src : list A) off i (d : A) :
  0 <= off -> off + Z.of_nat (length src) <= Z.of_nat (length dst) ->
  nth i (splice dst off src) d =
    if (off <=? Z.of_nat i) && (Z.of_nat i <? off + Z.of_nat (length src))
    then nth (i - Z.to_nat off) src d else nth i dst d.
Proof.
  intros Ho Hl. unfold splice.
  destruct (Z.leb_spec off (Z.of_nat i)); cbn [andb].
  - rewrite app_nth2 by (rewrite length_take; lia). rewrite length_take, Nat.min_l by lia.
    destruct (Z.ltb_spec (Z.of_nat i) (off + Z.of_nat (length src))).
    + apply app_nth1. lia.
    + rewrite app_nth2 by lia. rewrite !nth_lookup, lookup_drop. do 2 f_equal. lia.
  - rewrite app_nth1 by (rewrite length_take; lia).
    rewrite !nth_lookup, lookup_take_lt by lia. done.
Qed.

Lemma nth_fmap_seqZ (f : Z -> Z) lo n i d :
  0 <= Z.of_nat i < n -> nth i (f <$> seqZ lo n) d = f (lo + Z.of_nat i).
Proof.
  intros Hi. rewrite nth_lookup, list_lookup_fmap, lookup_seqZ_lt by lia. done.
Qed.

Lemma nth_take {A} (l : list A) n i (d : A) : (i < n)%nat -> nth i (take n l) d = nth i l d.
Proof. intros Hi. by rewrite !nth_lookup, lookup_take_lt. Qed.

(** ** [flash_partial_write] *)

Definition partial_post s to buf (rc : Z) s' : Prop :=
  let start := to - to mod erase in
  (forall a, ~ start <= a < start + erase -> bytes_of s' a = bytes_of s a) /\
  (rc = 0 -> forall a, 0 <= a < size ->
     bytes_of s' a = if (to <=? a) && (a <? to + Z.of_nat (length buf))
                     then nth (Z.to_nat (a - to)) buf 255 else bytes_of s a).

(** The block [to] lies in. *)
Lemma block_of_addr to :
  0 < erase -> size mod erase = 0 -> 0 <= to < size ->
  (to - to mod erase) mod erase = 0 /\ 0 <= to - to mod erase /\
  to - to mod erase + erase <= size /\ 0 <= to mod erase < erase.
Proof.
  intros He Hs Hto. pose proof (Z.mod_pos_bound to erase ltac:(lia)) as Hmod.
  pose proof (Z.div_mod to erase ltac:(lia)) as Hdm.
  pose proof (Z.div_mod size erase ltac:(lia)) as Hdm2.
  assert (0 <= to / erase) by (apply Z.div_pos; lia).
  assert (to / erase < size / erase) by (apply Z.div_lt_upper_bound; lia).
  split_and!; [|nia|nia|lia|lia].
  replace (to - to mod erase) with ((to / erase) * erase) by lia. apply Z.mod_mul. lia.
Qed.

(** The contents of a block, patched with [buf] in the static buffer [blk]. *)
Lemma patched_block_nth (m : Z -> Z) start off (buf blk : list Z) a :
  0 <= off -> off + Z.of_nat (length buf) <= erase -> erase <= Z.of_nat (length blk) ->
  start <= a < start + erase ->
  nth (Z.to_nat (a - start))
    (take (Z.to_nat erase) (splice (splice blk 0 (m <$> seqZ start erase)) off buf)) 255
  = if (start + off <=? a) && (a <? start + off + Z.of_nat (length buf))
    then nth (Z.to_nat (a - (start + off))) buf 255 else m a.
Proof.
  intros Ho Hfit Hblk Ha. set (bs := m <$> seqZ start erase).
  assert (Z.of_nat (length bs) = erase) as Hbs by (unfold bs; rewrite length_fmap, length_seqZ; lia).
  assert (length (splice blk 0 bs) = length blk) as Hl by (apply splice_length; lia).
  rewrite nth_take, nth_splice, Z2Nat.id by lia.
  replace (start + off <=? a) with (off <=? a - start)
    by (destruct (Z.leb_spec off (a - start)), (Z.leb_spec (start + off) a); lia).
  replace (a <? start + off + Z.of_nat (length buf)) with (a - start <? off + Z.of_nat (length buf))
    by (destruct (Z.ltb_spec (a - start) (off + Z.of_nat (length buf))),
                 (Z.ltb_spec a (start + off + Z.of_nat (length buf))); lia).
  destruct (_ && _) eqn:E.
  - apply andb_true_iff in E as [E _]. apply Z.leb_le in E. f_equal. lia.
  - rewrite nth_splice by lia. rewrite (proj2 (Z.leb_le _ _)), (proj2 (Z.ltb_lt _ _)) by lia.
    cbn [andb]. unfold bs. rewrite nth_fmap_seqZ by lia. f_equal. lia.
Qed.

Lemma partial_write_spec s to buf :
  nand_ok s -> 0 <= to < size -> to mod erase + Z.of_nat (length buf) <= erase ->
  wp (flash_partial_write to buf) (partial_post s to buf) s.
Proof.
  intros [Hk Hsh He [Hs1 Hs2]] Hto Hfit. unfold flash_partial_write, partial_post.
  destruct (block_of_addr to) as (Halign & Hst1 & Hst2 & Hmod); [lia|done|done|].
  set (off := to mod erase) in *. set (start := to - off) in *.
  apply wp_bind, wp_gets. rewrite Hk. rewrite Hsh. fold off start.
  assert (u32 (off + Z.of_nat (length buf)) = off + Z.of_nat (length buf)) as ->.
  { apply Z.mod_small. unfold _SPI_NAND_BLOCK_SIZE_512KBYTE in *. lia. }
  rewrite (proj2 (Z.ltb_ge _ _)) by lia.
  apply wp_bind, wp_modify, wp_bind. set (s1 := set_block_buf _ s).
  assert (Z.of_nat (length (block_buf s1)) = _SPI_NAND_BLOCK_SIZE_512KBYTE) as Hbl.
  { apply length_memset_z. done. }
  assert (kind s1 = NANDFLASH) as Hk1 by done.
  assert (forall a, bytes_of s a = bytes_of s1 a) as Hsame by done. clearbody s1.
  apply flash_read_spec; [done|]. intros rc bs Hl Hbs. cbn [fst snd].
  apply wp_bind, wp_gets, wp_bind. eapply wp_checked; [apply memcpy_at_ok; lia|].
  apply wp_bind, wp_modify. pose proof (splice_length (block_buf s1) bs 0 ltac:(lia) ltac:(lia)) as Hbb.
  destruct (Z.eqb_spec rc 0) as [->|]; cbn [negb].
  2: { apply wp_ret. split; [|lia]. intros a _. by rewrite Hsame. }
  specialize (Hbs eq_refl Hst1 ltac:(lia) Hst2). clear Hl.
  apply wp_bind, flash_erase_spec; [done|apply Z_mod_same_full|]. intros erc f1 Hout1 Her.
  destruct (Z.eqb_spec erc 0) as [->|]; cbn [negb].
  2: { apply wp_ret. split; [|lia]. intros a Ha. rewrite Hsame. by apply Hout1. }
  specialize (Her eq_refl Hst1 Hst2 Halign).
  apply wp_bind, wp_gets, wp_bind. simpl block_buf.
  eapply wp_checked; [apply memcpy_at_ok; lia|].
  apply wp_bind, wp_modify, wp_bind. set (bb2 := splice (splice _ 0 bs) off buf).
  assert (length bb2 = length (block_buf s1)) as Hbb2 by (unfold bb2; rewrite splice_length; lia).
  eapply wp_checked.
  { unfold mem_slice. rewrite (proj2 (Z.leb_le 0 erase)), (proj2 (Z.leb_le (0 + _) _)) by lia. done. }
  rewrite drop_0. assert (Z.of_nat (length (take (Z.to_nat erase) bb2)) = erase) as Hdat
    by (rewrite length_take; lia).
  apply wp_bind, flash_write_spec; [done|]. intros wrc f2 Hout2 Hw. rewrite Hdat in *.
  apply wp_ret. unfold bytes_of in *. simpl in *.
  assert (forall a, ~ start <= a < start + erase -> mem f2 a = mem (drv s) a) as Hout.
  { intros a Ha. by rewrite Hsame, Hout2, Hout1. }
  split; [done|]. intros Hrc a Ha. destruct (Z.eqb_spec wrc 0) as [->|]; [|done].
  specialize (Hw eq_refl Hst1 Hst2 Her). replace to with (start + off) by (unfold start; lia).
  destruct (decide (start <= a < start + erase)) as [Hin|Hnin].
  - rewrite Hw by done. unfold bb2. rewrite Hbs. rewrite patched_block_nth by lia. by rewrite Hsame.
  - rewrite Hout by done. destruct (Z.leb_spec (start + off) a); [|done].
    rewrite (proj2 (Z.ltb_ge _ _)) by lia. done.
Qed.

(** ** [flash_erase_non_block] *)

Definition erased_post s addr sz (rc : Z) s' : Prop :=
  rc = 0 -> forall a, 0 <= a < size ->
    bytes_of s' a = if (addr <=? a) && (a <? addr + sz) then 255 else bytes_of s a.

Lemma erase_aligned_spec s addr sz Q :
  nand_ok s -> 0 <= addr -> 0 < sz -> addr + sz <= size ->
  addr mod erase = 0 -> (addr + sz) mod erase = 0 ->
  (forall rc s', erased_post s addr sz rc s' -> Q rc s') ->
  wp (flash_erase_non_block addr sz) Q s.
Proof.
  intros [Hk Hsh He [Hs1 Hs2]] Ha Hsz Hfit Hal Hal2 HQ. unfold flash_erase_non_block.
  apply wp_bind, wp_gets. rewrite Hk, Hsh, Hal. cbn [Z.eqb negb].
  assert (u32 (addr + sz) = addr + sz) as -> by (apply Z.mod_small; lia).
  rewrite Hal2. cbn [Z.eqb negb].
  apply wp_bind, wp_ret. cbn [fst Z.eqb negb]. apply wp_bind, wp_ret. cbn [fst Z.eqb negb andb].
  assert (sz mod erase = 0) as Hsm.
  { rewrite Z.add_mod, Hal, Z.add_0_l, Z.mod_mod in Hal2 by lia. done. }
  apply flash_erase_spec; [done|done|]. intros rc f' Hout Her. apply HQ.
  intros -> a Hin. unfold bytes_of at 1. simpl.
  destruct (Z.leb_spec addr a), (Z.ltb_spec a (addr + sz)); cbn [andb];
    [apply Her; (done || lia)|apply Hout; lia..].
Qed.

(** ** An unaligned erase: which bytes are saved and written back *)

Definition tail_of (addr sz : Z) : Z :=
  if negb ((addr + sz) mod erase =? 0) then erase - (addr + sz) mod erase else 0.

(** The erased range [addr - head, addr + sz + tail): whole blocks. *)
Lemma erase_range addr sz :
  0 < erase -> size mod erase = 0 -> 0 <= addr -> 0 < sz -> addr + sz <= size ->
  let head := addr mod erase in let start := addr - head in let tail := tail_of addr sz in
  0 <= head < erase /\ 0 <= start /\ start mod erase = 0 /\ (sz + head + tail) mod erase = 0 /\
  start + (sz + head + tail) <= size /\ 0 <= tail < erase.
Proof.
  intros He Hs Ha Hsz Hfit head start tail.
  destruct (block_of_addr addr) as (Hst & Hst0 & _ & Hmod); [done|done|lia|].
  pose proof (Z.mod_pos_bound (addr + sz) erase ltac:(lia)) as Hmod2.
  pose proof (Z.div_mod (addr + sz) erase ltac:(lia)) as Hdm2.
  pose proof (Z.div_mod addr erase ltac:(lia)) as Hdm.
  pose proof (Z.div_mod size erase ltac:(lia)) as Hdm3.
  assert (exists q, addr + sz + tail = q * erase /\ q * erase <= size /\ 0 <= tail < erase)
    as (q & Hq & Hqs & Htail).
  { unfold tail, tail_of. destruct (Z.eqb_spec ((addr + sz) mod erase) 0); cbn [negb].
    - exists ((addr + sz) / erase). split_and!; lia.
    - exists ((addr + sz) / erase + 1). split_and!; [lia| |lia|lia].
      assert ((addr + sz) / erase < size / erase); [|nia].
      assert (addr + sz <> size) by congruence. apply Z.div_lt_upper_bound; lia. }
  unfold start, head in *. split_and!; [lia|lia|done|done| |lia|lia|lia].
  replace (sz + addr mod erase + tail) with ((q - addr / erase) * erase) by nia.
  apply Z.mod_mul. lia.
Qed.

(** Reading the bytes behind the range, when there are some. *)
Lemma read_tail_spec s addr sz :
  kind s = NANDFLASH -> 0 <= addr -> 0 < sz -> 0 <= tail_of addr sz ->
  addr + sz + tail_of addr sz <= size ->
  wp (if negb ((addr + sz) mod erase =? 0)
      then flash_read (if negb ((addr + sz) mod erase =? 0) then addr + sz else 0) (tail_of addr sz)
      else ret (0, []))
     (fun r s' => s' = s /\ (r.1 = 0 -> r.2 = bytes_of s <$> seqZ (addr + sz) (tail_of addr sz))) s.
Proof.
  unfold tail_of. intros Hk Ha Hsz Ht Hfit.
  destruct (Z.eqb_spec ((addr + sz) mod erase) 0); cbn [negb] in *.
  - by apply wp_ret.
  - apply flash_read_spec; [done|]. intros rc bs Hl Hb. split; [done|]. cbn [fst snd].
    intros ->. apply Hb; [done|lia..].
Qed.

(** The flash once the bytes in front of the range have been written back. *)
Definition head_restored s addr len (f2 : F) : Prop :=
  forall a, 0 <= a < size ->
    mem f2 a = if (addr <=? a) && (a <? addr + len) then 255 else bytes_of s a.

Lemma restore_head s addr head len (f1 f2 : F) hb :
  0 <= head -> 0 < len -> hb = bytes_of s <$> seqZ (addr - head) head ->
  (forall a, ~ addr - head <= a < addr - head + (len + head) -> mem f1 a = bytes_of s a) ->
  (forall a, addr - head <= a < addr - head + (len + head) -> mem f1 a = 255) ->
  (forall a, ~ addr - head <= a < addr - head + head -> mem f2 a = mem f1 a) ->
  (forall a, addr - head <= a < addr - head + head ->
     mem f2 a = nth (Z.to_nat (a - (addr - head))) hb 255) ->
  head_restored s addr len f2.
Proof.
  intros Hh Hl -> Hout1 Her Hout2 Hw a Ha.
  destruct (Z.leb_spec addr a), (Z.ltb_spec a (addr + len)); cbn [andb].
  - rewrite Hout2 by lia. apply Her. lia.
  - rewrite Hout2 by lia. apply Hout1. lia.
  - destruct (decide (addr - head <= a)).
    + rewrite Hw, nth_fmap_seqZ by lia. f_equal. lia.
    + rewrite Hout2 by lia. apply Hout1. lia.
  - lia.
Qed.

(** Writing the bytes behind the range back. *)
Lemma restore_tail_spec s s2 addr sz tail endp tb Q :
  kind s2 = NANDFLASH -> 0 <= addr -> 0 < sz -> 0 <= tail -> addr + sz + tail <= size ->
  tb = bytes_of s <$> seqZ (addr + sz) tail -> head_restored s addr (sz + tail) (drv s2) ->
  (tail <> 0 -> endp = addr + sz) ->
  (forall rc s', erased_post s addr sz rc s' -> Q rc s') ->
  wp (let! wrc := (if negb (tail =? 0) then flash_write endp tb else ret 0) in
      ret (if negb (wrc =? 0) then -1 else 0)) Q s2.
Proof.
  intros Hk Ha Hsz Ht Hfit -> Hf2 He HQ. apply wp_bind.
  destruct (Z.eqb_spec tail 0) as [->|Ht0]; cbn [negb].
  { apply wp_ret, wp_ret, HQ. intros _ a Hin. unfold bytes_of at 1.
    rewrite Hf2 by done. by rewrite Z.add_0_r. }
  rewrite He by done.
  assert (Z.of_nat (length (bytes_of s <$> seqZ (addr + sz) tail)) = tail) as Hlen
    by (rewrite length_fmap, length_seqZ; lia).
  apply flash_write_spec; [done|]. intros wrc f3 Hout3 Hw3. rewrite Hlen in *.
  apply wp_ret, HQ. intros Hz a Hin. destruct (Z.eqb_spec wrc 0) as [->|]; [|done].
  unfold bytes_of in Hout3, Hw3 |- * at 1. simpl in *.
  destruct (decide (addr + sz <= a < addr + sz + tail)) as [Hin3|Hnin3].
  - rewrite (proj2 (Z.leb_le _ _)), (proj2 (Z.ltb_ge _ _)) by lia. cbn [andb].
    rewrite Hw3; [|done|lia|lia| |done].
    + rewrite nth_fmap_seqZ by lia. unfold bytes_of. f_equal. lia.
    + intros a' Ha'. rewrite Hf2 by lia.
      by rewrite (proj2 (Z.leb_le _ _)), (proj2 (Z.ltb_lt _ _)) by lia.
  - rewrite Hout3, Hf2 by done.
    destruct (Z.leb_spec addr a), (Z.ltb_spec a (addr + (sz + tail))), (Z.ltb_spec a (addr + sz));
      cbn [andb]; (done || lia).
Qed.

(** The address lies inside a block. *)
Lemma erase_unaligned_spec s addr sz Q :
  nand_ok s -> 0 <= addr -> 0 < sz -> addr + sz <= size -> addr mod erase <> 0 ->
  (forall rc s', erased_post s addr sz rc s' -> Q rc s') ->
  wp (flash_erase_non_block addr sz) Q s.
Proof.
  intros [Hk Hsh He [Hs1 Hs2]] Ha Hsz Hfit Hal HQ. unfold flash_erase_non_block.
  destruct (erase_range addr sz) as (Hmod & Hst0 & Hst & Htm & Hqs & Htail); [lia|done..|].
  apply wp_bind, wp_gets. rewrite Hk, Hsh. rewrite (proj2 (Z.eqb_neq _ _) Hal). cbn [negb].
  set (head := addr mod erase) in *. set (tail := tail_of addr sz) in *.
  assert (u32 (addr + sz) = addr + sz) as -> by (apply Z.mod_small; lia).
  apply wp_bind, flash_read_spec; [done|]. intros rc hb Hhl Hhb. cbn [fst snd].
  destruct (Z.eqb_spec rc 0) as [->|]; cbn [negb]; [|by apply wp_ret, HQ].
  specialize (Hhb eq_refl Hst0 ltac:(lia) ltac:(lia)).
  apply wp_bind. fold (tail_of addr sz). eapply wp_mono.
  { apply (read_tail_spec s addr sz); [done|done|done|fold tail; lia..]. }
  intros [rc tb] s' [-> Htb]. cbn [fst snd] in *. fold tail in Htb |- *.
  destruct (Z.eqb_spec rc 0) as [->|]; cbn [negb]; [|by apply wp_ret, HQ].
  specialize (Htb eq_refl).
  rewrite (proj2 (Z.eqb_neq head 0)) by done. cbn [andb negb].
  assert (u32 (sz + head + tail) = sz + head + tail) as -> by (apply Z.mod_small; lia).
  apply wp_bind, flash_erase_spec; [done|done|]. intros erc f1 Hout1 Her.
  destruct (Z.eqb_spec erc 0) as [->|]; cbn [negb]; [|by apply wp_ret, HQ].
  specialize (Her eq_refl Hst0 ltac:(lia) Hst).
  assert (Z.of_nat (length hb) = head) as Hhlen by (rewrite Hhb, length_fmap, length_seqZ; lia).
  apply wp_bind, flash_write_spec; [done|]. intros wrc f2 Hout2 Hw2. rewrite Hhlen in *.
  destruct (Z.eqb_spec wrc 0) as [->|]; cbn [negb]; [|by apply wp_ret, HQ].
  unfold bytes_of in Hout2, Hw2. simpl in Hout2, Hw2.
  specialize (Hw2 eq_refl ltac:(lia) ltac:(lia) ltac:(intros a Hin; apply Her; lia)).
  assert (head_restored s addr (sz + tail) f2) as Hf2.
  { replace (sz + head + tail) with (sz + tail + head) in * by lia.
    by apply (restore_head s addr head (sz + tail) f1 f2 hb); [lia|lia|..]. }
  apply (restore_tail_spec s (set_drv f2 (set_drv f1 s)) addr sz tail _ tb); [done|done|done|lia|lia|done|exact Hf2| |done].
  unfold tail, tail_of. by destruct (_ =? 0).
Qed.
End nand.
