(* ===== verification/FlashProps.v ===== *)
(** Properties of the flash abstraction layer, with witnesses on a flash that
    is a function from addresses to bytes. *)

From stdpp Require Import base numbers list option gmap.
From Stdlib Require Import ZArith Lia.
From S2P Require Import Prelude FlashHal FlashRmw.

Module SimFlash.
Definition sim : Type := Z -> Z.

Definition inside (a lo n : Z) : bool := (lo <=? a) && (a <? lo + n).

Definition sim_erase (f : sim) (addr len : Z) : Z * sim :=
  (0, fun a => if inside a addr len then 255 else f a).
Definition sim_write (f : sim) (to : Z) (buf : list Z) : Z * sim :=
  (0, fun a => if inside a to (Z.of_nat (length buf)) then nth (Z.to_nat (a - to)) buf 255 else f a).
Definition sim_read (f : sim) (from len : Z) : Z * list Z := (0, f <$> seqZ from len).

#[export] Instance sim_drv : FlashDrv sim := {|
  nandflash_erase := sim_erase; nandflash_read := sim_read; nandflash_write := sim_write;
  spiflash_erase := sim_erase; spiflash_read := sim_read; spiflash_write := sim_write;
  mmc_block_read f b := sim_read f (b * 512) 512;
  mmc_block_write f b n buf := let '(_, f') := sim_write f (b * 512) buf in (n, f');
  mmc_block_erase f b n := let '(_, f') := sim_erase f (b * 512) (n * 512) in (n, f')
|}.

Lemma inside_spec a lo n : inside a lo n = true <-> lo <= a < lo + n.
Proof. unfold inside. lia. Qed.

#[export] Program Instance sim_mem erase size : NandMem sim erase size := {| mem f := f |}.
Next Obligation. intros. simpl. rewrite length_fmap, length_seqZ. lia. Qed.
Next Obligation. intros erase size f from len bs _ _ _. simpl. unfold sim_read. by intros [= <-]. Qed.
Next Obligation.
  intros erase size f addr len rc f' a _. simpl. unfold sim_erase. intros [= _ <-] Hn.
  destruct (inside a addr len) eqn:E; [|done]. by apply inside_spec in E.
Qed.
Next Obligation.
  intros erase size f addr len f' a _ _ _ _. simpl. unfold sim_erase. intros [= <-] Hin.
  by rewrite (proj2 (inside_spec _ _ _) Hin).
Qed.
Next Obligation.
  intros erase size f to buf rc f' a. simpl. unfold sim_write. intros [= _ <-] Hn.
  destruct (inside _ _ _) eqn:E; [|done]. by apply inside_spec in E.
Qed.
Next Obligation.
  intros erase size f to buf f' a _ _ _. simpl. unfold sim_write. intros [= <-] Hin.
  by rewrite (proj2 (inside_spec _ _ _) Hin).
Qed.

(** Byte [a] of the flash holds [a mod 256]. *)
Definition ramp : sim := fun a => a mod 256.

Definition on (k : flash_kind) : hal sim :=
  Hal k ramp 512 6 0 64 (memset 0 _SPI_NAND_BLOCK_SIZE_512KBYTE) 0 [].

Lemma nand_on : nand_ok (erase:=64) (size:=512) (on NANDFLASH).
Proof. split; [done|done|vm_compute; intuition discriminate|done]. Qed.

Lemma emmc_on : emmc_ok (on EMMC) ramp.
Proof.
  split; [vm_compute; intuition discriminate| |done].
  by apply length_memset_z.
Qed.
End SimFlash.

Section properties.
Context {F : Type} {HF : FlashDrv F}.
Implicit Type s : hal F.

(** On eMMC [flash_read] delivers exactly the bytes [from .. from + len)
    of the card for any alignment, through a one-block buffer, and never
    reads or copies outside that buffer. *)
Theorem emmc_flash_read_slice s content from len :
  kind s = EMMC -> emmc_ok s content -> 0 <= from -> 0 <= len -> from + len < 2 ^ 32 ->
  exists s', flash_read from len s = Done ((0, content <$> seqZ from len), s') /\ drv s' = drv s.
Proof.
  intros Hk Hok Hf Hl Hw. unfold flash_read. erewrite (bind_run (gets kind)) by reflexivity.
  rewrite Hk. by apply emmc_read_eq.
Qed.

Context {erase size : Z} {HM : NandMem F erase size}.

(** C36: [flash_partial_write] on NAND always completes; when it answers 0 the
    flash holds the new bytes at [to] and every other byte of the chip is
    unchanged, and whatever it answers nothing outside the erase block that
    contains [to] has changed. *)
Theorem flash_partial_write_correct s to buf :
  nand_ok (erase:=erase) (size:=size) s -> 0 <= to < size ->
  to mod erase + Z.of_nat (length buf) <= erase ->
  exists rc s', flash_partial_write to buf s = Done (rc, s') /\
    partial_post (erase:=erase) (size:=size) s to buf rc s'.
Proof. intros. apply wp_done. by apply partial_write_spec. Qed.

(** A write that does not fit the erase block is refused and nothing
    changes. *)
Theorem flash_partial_write_refuses s to buf :
  nand_ok (erase:=erase) (size:=size) s -> 0 <= to < size ->
  erase < to mod erase + Z.of_nat (length buf) < 2 ^ 32 ->
  flash_partial_write to buf s = Done (-1, s).
Proof.
  intros [Hk Hsh He _] Hto Hb. unfold flash_partial_write.
  erewrite (bind_run (gets _)) by reflexivity. rewrite Hk, Hsh.
  pose proof (Z.mod_pos_bound to erase ltac:(lia)).
  unfold u32. rewrite Z.mod_small by lia. by rewrite (proj2 (Z.ltb_lt _ _)) by lia.
Qed.

Lemma erase_non_block_spec s addr sz :
  nand_ok (erase:=erase) (size:=size) s -> 0 <= addr -> 0 < sz -> addr + sz <= size ->
  addr mod erase <> 0 \/ (addr + sz) mod erase = 0 ->
  wp (flash_erase_non_block addr sz) (erased_post (size:=size) s addr sz) s.
Proof.
  intros Hok Ha Hs Hf Hcase.
  destruct (decide (addr mod erase = 0)) as [E|E].
  - destruct Hcase as [|Hal]; [done|]. by eapply erase_aligned_spec.
  - by eapply erase_unaligned_spec.
Qed.

(** When the range is aligned, or starts inside an erase block,
    [flash_erase_non_block] completes, and when it answers 0 exactly the
    bytes of the range have become 0xFF: the rest of the first and of the
    last block is back in place. *)
Theorem flash_erase_non_block_correct s addr sz :
  nand_ok (erase:=erase) (size:=size) s -> 0 <= addr -> 0 < sz -> addr + sz <= size ->
  addr mod erase <> 0 \/ (addr + sz) mod erase = 0 ->
  exists rc s', flash_erase_non_block addr sz s = Done (rc, s') /\
    erased_post (size:=size) s addr sz rc s'.
Proof. intros. apply wp_done. by apply erase_non_block_spec. Qed.

(** When the range starts on an erase block and ends inside one, the
    variable [start] keeps its initial 0: a call that answers 0 has erased
    the beginning of the flash and left the first byte of the range as it
    was. *)
Theorem flash_erase_non_block_erases_block_0 s addr sz rc s' :
  nand_ok (erase:=erase) (size:=size) s -> 0 < sz -> addr + sz <= size ->
  addr mod erase = 0 -> (addr + sz) mod erase <> 0 ->
  sz + (erase - (addr + sz) mod erase) <= addr ->
  flash_erase_non_block addr sz s = Done (rc, s') -> rc = 0 ->
  bytes_of (HM:=HM) s' 0 = 255 /\ bytes_of (HM:=HM) s' addr = bytes_of (HM:=HM) s addr.
Proof.
  intros [Hk Hsh He [Hs1 Hs2]] Hs Hf Hal Hal2 Hfar Hrun ->.
  refine (done_wp _ (fun r s1 => r = 0 -> bytes_of (HM:=HM) s1 0 = 255 /\
    bytes_of (HM:=HM) s1 addr = bytes_of (HM:=HM) s addr) s 0 s' Hrun _ eq_refl). clear Hrun s'.
  pose proof (Z.mod_pos_bound (addr + sz) erase ltac:(lia)) as Hmod.
  unfold flash_erase_non_block. apply wp_bind, wp_gets. rewrite Hk, Hsh, Hal. cbn [Z.eqb negb].
  assert (u32 (addr + sz) = addr + sz) as -> by (apply Z.mod_small; lia).
  rewrite (proj2 (Z.eqb_neq _ _) Hal2). cbn [negb].
  set (tail := erase - (addr + sz) mod erase) in *.
  apply wp_bind, wp_ret. cbn [fst Z.eqb negb]. apply wp_bind.
  eapply (flash_read_spec (erase:=erase) (size:=size)); [done|]. intros rc tb Hl Htb. cbn [fst snd].
  destruct (Z.eqb_spec rc 0) as [->|]; cbn [negb]; [|by apply wp_ret].
  cbn [andb Z.eqb]. rewrite (proj2 (Z.eqb_neq tail 0)) by lia. cbn [negb].
  rewrite Z.add_0_r.
  assert (u32 (sz + tail) = sz + tail) as -> by (apply Z.mod_small; lia).
  assert ((sz + tail) mod erase = 0) as Htm.
  { assert ((addr + sz) mod erase = sz mod erase) as Hsm.
    { rewrite Z.add_mod, Hal, Z.add_0_l, Z.mod_mod by lia. done. }
    unfold tail. rewrite Hsm. pose proof (Z.div_mod sz erase ltac:(lia)).
    replace (sz + (erase - sz mod erase)) with ((sz / erase + 1) * erase) by lia.
    apply Z.mod_mul. lia. }
  apply wp_bind. eapply (flash_erase_spec (erase:=erase) (size:=size)); [done|done|].
  intros erc f1 Hout1 Her. destruct (Z.eqb_spec erc 0) as [->|]; cbn [negb]; [|by apply wp_ret].
  specialize (Her eq_refl ltac:(lia) ltac:(lia) ltac:(apply Z.mod_0_l; lia)).
  apply wp_bind, wp_ret. cbn [Z.eqb negb]. apply wp_bind.
  eapply (flash_write_spec (erase:=erase) (size:=size)); [done|]. intros wrc f2 Hout2 _.
  apply wp_ret. intros _. unfold bytes_of in *. simpl in *. split.
  - rewrite Hout2 by lia. apply Her. lia.
  - rewrite Hout2 by lia. apply Hout1. lia.
Qed.
End properties.

Module FlashWitnesses.
Import SimFlash.

Lemma emmc_flash_read_slice_witness :
  exists s', flash_read 700 2000 (on EMMC) = Done ((0, ramp <$> seqZ 700 2000), s') /\
    drv s' = ramp.
Proof. apply (emmc_flash_read_slice (on EMMC) ramp); [done|exact emmc_on|lia..]. Defined.

Lemma flash_partial_write_correct_witness :
  exists rc s', flash_partial_write 100 [1; 2; 3] (on NANDFLASH) = Done (rc, s') /\
    partial_post (erase:=64) (size:=512) (on NANDFLASH) 100 [1; 2; 3] rc s'.
Proof.
  apply flash_partial_write_correct; [exact nand_on|lia|vm_compute; discriminate].
Defined.

Lemma flash_partial_write_refuses_witness :
  flash_partial_write 127 [1; 2; 3] (on NANDFLASH) = Done (-1, on NANDFLASH).
Proof.
  apply (flash_partial_write_refuses (erase:=64) (size:=512)); [exact nand_on|lia|].
  change (64 < 66 < 2 ^ 32). lia.
Defined.

Lemma flash_erase_non_block_correct_witness :
  exists rc s', flash_erase_non_block 100 200 (on NANDFLASH) = Done (rc, s') /\
    erased_post (size:=512) (HM:=sim_mem 64 512) (on NANDFLASH) 100 200 rc s'.
Proof.
  apply (flash_erase_non_block_correct (erase:=64)); [exact nand_on|lia|lia|lia|left].
  vm_compute. discriminate.
Defined.

Lemma flash_erase_non_block_erases_block_0_witness :
  exists s', flash_erase_non_block 128 10 (on NANDFLASH) = Done (0, s') /\
    bytes_of (HM:=sim_mem 64 512) s' 0 = 255 /\
    bytes_of (HM:=sim_mem 64 512) s' 128 = bytes_of (HM:=sim_mem 64 512) (on NANDFLASH) 128.
Proof.
  destruct (flash_erase_non_block 128 10 (on NANDFLASH)) as [[rc s']| |] eqn:E;
    [|discriminate E..].
  assert (rc = 0) as -> by (injection E as <- _; reflexivity).
  exists s'. split; [reflexivity|].
  apply (flash_erase_non_block_erases_block_0 (erase:=64) (size:=512) (on NANDFLASH) 128 10 0 s');
    [exact nand_on|lia|lia|reflexivity|vm_compute; discriminate|vm_compute; discriminate|
     exact E|reflexivity].
Defined.
End FlashWitnesses.
