(* ===== verification/Fip.v ===== *)
(** Firmware image packages and their verification
    ([drivers/misc/ecnt/image/fiptool.c], [ecnt_verify.c]).

    [parse_fip] finds the table-of-contents entry of the image; the verify
    functions hand a digest or a size to the secure monitor.  The monitor, the
    hash functions (library code) and the environment are parameters:
    [SecureMonitor].  RAM is a function from addresses to bytes; the load
    buffer is taken not to reach the end of the address space. *)

From stdpp Require Import base numbers list option strings gmap.
From Stdlib Require Import ZArith Lia.
From S2P Require Import Prelude FlashHal.

Definition MV_DATA_OFFSET : Z := 0x800.
Definition BOOT_FIP_MAX_SIZE : Z := 0x1F800.
Definition FIP_MAX_HEADER_SIZE : Z := 0x2000.
Definition TOC_HEADER_NAME : Z := 0xAA640001.
Definition SIP_VERIFY_BL2 : Z := 0x82000201.
Definition SIP_VERIFY_BL33 : Z := 0x82000205.
Definition HASH_MODE_MASK : Z := 1.
Definition ENCRYPTED_FW : Z := 1.
Definition ENCRYPTED_OUTER_HEADER : Z := 2.
Definition CONFIG_RAMFS_BASE : Z := 0x8B000000.
Definition sizeof_toc_header : Z := 16.
Definition sizeof_toc_entry : Z := 40.

(** [img_uuid]: BL33 first, BL2 second. *)
Definition img_uuid (tcboot : bool) : list Z :=
  if tcboot
  then [0x5f; 0xf9; 0xec; 0x0b; 0x4d; 0x22; 0x3e; 0x4d; 0xa5; 0x44; 0xc3; 0x9d; 0x81; 0xc7; 0x3f; 0x0a]
  else [0xd6; 0xd0; 0xee; 0xa7; 0xfc; 0xea; 0xd5; 0x4b; 0x97; 0x82; 0x99; 0x34; 0xf2; 0x34; 0xb6; 0xe4].

Definition img_smc (tcboot : bool) : Z := if tcboot then SIP_VERIFY_BL2 else SIP_VERIFY_BL33.

Definition ram_t : Type := Z -> Z.

Definition ram_bytes (r : ram_t) (a n : Z) : list Z := r <$> seqZ a n.
Definition ram_le (r : ram_t) (a n : Z) : Z := le_val (ram_bytes r a n).
Definition ram_store (r : ram_t) (a : Z) (bs : list Z) : ram_t :=
  fun x => if (a <=? x) && (x <? a + Z.of_nat (length bs)) then nth (Z.to_nat (x - a)) bs 0 else r x.

(** What [parse_fip] answers and stores through its pointers. *)
Record fip_result := Fip {
  fip_smc : Z;
  fip_buf : Z;
  fip_buf_size : Z;
  fip_off : Z;
  fip_size : Z;
  fip_flag : Z;
  fip_offset' : Z          (* the static [fip_offset] *)
}.

(** The walk over the entries. *)
Fixpoint toc_walk (fuel : nat) (r : ram_t) (tcboot : bool) (toc_entry bufend : Z) (f : fip_result)
    : outcome fip_result :=
  if negb (toc_entry + sizeof_toc_entry - 1 <? bufend) then
    Done (Fip 0 (fip_buf f) (fip_buf_size f) (fip_off f) (fip_size f) (fip_flag f) (fip_offset' f))
  else
  match fuel with
  | O => OutOfFuel
  | S fuel' =>
      if bool_decide (ram_bytes r toc_entry 16 = img_uuid tcboot) then
        let offset := u32 (ram_le r (toc_entry + 16) 8) in
        let size := u32 (ram_le r (toc_entry + 24) 8) in
        let flags := ram_le r (toc_entry + 32) 8 in
        Done (Fip (img_smc tcboot) (fip_buf f) (fip_buf_size f) offset size
                  (if negb (flags =? 0) then u32 flags else fip_flag f) offset)
      else toc_walk fuel' r tcboot (toc_entry + sizeof_toc_entry) bufend f
  end.

Definition parse_fip (fuel : nat) (r : ram_t) (buf buf_size offset size flag fip_offset : Z)
    : outcome fip_result :=
  let f := Fip 0 buf buf_size offset size flag fip_offset in
  if negb (ram_le r buf 4 =? TOC_HEADER_NAME) then
    let buf := buf + MV_DATA_OFFSET in
    let f := Fip 0 buf buf_size offset size flag fip_offset in
    if negb (ram_le r buf 4 =? TOC_HEADER_NAME) then Done f
    else toc_walk fuel r true (buf + sizeof_toc_header) (buf + BOOT_FIP_MAX_SIZE)
           (Fip 0 buf BOOT_FIP_MAX_SIZE offset size flag fip_offset)
  else toc_walk fuel r false (buf + sizeof_toc_header) (buf + buf_size) f.

(** ** Verification *)

(** First argument of a call to the secure monitor. *)
Inductive smc_arg := ArgDigest (d : list Z) | ArgSize (n : Z).

Class SecureMonitor := {
  do_smc : ram_t -> Z -> smc_arg -> Z -> Z -> Z * ram_t;
  get_sha_alg : Z;
  hash_func_ws : Z -> list Z -> list Z
}.

Record config := Cfg {
  arm_secure_boot : bool;   (* TCSUPPORT_ARM_SECURE_BOOT *)
  arm_multiboot : bool      (* TCSUPPORT_ARM_MULTIBOOT *)
}.

Record vst (F : Type) := Vst {
  v_hal : hal F;
  ram : ram_t;
  fip_offset : Z;
  env : gmap string string
}.
Arguments Vst {F}.
Arguments v_hal {F}.
Arguments ram {F}.
Arguments fip_offset {F}.
Arguments env {F}.

Section verify.
Context {F : Type} `{FlashDrv F} `{SecureMonitor}.
Implicit Type s : vst F.

Definition set_hal v s : vst F := Vst v (ram s) (fip_offset s) (env s).
Definition set_ram v s : vst F := Vst (v_hal s) v (fip_offset s) (env s).
Definition set_fip_offset v s : vst F := Vst (v_hal s) (ram s) v (env s).
Definition set_env v s : vst F := Vst (v_hal s) (ram s) (fip_offset s) v.
Definition set_image_mode (v : Z) s : vst F :=
  let h := v_hal s in
  set_hal (Hal (kind h) (drv h) (read_bl_len h) (erase_shift_nand h) (mtd_offset h)
               (mtd_erasesize h) (block_buf h) v (ramfs h)) s.

Definition lift_hal {A} (m : M (hal F) A) : M (vst F) A := fun s =>
  match m (v_hal s) with
  | Done (a, h) => Done (a, set_hal h s)
  | Undef => Undef
  | OutOfFuel => OutOfFuel
  end.

(** [flash_read(addr, len, &retlen, buf)] into RAM. *)
Definition flash_read_ram (addr len buf : Z) : M (vst F) Z :=
  let! r := lift_hal (flash_read addr len) in
  do! modify (fun s => set_ram (ram_store (ram s) buf (snd r)) s) in
  ret (fst r).

Definition run_parse_fip (fuel : nat) (buf buf_size offset size flag : Z) : M (vst F) fip_result :=
  fun s => match parse_fip fuel (ram s) buf buf_size offset size flag (fip_offset s) with
           | Done f => Done (f, set_fip_offset (fip_offset' f) s)
           | Undef => Undef
           | OutOfFuel => OutOfFuel
           end.

Definition smc_call (id : Z) (a : smc_arg) (r2 r3 : Z) : M (vst F) Z :=
  act (fun s => let '(rc, m) := do_smc (ram s) id a r2 r3 in (rc, set_ram m s)).

Definition filename : list string :=
  ["uboot_filename"%string; "kernel_filename"%string; "singleImage_filename"%string; ""%string; ""%string].

(** The index of the first variable whose value is [name]. *)
Fixpoint check_names (e : gmap string string) (name : string) (l : list string) (i : Z) : option Z :=
  match l with
  | [] => None
  | v :: l' =>
      match e !! v with
      | Some valid_name => if bool_decide (name = valid_name) then Some i else check_names e name l' (i + 1)
      | None => check_names e name l' (i + 1)
      end
  end.

Definition check_image_name (c : config) (e : gmap string string) : Z :=
  match e !! "filename"%string with
  | None => 0
  | Some name =>
      match check_names e name filename 0 with
      | None => 0
      | Some i => if arm_multiboot c then (if i =? 0 then 2 else 1) else 1
      end
  end.

Definition verify_img (buf buf_size sha_alg : Z) (f : fip_result) : M (vst F) Z :=
  let! m := gets ram in
  let arg := if fip_smc f =? SIP_VERIFY_BL2 then ArgSize (fip_size f)
             else ArgDigest (hash_func_ws sha_alg (ram_bytes m (u32 (buf + fip_off f)) (fip_size f))) in
  let buf_size := if buf_size =? FIP_MAX_HEADER_SIZE then fip_off f else buf_size in
  smc_call (fip_smc f) arg buf buf_size.

Definition decrypt_and_verify_img (buf : Z) (f : fip_result) : M (vst F) Z :=
  smc_call (Z.lor (fip_smc f) 0x10) (ArgSize (fip_size f)) buf CONFIG_RAMFS_BASE.

Definition upgrade_verify (c : config) (fuel : nat) (buf : Z) : M (vst F) Z :=
  if negb (arm_secure_boot c) then ret 0 else
  let! e := gets env in
  let verify := check_image_name c e in
  if negb (verify =? 0) then
    let buf := if arm_multiboot c && (verify =? 2) then buf + 32 else buf in
    let! f := run_parse_fip fuel buf FIP_MAX_HEADER_SIZE 0 0 0 in
    if fip_smc f =? SIP_VERIFY_BL2 then decrypt_and_verify_img (fip_buf f) f
    else if negb (fip_smc f =? 0) then
      let sha_alg := Z.land get_sha_alg HASH_MODE_MASK in
      let! r := verify_img (fip_buf f) (fip_buf_size f) sha_alg f in
      ret (if (r =? 0) && (fip_flag f =? ENCRYPTED_OUTER_HEADER) then ENCRYPTED_OUTER_HEADER else r)
    else ret (-1)
  else ret verify.

Definition read_flash_and_verify (c : config) (fuel : nat) (buf addr : Z) : M (vst F) Z :=
  if negb (arm_secure_boot c) then ret 0 else
  do! flash_read_ram addr FIP_MAX_HEADER_SIZE buf in
  let! f := run_parse_fip fuel buf FIP_MAX_HEADER_SIZE 0 0 0 in
  let! f :=
    (if fip_flag f =? ENCRYPTED_OUTER_HEADER then
       do! flash_read_ram (u32 (addr + FIP_MAX_HEADER_SIZE + 0x100)) (fip_buf_size f) (fip_buf f) in
       run_parse_fip fuel (fip_buf f) (fip_buf_size f) (fip_off f) (fip_size f) (fip_flag f)
     else ret f) in
  if negb (fip_smc f =? 0) then
    if fip_flag f =? ENCRYPTED_FW then
      do! flash_read_ram (u32 (addr + FIP_MAX_HEADER_SIZE + 0x100))
                    (u32 (fip_off f + fip_size f)) (fip_buf f) in
      do! modify (set_image_mode 1) in
      decrypt_and_verify_img (fip_buf f) f
    else
      do! flash_read_ram addr (u32 (fip_off f + fip_size f)) (fip_buf f) in
      let sha_alg := Z.land get_sha_alg HASH_MODE_MASK in
      verify_img (fip_buf f) (fip_buf_size f) sha_alg f
  else ret (-1).
End verify.

(** ** The walk over the table of contents *)

Section fip_props.
Implicit Type r : ram_t.

Definition entry_at (base i : Z) : Z := base + i * sizeof_toc_entry.

Definition matches r (tcboot : bool) (e : Z) : Prop := ram_bytes r e 16 = img_uuid tcboot.

(** Entry [i] of the table lies before [bufend]. *)
Definition entry_inside (base bufend i : Z) : Prop := entry_at base i + sizeof_toc_entry <= bufend.

Lemma toc_walk_spec fuel r tcboot base bufend f :
  bufend - base < Z.of_nat fuel * sizeof_toc_entry + sizeof_toc_entry ->
  exists f', toc_walk fuel r tcboot base bufend f = Done f' /\
    fip_buf f' = fip_buf f /\ fip_buf_size f' = fip_buf_size f /\
    ((exists i, 0 <= i /\ entry_inside base bufend i /\ matches r tcboot (entry_at base i) /\
        (forall j, 0 <= j < i -> ~ matches r tcboot (entry_at base j)) /\
        fip_smc f' = img_smc tcboot /\
        fip_off f' = u32 (ram_le r (entry_at base i + 16) 8) /\
        fip_size f' = u32 (ram_le r (entry_at base i + 24) 8) /\
        fip_offset' f' = fip_off f') \/
     (forall i, 0 <= i -> entry_inside base bufend i -> ~ matches r tcboot (entry_at base i)) /\
     f' = Fip 0 (fip_buf f) (fip_buf_size f) (fip_off f) (fip_size f) (fip_flag f) (fip_offset' f)).
Proof.
  revert base. induction fuel as [|fuel IH]; intros base Hf; cbn [toc_walk];
    unfold entry_inside, entry_at in *; unfold sizeof_toc_entry in *.
  - rewrite (proj2 (Z.ltb_ge _ _)) by lia. cbn [negb]. eexists. split_and!; [done..|].
    right. split; [|done]. intros i Hi Hin. lia.
  - destruct (Z.ltb_spec (base + 40 - 1) bufend) as [Hlt|Hge]; cbn [negb].
    2: { eexists. split_and!; [done..|]. right. split; [|done]. intros i Hi Hin. lia. }
    case_bool_decide as Hm.
    { eexists. split_and!; [done..|]. left. exists 0. rewrite Z.mul_0_l, Z.add_0_r.
      split_and!; [lia|lia|done|lia|done..]. }
    destruct (IH (base + 40)) as (f' & Hrun & Hb & Hbs & Hcase); [lia|].
    exists f'. split_and!; [done..|]. destruct Hcase as [(i & Hi & Hin & Hmi & Hmin & Hrest)|[Hnone ->]].
    + left. exists (i + 1). replace (base + (i + 1) * 40) with (base + 40 + i * 40) by lia.
      split_and!; [lia|done|done| |apply Hrest..].
      intros j Hj. destruct (decide (j = 0)) as [->|Hj0].
      * by rewrite Z.mul_0_l, Z.add_0_r.
      * replace (base + j * 40) with (base + 40 + (j - 1) * 40) by lia. apply Hmin. lia.
    + right. split; [|done]. intros i Hi Hin. destruct (decide (i = 0)) as [->|Hi0].
      * by rewrite Z.mul_0_l, Z.add_0_r.
      * replace (base + i * 40) with (base + 40 + (i - 1) * 40) by lia. apply Hnone; lia.
Qed.
End fip_props.

(** ** Properties *)

Section verify_props.
Context {F : Type} `{FlashDrv F} `{SecureMonitor}.
Implicit Type s : vst F.

(** The outcome of the walk over the table at [base]. *)
Definition walk_post (r : ram_t) (tcboot : bool) (base bufend : Z) (f f' : fip_result) : Prop :=
  (exists i, 0 <= i /\ entry_inside base bufend i /\ matches r tcboot (entry_at base i) /\
     (forall j, 0 <= j < i -> ~ matches r tcboot (entry_at base j)) /\
     fip_smc f' = img_smc tcboot /\
     fip_off f' = u32 (ram_le r (entry_at base i + 16) 8) /\
     fip_size f' = u32 (ram_le r (entry_at base i + 24) 8) /\
     fip_offset' f' = fip_off f') \/
  (forall i, 0 <= i -> entry_inside base bufend i -> ~ matches r tcboot (entry_at base i)) /\
  f' = Fip 0 (fip_buf f) (fip_buf_size f) (fip_off f) (fip_size f) (fip_flag f) (fip_offset' f).

Lemma parse_fip_spec fuel r buf buf_size off size flag fo :
  Z.max buf_size BOOT_FIP_MAX_SIZE <= Z.of_nat fuel * sizeof_toc_entry ->
  exists f', parse_fip fuel r buf buf_size off size flag fo = Done f' /\
    (if ram_le r buf 4 =? TOC_HEADER_NAME
     then fip_buf f' = buf /\ fip_buf_size f' = buf_size /\
          walk_post r false (buf + sizeof_toc_header) (buf + buf_size)
            (Fip 0 buf buf_size off size flag fo) f'
     else if ram_le r (buf + MV_DATA_OFFSET) 4 =? TOC_HEADER_NAME
     then fip_buf f' = buf + MV_DATA_OFFSET /\ fip_buf_size f' = BOOT_FIP_MAX_SIZE /\
          walk_post r true (buf + MV_DATA_OFFSET + sizeof_toc_header)
            (buf + MV_DATA_OFFSET + BOOT_FIP_MAX_SIZE)
            (Fip 0 (buf + MV_DATA_OFFSET) BOOT_FIP_MAX_SIZE off size flag fo) f'
     else f' = Fip 0 (buf + MV_DATA_OFFSET) buf_size off size flag fo).
Proof.
  intros Hf. unfold parse_fip, walk_post. unfold sizeof_toc_entry, sizeof_toc_header in *.
  destruct (ram_le r buf 4 =? TOC_HEADER_NAME); cbn [negb].
  - destruct (toc_walk_spec fuel r false (buf + 16) (buf + buf_size)
      (Fip 0 buf buf_size off size flag fo)) as (f' & Hrun & Hb & Hs & Hcase);
      [unfold sizeof_toc_entry; lia|]. by exists f'.
  - destruct (ram_le r (buf + MV_DATA_OFFSET) 4 =? TOC_HEADER_NAME); cbn [negb]; [|by eexists].
    destruct (toc_walk_spec fuel r true (buf + MV_DATA_OFFSET + 16)
      (buf + MV_DATA_OFFSET + BOOT_FIP_MAX_SIZE)
      (Fip 0 (buf + MV_DATA_OFFSET) BOOT_FIP_MAX_SIZE off size flag fo))
      as (f' & Hrun & Hb & Hs & Hcase); [unfold sizeof_toc_entry; lia|]. by exists f'.
Qed.

(** C23: [parse_fip] always completes.  With a package header at the start of
    the buffer (or, failing that, 0x800 bytes into it, for a BL2 image) it
    answers the monitor call of that kind of image with offset and size of
    the FIRST entry carrying its UUID that lies inside the buffer, and 0,
    with nothing stored, when there is no header or no such entry. *)
Theorem parse_fip_first_entry fuel r buf buf_size off size flag fo :
  Z.max buf_size BOOT_FIP_MAX_SIZE <= Z.of_nat fuel * sizeof_toc_entry ->
  exists f', parse_fip fuel r buf buf_size off size flag fo = Done f' /\
    (if ram_le r buf 4 =? TOC_HEADER_NAME
     then fip_buf f' = buf /\ fip_buf_size f' = buf_size /\
          walk_post r false (buf + sizeof_toc_header) (buf + buf_size)
            (Fip 0 buf buf_size off size flag fo) f'
     else if ram_le r (buf + MV_DATA_OFFSET) 4 =? TOC_HEADER_NAME
     then fip_buf f' = buf + MV_DATA_OFFSET /\ fip_buf_size f' = BOOT_FIP_MAX_SIZE /\
          walk_post r true (buf + MV_DATA_OFFSET + sizeof_toc_header)
            (buf + MV_DATA_OFFSET + BOOT_FIP_MAX_SIZE)
            (Fip 0 (buf + MV_DATA_OFFSET) BOOT_FIP_MAX_SIZE off size flag fo) f'
     else f' = Fip 0 (buf + MV_DATA_OFFSET) buf_size off size flag fo).
Proof. apply parse_fip_spec. Qed.

(** The call of the monitor for the image described by [f]: the digest of its
    bytes in RAM, or its size when the monitor reads the image itself; in [enc]
    the monitor decrypts the image, too. *)
Definition monitor_call (m : ram_t) (f : fip_result) (enc : bool) : Z * ram_t :=
  do_smc m (if enc then Z.lor (fip_smc f) 0x10 else fip_smc f)
    (if enc || (fip_smc f =? SIP_VERIFY_BL2) then ArgSize (fip_size f)
     else ArgDigest (hash_func_ws (Z.land get_sha_alg HASH_MODE_MASK)
            (ram_bytes m (u32 (fip_buf f + fip_off f)) (fip_size f))))
    (fip_buf f)
    (if enc then CONFIG_RAMFS_BASE
     else if fip_buf_size f =? FIP_MAX_HEADER_SIZE then fip_off f else fip_buf_size f).

Definition accepted (m : ram_t) (f : fip_result) (enc : bool) : Prop := (monitor_call m f enc).1 = 0.

Lemma verify_img_run f s :
  verify_img (fip_buf f) (fip_buf_size f) (Z.land get_sha_alg HASH_MODE_MASK) f s =
    Done ((monitor_call (ram s) f false).1, set_ram (monitor_call (ram s) f false).2 s).
Proof. unfold verify_img, monitor_call, smc_call, act, bind, gets. cbn [orb]. by destruct (do_smc _ _ _ _ _). Qed.

Lemma decrypt_img_run f s :
  decrypt_and_verify_img (fip_buf f) f s =
    Done ((monitor_call (ram s) f true).1, set_ram (monitor_call (ram s) f true).2 s).
Proof. unfold decrypt_and_verify_img, monitor_call, smc_call, act. cbn [orb]. by destruct (do_smc _ _ _ _ _). Qed.

(** The kind of image that is found. *)
Lemma toc_walk_smc fuel r tcboot e bufend f f' :
  toc_walk fuel r tcboot e bufend f = Done f' -> fip_smc f' = 0 \/ fip_smc f' = img_smc tcboot.
Proof.
  revert e. induction fuel as [|fuel IH]; intros e; cbn [toc_walk]; (destruct (negb _); [intros [= <-]; by left|]); [done|].
  case_bool_decide; [intros [= <-]; by right|apply IH].
Qed.

Lemma parse_fip_smc fuel r buf buf_size off size flag fo f :
  parse_fip fuel r buf buf_size off size flag fo = Done f -> fip_smc f <> 0 -> fip_smc f = SIP_VERIFY_BL2 \/ fip_smc f = SIP_VERIFY_BL33.
Proof.
  unfold parse_fip. destruct (negb _); [destruct (negb _); [by intros [= <-]|]|];
    intros [?|?]%toc_walk_smc Hn; [done|by left|done|by right].
Qed.

Lemma run_parse_fip_smc fuel buf buf_size off size flag s f s' :
  run_parse_fip fuel buf buf_size off size flag s = Done (f, s') -> fip_smc f <> 0 -> fip_smc f = SIP_VERIFY_BL2 \/ fip_smc f = SIP_VERIFY_BL33.
Proof. unfold run_parse_fip. destruct (parse_fip _ _ _ _ _ _ _ _) eqn:E; [|done..]. intros [= <- _]. by eapply parse_fip_smc. Qed.

(** Where the image is: the part of [read_flash_and_verify] that reads the
    header. *)
Definition locate (fuel : nat) (buf addr : Z) : M (vst F) fip_result :=
  do! flash_read_ram addr FIP_MAX_HEADER_SIZE buf in
  let! f := run_parse_fip fuel buf FIP_MAX_HEADER_SIZE 0 0 0 in
  if fip_flag f =? ENCRYPTED_OUTER_HEADER then
    do! flash_read_ram (u32 (addr + FIP_MAX_HEADER_SIZE + 0x100)) (fip_buf_size f) (fip_buf f) in
    run_parse_fip fuel (fip_buf f) (fip_buf_size f) (fip_off f) (fip_size f) (fip_flag f)
  else ret f.

(** The image that was located is read and handed to the monitor. *)
Lemma read_flash_inv c fuel buf addr s s' : arm_secure_boot c = true ->
  read_flash_and_verify c fuel buf addr s = Done (0, s') ->
  exists f s1 rc s2, locate fuel buf addr s = Done (f, s1) /\ fip_smc f <> 0 /\ (fip_smc f = SIP_VERIFY_BL2 \/ fip_smc f = SIP_VERIFY_BL33) /\
    if fip_flag f =? ENCRYPTED_FW
    then flash_read_ram (u32 (addr + FIP_MAX_HEADER_SIZE + 0x100)) (u32 (fip_off f + fip_size f)) (fip_buf f) s1 = Done (rc, s2) /\
      decrypt_and_verify_img (fip_buf f) f (set_image_mode 1 s2) = Done (0, s')
    else flash_read_ram addr (u32 (fip_off f + fip_size f)) (fip_buf f) s1 = Done (rc, s2) /\
      verify_img (fip_buf f) (fip_buf_size f) (Z.land get_sha_alg HASH_MODE_MASK) f s2 = Done (0, s').
Proof.
  intros Hc Hrun. unfold read_flash_and_verify in Hrun. rewrite Hc in Hrun. cbn [negb] in Hrun.
  apply bind_inv in Hrun as (rc & s1 & Hr & Hrun). apply bind_inv in Hrun as (f0 & s2 & Hf0 & Hrun).
  apply bind_inv in Hrun as (f & s3 & Hf & Hrun).
  destruct (Z.eqb_spec (fip_smc f) 0) as [|Hsmc]; cbn [negb] in Hrun; [done|].
  assert (locate fuel buf addr s = Done (f, s3)) as Hloc.
  { unfold locate. by rewrite (bind_run _ _ _ _ _ Hr), (bind_run _ _ _ _ _ Hf0). }
  assert (fip_smc f = SIP_VERIFY_BL2 \/ fip_smc f = SIP_VERIFY_BL33) as Hkind.
  { destruct (fip_flag f0 =? ENCRYPTED_OUTER_HEADER).
    - apply bind_inv in Hf as (rc1 & s4 & _ & Hf). by eapply run_parse_fip_smc.
    - injection Hf as -> <-. by eapply run_parse_fip_smc. }
  exists f, s3. destruct (fip_flag f =? ENCRYPTED_FW) eqn:Hfl; apply bind_inv in Hrun as (rc1 & s4 & Hr2 & Hrun); exists rc1, s4; [|done].
  apply bind_inv in Hrun as (u & s5 & Hm & Hrun). by injection Hm as _ <-.
Qed.

(** With secure boot compiled in, an image read from flash is accepted
    only when the secure monitor accepted it: it was found by its package
    entry, and the monitor answered 0 for the digest of the image's bytes in
    RAM (or for the image itself when the monitor decrypts it). *)
Theorem read_flash_and_verify_sound c fuel buf addr s s' :
  arm_secure_boot c = true ->
  read_flash_and_verify c fuel buf addr s = Done (0, s') ->
  exists m f enc, fip_smc f <> 0 /\ enc = (fip_flag f =? ENCRYPTED_FW) /\ accepted m f enc.
Proof.
  intros Hc (f & s1 & rc & s2 & _ & Hsmc & _ & Hrun)%read_flash_inv; [|done].
  destruct (fip_flag f =? ENCRYPTED_FW) eqn:Hfl; destruct Hrun as [_ Hrun].
  - exists (ram s2), f, true. split; [done|]. split; [done|]. rewrite decrypt_img_run in Hrun. by injection Hrun.
  - exists (ram s2), f, false. split; [done|]. split; [done|]. rewrite verify_img_run in Hrun. by injection Hrun.
Qed.

(** What [upgrade_verify] shows of a file at [buf] when it answers [stat] and
    leaves [v]: the package was found by its entry, the monitor was called for
    it, and [stat] is the monitor's answer, or tells that an accepted package
    is encrypted. *)
Definition upgrade_checked (fuel : nat) (buf : Z) s (stat : Z) (v : vst F) : Prop :=
  exists f, parse_fip fuel (ram s) buf FIP_MAX_HEADER_SIZE 0 0 0 (fip_offset s) = Done f /\
    (fip_smc f = SIP_VERIFY_BL2 \/ fip_smc f = SIP_VERIFY_BL33) /\
    let r := monitor_call (ram s) f (fip_smc f =? SIP_VERIFY_BL2) in
    v = set_ram r.2 (set_fip_offset (fip_offset' f) s) /\
    (stat = r.1 \/ r.1 = 0 /\ fip_flag f = ENCRYPTED_OUTER_HEADER /\ stat = ENCRYPTED_OUTER_HEADER).

Lemma upgrade_verify_inv c fuel buf s stat v :
  arm_secure_boot c = true -> check_image_name c (env s) = 1 -> stat <> -1 ->
  upgrade_verify c fuel buf s = Done (stat, v) -> upgrade_checked fuel buf s stat v.
Proof.
  intros Hc Hname Hstat Hrun. unfold upgrade_verify in Hrun. rewrite Hc in Hrun. cbn [negb] in Hrun.
  unfold bind at 1, gets in Hrun. rewrite Hname in Hrun. cbn [Z.eqb negb] in Hrun. rewrite andb_false_r in Hrun.
  apply bind_inv in Hrun as (f & s1 & Hf & Hrun). pose proof (run_parse_fip_smc _ _ _ _ _ _ _ _ _ Hf) as Hkind.
  unfold run_parse_fip in Hf. destruct (parse_fip _ _ _ _ _ _ _ _) as [f'| |] eqn:Ep; [|done..].
  injection Hf as -> <-. exists f. split; [done|].
  destruct (Z.eqb_spec (fip_smc f) SIP_VERIFY_BL2) as [E|Hbl2].
  - rewrite decrypt_img_run in Hrun. injection Hrun as <- <-. split; [by left|]. cbv zeta. split; [done|by left].
  - destruct (Z.eqb_spec (fip_smc f) 0) as [|Hsmc]; cbn [negb] in Hrun; [by injection Hrun as <- _|].
    split; [by apply Hkind|]. apply bind_inv in Hrun as (r & s2 & Hr & Hrun). rewrite verify_img_run in Hr.
    injection Hr as <- <-. injection Hrun as <- <-. cbv zeta. split; [done|].
    destruct (_ && _) eqn:E; [|by left]. apply andb_true_iff in E as [E1%Z.eqb_eq E2%Z.eqb_eq]. by right.
Qed.

(** [read_flash_and_verify] always completes, whatever the flash and the
    monitor answer (for flash kinds other than eMMC, whose driver has its
    own bounds). *)
Theorem read_flash_and_verify_total c fuel buf addr s :
  kind (v_hal s) <> EMMC -> BOOT_FIP_MAX_SIZE <= Z.of_nat fuel * sizeof_toc_entry ->
  exists v s', read_flash_and_verify c fuel buf addr s = Done (v, s').
Proof.
  intros Hk Hf. assert (FIP_MAX_HEADER_SIZE <= BOOT_FIP_MAX_SIZE) as Hmax by done.
  assert (forall s a n b, kind (v_hal s) <> EMMC ->
    exists rc s1, flash_read_ram a n b s = Done (rc, s1) /\ kind (v_hal s1) <> EMMC) as Hread.
  { intros s0 a n b Hk0. unfold flash_read_ram, bind at 1, lift_hal, flash_read, bind, gets.
    destruct (kind (v_hal s0)) eqn:E; [done|..]; cbn; do 2 eexists; (split; [done|]); cbn; by rewrite E. }
  assert (forall s b bs o z fl, bs <= BOOT_FIP_MAX_SIZE ->
    exists f s1, run_parse_fip fuel b bs o z fl s = Done (f, s1) /\ v_hal s1 = v_hal s /\
      fip_buf_size f <= BOOT_FIP_MAX_SIZE) as Hparse.
  { intros s0 b bs o z fl Hbs. unfold run_parse_fip.
    destruct (parse_fip_spec fuel (ram s0) b bs o z fl (fip_offset s0)) as (f & -> & Hcase).
    { lia. }
    exists f. eexists. split_and!; [done|done|].
    destruct (ram_le (ram s0) b 4 =? TOC_HEADER_NAME); [destruct Hcase as (_ & -> & _); lia|].
    destruct (ram_le _ _ _ =? _); [destruct Hcase as (_ & -> & _); lia|]. by rewrite Hcase. }
  unfold read_flash_and_verify. destruct (arm_secure_boot c); cbn [negb]; [|by eexists _, _].
  destruct (Hread s addr FIP_MAX_HEADER_SIZE buf Hk) as (rc & s1 & Hr1 & Hk1).
  rewrite (bind_run _ _ _ _ _ Hr1).
  destruct (Hparse s1 buf FIP_MAX_HEADER_SIZE 0 0 0 ltac:(lia)) as (f & s2 & Hp & Hh2 & Hs2).
  rewrite (bind_run _ _ _ _ _ Hp).
  set (inner := if fip_flag f =? ENCRYPTED_OUTER_HEADER then _ else _).
  assert (exists f2 s3, inner s2 = Done (f2, s3) /\ kind (v_hal s3) <> EMMC) as (f2 & s3 & Hi & Hk3).
  { unfold inner. destruct (_ =? _).
    - destruct (Hread s2 (u32 (addr + FIP_MAX_HEADER_SIZE + 0x100)) (fip_buf_size f) (fip_buf f)
        ltac:(by rewrite Hh2)) as (rc2 & s3 & Hr3 & Hk3).
      rewrite (bind_run _ _ _ _ _ Hr3).
      destruct (Hparse s3 (fip_buf f) (fip_buf_size f) (fip_off f) (fip_size f) (fip_flag f) Hs2)
        as (f2 & s4 & Hp2 & Hh4 & _). exists f2, s4. by rewrite Hh4.
    - exists f, s2. by rewrite Hh2. }
  rewrite (bind_run _ _ _ _ _ Hi). destruct (negb (fip_smc f2 =? 0)); [|by eexists _, _].
  assert (forall id a r2 r3 s0, exists v s', smc_call id a r2 r3 s0 = Done (v, s')) as Hsmc.
  { intros id a r2 r3 s0. unfold smc_call, act. destruct (do_smc _ _ _ _ _). by eexists _, _. }
  destruct (fip_flag f2 =? ENCRYPTED_FW).
  - destruct (Hread s3 (u32 (addr + FIP_MAX_HEADER_SIZE + 0x100)) (u32 (fip_off f2 + fip_size f2))
      (fip_buf f2) Hk3) as (rc4 & s4 & Hr4 & _).
    rewrite (bind_run _ _ _ _ _ Hr4). erewrite (bind_run (modify _)) by reflexivity. apply Hsmc.
  - destruct (Hread s3 addr (u32 (fip_off f2 + fip_size f2)) (fip_buf f2) Hk3) as (rc4 & s4 & Hr4 & _).
    rewrite (bind_run _ _ _ _ _ Hr4). unfold verify_img.
    erewrite (bind_run (gets _)) by reflexivity. apply Hsmc.
Qed.
End verify_props.
