(* ===== verification/Ram.v ===== *)
(** Bytes of the memory: reading and storing ranges. *)

From stdpp Require Import base numbers list option gmap.
From Stdlib Require Import ZArith Lia.
From S2P Require Import Prelude Fip.

Section ram.
Implicit Type r : ram_t.

Lemma ram_bytes_length r a n : 0 <= n -> Z.of_nat (length (ram_bytes r a n)) = n.
Proof. intros Hn. unfold ram_bytes. rewrite length_fmap, length_seqZ. lia. Qed.

Lemma ram_bytes_nth r a n k : 0 <= k < n -> nth (Z.to_nat k) (ram_bytes r a n) 0 = r (a + k).
Proof.
  intros Hk. apply nth_lookup_Some. unfold ram_bytes.
  rewrite list_lookup_fmap, lookup_seqZ_lt by lia. simpl. do 2 f_equal. lia.
Qed.

Lemma ram_store_inside r a bs k :
  0 <= k < Z.of_nat (length bs) -> ram_store r a bs (a + k) = nth (Z.to_nat k) bs 0.
Proof.
  intros Hk. unfold ram_store. rewrite (proj2 (Z.leb_le _ _)), (proj2 (Z.ltb_lt _ _)) by lia.
  simpl. do 2 f_equal. lia.
Qed.

Lemma ram_store_outside r a bs x :
  x < a \/ a + Z.of_nat (length bs) <= x -> ram_store r a bs x = r x.
Proof.
  intros Hx. unfold ram_store. destruct (Z.leb_spec a x), (Z.ltb_spec x (a + Z.of_nat (length bs))); try done. lia.
Qed.

(** Two descriptions of the contents of a range. *)
Lemma ram_bytes_eq r a (l : list Z) :
  (forall k, 0 <= k < Z.of_nat (length l) -> r (a + k) = nth (Z.to_nat k) l 0) ->
  ram_bytes r a (Z.of_nat (length l)) = l.
Proof.
  intros H. apply (nth_ext _ _ 0 0).
  - apply Nat2Z.inj. apply ram_bytes_length. lia.
  - intros k Hk. assert (Z.of_nat k < Z.of_nat (length l)).
    { apply Nat2Z.inj_lt in Hk. rewrite ram_bytes_length in Hk by lia. lia. }
    rewrite <- (Nat2Z.id k), ram_bytes_nth by lia. apply H. lia.
Qed.

Lemma ram_bytes_len r a n : length (ram_bytes r a n) = Z.to_nat n.
Proof. unfold ram_bytes. by rewrite length_fmap, length_seqZ. Qed.

Lemma ram_bytes_app r a n m : 0 <= n -> 0 <= m -> ram_bytes r a (n + m) = ram_bytes r a n ++ ram_bytes r (a + n) m.
Proof. intros. unfold ram_bytes. by rewrite seqZ_app, fmap_app by lia. Qed.

Lemma ram_bytes_ext r r' a n : (forall k, a <= k < a + n -> r k = r' k) -> ram_bytes r a n = ram_bytes r' a n.
Proof.
  intros H. unfold ram_bytes. apply list_fmap_ext. intros i k Hk. apply lookup_seqZ in Hk as [-> ?]. apply H. lia.
Qed.

Lemma ram_bytes_outside r a bs b n :
  b + n <= a \/ a + Z.of_nat (length bs) <= b -> ram_bytes (ram_store r a bs) b n = ram_bytes r b n.
Proof. intros H. apply ram_bytes_ext. intros k Hk. apply ram_store_outside. lia. Qed.

Lemma ram_bytes_store r a bs : ram_bytes (ram_store r a bs) a (Z.of_nat (length bs)) = bs.
Proof. apply ram_bytes_eq. intros k Hk. by apply ram_store_inside. Qed.

Lemma ram_bytes_bytes r a n : (forall x, is_u8 (r x)) -> bytes (ram_bytes r a n).
Proof. intros H. apply Forall_fmap, Forall_true. intros x. apply H. Qed.

Lemma ram_store_bytes r a bs : (forall x, is_u8 (r x)) -> bytes bs -> forall x, is_u8 (ram_store r a bs x).
Proof.
  intros Hr Hb x. unfold ram_store. destruct (_ && _) eqn:E; [|done].
  destruct (nth_in_or_default (Z.to_nat (x - a)) bs 0) as [Hi| ->]; [|done].
  unfold bytes in Hb. rewrite Forall_forall in Hb. by apply Hb, list_elem_of_In.
Qed.

Lemma ram_bytes_slice r a n j k : 0 <= j -> 0 <= k -> j + k <= n ->
  take (Z.to_nat k) (drop (Z.to_nat j) (ram_bytes r a n)) = ram_bytes r (a + j) k.
Proof.
  intros Hj Hk Hn. unfold ram_bytes. rewrite <- fmap_drop, <- fmap_take. f_equal.
  apply list_eq. intros m. destruct (decide (m < Z.to_nat k)%nat) as [Hm|Hm].
  - rewrite lookup_take_lt by done. rewrite lookup_drop, !lookup_seqZ_lt by lia. f_equal. lia.
  - rewrite lookup_take_ge, lookup_seqZ_ge by lia. done.
Qed.
End ram.
