(* ===== verification/ImgInfo.v ===== *)
(** Locating kernel and root file system inside a firmware image
    ([drivers/misc/ecnt/image/ecnt_image.c]).

    [get_tclinux_imginfo] reads the image in pieces, as much as the next
    question to the device tree needs; [get_tclinux_img_version] reads and
    checks the TRX header.  libfdt is vendored library code: its queries are
    the class [Libfdt]; the header fields it defines are read here.  The
    environment is a map from names to values here; [setenv] may refuse a
    variable (a permission check, a full table, see [Htab]), which is the class
    [EnvPolicy]. *)

From stdpp Require Import base numbers list option strings gmap.
From Stdlib Require Import ZArith Lia.
From S2P Require Import Prelude FlashHal Fip.

Definition FDT_MAGIC : Z := 0xd00dfeed.
Definition IH_MAGIC : Z := 0x27051956.
Definition TRX_MAGIC2 : Z := 0x32524448.
Definition FLASH_READ_HEADER_LEN : Z := 0x800.
Definition sizeof_trx_header : Z := 256.

Definition be_val (bs : list Z) : Z := le_val (reverse bs).
Definition ram_be (r : ram_t) (a n : Z) : Z := be_val (ram_bytes r a n).

(** [fdt_get_header(fdt, field)] *)
Definition fdt_magic (r : ram_t) (fdt : Z) : Z := ram_be r fdt 4.
Definition fdt_totalsize (r : ram_t) (fdt : Z) : Z := ram_be r (fdt + 4) 4.
Definition fdt_off_dt_strings (r : ram_t) (fdt : Z) : Z := ram_be r (fdt + 12) 4.
Definition fdt_size_dt_strings (r : ram_t) (fdt : Z) : Z := ram_be r (fdt + 32) 4.

Class Libfdt := {
  fdt_path_offset : ram_t -> Z -> string -> Z;
  fdt_subnode_offset : ram_t -> Z -> Z -> string -> Z;
  fdt_getprop : ram_t -> Z -> Z -> string -> option (Z * Z)   (* address, length *)
}.

Record tclinux_imginfo := ImgInfo {
  kernel_off : Z;
  kernel_size : Z;
  rootfs_off : Z;
  rootfs_size : Z;
  tclinux_size : Z
}.

Inductive IMG_BOOT_STATUS := NOT_BOOT_IMG | BOOT_IMG.

#[export] Instance img_boot_eq_dec : EqDecision IMG_BOOT_STATUS.
Proof. solve_decision. Defined.

(** ** [setenv] *)

(** The variables, the name and the new value ([None]: delete) of a call that
    the environment refuses. *)
Class EnvPolicy := {
  env_refuses : gmap string string -> string -> option string -> bool
}.

(** The answer and the variables afterwards; an empty value deletes. *)
Definition env_set `{EnvPolicy} (e : gmap string string) (k : string) (v : option string)
    : Z * gmap string string :=
  if env_refuses e k v then (1, e)
  else (0, match v with
           | Some v => if bool_decide (v = EmptyString) then delete k e else <[k := v]> e
           | None => delete k e
           end).

Section imginfo.
Context {F : Type} `{FlashDrv F} `{Libfdt} `{EnvPolicy}.
Implicit Type s : vst F.

Definition vst_setenv (k v : string) : M (vst F) Z :=
  act (fun s => let '(rc, e) := env_set (env s) k (Some v) in (rc, set_env e s)).

Definition image_read_ram (from len buf : Z) : M (vst F) Z :=
  let! r := lift_hal (image_read from len) in
  do! modify (fun s => set_ram (ram_store (ram s) buf (snd r)) s) in
  ret (fst r).

Definition get_fip_offset : M (vst F) Z := gets fip_offset.

(** The "data" property of a sub-node: its address and length. *)
Definition get_fdt_node_offset_len (buf images_noffset : Z) (node : string)
    : M (vst F) (option (Z * Z)) :=
  let! r := gets ram in
  let noffset := fdt_subnode_offset r buf images_noffset node in
  if noffset <? 0 then ret None
  else ret (fdt_getprop r buf noffset "data").

Definition upd_size i v := ImgInfo (kernel_off i) (kernel_size i) (rootfs_off i) (rootfs_size i) v.
Definition upd_kernel i o n := ImgInfo o n (rootfs_off i) (rootfs_size i) (tclinux_size i).
Definition upd_rootfs i o n := ImgInfo (kernel_off i) (kernel_size i) o n (tclinux_size i).

(** From the rootfs header on. *)
Definition imginfo_rootfs (addr buf images_noffset : Z) (boot : IMG_BOOT_STATUS)
    (info : tclinux_imginfo) : M (vst F) (Z * tclinux_imginfo) :=
  let! s := gets (fun s => s) in
  let mode := image_read_mode (v_hal s) in
  let kend := u32 (kernel_off info + kernel_size info) in
  do! image_read_ram (u32 (addr + kend)) FLASH_READ_HEADER_LEN (buf + kend) in
  let! node := get_fdt_node_offset_len buf images_noffset
                 (if mode =? 1 then "ramdisk@1" else "filesystem@1") in
  match node with
  | None => ret (-1, info)
  | Some (data, len) =>
      do! (if mode =? 1
           then do! vst_setenv "root" "/dev/ram rw" in ret tt
           else ret tt) in
      let info := upd_rootfs info (u32 (data - buf)) len in
      do! (if mode =? 1
           then do! image_read_ram (u32 (addr + kend + FLASH_READ_HEADER_LEN)) (rootfs_size info)
                      (buf + kend + FLASH_READ_HEADER_LEN) in ret tt
           else ret tt) in
      let rend := u32 (rootfs_off info + rootfs_size info) in
      do! (if bool_decide (boot = BOOT_IMG)
           then do! image_read_ram (u32 (addr + rend)) FLASH_READ_HEADER_LEN (buf + rend) in ret tt
           else ret tt) in
      ret (0, info)
  end.

(** From the kernel node on; [fdt_read_length] bytes of the image are in
    the buffer. *)
Definition imginfo_kernel (addr buf images_noffset fdt_read_length : Z) (boot : IMG_BOOT_STATUS)
    (info : tclinux_imginfo) : M (vst F) (Z * tclinux_imginfo) :=
  let! node := get_fdt_node_offset_len buf images_noffset "kernel@1" in
  match node with
  | None => ret (-1, info)
  | Some (data, len) =>
      let info := upd_kernel info (u32 (data - buf)) len in
      let kend := u32 (kernel_off info + kernel_size info) in
      do! (if bool_decide (boot = BOOT_IMG) && (fdt_read_length <? kend)
           then do! image_read_ram (u32 (addr + fdt_read_length)) (u32 (kend - fdt_read_length))
                      (buf + fdt_read_length) in ret tt
           else ret tt) in
      imginfo_rootfs addr buf images_noffset boot info
  end.

Definition get_tclinux_imginfo (orig_addr : Z) (info : tclinux_imginfo) (boot : IMG_BOOT_STATUS)
    (buf : Z) : M (vst F) (Z * tclinux_imginfo) :=
  let! fo := get_fip_offset in
  let! mode := gets (fun s => image_read_mode (v_hal s)) in
  let addr := if mode =? 1 then 0x100 else u32 (orig_addr + fo) in
  let! rc := image_read_ram addr FLASH_READ_HEADER_LEN buf in
  if negb (rc =? 0) then ret (-1, info) else
  let! r := gets ram in
  if fdt_magic r buf =? FDT_MAGIC then
    let info := upd_size info (fdt_totalsize r buf) in
    let images_noffset := fdt_path_offset r buf "/images" in
    if images_noffset <? 0 then ret (-1, info) else
    let dt_strings_off := fdt_off_dt_strings r buf in
    let dt_strings_size := fdt_size_dt_strings r buf in
    let! rc := image_read_ram (u32 (addr + dt_strings_off)) dt_strings_size (buf + dt_strings_off) in
    if negb (rc =? 0) then ret (-1, info) else
    let! node := get_fdt_node_offset_len buf images_noffset "fdt@1" in
    match node with
    | None => ret (-1, info)
    | Some (data, len) =>
        let len := u32 (len + (u32 (data - buf) + FLASH_READ_HEADER_LEN)) in
        let! r := (if FLASH_READ_HEADER_LEN <? len then
                     let! rc := image_read_ram (u32 (addr + FLASH_READ_HEADER_LEN))
                                  (u32 (len - FLASH_READ_HEADER_LEN)) (buf + FLASH_READ_HEADER_LEN) in
                     ret (if negb (rc =? 0) then None else Some len)
                   else ret (Some FLASH_READ_HEADER_LEN)) in
        match r with
        | None => ret (-1, info)
        | Some fdt_read_length => imginfo_kernel addr buf images_noffset fdt_read_length boot info
        end
    end
  else ret (-1, info).       (* a uImage, or neither magic: an error either way *)

(** The TRX header at [addr + fip_offset] goes to [trxHdr]. *)
Definition get_tclinux_img_version (addr trxHdr : Z) : M (vst F) Z :=
  do! modify (fun s => set_ram (ram_store (ram s) trxHdr (memset 0 sizeof_trx_header)) s) in
  let! fo := get_fip_offset in
  let! rc := image_read_ram (u32 (addr + fo)) sizeof_trx_header trxHdr in
  if negb (rc =? 0) then ret (-1) else
  let! r := gets ram in
  if negb (ram_le r trxHdr 4 =? TRX_MAGIC2) then ret (-1) else ret 0.
End imginfo.
