(* ===== verification/Mtd.v ===== *)
(** The partition table ([drivers/misc/ecnt/image/ecnt_mtd.c]).

    The partitions come from a configuration string such as
    "25m[tclinux],25m[tclinux_slave],1m[config]".  [ecnt_newpart] parses it,
    [__ecnt_parse_cmdline_partitions] lays the partitions out,
    [ecnt_set_kernel_rootfs_part] splits the firmware partitions, the
    [ecnt_get_*] functions answer offsets and sizes.  C strings are Coq
    strings; a pointer that may be NULL is an option. *)

From stdpp Require Import base numbers list option strings gmap.
From Stdlib Require Import ZArith Lia Ascii.
From S2P Require Import Prelude FlashHal Fip ImgInfo.

Definition PARTS_SIZE : Z := 512.
Definition STR_LEN : Z := 256.
Definition UINT_MAX : Z := 0xFFFFFFFF.
Definition SIZE_REMAINING : Z := UINT_MAX.
Definition SIZE_TO_GET : Z := UINT_MAX - 1.
Definition OFFSET_CONTINUOUS : Z := UINT_MAX.
Definition OFFSET_BACK_FORWARD : Z := UINT_MAX - 1.
Definition OFFSET_NOT_FOUND : Z := UINT_MAX.
Definition TCLINUX : string := "tclinux".
Definition TCLINUX_SLAVE : string := "tclinux_slave".
Definition MTK_UBOOT_ENV : string := "u-boot-env".
Definition MTK_FACTORY : string := "Factory".
Definition KERNEL_PART : string := "kernel".
Definition ROOTFS_PART : string := "rootfs".
Definition KERNEL_SLAVE_PART : string := "kernel_slave".
Definition ROOTFS_SLAVE_PART : string := "rootfs_slave".
Definition BOOTLOADER_PART : string := "bootloader".
Definition ROMFILE_PART : string := "romfile".
Definition BOOTLOADER_PART_STR : string := "0[bootloader],".
Definition ROMFILE_PART_STR : string := "0[romfile],".
Definition BOOTLOADER_DEFAULT_SIZE : Z := Z.shiftl 512 10.
Definition ROMFILE_DEFAULT_SIZE : Z := Z.shiftl 256 10.
Definition sizeof_mtd_partition : Z := 16.
Definition CONFIG_SYS_LOAD_ADDR : Z := 0x81800000.
Definition CONFIG_ENV_SIZE : Z := 0x4000.

(** [ALIGN(x, a)] and [ROOTFS_PARTITION(a)] on 32-bit operands. *)
Definition ALIGN (x a : Z) : Z := Z.land (u32 (x + (a - 1))) (u32 (Z.lnot (a - 1))).
Definition ROOTFS_PARTITION (a : Z) : Z := Z.land (u32 (a + 0x10000)) (u32 (Z.lnot (0x10000 - 1))).

(** ** Strings *)

Definition code (c : ascii) : Z := Z.of_N (N_of_ascii c).
Definition isdigit (c : ascii) : bool := (48 <=? code c) && (code c <=? 57).
Definition isupper_hex (c : ascii) : bool := (65 <=? code c) && (code c <=? 70).
Definition islower_hex (c : ascii) : bool := (97 <=? code c) && (code c <=? 102).
Definition isxdigit (c : ascii) : bool := isdigit c || isupper_hex c || islower_hex c.
Definition digit_value (c : ascii) : Z :=
  if isdigit c then code c - 48
  else if islower_hex c then code c - 97 + 10 else code c - 65 + 10.

Fixpoint strtoull_loop (s : string) (base result : Z) : Z * string :=
  match s with
  | String c s' =>
      if isxdigit c && (digit_value c <? base)
      then strtoull_loop s' base ((result * base + digit_value c) mod 2 ^ 64)
      else (result, s)
  | EmptyString => (result, s)
  end.

(** [simple_strtoull(cp, &endp, base)]: the value and the rest. *)
Definition simple_strtoull (cp : string) (base : Z) : Z * string :=
  match cp with
  | String "0" cp' =>
      match cp' with
      | String "x" (String d _ as cp'') =>
          if isxdigit d then strtoull_loop cp'' 16 0
          else strtoull_loop cp' (if base =? 0 then 8 else base) 0
      | _ => strtoull_loop cp' (if base =? 0 then 8 else base) 0
      end
  | _ => strtoull_loop cp (if base =? 0 then 10 else base) 0
  end.

(** Split at the first occurrence of a character ([strchr]). *)
Fixpoint strchr (s : string) (c : ascii) : option (string * string) :=
  match s with
  | EmptyString => None
  | String d s' =>
      if bool_decide (d = c) then Some (EmptyString, s)
      else match strchr s' c with
           | Some (pre, rest) => Some (String d pre, rest)
           | None => None
           end
  end.

Definition strlen (s : string) : Z := Z.of_nat (String.length s).

(** [strncmp(s, "literal", |literal|) == 0] *)
Definition starts_with (pre s : string) : bool := String.prefix pre s.

Fixpoint drop_chars (n : nat) (s : string) : string :=
  match n, s with
  | S n', String _ s' => drop_chars n' s'
  | _, _ => s
  end.

(** The suffix from the first occurrence of [sub] on ([strstr]). *)
Fixpoint strstr (s sub : string) : option string :=
  if String.prefix sub s then Some s
  else match s with
       | EmptyString => None
       | String _ s' => strstr s' sub
       end.

Definition ecnt_memparse (ptr : string) (blocksize : Z) : Z * string :=
  let '(r, endptr) := simple_strtoull ptr 0 in
  match endptr with
  | String c rest =>
      let k := code c in
      if (k =? 71) || (k =? 103) then (Z.shiftl r 30 mod 2 ^ 64, rest)         (* G g *)
      else if (k =? 77) || (k =? 109) then (Z.shiftl r 20 mod 2 ^ 64, rest)    (* M m *)
      else if (k =? 75) || (k =? 107) then (Z.shiftl r 10 mod 2 ^ 64, rest)    (* K k *)
      else if (k =? 66) || (k =? 98) then ((r * blocksize) mod 2 ^ 64, rest)   (* B b *)
      else (r, endptr)
  | EmptyString => (r, endptr)
  end.

(** ** State *)

(** A [mtd_partition]; the name of an entry never written is NULL. *)
Record part := Part {
  p_name : option string;
  p_size : Z;
  p_offset : Z;
  p_mask_flags : Z
}.

Definition zero_part : part := Part None 0 0 0.

Record mtd_config := MtdCfg {
  openwrt : bool;              (* TCSUPPORT_OPENWRT or RDKB_BUILD *)
  blx_multicopy : bool;        (* TCSUPPORT_BLX_MULTICOPY *)
  mtd_multiboot : bool;        (* TCSUPPORT_ARM_MULTIBOOT *)
  reservearea_block : Z;       (* TCSUPPORT_RESERVEAREA_BLOCK *)
  cmdline_str : string         (* TCSUPPORT_PARTITIONS_CMDLINE_STR *)
}.

Definition RESERVEAREA (c : mtd_config) : string := if openwrt c then "art" else "reservearea".

Record mtd := Mtd {
  ecnt_parts : bool;           (* the pointer is not NULL *)
  parts : list part;           (* the array it points to, in [parts_size] *)
  num_parts : Z;
  has_remaining_part_flag : bool;
  tclinux_part_size : Z;
  tclinux_part_offset : Z;
  kernel_part_index : Z;
  kernel_slave_part_index : Z
}.

Definition mtd_init : mtd := Mtd false [] 0 false 0 OFFSET_CONTINUOUS (-1) (-1).

Definition set_ecnt_parts v s :=
  Mtd v (parts s) (num_parts s) (has_remaining_part_flag s) (tclinux_part_size s)
      (tclinux_part_offset s) (kernel_part_index s) (kernel_slave_part_index s).
Definition set_parts v s :=
  Mtd (ecnt_parts s) v (num_parts s) (has_remaining_part_flag s) (tclinux_part_size s)
      (tclinux_part_offset s) (kernel_part_index s) (kernel_slave_part_index s).
Definition set_num_parts v s :=
  Mtd (ecnt_parts s) (parts s) v (has_remaining_part_flag s) (tclinux_part_size s)
      (tclinux_part_offset s) (kernel_part_index s) (kernel_slave_part_index s).
Definition set_has_remaining v s :=
  Mtd (ecnt_parts s) (parts s) (num_parts s) v (tclinux_part_size s)
      (tclinux_part_offset s) (kernel_part_index s) (kernel_slave_part_index s).
Definition set_tclinux sz off s :=
  Mtd (ecnt_parts s) (parts s) (num_parts s) (has_remaining_part_flag s) sz off
      (kernel_part_index s) (kernel_slave_part_index s).
Definition set_kernel_index v s :=
  Mtd (ecnt_parts s) (parts s) (num_parts s) (has_remaining_part_flag s) (tclinux_part_size s)
      (tclinux_part_offset s) v (kernel_slave_part_index s).
Definition set_slave_index v s :=
  Mtd (ecnt_parts s) (parts s) (num_parts s) (has_remaining_part_flag s) (tclinux_part_size s)
      (tclinux_part_offset s) (kernel_part_index s) v.

Definition part_get (i : Z) : M mtd part :=
  let! ps := gets parts in checked (znth ps i).

Definition part_put (i : Z) (p : part) : M mtd unit :=
  let! ps := gets parts in
  let! ps := checked (zset ps i p) in
  modify (set_parts ps).

(** Assignments to single fields. *)
Definition put_size (i v : Z) : M mtd unit :=
  let! p := part_get i in part_put i (Part (p_name p) (u32 v) (p_offset p) (p_mask_flags p)).
Definition put_offset (i v : Z) : M mtd unit :=
  let! p := part_get i in part_put i (Part (p_name p) (p_size p) (u32 v) (p_mask_flags p)).
Definition put_name_size_offset (i : Z) (name : string) (sz off : Z) : M mtd unit :=
  let! p := part_get i in part_put i (Part (Some name) (u32 sz) (u32 off) (p_mask_flags p)).

(** [!strcmp(parts[i].name, name)] *)
Definition name_is (p : part) (name : string) : M mtd bool :=
  match p_name p with
  | None => undef
  | Some n => ret (bool_decide (n = name))
  end.

(** ** Parsing *)

Definition ecnt_newpart_set_other_parts (c : mtd_config) (part_index : Z) (name : string)
    (index : Z) : M mtd unit :=
  if bool_decide (name = TCLINUX) then
    do! put_name_size_offset part_index KERNEL_PART SIZE_TO_GET OFFSET_CONTINUOUS in
    do! put_name_size_offset (part_index + 1) ROOTFS_PART SIZE_TO_GET OFFSET_CONTINUOUS in
    modify (set_kernel_index index)
  else if bool_decide (name = TCLINUX_SLAVE) then
    do! put_name_size_offset part_index KERNEL_SLAVE_PART SIZE_TO_GET OFFSET_CONTINUOUS in
    do! put_name_size_offset (part_index + 1) ROOTFS_SLAVE_PART SIZE_TO_GET OFFSET_CONTINUOUS in
    modify (set_slave_index index)
  else if bool_decide (name = RESERVEAREA c) then
    put_name_size_offset part_index (RESERVEAREA c) (0x40000 * reservearea_block c) OFFSET_BACK_FORWARD
  else ret tt.

(** The size field: [None] when the definition is refused. *)
Definition newpart_size (s : string) (blocksize : Z) : M mtd (option (Z * string)) :=
  match s with
  | String "-" s' =>
      let! f := gets has_remaining_part_flag in
      if f : bool then ret None
      else do! modify (set_has_remaining true) in ret (Some (SIZE_REMAINING, s'))
  | _ =>
      let '(v, s') := ecnt_memparse s blocksize in
      let size := if u32 v =? 0 then SIZE_TO_GET else u32 v in
      ret (if size <? blocksize then None else Some (size, s'))
  end.

(** The name: [Some None] when there is no bracket, [None] when it is not
    closed. *)
Definition newpart_name (s : string) : option (option string * Z * string) :=
  match s with
  | String "[" s' =>
      match strchr s' "]" with
      | None => None
      | Some (name, rest) => Some (Some name, strlen name, drop_chars 1 rest)
      end
  | _ => Some (None, 13, s)
  end.

(** "a" and "end" after the name. *)
Definition newpart_offset (s : string) : Z * string :=
  let s := if starts_with "a" s then drop_chars 1 s else s in
  if starts_with "end" s then (OFFSET_BACK_FORWARD, drop_chars 3 s) else (OFFSET_CONTINUOUS, s).

(** [strncmp(name, full, name_len) == 0] for a name that stops at
    [name_len]; a NULL name is dereferenced. *)
Definition name_abbreviates (name : option string) (full : string) : M mtd bool :=
  match name with
  | None => undef
  | Some n => ret (String.prefix n full)
  end.

(** The two extra entries in front of a firmware partition. *)
Definition newpart_reserve (name : option string) (this_part extra : Z) : M mtd (Z * Z) :=
  let! b := name_abbreviates name TCLINUX in
  if b : bool then ret (this_part + 2, extra + (strlen KERNEL_PART + strlen ROOTFS_PART + 2))
  else
    let! b := name_abbreviates name TCLINUX_SLAVE in
    if b : bool
    then ret (this_part + 2, extra + (strlen KERNEL_SLAVE_PART + strlen ROOTFS_SLAVE_PART + 2))
    else ret (this_part, extra).

(** Answers the rest of the string, or [None] for a NULL table. *)
Fixpoint ecnt_newpart (fuel : nat) (c : mtd_config) (s : string) (this_part extra_mem_size blocksize : Z)
    : M mtd (option string) :=
  match fuel with
  | O => out_of_fuel
  | S fuel' =>
      let! sz := newpart_size s blocksize in
      match sz with
      | None => ret None
      | Some (size, s) =>
      match newpart_name s with
      | None => ret None
      | Some (name, name_len, s) =>
      let extra := extra_mem_size + (name_len + 1) in
      let '(offset, s) := newpart_offset s in
      let! r := newpart_reserve name this_part extra in
      let '(this_part, extra) := r in
      let! rest :=
        (match s with
         | String "," s' => ecnt_newpart fuel' c s' (this_part + 1) extra blocksize
         | _ =>
             do! modify (set_num_parts (this_part + 2)) in
             let extra := extra + (strlen (RESERVEAREA c) + 1) in
             let alloc_size := (this_part + 2) * sizeof_mtd_partition + extra in
             if PARTS_SIZE <? alloc_size then ret None
             else
               do! modify (set_parts (replicate (Z.to_nat (this_part + 2)) zero_part)) in
               ret (Some s)
         end) in
      match rest with
      | None => ret None
      | Some s =>
          do! part_put this_part (Part name size offset 0) in
          do! (if bool_decide (name = Some TCLINUX)
               then ecnt_newpart_set_other_parts c (this_part - 2) TCLINUX (this_part - 2)
               else if bool_decide (name = Some TCLINUX_SLAVE)
               then ecnt_newpart_set_other_parts c (this_part - 2) TCLINUX_SLAVE (this_part - 2)
               else ret tt) in
          let! n := gets num_parts in
          do! (if this_part =? n - 2
               then ecnt_newpart_set_other_parts c (n - 1) (RESERVEAREA c) (n - 1)
               else ret tt) in
          ret (Some s)
      end
      end
      end
  end.

(** [strcpy]/[strcat] into [char cmdline[STR_LEN]]: the terminating NUL has
    to fit as well. *)
Definition into_cmdline (dst : string) : M mtd string :=
  if STR_LEN <? strlen dst + 1 then undef else ret dst.

(** The array is not initialised: in the last case [memcpy] copies a prefix
    of the string without a terminating NUL and [strcat] then looks for one
    among bytes that were never written. *)
Definition ecnt_check_mtdpart_str (c : mtd_config) (src : string) : M mtd string :=
  let have_bootloader_part :=
    match strstr src BOOTLOADER_PART with Some _ => true | None => false end in
  let have_romfile_part :=
    openwrt c || match strstr src ROMFILE_PART with Some _ => true | None => false end in
  if have_romfile_part && have_bootloader_part then into_cmdline src
  else if negb have_romfile_part && negb have_bootloader_part then
    into_cmdline (BOOTLOADER_PART_STR +:+ ROMFILE_PART_STR +:+ src)
  else if have_romfile_part then into_cmdline (BOOTLOADER_PART_STR +:+ src)
  else undef.

(** Answers 1 when there is a table. *)
Definition ecnt_mtdpart_setup (fuel : nat) (c : mtd_config) (s : string) (blocksize : Z) : M mtd Z :=
  if STR_LEN <? strlen s + strlen BOOTLOADER_PART_STR + strlen ROMFILE_PART_STR then ret 0 else
  let! cmdline := ecnt_check_mtdpart_str c s in
  let! r := ecnt_newpart fuel c cmdline 0 0 blocksize in
  match r with
  | None => do! modify (set_ecnt_parts false) in ret 0
  | Some _ => do! modify (set_ecnt_parts true) in ret 1
  end.

(** ** Layout *)

Definition ecnt_get_bootloader_romfile_size (c : mtd_config) (name : string) : Z :=
  let bootloader_size :=
    if blx_multicopy c || mtd_multiboot c then
      0x80000 + (if mtd_multiboot c then 0x00100000 else 0) + (if blx_multicopy c then 0x00180000 else 0)
    else if openwrt c then 0x00080000 else BOOTLOADER_DEFAULT_SIZE in
  let blocksize := 0x40000 in
  if bool_decide (name = BOOTLOADER_PART) then Z.max bootloader_size blocksize
  else if bool_decide (name = ROMFILE_PART) then Z.max ROMFILE_DEFAULT_SIZE blocksize
  else SIZE_TO_GET.

(** The local variables of [__ecnt_parse_cmdline_partitions]. *)
Record layout_vars := Vars {
  offset : Z;
  size_remaining_index : Z;
  first_back_forward_index : Z;
  size_remaining_offset_start : Z;
  is_tclinux_remaining_flag : bool
}.

Definition set_offset v l :=
  Vars v (size_remaining_index l) (first_back_forward_index l) (size_remaining_offset_start l)
       (is_tclinux_remaining_flag l).
Definition set_first_back v l :=
  Vars (offset l) (size_remaining_index l) v (size_remaining_offset_start l)
       (is_tclinux_remaining_flag l).

(** What an iteration of the forward loop does next. *)
Inductive step_result := Continue (l : layout_vars) | Break (l : layout_vars) | Return0.

(** The end of the iteration: the partition takes its place. *)
Definition forward_place (blocksize size i : Z) (l : layout_vars) : M mtd step_result :=
  let! p := part_get i in
  if size <? u32 (offset l + p_size p) then ret Return0 else
  let off := ALIGN (u32 (offset l + p_size p)) blocksize in
  let! p := part_get i in
  let! t := name_is p TCLINUX in
  do! (if t : bool then modify (set_tclinux (p_size p) (p_offset p)) else ret tt) in
  ret (Continue (set_offset off l)).

Definition forward_step (c : mtd_config) (blocksize size i : Z) (l : layout_vars)
    : M mtd step_result :=
  let! n := gets num_parts in
  let! p := part_get i in
  if p_offset p =? OFFSET_BACK_FORWARD then ret (Break (set_first_back i l)) else
  let! skip :=
    (if p_size p =? SIZE_TO_GET then
       do! put_offset i (offset l) in
       let! b := name_is p BOOTLOADER_PART in
       let! r := name_is p ROMFILE_PART in
       if b || r
       then do! put_size i (ecnt_get_bootloader_romfile_size c (if b then BOOTLOADER_PART else ROMFILE_PART)) in
            ret false
       else ret true
     else ret false) in
  if skip : bool then ret (Continue l) else
  do! put_offset i (offset l) in
  let! p := part_get i in
  if p_size p =? SIZE_REMAINING then
    let l' := Vars (offset l) i (first_back_forward_index l) (p_offset p)
                   (is_tclinux_remaining_flag l) in
    if i + 1 =? n then
      do! put_size i (u32 (size - offset l)) in
      forward_place blocksize size i l'
    else
      let! t := name_is p TCLINUX in
      ret (Break (Vars (offset l') (size_remaining_index l') (i + 1) (size_remaining_offset_start l')
                       (is_tclinux_remaining_flag l' || t)))
  else forward_place blocksize size i l.

Fixpoint forward_loop (n : nat) (c : mtd_config) (blocksize size i : Z) (l : layout_vars)
    : M mtd (option layout_vars) :=
  match n with
  | O => ret (Some l)
  | S n' =>
      let! r := forward_step c blocksize size i l in
      match r with
      | Return0 => ret None
      | Break l' => ret (Some l')
      | Continue l' => forward_loop n' c blocksize size (i + 1) l'
      end
  end.

(** The backward loop from entry [i] down, [n] entries; [None] is the
    "partitioning exceeds flash size" exit. *)
Fixpoint backward_loop (n : nat) (blocksize size i offset total : Z) : M mtd (option Z) :=
  match n with
  | O => ret (Some offset)
  | S n' =>
      let! p := part_get i in
      let sz := ALIGN (p_size p) blocksize in
      do! put_size i sz in
      let total := u32 (total + sz) in
      do! put_offset i (u32 (offset - sz)) in
      let offset := u32 (offset - sz) in
      if size <? u32 (offset + total) then ret None
      else backward_loop n' blocksize size (i - 1) offset total
  end.

Section layout.
Context {F : Type} `{FlashDrv F} `{Libfdt} `{SecureMonitor} `{EnvPolicy}.

(** The globals of the flash layer and of the partition table together. *)
Definition mtd_st : Type := vst F * mtd.

Definition on_vst {A} (m : M (vst F) A) : M mtd_st A := fun s =>
  match m (fst s) with
  | Done (a, v) => Done (a, (v, snd s))
  | Undef => Undef
  | OutOfFuel => OutOfFuel
  end.

Definition on_mtd {A} (m : M mtd A) : M mtd_st A := fun s =>
  match m (snd s) with
  | Done (a, t) => Done (a, (fst s, t))
  | Undef => Undef
  | OutOfFuel => OutOfFuel
  end.

(** First partition of that name: [f] of it, or [dflt]. *)
Fixpoint find_part (ps : list part) (name : string) (f : part -> Z) (dflt : Z) : M mtd Z :=
  match ps with
  | [] => ret dflt
  | p :: ps' =>
      let! b := name_is p name in
      if b : bool then ret (f p) else find_part ps' name f dflt
  end.

Definition ecnt_get_mtd_offset (name : string) : M mtd Z :=
  let! s := gets (fun s => s) in
  if negb (ecnt_parts s) then ret OFFSET_NOT_FOUND
  else find_part (take (Z.to_nat (num_parts s)) (parts s)) name p_offset OFFSET_NOT_FOUND.

Definition ecnt_get_mtd_size (name : string) : M mtd Z :=
  let! s := gets (fun s => s) in
  if negb (ecnt_parts s) then ret SIZE_TO_GET
  else find_part (take (Z.to_nat (num_parts s)) (parts s)) name p_size SIZE_TO_GET.

(** The shape of all the getters: 0 when there is no such partition. *)
Definition mtd_offset_or_0 (name : string) (base : Z) : M mtd Z :=
  let! o := ecnt_get_mtd_offset name in
  ret (if o =? OFFSET_NOT_FOUND then 0 else u32 (o + base)).

Definition mtd_size_or_0 (name : string) : M mtd Z :=
  let! sz := ecnt_get_mtd_size name in
  ret (if sz =? SIZE_TO_GET then 0 else sz).

Definition ecnt_get_romfile_mtd_offset : M mtd Z := mtd_offset_or_0 ROMFILE_PART 0.
Definition ecnt_get_tclinux_mtd_offset : M mtd Z := mtd_offset_or_0 TCLINUX 0.
Definition ecnt_get_tclinux_slave_mtd_offset : M mtd Z := mtd_offset_or_0 TCLINUX_SLAVE 0.
Definition ecnt_get_tclinux_flash_offset (flash_base : Z) : M mtd Z :=
  mtd_offset_or_0 TCLINUX flash_base.
Definition ecnt_get_tclinux_slave_flash_offset (flash_base : Z) : M mtd Z :=
  mtd_offset_or_0 TCLINUX_SLAVE flash_base.
Definition ecnt_get_reservearea_flash_offset (c : mtd_config) (flash_base : Z) : M mtd Z :=
  mtd_offset_or_0 (RESERVEAREA c) flash_base.
Definition ecnt_get_tclinux_size : M mtd Z := mtd_size_or_0 TCLINUX.
Definition ecnt_get_tclinux_slave_size : M mtd Z := mtd_size_or_0 TCLINUX_SLAVE.
Definition ecnt_get_kernel_size : M mtd Z := mtd_size_or_0 KERNEL_PART.
Definition ecnt_get_kernel_slave_size : M mtd Z := mtd_size_or_0 KERNEL_SLAVE_PART.
Definition ecnt_get_reservearea_size (c : mtd_config) : M mtd Z := mtd_size_or_0 (RESERVEAREA c).
Definition ecnt_get_boot_size : M mtd Z := mtd_size_or_0 BOOTLOADER_PART.
Definition ecnt_get_romfile_size : M mtd Z := mtd_size_or_0 ROMFILE_PART.
Definition ecnt_get_ubootenv_mtd_offset : M mtd Z := mtd_offset_or_0 MTK_UBOOT_ENV 0.
Definition ecnt_get_factory_mtd_offset : M mtd Z := mtd_offset_or_0 MTK_FACTORY 0.

(** The offset and size of a usable "rootfs_data" partition. *)
Fixpoint find_rootfs_data (ps : list part) : M mtd (option (Z * Z)) :=
  match ps with
  | [] => ret None
  | p :: ps' =>
      let! b := name_is p "rootfs_data" in
      if b && (0 <? p_offset p) && (0 <? p_size p) then ret (Some (p_offset p, p_size p))
      else find_rootfs_data ps'
  end.

Definition do_get_mtd_rootfsdata_info : M mtd (option (Z * Z)) :=
  let! s := gets (fun s => s) in
  if negb (ecnt_parts s) then ret None
  else find_rootfs_data (take (Z.to_nat (num_parts s)) (parts s)).

(** ** Kernel and root file system inside the firmware partitions *)

Definition no_info : tclinux_imginfo := ImgInfo 0 0 0 0 0.

(** Sizes of entries [i] (kernel) and [i + 1] (root file system). *)
Definition split_firmware (i : Z) (info : tclinux_imginfo) : M mtd unit :=
  do! put_size i (u32 (kernel_off info + kernel_size info + sizeof_trx_header)) in
  do! put_size (i + 1) (ROOTFS_PARTITION (rootfs_size info)) in
  let! p := part_get i in
  put_offset (i + 1) (u32 (p_offset p + rootfs_off info + sizeof_trx_header)).

Definition ecnt_set_kernel_rootfs_part (flash_base : Z) : M mtd_st unit :=
  let! st := gets snd in
  let! off := on_mtd (ecnt_get_tclinux_flash_offset flash_base) in
  if kernel_part_index st <? 0 then ret tt else
  let first_imgAddr := u32 (off + sizeof_trx_header) in
  let! r := on_vst (get_tclinux_imginfo first_imgAddr no_info NOT_BOOT_IMG CONFIG_SYS_LOAD_ADDR) in
  if negb (fst r =? 0) then ret tt else
  let! t := on_mtd (part_get (kernel_part_index st + 2)) in
  let tclinux_real_size := p_size t in
  do! on_mtd (split_firmware (kernel_part_index st) (snd r)) in
  if 0 <? kernel_slave_part_index st then
    let second_imgAddr := u32 (first_imgAddr + tclinux_real_size) in
    let! r := on_vst (get_tclinux_imginfo second_imgAddr no_info NOT_BOOT_IMG CONFIG_SYS_LOAD_ADDR) in
    on_mtd (split_firmware (kernel_slave_part_index st) (snd r))
  else ret tt.

(** Answers the number of partitions, or 0. *)
Definition __ecnt_parse_cmdline_partitions (fuel : nat) (c : mtd_config) (flash_base blocksize size : Z)
    : M mtd_st Z :=
  let! ok := on_mtd (ecnt_mtdpart_setup fuel c (cmdline_str c) blocksize) in
  if ok =? 0 then ret 0 else
  let! n := gets (fun s => num_parts (snd s)) in
  let! r := on_mtd (forward_loop (Z.to_nat n) c blocksize size 0 (Vars 0 (-1) (-1) 0 false)) in
  match r with
  | None => ret 0
  | Some l =>
      let count := if first_back_forward_index l =? -1 then 0%nat
                   else Z.to_nat (n - first_back_forward_index l) in
      let! r := on_mtd (backward_loop count blocksize size (n - 1) (u32 size) 0) in
      match r with
      | None => ret 0
      | Some off =>
          do! on_mtd
            (if negb (size_remaining_index l =? -1) then
               do! put_size (size_remaining_index l) (u32 (off - size_remaining_offset_start l)) in
               let! p := part_get (size_remaining_index l) in
               if is_tclinux_remaining_flag l
               then modify (set_tclinux (p_size p) (p_offset p)) else ret tt
             else ret tt) in
          do! ecnt_set_kernel_rootfs_part flash_base in
          gets (fun s => num_parts (snd s))
      end
  end.

Definition boot_verify (c : config) (fuel : nat) (flash_base buf bootflag : Z) : M mtd_st Z :=
  let! kernel_addr := on_mtd (if bootflag =? 0 then ecnt_get_tclinux_flash_offset flash_base
                              else ecnt_get_tclinux_slave_flash_offset flash_base) in
  let! rc := on_vst (read_flash_and_verify c fuel buf kernel_addr) in
  ret (if negb (rc =? 0) then -1 else 0).
End layout.
