(* ===== verification/MtdProps.v ===== *)
(** Properties of the partition table.

    Termination of the parser; the forward pass places partitions in order,
    aligned and inside the flash; the overflow test of the backward pass can
    never succeed; two defects of the parser. *)

From stdpp Require Import base numbers list option strings gmap.
From Stdlib Require Import ZArith Lia Ascii.
From S2P Require Import Prelude FlashHal Fip ImgInfo Mtd.

(** ** Alignment *)

Lemma land_u32 x y : is_u32 x -> Z.land x (u32 y) = Z.land x y.
Proof.
  intros Hx. unfold u32, is_u32 in *. rewrite <- (Z.land_ones y 32) by lia.
  rewrite (Z.land_comm y), Z.land_assoc, Z.land_ones, Z.mod_small by lia. done.
Qed.

Lemma ALIGN_eq x k :
  0 <= k -> 0 <= x -> x + 2 ^ k <= 2 ^ 32 -> ALIGN x (2 ^ k) = (x + (2 ^ k - 1)) / 2 ^ k * 2 ^ k.
Proof.
  intros Hk Hx Hw. unfold ALIGN. assert (0 < 2 ^ k) by (apply Z.pow_pos_nonneg; lia).
  assert (u32 (x + (2 ^ k - 1)) = x + (2 ^ k - 1)) as -> by (apply Z.mod_small; lia).
  rewrite land_u32 by (unfold is_u32; lia).
  replace (2 ^ k - 1) with (Z.ones k) by (rewrite Z.ones_equiv; lia).
  rewrite <- Z.ldiff_land, Z.ldiff_ones_r, Z.shiftr_div_pow2, Z.shiftl_mul_pow2 by lia. done.
Qed.

Lemma ALIGN_bounds x k :
  0 <= k -> 0 <= x -> x + 2 ^ k <= 2 ^ 32 ->
  x <= ALIGN x (2 ^ k) < x + 2 ^ k /\ ALIGN x (2 ^ k) mod 2 ^ k = 0.
Proof.
  intros Hk Hx Hw. rewrite ALIGN_eq by done. assert (0 < 2 ^ k) by (apply Z.pow_pos_nonneg; lia).
  pose proof (Z.div_mod (x + (2 ^ k - 1)) (2 ^ k) ltac:(lia)).
  pose proof (Z.mod_pos_bound (x + (2 ^ k - 1)) (2 ^ k) ltac:(lia)).
  split; [nia|]. apply Z.mod_mul. lia.
Qed.

(** ** The parser terminates *)

Lemma strtoull_loop_rest s base r : (String.length (strtoull_loop s base r).2 <= String.length s)%nat.
Proof.
  revert r. induction s as [|c s IH]; intros r; simpl; [lia|].
  destruct (_ && _); simpl; [|lia]. etrans; [apply IH|]. lia.
Qed.

Lemma simple_strtoull_rest s base : (String.length (simple_strtoull s base).2 <= String.length s)%nat.
Proof.
  unfold simple_strtoull.
  repeat match goal with
         | |- context [strtoull_loop ?s ?b ?r] =>
             lazymatch goal with
             | H : (_ <= String.length s)%nat |- _ => fail
             | _ => pose proof (strtoull_loop_rest s b r)
             end
         end.
  destruct s as [|c s]; [apply strtoull_loop_rest|].
  destruct c as [[] [] [] [] [] [] [] []]; try apply strtoull_loop_rest.
  destruct s as [|d s].
  { etrans; [apply strtoull_loop_rest|simpl; lia]. }
  destruct d as [[] [] [] [] [] [] [] []];
    try (etrans; [apply strtoull_loop_rest|simpl; lia]).
  destruct s as [|x s]; [etrans; [apply strtoull_loop_rest|simpl; lia]|].
  destruct (isxdigit x); (etrans; [apply strtoull_loop_rest|simpl; lia]).
Qed.

Lemma ecnt_memparse_rest s bs : (String.length (ecnt_memparse s bs).2 <= String.length s)%nat.
Proof.
  unfold ecnt_memparse. pose proof (simple_strtoull_rest s 0) as H.
  destruct (simple_strtoull s 0) as [r [|c rest]]; simpl in *; [lia|].
  repeat (case_match; simpl; try lia).
Qed.

Lemma strchr_rest s c pre rest :
  strchr s c = Some (pre, rest) -> (1 <= String.length rest <= String.length s)%nat.
Proof.
  revert pre rest. induction s as [|d s IH]; intros pre rest; simpl; [done|].
  case_bool_decide; [intros [= <- <-]; simpl; lia|].
  destruct (strchr s c) as [[p r]|] eqn:E; [|done]. intros [= <- <-].
  specialize (IH p r eq_refl). lia.
Qed.

Lemma drop_chars_length n s : (String.length (drop_chars n s) <= String.length s)%nat.
Proof.
  revert s. induction n as [|n IH]; intros [|c s]; simpl; try lia. etrans; [apply IH|]. lia.
Qed.

Lemma newpart_name_rest s name n rest :
  newpart_name s = Some (name, n, rest) -> (String.length rest <= String.length s)%nat.
Proof.
  unfold newpart_name. destruct s as [|c s]; [by intros [= <- <- <-]|].
  destruct c as [[] [] [] [] [] [] [] []]; try (by intros [= <- <- <-]).
  destruct (strchr s "]") as [[pre r]|] eqn:E; [|done]. intros [= <- <- <-].
  apply strchr_rest in E. pose proof (drop_chars_length 1 r). simpl in *. lia.
Qed.

Lemma newpart_offset_rest s : (String.length (newpart_offset s).2 <= String.length s)%nat.
Proof.
  unfold newpart_offset. pose proof (drop_chars_length 1 s).
  set (s1 := if starts_with "a" s then drop_chars 1 s else s).
  assert (String.length s1 <= String.length s)%nat by (unfold s1; destruct (starts_with "a" s); lia).
  pose proof (drop_chars_length 3 s1). destruct (starts_with "end" s1); simpl in *; lia.
Qed.

(** The run does not stop for lack of fuel. *)
Definition total {S A} (m : M S A) : Prop := forall s, m s <> OutOfFuel.

Lemma total_bind {S A B} (m : M S A) (k : A -> M S B) :
  total m -> (forall a, total (k a)) -> total (bind m k).
Proof.
  intros Hm Hk s. unfold bind. specialize (Hm s).
  destruct (m s) as [[a s']| |]; [apply Hk|done|done].
Qed.

Lemma total_ret {S A} (a : A) : total (@ret S A a).
Proof. by intros s. Qed.
Lemma total_gets {S A} (f : S -> A) : total (gets f).
Proof. by intros s. Qed.
Lemma total_modify {S} (f : S -> S) : total (modify f).
Proof. by intros s. Qed.
Lemma total_undef {S A} : total (@undef S A).
Proof. by intros s. Qed.
Lemma total_checked {S A} (o : option A) : total (@checked S A o).
Proof. by destruct o; intros s. Qed.

#[export] Hint Resolve total_ret total_gets total_modify total_undef total_checked : core.

(** Straight-line code. *)
Ltac total_tac :=
  repeat match goal with
  | |- total (bind _ _) => apply total_bind; [|intros ?]
  | |- total (if ?b then _ else _) => destruct b
  | |- total (match ?x with _ => _ end) => destruct x
  end; auto.

Lemma total_part_get i : total (part_get i).
Proof. unfold part_get. total_tac. Qed.
Lemma total_part_put i p : total (part_put i p).
Proof. unfold part_put. total_tac. Qed.
Lemma total_put_nso i n sz off : total (put_name_size_offset i n sz off).
Proof. unfold put_name_size_offset. total_tac; [apply total_part_get|apply total_part_put]. Qed.
#[export] Hint Resolve total_part_get total_part_put total_put_nso : core.

Lemma total_set_other c i n j : total (ecnt_newpart_set_other_parts c i n j).
Proof. unfold ecnt_newpart_set_other_parts. total_tac. Qed.
Lemma total_reserve n a b : total (newpart_reserve n a b).
Proof. unfold newpart_reserve, name_abbreviates. total_tac. Qed.
#[export] Hint Resolve total_set_other total_reserve : core.

(** The size field answers a rest that is no longer than its argument. *)
Lemma newpart_size_rest s bs st :
  match newpart_size s bs st with
  | Done (Some (_, rest), _) => (String.length rest <= String.length s)%nat
  | OutOfFuel => False
  | _ => True
  end.
Proof.
  assert (match (let '(v, s') := ecnt_memparse s bs in
      let size := if u32 v =? 0 then SIZE_TO_GET else u32 v in
      @ret mtd _ (if size <? bs then None else Some (size, s'))) st with
    | Done (Some (_, rest), _) => (String.length rest <= String.length s)%nat
    | OutOfFuel => False
    | _ => True end) as H.
  { pose proof (ecnt_memparse_rest s bs) as Hr. destruct (ecnt_memparse s bs) as [v s'].
    unfold ret. cbn in Hr |- *. by destruct (_ <? bs). }
  unfold newpart_size. destruct s as [|c s]; [exact H|].
  destruct c as [[] [] [] [] [] [] [] []]; try exact H.
  unfold bind, gets, modify, ret. destruct (has_remaining_part_flag st); simpl; [done|lia].
Qed.

(** What follows one definition: the rest of the list or the end of it. *)
Lemma total_comma {A} (s : string) (rec : string -> M mtd A) (fin : M mtd A) :
  (forall s', (String.length s' < String.length s)%nat -> total (rec s')) -> total fin ->
  total (match s with String "," s' => rec s' | _ => fin end).
Proof.
  intros Hr Hf. destruct s as [|ch s]; [done|].
  destruct ch as [[] [] [] [] [] [] [] []]; try done. apply Hr. simpl. lia.
Qed.

Lemma ecnt_newpart_total fuel c s this extra bs :
  (String.length s < fuel)%nat -> total (ecnt_newpart fuel c s this extra bs).
Proof.
  revert s this extra. induction fuel as [|fuel IH]; intros s this extra Hf; [lia|].
  intros st. cbn [ecnt_newpart]. unfold bind at 1. pose proof (newpart_size_rest s bs st) as Hsz.
  destruct (newpart_size s bs st) as [[[[size s1]|] st1]| |]; [|done..].
  destruct (newpart_name s1) as [[[name nl] s2]|] eqn:En; [|done].
  apply newpart_name_rest in En. pose proof (newpart_offset_rest s2) as Ho.
  destruct (newpart_offset s2) as [off s3]. cbn [snd] in Ho.
  revert st1. match goal with |- forall st1, ?m st1 <> _ => change (total m) end.
  apply total_bind; [auto|]. intros [tp ex].
  apply total_bind.
  - apply total_comma; [|total_tac]. intros s' Hs'. apply IH. lia.
  - intros a. total_tac.
Qed.

(** ** Reading and writing the table *)

Section table.
Implicit Types (st : mtd) (p : part) (i : nat).

Lemma wp_part_get i p (Q : part -> mtd -> Prop) st :
  parts st !! i = Some p -> Q p st -> wp (part_get (Z.of_nat i)) Q st.
Proof.
  intros Hp HQ. unfold part_get. wp_steps. eapply wp_checked; [|done].
  unfold znth. by rewrite (proj2 (Z.leb_le _ _)), Nat2Z.id by lia.
Qed.

Lemma wp_part_put i p (Q : unit -> mtd -> Prop) st :
  (i < length (parts st))%nat -> Q tt (set_parts (<[i := p]> (parts st)) st) ->
  wp (part_put (Z.of_nat i) p) Q st.
Proof.
  intros Hi HQ. unfold part_put. wp_steps. eapply wp_checked; [|wp_steps; done].
  unfold zset. rewrite (proj2 (Z.leb_le _ _)), (proj2 (Z.ltb_lt _ _)), Nat2Z.id by lia. done.
Qed.

Lemma wp_put_offset i p v (Q : unit -> mtd -> Prop) st :
  parts st !! i = Some p ->
  Q tt (set_parts (<[i := Part (p_name p) (p_size p) (u32 v) (p_mask_flags p)]> (parts st)) st) ->
  wp (put_offset (Z.of_nat i) v) Q st.
Proof.
  intros Hp HQ. unfold put_offset. wp_steps. eapply wp_part_get; [done|].
  eapply wp_part_put; [by eapply lookup_lt_Some|done].
Qed.

Lemma wp_put_size i p v (Q : unit -> mtd -> Prop) st :
  parts st !! i = Some p ->
  Q tt (set_parts (<[i := Part (p_name p) (u32 v) (p_offset p) (p_mask_flags p)]> (parts st)) st) ->
  wp (put_size (Z.of_nat i) v) Q st.
Proof.
  intros Hp HQ. unfold put_size. wp_steps. eapply wp_part_get; [done|].
  eapply wp_part_put; [by eapply lookup_lt_Some|done].
Qed.

Lemma wp_name_is p name nm (Q : bool -> mtd -> Prop) st :
  p_name p = Some nm -> Q (bool_decide (nm = name)) st -> wp (name_is p name) Q st.
Proof. intros Hn HQ. unfold name_is. by rewrite Hn. Qed.
End table.

(** ** The forward pass *)

(** A definition for a flash of [size] bytes: a name, and a size that is
    still to be found, or that no offset in the flash takes past 2^32.  The
    parser can leave other sizes, too, "4095m" for one: then the sum of offset
    and size wraps around. *)
Definition definition_ok (size : Z) (p : part) : Prop :=
  p_name p <> None /\
  (p_size p = SIZE_TO_GET \/ p_size p = SIZE_REMAINING \/ 0 <= p_size p < 2 ^ 32 - size).

(** The first [m] entries are aligned, in order and inside the flash; an
    entry whose size is still to be found only has its offset. *)
Definition in_order (blocksize size : Z) (ps : list part) (m : nat) : Prop :=
  (forall a p, (a < m)%nat -> ps !! a = Some p ->
     p_offset p mod blocksize = 0 /\ 0 <= p_offset p <= size /\
     (p_size p <> SIZE_TO_GET -> p_size p <> SIZE_REMAINING -> p_offset p + p_size p <= size)) /\
  (forall a b p q, (a < b < m)%nat -> ps !! a = Some p -> ps !! b = Some q ->
     p_size p <> SIZE_TO_GET -> p_offset p + p_size p <= p_offset q).

Section forward.
Variables (c : mtd_config) (k size : Z).
Hypothesis (Hk : 0 <= k <= 30) (Hsize : 0 <= size <= 2 ^ 31) (Hwhole : size mod 2 ^ k = 0).

(** The loop invariant before entry [i]. *)
Record fwd (names : list (option string)) (i : nat) (l : layout_vars) (st : mtd) : Prop := {
  fw_num : num_parts st = Z.of_nat (length (parts st));
  fw_names : p_name <$> parts st = names;
  fw_ok : forall a p, (i <= a)%nat -> parts st !! a = Some p -> definition_ok size p;
  fw_named : forall a p, parts st !! a = Some p -> p_name p <> None;
  fw_done : in_order (2 ^ k) (offset l) (parts st) i;
  fw_final : forall a p, (a < i)%nat -> parts st !! a = Some p -> p_size p <> SIZE_REMAINING;
  fw_offset : 0 <= offset l <= size /\ offset l mod 2 ^ k = 0;
  fw_first : first_back_forward_index l = -1
}.

(** What the pass leaves: the entries before the first that is placed from
    the end of the flash. *)
Definition fwd_end (names : list (option string)) (l : layout_vars) (st : mtd) : Prop :=
  p_name <$> parts st = names /\
  (first_back_forward_index l = -1 /\ in_order (2 ^ k) size (parts st) (length (parts st)) \/
   exists m, first_back_forward_index l = Z.of_nat m /\ in_order (2 ^ k) size (parts st) m).

Lemma pow_k : 0 < 2 ^ k <= 2 ^ 30.
Proof. split; [apply Z.pow_pos_nonneg; lia|apply Z.pow_le_mono_r; lia]. Qed.

Lemma in_order_weaken bs lim lim' ps m :
  lim <= lim' -> in_order bs lim ps m -> in_order bs lim' ps m.
Proof.
  intros Hl [H1 H2]. split; [|done]. intros a p Ha Hp.
  destruct (H1 a p Ha Hp) as (? & ? & H). split; [done|]. split; [lia|]. intros Ht Hr.
  specialize (H Ht Hr). lia.
Qed.

(** Placing entry [i] at the current offset. *)
Lemma in_order_extend off off' ps i p' :
  (i < length ps)%nat -> in_order (2 ^ k) off ps i ->
  (forall a p, (a < i)%nat -> ps !! a = Some p -> p_size p <> SIZE_REMAINING) ->
  p_offset p' = off -> 0 <= off <= off' -> off mod 2 ^ k = 0 ->
  (p_size p' <> SIZE_TO_GET -> p_size p' <> SIZE_REMAINING -> off + p_size p' <= off') ->
  in_order (2 ^ k) off' (<[i := p']> ps) (i + 1).
Proof.
  intros Hi [H1 H2] Hrem Hp' Hoff Hmod Hfit. split.
  - intros a p Ha Hp. destruct (decide (a = i)) as [->|Hne].
    + rewrite list_lookup_insert_eq in Hp by done. injection Hp as <-. rewrite Hp'. auto.
    + rewrite list_lookup_insert_ne in Hp by done.
      destruct (H1 a p ltac:(lia) Hp) as (? & ? & H). split; [done|]. split; [lia|].
      intros Ht Hr. specialize (H Ht Hr). lia.
  - intros a b p q Hab Hp Hq Ht. rewrite list_lookup_insert_ne in Hp by lia.
    destruct (decide (b = i)) as [->|Hne].
    + rewrite list_lookup_insert_eq in Hq by done. injection Hq as <-. rewrite Hp'.
      destruct (H1 a p ltac:(lia) Hp) as (_ & _ & H). apply H; [done|]. by eapply Hrem; [|done]; lia.
    + rewrite list_lookup_insert_ne in Hq by done. by eapply (H2 a b); [lia|..].
Qed.

Lemma ALIGN_within x : 0 <= x <= size -> ALIGN x (2 ^ k) <= size.
Proof.
  intros Hx. pose proof pow_k. rewrite ALIGN_eq by lia.
  pose proof (Z.div_mod size (2 ^ k) ltac:(lia)) as Hq. rewrite Hwhole in Hq.
  assert ((x + (2 ^ k - 1)) / 2 ^ k < size / 2 ^ k + 1); [|nia].
  apply Z.div_lt_upper_bound; lia.
Qed.

(** What an iteration leaves. *)
Definition step_ok (names : list (option string)) (i : nat) (r : step_result) (st : mtd) : Prop :=
  match r with
  | Continue l => fwd names (i + 1) l st
  | Break l => fwd_end names l st
  | Return0 => True
  end.

(** [st] is [st0] with entry [i] replaced by [p'] of the same name. *)
Definition replaced (i : nat) (p' : part) (st0 st : mtd) : Prop :=
  parts st = <[i := p']> (parts st0) /\ num_parts st = num_parts st0 /\
  exists p, parts st0 !! i = Some p /\ p_name p' = p_name p.

Lemma replaced_names i p' st0 st :
  replaced i p' st0 st -> p_name <$> parts st = p_name <$> parts st0.
Proof.
  intros (-> & _ & p & Hp & Hn). rewrite list_fmap_insert, Hn. apply list_insert_id.
  by rewrite list_lookup_fmap, Hp.
Qed.

(** The invariant after entry [i] took its place. *)
Lemma fwd_extend names i l l' p' st0 st :
  fwd names i l st0 -> replaced i p' st0 st -> p_offset p' = offset l ->
  first_back_forward_index l' = -1 -> p_size p' <> SIZE_REMAINING ->
  offset l <= offset l' <= size -> offset l' mod 2 ^ k = 0 ->
  (p_size p' <> SIZE_TO_GET -> offset l + p_size p' <= offset l') ->
  fwd names (i + 1) l' st.
Proof.
  intros [Hn Hnm Hok Hnd Hd Hf Ho Hb] HR Hoff Hb' Hrem Hle Hmod Hfit.
  pose proof (replaced_names _ _ _ _ HR) as HN. destruct HR as (Hps & Hnum & p & Hp & Hname).
  pose proof (lookup_lt_Some _ _ _ Hp) as Hi. rewrite Hps in HN.
  constructor; rewrite ?Hps, ?Hnum.
  - by rewrite length_insert.
  - by rewrite HN.
  - intros a q Ha Hq. rewrite list_lookup_insert_ne in Hq by lia. by eapply Hok; [|done]; lia.
  - intros a q Hq. destruct (decide (a = i)) as [->|]; [|rewrite list_lookup_insert_ne in Hq by done; eauto].
    rewrite list_lookup_insert_eq in Hq by done. injection Hq as <-. rewrite Hname. eauto.
  - apply in_order_extend with (off := offset l); auto; lia.
  - intros a q Ha Hq. destruct (decide (a = i)) as [->|Hne].
    + rewrite list_lookup_insert_eq in Hq by done. by injection Hq as <-.
    + rewrite list_lookup_insert_ne in Hq by done. by eapply Hf; [|done]; lia.
  - split; [lia|done].
  - done.
Qed.

Lemma forward_place_spec names i l0 l p' st0 st :
  fwd names i l0 st0 -> replaced i p' st0 st -> p_offset p' = offset l0 ->
  offset l = offset l0 -> first_back_forward_index l = -1 ->
  p_size p' <> SIZE_REMAINING -> 0 <= p_size p' -> offset l0 + p_size p' < 2 ^ 32 ->
  wp (forward_place (2 ^ k) size (Z.of_nat i) l) (step_ok names i) st.
Proof.
  intros Hinv HR Hoff Hl Hb Hrem Hsz Hsum. pose proof pow_k as Hpow.
  destruct (fw_offset _ _ _ _ Hinv) as [Ho Hmod].
  assert (parts st !! i = Some p') as Hp.
  { destruct HR as (-> & _ & p & Hp & _). apply list_lookup_insert_eq. by eapply lookup_lt_Some. }
  assert (exists nm, p_name p' = Some nm) as [nm Hnm].
  { destruct HR as (_ & _ & p & Hp0 & ->). pose proof (fw_named _ _ _ _ Hinv _ _ Hp0).
    destruct (p_name p); [eauto|done]. }
  unfold forward_place. wp_step. eapply wp_part_get; [done|].
  assert (u32 (offset l + p_size p') = offset l + p_size p') as -> by (apply Z.mod_small; lia).
  destruct (Z.ltb_spec size (offset l + p_size p')) as [|Hle]; [by wp_steps|].
  pose proof (ALIGN_within (offset l + p_size p') ltac:(lia)) as HA.
  destruct (ALIGN_bounds (offset l + p_size p') k ltac:(lia) ltac:(lia) ltac:(lia)) as [HB HM].
  wp_step. eapply wp_part_get; [done|]. wp_step. eapply wp_name_is; [done|]. wp_step.
  destruct (bool_decide (nm = TCLINUX)); wp_steps; cbn [step_ok];
    apply (fwd_extend names i l0 _ p' st0); simpl; auto; lia.
Qed.

Lemma replaced_refl i p st : parts st !! i = Some p -> replaced i p st st.
Proof. intros Hp. split; [by rewrite list_insert_id|]. eauto. Qed.

Lemma replaced_lookup i p' st0 st : replaced i p' st0 st -> parts st !! i = Some p'.
Proof.
  intros (-> & _ & p & Hp & _). apply list_lookup_insert_eq. by eapply lookup_lt_Some.
Qed.

Lemma replaced_put i p' p'' st0 st :
  replaced i p' st0 st -> p_name p'' = p_name p' ->
  replaced i p'' st0 (set_parts (<[i := p'']> (parts st)) st).
Proof.
  intros (Hps & Hn & p & Hp & Hname) Hnm. split; [|split; [done|]].
  - simpl. by rewrite Hps, list_insert_insert_eq.
  - exists p. by rewrite Hnm.
Qed.

Lemma replaced_put_offset i p' v st0 st (Q : unit -> mtd -> Prop) :
  replaced i p' st0 st ->
  (forall st', replaced i (Part (p_name p') (p_size p') (u32 v) (p_mask_flags p')) st0 st' -> Q tt st') ->
  wp (put_offset (Z.of_nat i) v) Q st.
Proof.
  intros HR HQ. eapply wp_put_offset; [by eapply replaced_lookup|]. by eapply HQ, replaced_put.
Qed.

Lemma replaced_put_size i p' v st0 st (Q : unit -> mtd -> Prop) :
  replaced i p' st0 st ->
  (forall st', replaced i (Part (p_name p') (u32 v) (p_offset p') (p_mask_flags p')) st0 st' -> Q tt st') ->
  wp (put_size (Z.of_nat i) v) Q st.
Proof.
  intros HR HQ. eapply wp_put_size; [by eapply replaced_lookup|]. by eapply HQ, replaced_put.
Qed.

Lemma bootloader_romfile_size_bound (b : bool) :
  0 <= ecnt_get_bootloader_romfile_size c (if b then BOOTLOADER_PART else ROMFILE_PART) < 2 ^ 30.
Proof.
  destruct c as [o bl m ? ?]. unfold ecnt_get_bootloader_romfile_size. simpl.
  destruct b, o, bl, m; vm_compute; intuition discriminate.
Qed.

(** Ends of the pass. *)
Lemma fwd_break_at names i l st :
  fwd names i l st -> fwd_end names (set_first_back (Z.of_nat i) l) st.
Proof.
  intros [Hn Hnm Hok Hnd Hd Hf Ho Hb]. split; [done|]. right. exists i. split; [done|].
  eapply in_order_weaken; [|done]. lia.
Qed.

Lemma fwd_finish names l st : fwd names (length (parts st)) l st -> fwd_end names l st.
Proof.
  intros [Hn Hnm Hok Hnd Hd Hf Ho Hb]. split; [done|]. left. split; [done|].
  eapply in_order_weaken; [|done]. lia.
Qed.

Lemma fwd_break_remaining names i l p' st0 st b :
  fwd names i l st0 -> replaced i p' st0 st -> p_offset p' = offset l -> p_size p' = SIZE_REMAINING ->
  fwd_end names (Vars (offset l) (Z.of_nat i) (Z.of_nat i + 1) (p_offset p') b) st.
Proof.
  intros Hinv HR Hoff Hrem. split.
  { rewrite (replaced_names _ _ _ _ HR). by apply (fw_names _ _ _ _ Hinv). }
  right. exists (i + 1)%nat. split; [simpl; lia|].
  destruct Hinv as [Hn Hnm Hok Hnd Hd Hf Ho Hb]. destruct HR as (-> & _ & p & Hp & _).
  apply in_order_extend with (off := offset l); try lia; try done.
  by eapply lookup_lt_Some.
Qed.

(** The part of an iteration that gives entry [i] its place. *)
Lemma forward_tail_spec names i l p1 st0 st :
  fwd names i l st0 -> replaced i p1 st0 st ->
  p_size p1 = SIZE_REMAINING \/ 0 <= p_size p1 < 2 ^ 32 - size ->
  wp (do! put_offset (Z.of_nat i) (offset l) in
      let! p := part_get (Z.of_nat i) in
      if p_size p =? SIZE_REMAINING then
        let l' := Vars (offset l) (Z.of_nat i) (first_back_forward_index l) (p_offset p)
                       (is_tclinux_remaining_flag l) in
        if Z.of_nat i + 1 =? num_parts st0 then
          do! put_size (Z.of_nat i) (u32 (size - offset l)) in
          forward_place (2 ^ k) size (Z.of_nat i) l'
        else
          let! t := name_is p TCLINUX in
          ret (Break (Vars (offset l') (size_remaining_index l') (Z.of_nat i + 1)
                           (size_remaining_offset_start l') (is_tclinux_remaining_flag l' || t)))
      else forward_place (2 ^ k) size (Z.of_nat i) l) (step_ok names i) st.
Proof.
  intros Hinv HR Hsz. destruct (fw_offset _ _ _ _ Hinv) as [Ho Hmod].
  assert (u32 (offset l) = offset l) as Hu by (apply Z.mod_small; lia).
  wp_step. eapply replaced_put_offset; [done|]. intros st1 HR1. rewrite Hu in HR1.
  set (p2 := Part _ _ _ _) in HR1. assert (p_name p2 = p_name p1) as Hname by done.
  wp_step. eapply wp_part_get; [by eapply replaced_lookup|]. cbn [p_size p2 p_offset].
  destruct (Z.eqb_spec (p_size p1) SIZE_REMAINING) as [Hr|Hr].
  - destruct (_ =? num_parts st0).
    + wp_step. eapply replaced_put_size; [done|]. intros st2 HR2.
      assert (u32 (u32 (size - offset l)) = size - offset l) as Hu2.
      { unfold u32. rewrite Zmod_mod. apply Z.mod_small. lia. }
      rewrite Hu2 in HR2. eapply (forward_place_spec names i l); [done|exact HR2|..]; simpl; try lia.
      * by apply (fw_first _ _ _ _ Hinv).
      * unfold SIZE_REMAINING, UINT_MAX. lia.
    + assert (exists nm, p_name p2 = Some nm) as [nm Hnm].
      { destruct HR1 as (_ & _ & p & Hp0 & ->). pose proof (fw_named _ _ _ _ Hinv _ _ Hp0).
        destruct (p_name p); [eauto|done]. }
      wp_step. eapply wp_name_is; [exact Hnm|]. wp_step. cbn [step_ok].
      eapply (fwd_break_remaining names i l p2); [done|exact HR1|done|done].
  - destruct Hsz as [|Hsz]; [done|].
    eapply (forward_place_spec names i l); [done|exact HR1|..]; simpl; try done; try lia.
    by apply (fw_first _ _ _ _ Hinv).
Qed.

Lemma forward_step_spec names i l st :
  fwd names i l st -> (i < length (parts st))%nat ->
  wp (forward_step c (2 ^ k) size (Z.of_nat i) l) (step_ok names i) st.
Proof.
  intros Hinv Hi. destruct (lookup_lt_is_Some_2 _ _ Hi) as [p Hp].
  destruct (fw_ok _ _ _ _ Hinv i p ltac:(lia) Hp) as [Hnn Hsz].
  destruct (p_name p) as [nm|] eqn:Hnm; [|done]. clear Hnn.
  destruct (fw_offset _ _ _ _ Hinv) as [Ho Hmod].
  assert (u32 (offset l) = offset l) as Hu by (apply Z.mod_small; lia).
  unfold forward_step. do 3 wp_step. eapply wp_part_get; [done|].
  destruct (_ =? OFFSET_BACK_FORWARD); [wp_step; by apply fwd_break_at|].
  pose proof (replaced_refl i p st Hp) as HR0. wp_step.
  destruct (Z.eqb_spec (p_size p) SIZE_TO_GET) as [Hg|Hg].
  - wp_step. eapply replaced_put_offset; [done|]. intros st1 HR1. rewrite Hu in HR1.
    wp_step. eapply wp_name_is; [done|]. wp_step. eapply wp_name_is; [done|].
    destruct (bool_decide (nm = BOOTLOADER_PART) || bool_decide (nm = ROMFILE_PART)).
    + wp_step. eapply replaced_put_size; [done|]. intros st2 HR2. wp_step.
      cbv iota. eapply (forward_tail_spec names i l _ st st2); [done|exact HR2|right]. cbn [p_size].
      pose proof (bootloader_romfile_size_bound (bool_decide (nm = BOOTLOADER_PART))) as HB.
      unfold u32. rewrite Z.mod_small; lia.
    + do 2 wp_step. cbn [step_ok].
      eapply (fwd_extend names i l l); [done|exact HR1|..]; simpl; try done; try lia.
      * by apply (fw_first _ _ _ _ Hinv).
      * by rewrite Hg.
  - wp_step. cbv iota. apply (forward_tail_spec names i l p st st); [done|done|].
    destruct Hsz as [|[|]]; [done|by left|by right].
Qed.

Lemma forward_loop_from names n i l st :
  fwd names i l st -> (i + n = length (parts st))%nat ->
  wp (forward_loop n c (2 ^ k) size (Z.of_nat i) l)
     (fun r st' => match r with Some l' => fwd_end names l' st' | None => True end) st.
Proof.
  revert i l st. induction n as [|n IH]; intros i l st Hinv Hn; cbn [forward_loop].
  - wp_step. apply fwd_finish. by replace (length (parts st)) with i by lia.
  - wp_step. eapply wp_mono; [apply forward_step_spec; [done|lia]|].
    intros [l'|l'|] st'; cbn [step_ok]; intros H; [|by wp_step..].
    replace (Z.of_nat i + 1) with (Z.of_nat (i + 1)) by lia. apply IH; [done|].
    pose proof (f_equal length (fw_names _ _ _ _ H)) as H1.
    pose proof (f_equal length (fw_names _ _ _ _ Hinv)) as H2.
    rewrite length_fmap in H1, H2. lia.
Qed.
End forward.

(** ** The backward pass and the check of the string length *)

Lemma backward_loop_invariant n bs size i offset total st st' :
  u32 (offset + total) = size -> backward_loop n bs size i offset total st <> Done (None, st').
Proof.
  revert i offset total st. induction n as [|n IH]; intros i offset total st Hs; cbn [backward_loop]; [done|].
  intros (p & s1 & _ & H)%bind_inv. apply bind_inv in H as (? & s2 & _ & H).
  apply bind_inv in H as (? & s3 & _ & H).
  assert (u32 (u32 (offset - ALIGN (p_size p) bs) + u32 (total + ALIGN (p_size p) bs)) = size) as Hs'.
  { rewrite <- Hs. unfold u32. rewrite <- Zplus_mod. f_equal. lia. }
  rewrite Hs', Z.ltb_irrefl in H. by apply IH in H.
Qed.

Lemma string_length_app a b : String.length (a +:+ b) = (String.length a + String.length b)%nat.
Proof. induction a as [|x a IH]; simpl; [done|]. by rewrite IH. Qed.

(** ** Properties *)

(** Parsing the partition string always ends: [ecnt_mtdpart_setup] needs
    at most one round of [ecnt_newpart] per character of [cmdline], whatever
    the string, the flash and the table left by an earlier call. *)
Theorem ecnt_mtdpart_setup_terminates c s bs st extra_fuel :
  ecnt_mtdpart_setup (256 + extra_fuel) c s bs st <> OutOfFuel.
Proof.
  unfold ecnt_mtdpart_setup. destruct (_ <? _); [done|].
  assert (forall d st', into_cmdline d st' <> OutOfFuel) as Hi.
  { intros d st'. unfold into_cmdline. by destruct (_ <? _). }
  assert (forall d st', match into_cmdline d st' with
                        | Done (l, _) => (String.length l < 256)%nat | _ => True end) as Hl.
  { intros d st'. unfold into_cmdline, STR_LEN, strlen.
    destruct (Z.ltb_spec 256 (Z.of_nat (String.length d) + 1)); simpl; [done|lia]. }
  assert (match ecnt_check_mtdpart_str c s st with
          | Done (l, _) => (String.length l < 256)%nat | Undef => True | OutOfFuel => False end) as Hc.
  { assert (forall d st', match into_cmdline d st' with
                  | Done (l, _) => (String.length l < 256)%nat | Undef => True | OutOfFuel => False end) as H.
    { intros d st'. specialize (Hi d st'). specialize (Hl d st'). by destruct (into_cmdline d st') as [[]| |]. }
    unfold ecnt_check_mtdpart_str.
    destruct (strstr s BOOTLOADER_PART), (openwrt c || _); cbn [andb negb]; first [apply H|exact I]. }
  unfold bind. destruct (ecnt_check_mtdpart_str c s st) as [[cmd st1]| |]; [|done..].
  pose proof (ecnt_newpart_total (256 + extra_fuel) c cmd 0 0 bs ltac:(lia) st1) as Hn.
  destruct (ecnt_newpart (256 + extra_fuel) c cmd 0 0 bs st1) as [[[r|] st2]| |]; done.
Qed.


(** The test "partitioning exceeds flash size" of the backward pass can
    never succeed: [offset] falls by what [total_back_forward_size] grows, so
    their sum stays the size of the flash and a table too large for the flash
    is laid out with offsets that wrap around. *)
Theorem backward_pass_never_reports n bs size i st st' :
  is_u32 size -> backward_loop n bs size i (u32 size) 0 st <> Done (None, st').
Proof.
  intros Hs. apply backward_loop_invariant. unfold u32, is_u32 in *.
  rewrite Z.add_0_r, Zmod_mod. apply Z.mod_small. lia.
Qed.

(** A partition string of 231 characters that names neither "bootloader"
    nor "romfile" passes the length check of [ecnt_mtdpart_setup] and then
    overruns [cmdline] by the terminating NUL. *)
Theorem mtdpart_setup_overruns_cmdline fuel c s bs st :
  openwrt c = false -> strstr s BOOTLOADER_PART = None -> strstr s ROMFILE_PART = None ->
  strlen s = 231 -> ecnt_mtdpart_setup fuel c s bs st = Undef.
Proof.
  intros Ho Hb Hr Hl. unfold ecnt_mtdpart_setup, ecnt_check_mtdpart_str.
  rewrite Hb, Hr, Ho, Hl. cbn [orb andb negb].
  change (STR_LEN <? 231 + strlen BOOTLOADER_PART_STR + strlen ROMFILE_PART_STR) with false. cbv iota.
  unfold bind, into_cmdline, strlen in *. rewrite !string_length_app.
  change (String.length BOOTLOADER_PART_STR) with 14%nat.
  change (String.length ROMFILE_PART_STR) with 11%nat.
  destruct (Z.ltb_spec STR_LEN (Z.of_nat (14 + (11 + String.length s)) + 1)); [done|].
  unfold STR_LEN in *. lia.
Qed.

(** A partition string that names "bootloader" but not "romfile" is
    completed with [strcat] on an array without a terminating NUL (unless the
    build needs no romfile partition). *)
Theorem mtdpart_setup_unterminated fuel c s bs st p :
  openwrt c = false -> strstr s BOOTLOADER_PART = Some p -> strstr s ROMFILE_PART = None ->
  strlen s <= 231 -> ecnt_mtdpart_setup fuel c s bs st = Undef.
Proof.
  intros Ho Hb Hr Hl. unfold ecnt_mtdpart_setup, ecnt_check_mtdpart_str.
  rewrite Hb, Hr, Ho. cbn [orb andb negb].
  change (strlen BOOTLOADER_PART_STR) with 14. change (strlen ROMFILE_PART_STR) with 11. unfold STR_LEN.
  by rewrite (proj2 (Z.ltb_ge _ _)) by lia.
Qed.

(** ** Concrete runs *)

Module MtdWitnesses.

Definition cfg : mtd_config := MtdCfg false false false 1 "".
Definition named (n : string) (sz : Z) : part := Part (Some n) sz OFFSET_CONTINUOUS 0.

(** A table as the parser leaves it, with one partition from the end. *)
Definition table : mtd :=
  Mtd true [named "bootloader" SIZE_TO_GET; named "romfile" SIZE_TO_GET;
            named "tclinux" 0x1900000; named "yaffs" SIZE_REMAINING;
            Part (Some "reservearea"%string) 0x40000 OFFSET_BACK_FORWARD 0]
      5 false 0 0 (-1) (-1).


Lemma backward_pass_never_reports_witness :
  is_u32 0x100000 /\
  (exists o st', backward_loop 1 0x20000 0x100000 0 0x100000 0
                   (set_parts [named "huge" 0x40000000] table) = Done (Some o, st') /\
                 map p_offset (parts st') = [0xC0100000]) /\
  backward_loop 1 0x20000 0x100000 0 (u32 0x100000) 0
    (set_parts [named "huge" 0x40000000] table) <> Done (None, table).
Proof.
  assert (is_u32 0x100000) as H by (unfold is_u32; lia). split; [exact H|].
  split; [eexists _, _; split; vm_compute; reflexivity|]. apply (backward_pass_never_reports 1 0x20000 0x100000 0); exact H.
Defined.

Fixpoint repeat_char (n : nat) (c : ascii) : string :=
  match n with O => EmptyString | S n' => String c (repeat_char n' c) end.
Definition long_string : string := "1m[" +:+ repeat_char 227 "x" +:+ "]".

Lemma mtdpart_setup_overruns_cmdline_witness :
  strlen long_string = 231 /\ ecnt_mtdpart_setup 256 cfg long_string 0x20000 mtd_init = Undef.
Proof.
  split; [reflexivity|].
  apply (mtdpart_setup_overruns_cmdline 256 cfg long_string); vm_compute; reflexivity.
Defined.

Lemma mtdpart_setup_unterminated_witness :
  ecnt_mtdpart_setup 256 cfg "512k[bootloader],-[rest]" 0x20000 mtd_init = Undef.
Proof.
  apply (mtdpart_setup_unterminated 256 cfg "512k[bootloader],-[rest]" 0x20000 mtd_init
           "bootloader],-[rest]"); vm_compute; [reflexivity..|discriminate].
Defined.

(** A name that abbreviates "tclinux" reserves the two extra entries but
    does not fill them: the forward pass reads a NULL name. *)
Example abbreviated_name_null :
  (let! ok := ecnt_mtdpart_setup 256 cfg "1m[tc]" 0x20000 in
   let! n := gets num_parts in
   forward_loop (Z.to_nat n) cfg 0x20000 0x8000000 0 (Vars 0 (-1) (-1) 0 false)) mtd_init = Undef.
Proof. vm_compute. reflexivity. Qed.

(** A partition of "4095m" is accepted for a flash of 128 MiB, and the
    partition behind it gets the same place as the one in front. *)
Theorem forward_pass_wraps :
  match (let! ok := ecnt_mtdpart_setup 256 cfg "1m[a],4095m[b],1m[c]" 0x20000 in
         let! n := gets num_parts in
         forward_loop (Z.to_nat n) cfg 0x20000 0x8000000 0 (Vars 0 (-1) (-1) 0 false)) mtd_init with
  | Done (r, st) => (bool_decide (r = None), map (fun p => (p_name p, p_offset p, p_size p)) (parts st))
  | _ => (true, [])
  end = (false,
   [(Some "bootloader"%string, 0, 0x80000); (Some "romfile"%string, 0x80000, 0x40000);
    (Some "a"%string, 0xC0000, 0x100000); (Some "b"%string, 0x1C0000, 0xFFF00000);
    (Some "c"%string, 0xC0000, 0x100000); (Some "reservearea"%string, OFFSET_BACK_FORWARD, 0x40000)]).
Proof. vm_compute. reflexivity. Qed.

(** The string of the MTK profile. *)
Example profile_table :
  match ecnt_mtdpart_setup 256 cfg "25m[tclinux],25m[tclinux_slave],1m[config],-[yaffs]" 0x20000 mtd_init with
  | Done (ok, st) => (ok, map p_name (parts st), num_parts st)
  | _ => (0, [], 0)
  end = (1, Some <$> ["bootloader"; "romfile"; "kernel"; "rootfs"; "tclinux"; "kernel_slave";
                      "rootfs_slave"; "tclinux_slave"; "config"; "yaffs"; "reservearea"]%string, 11).
Proof. vm_compute. reflexivity. Qed.
End MtdWitnesses.
