(* ===== verification/Upgrade.v ===== *)
(** Upgrade of the flash over TFTP ([ecnt_ImageUpgrade] and
    [boot_from_another_image] of [drivers/misc/ecnt/image/ecnt_image.c],
    [fit_all_image_verify] of [common/image-fit.c]).

    The state adds to the flash layer and the partition table the commands
    handed to [run_command] and the rate limit of the Ethernet driver.
    Console output and the cache flush are not modelled.  The walk over device
    tree nodes ([libfdt]) and the check of one image node are parameters. *)

From stdpp Require Import base numbers list option strings gmap.
From Stdlib Require Import ZArith Lia.
From S2P Require Import Prelude Crc FlashHal Fip ImgInfo Mtd.

Definition DEFAULT_CRC : Z := 0xFFFFFFFF.
Definition CONFIG_TCBOOT_OFFSET : Z := 0.
Definition CONFIG_MTK_ALLINONE_OFFSET : Z := 0.
Definition NO_ADDR : Z := 0xFFFFFFFF.
Definition VERIFY_SUCCESS : Z := 0.
Definition VERIFY_ENCRYPTED_SUCCESS : Z := 2.
Definition CONFIG_BOOTFLAG_SWAP_COMMAND : string := "bootflag swap".
Definition CONFIG_BOOTCOMMAND : string := "flash imgread 2048;bootm".

(** The header of a TRX image at address [h]. *)
Definition trx_header_len (r : ram_t) (h : Z) : Z := ram_le r (h + 4) 4.
Definition trx_len (r : ram_t) (h : Z) : Z := ram_le r (h + 8) 4.
Definition trx_crc32 (r : ram_t) (h : Z) : Z := ram_le r (h + 12) 4.

(** [crc32_no_comp(DEFAULT_CRC, addr, len)] over RAM. *)
Definition crc_ram (r : ram_t) (addr len : Z) : Z :=
  crc32_no_comp addr DEFAULT_CRC (ram_bytes r addr len).

(** The next node of the tree with its depth, and the check of the hashes of
    one image node. *)
Class FitLib := {
  fdt_next_node : ram_t -> Z -> Z -> Z -> Z * Z;
  fit_image_verify : ram_t -> Z -> Z -> bool
}.

(** What [run_command] answers. *)
Class CommandShell := { command_result : list string -> string -> Z }.

(** The values callers of the two getters that end without [return] find. *)
Class NoReturn := { ecnt_get_ubootenv_size : Z; ecnt_get_factory_size : Z }.

Section fit.
Context `{Libfdt} `{FitLib}.

Fixpoint fit_verify_nodes (fuel : nat) (r : ram_t) (fit noffset ndepth : Z) : outcome Z :=
  if (0 <=? noffset) && (0 <? ndepth) then
    match fuel with
    | O => OutOfFuel
    | S fuel' =>
        if (ndepth =? 1) && negb (fit_image_verify r fit noffset) then Done 0
        else let '(noffset, ndepth) := fdt_next_node r fit noffset ndepth in
             fit_verify_nodes fuel' r fit noffset ndepth
    end
  else Done 1.

Definition fit_all_image_verify (fuel : nat) (r : ram_t) (fit : Z) : outcome Z :=
  let images_noffset := fdt_path_offset r fit "/images" in
  if images_noffset <? 0 then Done 0
  else let '(noffset, ndepth) := fdt_next_node r fit images_noffset 0 in
       fit_verify_nodes fuel r fit noffset ndepth.
End fit.

Record ust (F : Type) := Ust {
  u_ms : mtd_st (F:=F);
  commands : list string;       (* handed to [run_command], latest first *)
  ether_rate_limit : Z;
  isSwap : Z
}.
Arguments Ust {F}.
Arguments u_ms {F}.
Arguments commands {F}.
Arguments ether_rate_limit {F}.
Arguments isSwap {F}.

Section upgrade.
Context {F : Type} `{FlashDrv F} `{Libfdt} `{SecureMonitor} `{FitLib} `{CommandShell} `{NoReturn}.

Definition on_ms {A} (m : M mtd_st A) : M (ust F) A := fun s =>
  match m (u_ms s) with
  | Done (a, v) => Done (a, Ust v (commands s) (ether_rate_limit s) (isSwap s))
  | Undef => Undef
  | OutOfFuel => OutOfFuel
  end.
Definition u_vst {A} (m : M (vst F) A) : M (ust F) A := on_ms (on_vst m).
Definition u_mtd {A} (m : M mtd A) : M (ust F) A := on_ms (on_mtd m).

Definition setEtherRateLimit (v : Z) : M (ust F) unit :=
  modify (fun s => Ust (u_ms s) (commands s) v (isSwap s)).
Definition set_isSwap (v : Z) : M (ust F) unit :=
  modify (fun s => Ust (u_ms s) (commands s) (ether_rate_limit s) v).
Definition run_command (cmd : string) : M (ust F) Z :=
  act (fun s => (command_result (commands s) cmd,
                 Ust (u_ms s) (cmd :: commands s) (ether_rate_limit s) (isSwap s))).

Definition boot_from_another_image : M (ust F) Z :=
  let! swap := gets isSwap in
  if swap =? 0 then
    do! set_isSwap 1 in
    let! rc := run_command CONFIG_BOOTFLAG_SWAP_COMMAND in
    if negb (rc =? 0) then ret (-1) else run_command CONFIG_BOOTCOMMAND
  else ret (-1).

(** [!strcmp(s, getenv(var))] *)
Definition env_is (name var : string) : M (vst F) bool :=
  let! e := gets env in
  match e !! var with
  | None => undef
  | Some v => ret (bool_decide (name = v))
  end.

Definition flash_erase_u (addr len : Z) : M (vst F) unit :=
  do! lift_hal (flash_erase addr len) in ret tt.
(** [flash_write(to, len, &retlen, src)] from RAM. *)
Definition flash_write_ram (to len src : Z) : M (vst F) unit :=
  let! r := gets ram in
  do! lift_hal (flash_write to (ram_bytes r src len)) in ret tt.

Definition fit_verify (fuel : nat) (fit : Z) : M (vst F) Z := fun st =>
  match fit_all_image_verify fuel (ram st) fit with
  | Done v => Done (v, st)
  | Undef => Undef
  | OutOfFuel => OutOfFuel
  end.

(** Hash check of the device tree after the TRX header at [h], when the
    image is not encrypted: [u32 (-1)] when it fails. *)
Definition fit_check (fuel : nat) (stat h : Z) : M (vst F) Z :=
  let! r := gets ram in
  if stat =? VERIFY_SUCCESS then
    let! v := fit_verify fuel (u32 (h + trx_header_len r h)) in
    ret (if negb (v =? 1) then u32 (-1) else 0)
  else ret 0.

(** CRC check of the payload of the TRX image at [h]. *)
Definition trx_crc_ok (r : ram_t) (h : Z) : bool :=
  crc_ram r (u32 (h + trx_header_len r h)) (u32 (trx_len r h - trx_header_len r h)) =? trx_crc32 r h.

(** A stand-alone kernel image: [check_value]. *)
Definition check_kernel_image (fuel : nat) (stat load_addr img_size : Z) : M (vst F) Z :=
  let! fo := get_fip_offset in
  let h := u32 (load_addr + fo) in
  let! check_value := fit_check fuel stat h in
  let! r := gets ram in
  ret (if img_size <? trx_len r h then u32 (-1)
       else if negb (trx_crc_ok r h) then u32 (-1) else check_value).

(** One of the two system images of an all-in-one image. *)
Definition check_slot_image (fuel : nat) (stat h : Z) : M (vst F) Z :=
  let! check := fit_check fuel stat h in
  let! r := gets ram in
  ret (if negb (trx_crc_ok r h) then u32 (-1) else check).

Definition mtk_get_fip_offset (c : config) : Z := if arm_secure_boot c then 0x2000 else 0.

(** An all-in-one image. *)
Definition check_single_image (c : config) (fuel : nat)
    (stat load_addr boot_size main_off second_off : Z) : M (vst F) Z :=
  let! r := gets ram in
  let bl_check := crc_ram r load_addr (u32 (boot_size - CONFIG_ENV_SIZE)) in
  let! main_check := check_slot_image fuel stat (u32 (load_addr + u32 (main_off + mtk_get_fip_offset c))) in
  let! second_check := check_slot_image fuel stat (u32 (load_addr + u32 (second_off + mtk_get_fip_offset c))) in
  ret (if negb (bl_check =? 0) || negb (main_check =? 0) || negb (second_check =? 0)
       then u32 (-1) else 0).

(** Destination and [check_value] by the name of the file. *)
Definition select_and_check (c : config) (fuel : nat)
    (flash_base load_addr img_size stat boot_size main_off second_off : Z) (name : string)
    : M mtd_st (Z * Z) :=
  let! is_uboot := on_vst (env_is name "uboot_filename") in
  if is_uboot : bool then
    let! r := gets (fun s => ram (fst s)) in
    ret (CONFIG_TCBOOT_OFFSET, crc_ram r load_addr (u32 (img_size - CONFIG_ENV_SIZE)))
  else
  let! is_kernel := on_vst (env_is name "kernel_filename") in
  if is_kernel : bool then
    let! addr := on_mtd (ecnt_get_tclinux_flash_offset flash_base) in
    let! check_value := on_vst (check_kernel_image fuel stat load_addr img_size) in
    ret (addr, check_value)
  else
  let! is_single := on_vst (env_is name "singleImage_filename") in
  if is_single : bool then
    let! check_value :=
      on_vst (check_single_image c fuel stat load_addr boot_size main_off second_off) in
    ret (CONFIG_MTK_ALLINONE_OFFSET, check_value)
  else ret (NO_ADDR, 0).

(** After the flash has been written. *)
Definition after_upgrade (name : string) : M (ust F) unit :=
  let! is_kernel := u_vst (env_is name "kernel_filename") in
  do! (if is_kernel : bool then
         let! d := u_mtd do_get_mtd_rootfsdata_info in
         match d with
         | Some (a, sz) =>
             do! u_vst (flash_erase_u a sz) in
             do! run_command "go" in ret tt
         | None => ret tt
         end
       else ret tt) in
  let! is_uboot := u_vst (env_is name "uboot_filename") in
  if is_uboot : bool then do! run_command "reset" in ret tt else ret tt.

Definition ecnt_ImageUpgrade (c : config) (fuel : nat) (flash_base load_addr NetBootFileXferSize : Z)
    : M (ust F) unit :=
  let! mtk_tcboot_size := u_mtd ecnt_get_boot_size in
  let mtk_main_image_offset :=
    u32 (mtk_tcboot_size + ecnt_get_ubootenv_size + ecnt_get_factory_size) in
  let! tclinux_size := u_mtd ecnt_get_tclinux_size in
  let mtk_second_image_offset := u32 (mtk_main_image_offset + tclinux_size) in
  let img_size := NetBootFileXferSize in
  let! stat := u_vst (upgrade_verify c fuel load_addr) in
  if negb (stat =? VERIFY_SUCCESS) && negb (stat =? VERIFY_ENCRYPTED_SUCCESS) then ret tt else
  let! e := u_vst (gets env) in
  match e !! "filename"%string with
  | None => undef                              (* strcmp of a NULL pointer *)
  | Some name =>
      let! ac := on_ms (select_and_check c fuel flash_base load_addr img_size stat
                         mtk_tcboot_size mtk_main_image_offset mtk_second_image_offset name) in
      let '(addr, check_value) := ac in
      do! setEtherRateLimit 0 in
      if addr =? NO_ADDR then ret tt
      else if negb (check_value =? 0) then ret tt
      else
        do! u_vst (flash_erase_u addr img_size) in
        do! u_vst (flash_write_ram addr img_size load_addr) in
        after_upgrade name
  end.
End upgrade.
