(* ===== verification/MultiUpgrade.v ===== *)
(** Upgrade over multicast packets ([drivers/misc/ecnt/net/multiupgrade.c]).

    [multiupgrade_process] recognises a packet, [MultiUpgradeHandle] puts its
    fragment in place in the buffer at [MULTI_BUF_BASE]; with the last
    fragment the image is checked and [MultiWriteImage] writes it.  The static
    variables of [MultiUpgradeHandle] are the record [seq_state].  LEDs and
    console output are not modelled. *)

From stdpp Require Import base numbers list option strings gmap.
From Stdlib Require Import ZArith Lia.
From S2P Require Import Prelude Crc FlashHal Fip ImgInfo Mtd Upgrade.

Definition PART_FDT_MAGIC : Z := 0xD00DFEED.
Definition IMG_LEN_OFFSET : Z := 20.
Definition LT_OFFSET : Z := 8.
Definition MULTIPKT_TAG_OFFSET : Z := 12.
Definition MULTI_UPGRADE_PKT_TAG : list Z := [84; 67; 66; 117; 108; 107; 70; 87].   (* "TCBulkFW" *)
Definition MULTI_UPGRADE_PKT_HEADLEN : Z := 32.
Definition MULTI_UPGRADE_DATA_LEN : Z := 1024.
Definition FLASH_ERASE_SIZE : Z := 0x10000.
Definition MULTI_BUF_BASE : Z := 0x81800000.
Definition ENV_OFFSET : Z := 0x7C000.
Definition ENV_SIZE : Z := 0x4000.
Definition TRX_SIZE : Z := sizeof_trx_header.
Definition TCBOOT_BASE : Z := 0.
Definition pktseqMask : Z := 0xffff.

Inductive IMGTYPE := IMG_TCLINUX | IMG_TCLINUXALLINONE | IMG_TCBOOT.

(** Sizes of the flash and compile-time choices. *)
Record multi_config := MultiCfg {
  m_cfg : mtd_config;
  wlan_multi_chip : bool;          (* one of the TCSUPPORT_*WLAN* chips *)
  mtd_size : Z;                    (* mtd.size *)
  emmc_user_capacity : Z;
  chip_shift : Z;                  (* ra.flash->chip_shift *)
  nand_flash_avalable_size : Z;
  ahb_hwconf : Z;                  (* regRead32(CR_AHB_HWCONF) *)
  RESERVEAREA_ERASE_SIZE : Z;
  BACKUPROMFILE_RA_OFFSET : Z
}.

(** The static variables of [MultiUpgradeHandle] and [receive_len]. *)
Record seq_state := Seq {
  receive_len : Z;
  oldSeq : Z;
  startSeq : Z;
  maxSeq : Z;
  recvSeq : Z;
  badimg : bool;
  Jiffiestmp : Z;
  tag : Z
}.

Definition seq_init : seq_state := Seq 0 (-1) (-1) 0 0 false 0 0.

(** A packet: the address of its data and its length. *)
Record packet := Packet { skb_data : Z; skb_len : Z }.

Record multi (F : Type) := Multi {
  m_up : ust F;
  m_seq : seq_state;
  startMultiUpgrade : Z;
  finishMultiUpgrade : Z
}.
Arguments Multi {F}.
Arguments m_up {F}.
Arguments m_seq {F}.
Arguments startMultiUpgrade {F}.
Arguments finishMultiUpgrade {F}.

(** ** Sequence numbers *)

(** The first packet fixes where the image starts and how many fragments it
    has. *)
Definition seq_begin (pktseq imagelen Jiffies : Z) (q : seq_state) : seq_state :=
  if startSeq q =? -1 then
    let n := imagelen / MULTI_UPGRADE_DATA_LEN in
    let n := if negb (imagelen mod MULTI_UPGRADE_DATA_LEN =? 0) then n + 1 else n in
    Seq 0 (pktseq - 1) pktseq n (recvSeq q) (badimg q) Jiffies (tag q)
  else q.

(** The next number, or 1 after the last one. *)
Definition seq_expected (pktseq : Z) (q : seq_state) : bool :=
  (pktseq =? Z.land (oldSeq q + 1) pktseqMask) ||
  ((pktseq =? 1) && (oldSeq q =? Z.land (maxSeq q) pktseqMask)).

Definition seq_accept (pktseq : Z) (q : seq_state) : seq_state :=
  Seq (receive_len q) pktseq (startSeq q) (maxSeq q) (recvSeq q + 1) (badimg q) (Jiffiestmp q) (tag q).

Definition seq_last (q : seq_state) : bool :=
  negb (startSeq q =? -1) && (maxSeq q =? recvSeq q).

(** Where the fragment goes; a C remainder, so its sign is that of the
    dividend and a divisor 0 is undefined. *)
Definition fragment_address (q : seq_state) : option Z :=
  if maxSeq q =? 0 then None
  else Some (u32 (MULTI_BUF_BASE +
                  Z.rem ((recvSeq q - 1) + (startSeq q - 1)) (maxSeq q) * MULTI_UPGRADE_DATA_LEN)).

(** [receive_len] and the blinking of the LED. *)
Definition seq_received (Jiffies : Z) (q : seq_state) : seq_state :=
  let blink := 20 <? u32 (Jiffies - Jiffiestmp q) in
  Seq (u32 (receive_len q + MULTI_UPGRADE_DATA_LEN)) (oldSeq q) (startSeq q) (maxSeq q) (recvSeq q)
      (badimg q) (if blink then Jiffies else Jiffiestmp q)
      (if blink then (if tag q =? 0 then 1 else 0) else tag q).

(** The label [error]. *)
Definition seq_error (q : seq_state) : seq_state :=
  Seq (receive_len q) (oldSeq q) (-1) 0 0 false (Jiffiestmp q) (tag q).

Definition set_receive_len v q :=
  Seq v (oldSeq q) (startSeq q) (maxSeq q) (recvSeq q) (badimg q) (Jiffiestmp q) (tag q).
Definition set_badimg v q :=
  Seq (receive_len q) (oldSeq q) (startSeq q) (maxSeq q) (recvSeq q) v (Jiffiestmp q) (tag q).

Section multi.
Context {F : Type} `{FlashDrv F} `{Libfdt} `{SecureMonitor} `{FitLib} `{CommandShell}.

Definition m_lift {A} (m : M (ust F) A) : M (multi F) A := fun s =>
  match m (m_up s) with
  | Done (a, u) => Done (a, Multi u (m_seq s) (startMultiUpgrade s) (finishMultiUpgrade s))
  | Undef => Undef
  | OutOfFuel => OutOfFuel
  end.
Definition m_vst {A} (m : M (vst F) A) : M (multi F) A := m_lift (u_vst m).
Definition m_mtd {A} (m : M mtd A) : M (multi F) A := m_lift (u_mtd m).

Definition seq_modify (f : seq_state -> seq_state) : M (multi F) unit :=
  modify (fun s => Multi (m_up s) (f (m_seq s)) (startMultiUpgrade s) (finishMultiUpgrade s)).
Definition set_start (v : Z) : M (multi F) unit :=
  modify (fun s => Multi (m_up s) (m_seq s) v (finishMultiUpgrade s)).
Definition set_finish (v : Z) : M (multi F) unit :=
  modify (fun s => Multi (m_up s) (m_seq s) (startMultiUpgrade s) v).

(** ** Writing *)

Definition TCBOOT_SIZE : M (multi F) Z := m_mtd ecnt_get_boot_size.
Definition ROMFILE_SIZE : M (multi F) Z := m_mtd ecnt_get_romfile_size.
Definition flash_kind_of : M (multi F) flash_kind :=
  gets (fun s => kind (v_hal (fst (u_ms (m_up s))))).

Definition get_rf_offset : M (multi F) Z := m_mtd ecnt_get_romfile_mtd_offset.

Definition get_reservearea_offset (c : multi_config) : M (multi F) Z :=
  let! k := flash_kind_of in
  let area := reservearea_block (m_cfg c) * RESERVEAREA_ERASE_SIZE c in
  ret match k with
      | SPIFLASH => u32 (mtd_size c - area)
      | NANDFLASH | EMMC => u32 (nand_flash_avalable_size c - area)
      | NOFLASH => 0
      end.

Definition get_backuprf_offset (c : multi_config) : M (multi F) Z :=
  let! o := get_reservearea_offset c in
  ret (u32 (o + BACKUPROMFILE_RA_OFFSET c)).

Definition multiupgrade_update_image (from to datalen : Z) : M (multi F) unit :=
  do! m_vst (flash_erase_u to datalen) in
  m_vst (flash_write_ram to datalen from).

Definition multiupgrade_update_tcboot (from to datalen : Z) : M (multi F) unit :=
  multiupgrade_update_image from to datalen.
Definition multiupgrade_update_tclinux (from to datalen : Z) : M (multi F) unit :=
  multiupgrade_update_image from to datalen.

Definition multiupgrade_erase_romfile (c : multi_config) (isEraseRomfile : bool) : M (multi F) unit :=
  let! romfile_offset := get_rf_offset in
  let! backuprf_offset := get_backuprf_offset c in
  let! sz := ROMFILE_SIZE in
  do! (if isEraseRomfile then m_vst (flash_erase_u romfile_offset sz) else ret tt) in
  m_vst (flash_erase_u backuprf_offset sz).

Definition MultiWriteImage (c : multi_config) (datalen : Z) (isAllinone : IMGTYPE) : M (multi F) unit :=
  match isAllinone with
  | IMG_TCBOOT =>
      let! sz := TCBOOT_SIZE in
      multiupgrade_update_tcboot MULTI_BUF_BASE TCBOOT_BASE sz
  | IMG_TCLINUX =>
      let! tclinux_offset := m_mtd ecnt_get_tclinux_mtd_offset in
      do! (if openwrt (m_cfg c) then ret tt else multiupgrade_erase_romfile c true) in
      multiupgrade_update_tclinux MULTI_BUF_BASE tclinux_offset datalen
  | IMG_TCLINUXALLINONE =>
      do! multiupgrade_update_tcboot MULTI_BUF_BASE TCBOOT_BASE datalen in
      if openwrt (m_cfg c) then ret tt else multiupgrade_erase_romfile c false
  end.

(** ** Checking *)

(** What is left of a flash of [size] bytes for the image. *)
Definition room_in (size blocks : Z) : M (multi F) Z :=
  let! b := TCBOOT_SIZE in
  let! r := ROMFILE_SIZE in
  ret (u32 (size - b - r - FLASH_ERASE_SIZE * blocks)).

Definition getimagelen (c : multi_config) : M (multi F) Z :=
  let! k := flash_kind_of in
  let n := reservearea_block (m_cfg c) in
  match k with
  | SPIFLASH => room_in (mtd_size c) n
  | EMMC => room_in (emmc_user_capacity c) n
  | NANDFLASH => room_in (Z.shiftl 1 (chip_shift c)) n
  | NOFLASH => ret 0
  end.

(** The blocks the preprocessor chain reserves: 7 unless the configured
    number is one it knows. *)
Definition spi_blocks (n : Z) : Z := if (1 <=? n) && (n <=? 4) then n else 7.
Definition nand_blocks (n : Z) : Z := if (1 <=? n) && (n <=? 5) then n else 7.

(** [imagelen > room]: the static [badimg] is only ever set here. *)
Definition check_image_size (c : multi_config) (imagelen : Z) : M (multi F) unit :=
  let! k := flash_kind_of in
  let n := reservearea_block (m_cfg c) in
  let! too_big :=
    (if wlan_multi_chip c then
       let! room := getimagelen c in ret (room <? imagelen)
     else match k with
       | SPIFLASH => let! room := room_in (mtd_size c) (spi_blocks n) in ret (room <? imagelen)
       | EMMC => let! room := getimagelen c in ret (room <? imagelen)
       | NANDFLASH =>
           if negb (Z.land (ahb_hwconf c) 0x00080000 =? 0) then
             let! sh := gets (fun s => erase_shift_nand (v_hal (fst (u_ms (m_up s))))) in
             ret (u32 (Z.shiftl 1 (chip_shift c) - 7 * Z.shiftl 1 sh) <? imagelen)
           else
             let! room := room_in (Z.shiftl 1 (chip_shift c)) (nand_blocks n) in
             ret (room <? imagelen)
       | NOFLASH => ret false
       end) in
  if too_big : bool then seq_modify (set_badimg true) else ret tt.

(** Device tree magic and hash check at [MULTI_BUF_BASE + off + fip]. *)
Definition fdt_at (off : Z) : M (multi F) Z :=
  m_vst (let! fo := get_fip_offset in
         let! r := gets ram in
         ret (fdt_magic r (u32 (MULTI_BUF_BASE + off + TRX_SIZE + fo)))).
Definition fit_at (fuel : nat) (off : Z) : M (multi F) Z :=
  m_vst (let! fo := get_fip_offset in
         fit_verify fuel (u32 (MULTI_BUF_BASE + off + TRX_SIZE + fo))).

(** The checksum in the last four bytes, most significant first. *)
Definition raw_check_sum (r : ram_t) (imagelen : Z) : Z :=
  ram_be r (u32 (MULTI_BUF_BASE + imagelen - 4)) 4.

(** [None]: go to [error]. *)
Definition check_tclinux (fuel : nat) (c : multi_config) (imagelen : Z) : M (multi F) (option IMGTYPE) :=
  let! v := fit_at fuel 0 in
  if v =? -1 then ret None else
  do! check_image_size c imagelen in
  let! bad := gets (fun s => badimg (m_seq s)) in
  ret (if bad : bool then None else Some IMG_TCLINUX).

Definition check_allinone (fuel : nat) (c : multi_config) (imagelen : Z) : M (multi F) (option IMGTYPE) :=
  let! b := TCBOOT_SIZE in
  let! rf := ROMFILE_SIZE in
  let! magic := fdt_at (b + rf) in
  if negb (PART_FDT_MAGIC =? magic) then ret None else
  let! v := fit_at fuel (b + rf) in
  if v =? -1 then ret None else
  let! r := m_vst (gets ram) in
  let cal_check_sum := crc_ram r MULTI_BUF_BASE (u32 (imagelen - 4)) in
  if negb (cal_check_sum =? raw_check_sum r imagelen) then ret None else
  do! m_vst (flash_read_ram (TCBOOT_BASE + ENV_OFFSET) ENV_SIZE (MULTI_BUF_BASE + ENV_OFFSET)) in
  ret (Some IMG_TCLINUXALLINONE).

Definition check_image (fuel : nat) (c : multi_config) (imagelen : Z) : M (multi F) (option IMGTYPE) :=
  let! magic := fdt_at 0 in
  if PART_FDT_MAGIC =? magic then check_tclinux fuel c imagelen else check_allinone fuel c imagelen.

(** The last fragment has arrived. *)
Definition multi_finish (fuel : nat) (c : multi_config) (imagelen : Z) : M (multi F) unit :=
  let! got := gets (fun s => receive_len (m_seq s)) in
  if imagelen <=? got then
    let! kind := check_image fuel c imagelen in
    match kind with
    | None => seq_modify seq_error
    | Some isallinone =>
        do! MultiWriteImage c imagelen isallinone in
        do! set_finish 1 in
        m_lift (setEtherRateLimit 0)
    end
  else do! seq_modify (set_receive_len 0) in seq_modify seq_error.

(** [memcpy] of the fragment: source and destination are in RAM. *)
Definition copy_fragment (dst src : Z) : M (vst F) unit :=
  modify (fun v => set_ram (ram_store (ram v) dst (ram_bytes (ram v) src MULTI_UPGRADE_DATA_LEN)) v).

Definition MultiUpgradeHandle (fuel : nat) (c : multi_config) (Jiffies : Z) (skb : packet)
    : M (multi F) unit :=
  let! r := m_vst (gets ram) in
  let LenAndType := ram_le r (skb_data skb + LT_OFFSET) 4 in
  let pktseq := Z.land (Z.shiftr LenAndType 16) pktseqMask in
  let imagelen := ram_le r (skb_data skb + IMG_LEN_OFFSET) 4 in
  let! fin := gets finishMultiUpgrade in
  if fin =? 1 then ret tt else
  do! seq_modify (seq_begin pktseq imagelen Jiffies) in
  let! q := gets m_seq in
  if negb (seq_expected pktseq q) then seq_modify seq_error else
  do! seq_modify (seq_accept pktseq) in
  let! q := gets m_seq in
  let last_packet := seq_last q in
  let! dst := checked (fragment_address q) in
  do! m_vst (copy_fragment dst (skb_data skb + MULTI_UPGRADE_PKT_HEADLEN)) in
  do! seq_modify (seq_received Jiffies) in
  if last_packet : bool then multi_finish fuel c imagelen else ret tt.

(** 1: the packet is for the other protocols. *)
Definition multiupgrade_process (fuel : nat) (c : multi_config) (c1_obm : bool) (Jiffies : Z)
    (skb : packet) (mac : list Z) : M (multi F) Z :=
  let! mac0 := checked (znth mac 0) in
  let! r := m_vst (gets ram) in
  let tagged := bool_decide (ram_bytes r (skb_data skb + MULTIPKT_TAG_OFFSET) 8 = MULTI_UPGRADE_PKT_TAG) in
  if (c1_obm || Z.odd mac0) && tagged then
    if skb_len skb <? 1048 then ret 0 else
    let! started := gets startMultiUpgrade in
    do! (if started =? 0 then
           do! m_lift (setEtherRateLimit 1) in set_start 1
         else ret tt) in
    do! MultiUpgradeHandle fuel c Jiffies skb in
    ret 0
  else
    let! started := gets startMultiUpgrade in
    ret (if started =? 1 then 0 else 1).
End multi.
