(* ===== verification/Skb.v ===== *)
(** The pool of network buffers ([drivers/misc/ecnt/net/skbuff.c]).

    512 buffers, handed out in turn; [skb_cur] is the next candidate.  A
    buffer is described by its control fields; its payload is memory, which
    [MultiUpgrade.v] models where it is used. *)

From stdpp Require Import base numbers list option.
From Stdlib Require Import ZArith Lia.
From S2P Require Import Prelude.

Definition SKBUFF_SIZE : Z := 512.

Record sk_buff := Skb {
  skb_buf : Z;            (* address of the member [buf] *)
  truesize : Z;
  data : Z;
  used : Z;
  len : Z
}.

Record pool := Pool {
  skbuff : list sk_buff;
  skb_cur : Z
}.

Definition skb_headerinit (skb : sk_buff) (u : Z) : sk_buff :=
  Skb (skb_buf skb) 2000 (skb_buf skb) u 0.

Definition skb_at (i : Z) : M pool sk_buff :=
  let! l := gets skbuff in checked (znth l i).
Definition skb_store (i : Z) (skb : sk_buff) : M pool unit :=
  let! l := gets skbuff in
  let! l := checked (zset l i skb) in
  modify (fun p => Pool l (skb_cur p)).

Definition skb_init : M pool unit :=
  for_each (Z.to_nat SKBUFF_SIZE) 0 1 (fun i =>
    let! skb := skb_at i in skb_store i (skb_headerinit skb 0)).

(** The [do ... while] of [alloc_skb]. *)
Fixpoint alloc_loop (fuel : nat) : M pool Z :=
  match fuel with
  | O => out_of_fuel
  | S fuel' =>
      let! i := gets skb_cur in
      let! skb := skb_at i in
      do! modify (fun p => Pool (skbuff p) ((i + 1) mod SKBUFF_SIZE)) in
      if used skb =? 1 then alloc_loop fuel' else ret i
  end.

(** Answers the index of the buffer. *)
Definition alloc_skb (fuel : nat) (size : Z) : M pool Z :=
  let! i := alloc_loop fuel in
  let! skb := skb_at i in
  do! skb_store i (skb_headerinit skb 1) in
  ret i.

Definition free_skb (i : Z) : M pool unit :=
  let! skb := skb_at i in skb_store i (skb_headerinit skb 0).

Definition skb_put (n : Z) (skb : sk_buff) : Z * sk_buff :=
  (data skb, Skb (skb_buf skb) (truesize skb) (data skb) (used skb) (u32 (len skb + n))).
Definition skb_pull (n : Z) (skb : sk_buff) : Z * sk_buff :=
  (u32 (data skb + n), Skb (skb_buf skb) (truesize skb) (u32 (data skb + n)) (used skb) (u32 (len skb - n))).
Definition skb_push (n : Z) (skb : sk_buff) : Z * sk_buff :=
  (u32 (data skb - n), Skb (skb_buf skb) (truesize skb) (u32 (data skb - n)) (used skb) (u32 (len skb + n))).
Definition skb_reserve (n : Z) (skb : sk_buff) : sk_buff :=
  Skb (skb_buf skb) (truesize skb) (u32 (data skb + n)) (used skb) (len skb).

(** ** Invariant *)

Record pool_ok (p : pool) : Prop := {
  po_length : Z.of_nat (length (skbuff p)) = SKBUFF_SIZE;
  po_cur : 0 <= skb_cur p < SKBUFF_SIZE
}.

Definition in_use (p : pool) (i : Z) : Prop := exists skb, znth (skbuff p) i = Some skb /\ used skb = 1.

(** The position after [k] steps from [c]. *)
Lemma next_cur c k : (c + k + 1) mod SKBUFF_SIZE = ((c + k) mod SKBUFF_SIZE + 1) mod SKBUFF_SIZE.
Proof. symmetry. apply Zplus_mod_idemp_l. Qed.

(** The loop stops at the first free buffer from [skb_cur] on. *)
Lemma alloc_loop_first fuel p k :
  pool_ok p -> 0 <= k < SKBUFF_SIZE -> k < Z.of_nat fuel ->
  ~ in_use p ((skb_cur p + k) mod SKBUFF_SIZE) ->
  (forall j, 0 <= j < k -> in_use p ((skb_cur p + j) mod SKBUFF_SIZE)) ->
  alloc_loop fuel p = Done ((skb_cur p + k) mod SKBUFF_SIZE,
                            Pool (skbuff p) ((skb_cur p + k + 1) mod SKBUFF_SIZE)).
Proof.
  revert p k. induction fuel as [|fuel IH]; intros p k Hok Hk Hf Hfree Hbusy; [lia|].
  destruct (po_cur p Hok) as [Hc1 Hc2]. pose proof (po_length p Hok) as Hlen.
  destruct (znth_Some (skbuff p) (skb_cur p)) as [skb Hskb]; [lia|].
  cbn [alloc_loop]. erewrite (bind_run (gets _)) by reflexivity.
  assert (skb_at (skb_cur p) p = Done (skb, p)) as E.
  { unfold skb_at, bind, gets. by rewrite Hskb. }
  rewrite (bind_run _ _ _ _ _ E). erewrite (bind_run (modify _)) by reflexivity.
  destruct (decide (k = 0)) as [->|Hk0].
  - rewrite Z.add_0_r, (Z.mod_small (skb_cur p)) in Hfree |- * by lia.
    destruct (Z.eqb_spec (used skb) 1); [|done]. exfalso. apply Hfree. by exists skb.
  - destruct (Hbusy 0) as (skb' & Hskb' & Hu); [lia|]. rewrite Z.add_0_r, Z.mod_small in Hskb' by lia.
    rewrite Hskb in Hskb'. injection Hskb' as <-. rewrite Hu. cbn [Z.eqb Pos.eqb].
    set (p' := Pool (skbuff p) ((skb_cur p + 1) mod SKBUFF_SIZE)).
    assert (forall j, (skb_cur p' + j) mod SKBUFF_SIZE = (skb_cur p + (j + 1)) mod SKBUFF_SIZE) as Hj.
    { intros j. cbn [skb_cur p']. rewrite Zplus_mod_idemp_l. f_equal. lia. }
    rewrite (IH p' (k - 1)).
    + replace (skb_cur p' + (k - 1) + 1) with (skb_cur p' + k) by lia.
      rewrite !Hj. replace (k - 1 + 1) with k by lia.
      replace (skb_cur p + (k + 1)) with (skb_cur p + k + 1) by lia. done.
    + split; [done|]. apply Z.mod_pos_bound. done.
    + lia.
    + lia.
    + rewrite Hj. replace (k - 1 + 1) with k by lia. exact Hfree.
    + intros j Hjk. rewrite Hj. apply Hbusy. lia.
Qed.

(** The first free buffer. *)
Lemma first_free p i :
  pool_ok p -> 0 <= i < SKBUFF_SIZE -> ~ in_use p i ->
  exists k, 0 <= k < SKBUFF_SIZE /\ ~ in_use p ((skb_cur p + k) mod SKBUFF_SIZE) /\
    forall j, 0 <= j < k -> in_use p ((skb_cur p + j) mod SKBUFF_SIZE).
Proof.
  intros Hok Hi Hfree. assert (forall q, {in_use p q} + {~ in_use p q}) as dec.
  { intros q. unfold in_use. destruct (znth (skbuff p) q) as [skb|].
    - destruct (decide (used skb = 1)); [left; eauto|right; intros (s & [= <-] & ?); done].
    - right. by intros (s & ? & _). }
  set (d := (i - skb_cur p) mod SKBUFF_SIZE).
  assert (0 <= d < SKBUFF_SIZE) as Hd by (by apply Z.mod_pos_bound).
  assert ((skb_cur p + d) mod SKBUFF_SIZE = i) as Hdi.
  { unfold d. rewrite Zplus_mod_idemp_r. replace (skb_cur p + (i - skb_cur p)) with i by lia.
    by apply Z.mod_small. }
  assert (forall n, (exists k, 0 <= k < Z.of_nat n /\ ~ in_use p ((skb_cur p + k) mod SKBUFF_SIZE) /\
      forall j, 0 <= j < k -> in_use p ((skb_cur p + j) mod SKBUFF_SIZE)) \/
    forall j, 0 <= j < Z.of_nat n -> in_use p ((skb_cur p + j) mod SKBUFF_SIZE)) as Hsearch.
  { induction n as [|n [(k & Hk & H1 & H2)|Hall]]; [right; lia|left; exists k; split; [lia|done]|].
    destruct (dec ((skb_cur p + Z.of_nat n) mod SKBUFF_SIZE)) as [Hu|Hu].
    - right. intros j Hj. destruct (decide (j = Z.of_nat n)) as [->|]; [done|]. apply Hall. lia.
    - left. exists (Z.of_nat n). split; [lia|done]. }
  destruct (Hsearch (Z.to_nat SKBUFF_SIZE)) as [(k & Hk & H)|Hall]; [by exists k|].
  exfalso. apply Hfree. rewrite <- Hdi. apply Hall. rewrite Z2Nat.id by done. done.
Qed.

(** ** Properties *)

(** C40: As long as one of the 512 buffers is free [alloc_skb] ends after at
    most 512 rounds and hands out a buffer that was not in use, with its
    header reset; that buffer is in use afterwards and no other buffer
    changes. *)
Theorem alloc_skb_fresh p i size :
  pool_ok p -> 0 <= i < SKBUFF_SIZE -> ~ in_use p i ->
  exists j skb p', alloc_skb 512 size p = Done (j, p') /\ pool_ok p' /\
    ~ in_use p j /\ in_use p' j /\
    znth (skbuff p) j = Some skb /\ znth (skbuff p') j = Some (skb_headerinit skb 1) /\
    forall q, 0 <= q -> q <> j -> znth (skbuff p') q = znth (skbuff p) q.
Proof.
  intros Hok Hi Hfree. destruct (first_free p i Hok Hi Hfree) as (k & Hk & Hkf & Hbusy).
  pose proof (alloc_loop_first 512 p k Hok Hk ltac:(unfold SKBUFF_SIZE in *; lia) Hkf Hbusy) as Hrun.
  set (j := (skb_cur p + k) mod SKBUFF_SIZE) in *. pose proof (po_length p Hok) as Hlen.
  assert (0 <= j < SKBUFF_SIZE) as Hj by (by apply Z.mod_pos_bound).
  destruct (znth_Some (skbuff p) j) as [skb Hskb]; [lia|].
  pose proof (zset_Some (skbuff p) j (skb_headerinit skb 1) ltac:(lia)) as Hz.
  exists j, skb.
  exists (Pool (<[Z.to_nat j := skb_headerinit skb 1]> (skbuff p)) ((skb_cur p + k + 1) mod SKBUFF_SIZE)).
  split.
  { unfold alloc_skb. rewrite (bind_run _ _ _ _ _ Hrun). unfold skb_at, skb_store, bind, gets, checked. cbn [skbuff].
    rewrite Hskb. unfold ret, modify. cbn beta iota.
    cbn [skbuff]. by rewrite Hz. }
  assert (forall q, 0 <= q -> znth (<[Z.to_nat j := skb_headerinit skb 1]> (skbuff p)) q =
    if decide (q = j) then Some (skb_headerinit skb 1) else znth (skbuff p) q) as Hget.
  { intros q Hq. apply znth_insert; [lia|done]. }
  split_and!; cbn [skbuff skb_cur].
  - split; cbn [skbuff skb_cur]; [by rewrite length_insert|by apply Z.mod_pos_bound].
  - done.
  - exists (skb_headerinit skb 1). cbn [skbuff]. rewrite Hget by lia. by rewrite decide_True.
  - done.
  - rewrite Hget by lia. by rewrite decide_True.
  - intros q Hq Hne. rewrite Hget by done. by rewrite decide_False.
Qed.

(** When all 512 buffers are in use [alloc_skb] never returns: the loop
    has no way to give up. *)
Theorem alloc_skb_spins fuel size p :
  pool_ok p -> (forall i, 0 <= i < SKBUFF_SIZE -> in_use p i) -> alloc_skb fuel size p = OutOfFuel.
Proof.
  intros Hok Hall. unfold alloc_skb, bind at 1. enough (alloc_loop fuel p = OutOfFuel) as -> by done.
  revert p Hok Hall. induction fuel as [|fuel IH]; intros p Hok Hall; [done|].
  destruct (po_cur p Hok) as [Hc1 Hc2]. destruct (Hall (skb_cur p)) as (skb & Hskb & Hu); [done|].
  cbn [alloc_loop]. erewrite (bind_run (gets _)) by reflexivity.
  assert (skb_at (skb_cur p) p = Done (skb, p)) as E by (unfold skb_at, bind, gets; by rewrite Hskb).
  rewrite (bind_run _ _ _ _ _ E). erewrite (bind_run (modify _)) by reflexivity. rewrite Hu.
  apply IH; [|done]. split; [apply Hok|by apply Z.mod_pos_bound].
Qed.

Module SkbWitnesses.

(** Buffer 0 in use, the next to be tried. *)
Definition some_pool (u : Z) : pool := Pool (Skb 0 2000 0 1 0 :: replicate 511 (Skb 0 2000 0 u 0)) 0.

Lemma some_pool_ok u : pool_ok (some_pool u).
Proof. split; [reflexivity|unfold SKBUFF_SIZE; simpl; lia]. Qed.

Lemma alloc_skb_fresh_witness :
  exists j skb p', alloc_skb 512 0 (some_pool 0) = Done (j, p') /\ pool_ok p' /\
    ~ in_use (some_pool 0) j /\ in_use p' j /\
    znth (skbuff (some_pool 0)) j = Some skb /\ znth (skbuff p') j = Some (skb_headerinit skb 1) /\
    forall q, 0 <= q -> q <> j -> znth (skbuff p') q = znth (skbuff (some_pool 0)) q.
Proof.
  apply (alloc_skb_fresh (some_pool 0) 5); [apply some_pool_ok|unfold SKBUFF_SIZE; lia|].
  intros (skb & Hs & Hu). vm_compute in Hs. injection Hs as <-. discriminate Hu.
Defined.

Lemma alloc_skb_spins_witness : alloc_skb 1000 0 (some_pool 1) = OutOfFuel.
Proof.
  apply alloc_skb_spins; [apply some_pool_ok|]. unfold SKBUFF_SIZE, in_use, some_pool. intros i Hi.
  exists (Skb 0 2000 0 1 0). split; [|reflexivity].
  change (Skb 0 2000 0 1 0 :: replicate 511 (Skb 0 2000 0 1 0)) with (replicate 512 (Skb 0 2000 0 1 0)).
  unfold znth. rewrite (proj2 (Z.leb_le _ _)) by lia. apply lookup_replicate_2. lia.
Defined.
End SkbWitnesses.
