(* ===== verification/Xmodem.v ===== *)
(** The XMODEM receiver of the recovery boot path
    ([plat/ecnt/common/drivers/xmodem/xmodem.c] of the ARM Trusted Firmware).

    The console is the list of the answers of its future [getc] calls, a
    negative one for "no character"; when the list is used up the line stays
    silent.  [sent] is what was written to it, latest first; [delivered] is
    the memory from [bufBase] up to [xmdmBufBase]. *)

From stdpp Require Import base numbers list option.
From Stdlib Require Import ZArith Lia.
From S2P Require Import Prelude.

Definition SOH : Z := 0x01.
Definition STX : Z := 0x02.
Definition EOT : Z := 0x04.
Definition ACK : Z := 0x06.
Definition NAK : Z := 0x15.
Definition CAN : Z := 0x18.
Definition XMODEM_TIMEOUT_DELAY : Z := 100.
Definition XMODEM_RETRY_LIMIT : Z := 32.
Definition XMODEM_ERROR_REMOTECANCEL : Z := -1.
Definition XMODEM_ERROR_OUTOFSYNC : Z := -2.
Definition XMODEM_ERROR_RETRYEXCEED : Z := -3.
Definition XMODEM_ERROR_OUTOFMEMORY : Z := -4.
Definition SOLICIT : Z := 0x43.                      (* 'C' *)

Record xst := Xst {
  console : list Z;
  sent : list Z;
  delivered : list Z
}.

(** ** Input and output *)

Definition xmodemOut (c : Z) : M xst unit :=
  modify (fun s => Xst (console s) (c :: sent s) (delivered s)).

(** [xmodemInTime]: one [getc], then up to [timeout] more of them. *)
Fixpoint in_time (timeout : Z) (l : list Z) : Z * list Z :=
  match l with
  | [] => (-1, [])
  | c :: l' => if (0 <=? c) || (timeout =? 0) then (c, l') else in_time (timeout - 1) l'
  end.

Definition xmodemInTime (timeout_10ms : Z) : M xst Z :=
  act (fun s => let '(c, l) := in_time (timeout_10ms * 1000 * 10) (console s) in
                (c, Xst l (sent s) (delivered s))).

Fixpoint flush (fuel : nat) (l : list Z) : outcome (list Z) :=
  match fuel with
  | O => OutOfFuel
  | S fuel' =>
      let '(c, l') := in_time (XMODEM_TIMEOUT_DELAY * 1000 * 10) l in
      if 0 <=? c then flush fuel' l' else Done l'
  end.

Definition xmodemInFlush (fuel : nat) : M xst unit := fun s =>
  match flush fuel (console s) with
  | Done l => Done (tt, Xst l (sent s) (delivered s))
  | Undef => Undef
  | OutOfFuel => OutOfFuel
  end.

Definition WriteBuffer (bytes : list Z) : M xst unit :=
  modify (fun s => Xst (console s) (sent s) (delivered s ++ bytes)).

(** ** Checksums *)

Definition crc_bit (crc : Z) : Z :=
  if negb (Z.land crc 0x8000 =? 0) then u16 (Z.lxor (Z.shiftl crc 1) 0x1021) else u16 (Z.shiftl crc 1).

Definition crc_xmodem_update (crc data : Z) : Z :=
  Nat.iter 8 crc_bit (Z.lxor crc (u16 (Z.shiftl data 8))).

(** [buffer] is the data and what follows it in [xmbuf]. *)
Definition xmodemCrcCheck (crcflag : bool) (buffer : list Z) (size : Z) : M xst bool :=
  if crcflag then
    let! hi := checked (znth buffer size) in
    let! lo := checked (znth buffer (size + 1)) in
    let pktcrc := u16 (Z.shiftl hi 8 + lo) in
    ret (fold_left crc_xmodem_update (take (Z.to_nat size) buffer) 0 =? pktcrc)
  else
    let! sum := checked (znth buffer size) in
    ret (fold_left (fun a b => u8 (a + b)) (take (Z.to_nat size) buffer) 0 =? sum).

(** ** The receiver *)

(** The local variables of [xmodemReceive]. *)
Record locals := Locals {
  seqnum : Z;
  pktsize : Z;
  response : Z;
  retry : Z;
  crcflag : bool;
  totalbytes : Z
}.

Definition locals_init : locals := Locals 1 128 SOLICIT XMODEM_RETRY_LIMIT false 0.

Definition set_pktsize v l :=
  Locals (seqnum l) v (response l) (retry l) (crcflag l) (totalbytes l).
Definition set_crcflag v l :=
  Locals (seqnum l) (pktsize l) (response l) (retry l) v (totalbytes l).
Definition set_response v l :=
  Locals (seqnum l) (pktsize l) v (retry l) (crcflag l) (totalbytes l).
Definition lose_try l :=
  Locals (seqnum l) (pktsize l) (response l) (retry l - 1) (crcflag l) (totalbytes l).
Definition accept l :=
  Locals (u8 (seqnum l + 1)) (pktsize l) ACK XMODEM_RETRY_LIMIT (crcflag l) (totalbytes l + pktsize l).

Inductive verdict :=
| Again (l : locals)      (* continue *)
| Out (err : Z)           (* goto out *)
| Return (n : Z).

(** The next [n] characters, [None] when the line falls silent. *)
Fixpoint read_rest (n : nat) : M xst (option (list Z)) :=
  match n with
  | O => ret (Some [])
  | S n' =>
      let! c := xmodemInTime XMODEM_TIMEOUT_DELAY in
      if 0 <=? c then
        let! r := read_rest n' in
        ret (match r with Some bs => Some (Z.land c 0xff :: bs) | None => None end)
      else ret None
  end.

(** A complete packet: [pk] is [xmbuf + 1]. *)
Definition xmodem_packet (fuel : nat) (xmdmBufLen : Z) (pk : list Z) (l : locals) : M xst verdict :=
  let! seq := checked (znth pk 0) in
  let! nseq := checked (znth pk 1) in
  let! good := (if seq =? u8 (Z.lnot nseq) then xmodemCrcCheck (crcflag l) (drop 2 pk) (pktsize l)
                else ret false) in
  if good : bool then
    if seq =? seqnum l then
      if xmdmBufLen <? totalbytes l + pktsize l then ret (Out XMODEM_ERROR_OUTOFMEMORY)
      else
        do! WriteBuffer (take (Z.to_nat (pktsize l)) (drop 2 pk)) in
        ret (Again (accept l))
    else if seq =? u8 (seqnum l - 1) then ret (Again (set_response ACK l))
    else ret (Out XMODEM_ERROR_OUTOFSYNC)
  else
    do! xmodemInFlush fuel in
    ret (Again (set_response NAK (lose_try l))).

(** The start character has been read: the rest of the packet. *)
Definition xmodem_body (fuel : nat) (xmdmBufLen : Z) (l : locals) : M xst verdict :=
  let l := if response l =? SOLICIT then set_crcflag true l else l in
  let! r := read_rest (Z.to_nat (pktsize l + (if crcflag l then 1 else 0) + 4 - 1)) in
  match r with
  | Some pk => xmodem_packet fuel xmdmBufLen pk l
  | None =>
      do! xmodemInFlush fuel in
      ret (Again (set_response NAK (lose_try l)))
  end.

(** One iteration of [while (retry > 0)]. *)
Definition xmodem_step (fuel : nat) (xmdmBufLen : Z) (l : locals) : M xst verdict :=
  do! xmodemOut (response l) in
  let! c := xmodemInTime XMODEM_TIMEOUT_DELAY in
  if c <? 0 then ret (Again (lose_try l))
  else if c =? SOH then xmodem_body fuel xmdmBufLen (set_pktsize 128 l)
  else if c =? STX then xmodem_body fuel xmdmBufLen (set_pktsize 1024 l)
  else if c =? EOT then
    do! xmodemInFlush fuel in
    do! xmodemOut ACK in
    ret (Return (totalbytes l))
  else if c =? CAN then
    let! c := xmodemInTime XMODEM_TIMEOUT_DELAY in
    if c =? CAN then
      do! xmodemInFlush fuel in
      do! xmodemOut ACK in
      ret (Return XMODEM_ERROR_REMOTECANCEL)
    else xmodem_body fuel xmdmBufLen l
  else xmodem_body fuel xmdmBufLen l.

(** The label [out]. *)
Definition xmodem_out (fuel : nat) (err : Z) : M xst Z :=
  do! xmodemInFlush fuel in
  do! xmodemOut CAN in
  do! xmodemOut CAN in
  do! xmodemOut CAN in
  ret err.

Fixpoint xmodem_loop (fuel : nat) (xmdmBufLen : Z) (l : locals) : M xst Z :=
  if negb (0 <? retry l) then xmodem_out fuel XMODEM_ERROR_RETRYEXCEED else
  match fuel with
  | O => out_of_fuel
  | S fuel' =>
      let! v := xmodem_step fuel xmdmBufLen l in
      match v with
      | Again l' => xmodem_loop fuel' xmdmBufLen l'
      | Out err => xmodem_out fuel err
      | Return n => ret n
      end
  end.

Definition xmodemReceive (fuel : nat) (xmdmBufLen : Z) : M xst Z :=
  xmodem_loop fuel xmdmBufLen locals_init.

(** [XModemReceive(console, bufLen, bufBase)] with a console: [bufLen] is an
    unsigned int, and the long that [xmodemReceive] answers becomes an int. *)
Definition XModemReceive (fuel : nat) (bufLen : Z) : M xst Z :=
  do! modify (fun s => Xst (console s) (sent s) []) in
  let! n := xmodemReceive fuel (u32 bufLen) in
  ret (s32 n).
