(* ===== verification/UpgradeProps.v ===== *)
(** Properties of the two upgrade paths ([Upgrade.v], [MultiUpgrade.v]) and
    the concrete runs of the package verification of [Fip.v]. *)

From stdpp Require Import base numbers list option strings gmap.
From Stdlib Require Import ZArith Lia.
From S2P Require Import Prelude Crc FlashHal FlashProps Fip ImgInfo Mtd Upgrade MultiUpgrade.

(** ** The hash check of a device tree image *)

Section fit.
Context `{Libfdt} `{FitLib}.

Lemma fit_verify_nodes_answer fuel r fit n d v :
  fit_verify_nodes fuel r fit n d = Done v -> v = 0 \/ v = 1.
Proof.
  revert n d. induction fuel as [|fuel IH]; intros n d; cbn [fit_verify_nodes].
  - destruct (_ && _); [done|]. intros [= <-]. auto.
  - destruct (_ && _); [|intros [= <-]; auto]. destruct (_ && _); [intros [= <-]; auto|].
    destruct (fdt_next_node r fit n d) as [n' d']. apply IH.
Qed.

Lemma fit_all_image_verify_answer fuel r fit v :
  fit_all_image_verify fuel r fit = Done v -> v = 0 \/ v = 1.
Proof.
  unfold fit_all_image_verify. destruct (_ <? 0); [intros [= <-]; auto|].
  destruct (fdt_next_node _ _ _ _) as [n d]. apply fit_verify_nodes_answer.
Qed.
End fit.

(** ** What the checks leave alone *)

(** [m] changes neither the flash layer nor the environment. *)
Definition keeps {F A} (m : M (vst F) A) : Prop := forall s a s',
  m s = Done (a, s') -> v_hal s' = v_hal s /\ env s' = env s.

(** [m] changes nothing. *)
Definition reads {S A} (m : M S A) : Prop := forall s a s', m s = Done (a, s') -> s' = s.

Lemma reads_ret {S A} (a : A) : reads (@ret S A a).
Proof. by intros s a' s' [= _ <-]. Qed.
Lemma reads_gets {S A} (f : S -> A) : reads (gets f).
Proof. by intros s a' s' [= _ <-]. Qed.
Lemma reads_undef {S A} : reads (@undef S A).
Proof. by intros s a' s'. Qed.
Lemma reads_bind {S A B} (m : M S A) (k : A -> M S B) :
  reads m -> (forall a, reads (k a)) -> reads (bind m k).
Proof. intros Hm Hk s b s' (a & s1 & H1 & H2)%bind_inv. by apply Hm in H1 as ->; apply Hk in H2. Qed.

#[export] Hint Resolve reads_ret reads_gets reads_undef : core.

Ltac reads_tac :=
  repeat match goal with
  | |- reads (bind _ _) => apply reads_bind; [|intros ?]
  | |- reads (if ?b then _ else _) => destruct b
  | |- reads (match ?x with _ => _ end) => destruct x
  | |- reads (let _ := _ in _) => cbv zeta
  end; auto.

Section checks.
Context {F : Type} `{FlashDrv F} `{Libfdt} `{SecureMonitor} `{FitLib}.

Lemma reads_on_mtd {A} (m : M mtd A) : reads m -> reads (on_mtd (F:=F) m).
Proof.
  intros Hm s a s'. unfold on_mtd. destruct (m (snd s)) as [[b t]| |] eqn:E; [|done..].
  intros [= <- <-]. apply Hm in E as ->. by destruct s.
Qed.
Lemma reads_on_vst {A} (m : M (vst F) A) : reads m -> reads (on_vst m).
Proof.
  intros Hm s a s'. unfold on_vst. destruct (m (fst s)) as [[b t]| |] eqn:E; [|done..].
  intros [= <- <-]. apply Hm in E as ->. by destruct s.
Qed.
Lemma reads_name_is p n : reads (name_is p n).
Proof. unfold name_is. reads_tac. Qed.
Lemma reads_find_part ps n f d : reads (find_part ps n f d).
Proof.
  induction ps as [|p ps IH]; simpl; [auto|]. apply reads_bind; [apply reads_name_is|].
  intros []; auto.
Qed.
Lemma reads_mtd_offset n b : reads (mtd_offset_or_0 n b).
Proof. unfold mtd_offset_or_0, ecnt_get_mtd_offset. reads_tac. apply reads_find_part. Qed.
Lemma reads_mtd_size n : reads (mtd_size_or_0 n).
Proof. unfold mtd_size_or_0, ecnt_get_mtd_size. reads_tac. apply reads_find_part. Qed.
Lemma reads_env_is a b : reads (env_is (F:=F) a b).
Proof. unfold env_is. reads_tac. Qed.
Lemma reads_fit_verify fuel a : reads (fit_verify (F:=F) fuel a).
Proof.
  intros s v s'. unfold fit_verify. destruct (fit_all_image_verify _ _ _); [|done..]. by intros [= _ <-].
Qed.
Lemma reads_fit_check fuel stat h : reads (fit_check (F:=F) fuel stat h).
Proof. unfold fit_check. reads_tac. apply reads_fit_verify. Qed.
Lemma reads_check_kernel fuel stat a n : reads (check_kernel_image (F:=F) fuel stat a n).
Proof. unfold check_kernel_image, get_fip_offset. reads_tac. apply reads_fit_check. Qed.
Lemma reads_check_single c fuel stat a b m n : reads (check_single_image (F:=F) c fuel stat a b m n).
Proof.
  unfold check_single_image, check_slot_image. reads_tac; apply reads_fit_check.
Qed.
#[local] Hint Resolve reads_on_mtd reads_on_vst reads_mtd_offset reads_env_is reads_check_kernel
  reads_check_single : core.
Lemma reads_select c fuel fb a n stat b m m2 nm :
  reads (select_and_check (F:=F) c fuel fb a n stat b m m2 nm).
Proof.
  unfold select_and_check, ecnt_get_tclinux_flash_offset. reads_tac.
Qed.

Lemma run_parse_fip_keeps fuel b bs o z fl : keeps (F:=F) (run_parse_fip fuel b bs o z fl).
Proof.
  intros s f s'. unfold run_parse_fip. destruct (parse_fip _ _ _ _ _ _ _ _); [|done..].
  by intros [= <- <-].
Qed.

Lemma smc_call_keeps id a r2 r3 : keeps (F:=F) (smc_call id a r2 r3).
Proof.
  intros s v s'. unfold smc_call, act. destruct (do_smc _ _ _ _ _). by intros [= <- <-].
Qed.

Lemma upgrade_verify_keeps c fuel buf : keeps (F:=F) (upgrade_verify c fuel buf).
Proof.
  intros s v s'. unfold upgrade_verify. destruct (negb (arm_secure_boot c)); [by intros [= _ <-]|].
  intros (e & s1 & He & Hr)%bind_inv. injection He as <- <-. revert Hr.
  destruct (negb (check_image_name c (env s) =? 0)); [|by intros [= _ <-]].
  intros (f & s2 & [Hh He]%run_parse_fip_keeps & Hr)%bind_inv. revert Hr. rewrite <- Hh, <- He.
  destruct (_ =? _); [apply smc_call_keeps|]. destruct (negb _); [|by intros [= _ <-]].
  intros (v' & s3 & Hv & [= _ <-])%bind_inv. revert Hv. unfold verify_img.
  intros (m & s4 & [= _ <-] & Hs)%bind_inv. by apply smc_call_keeps in Hs.
Qed.
End checks.

(** ** The TFTP upgrade *)

Section tftp.
Context {F : Type} `{FlashDrv F} `{Libfdt} `{SecureMonitor} `{FitLib} `{CommandShell} `{NoReturn}.

(** The kernel image at [h] in RAM passed the checks that apply after the
    monitor's verdict [stat]. *)
Definition kernel_image_ok (fuel : nat) (r : ram_t) (h img_size stat : Z) : Prop :=
  trx_len r h <= img_size /\ trx_crc_ok r h = true /\
  (stat = VERIFY_SUCCESS -> fit_all_image_verify fuel r (u32 (h + trx_header_len r h)) = Done 1).

Lemma check_kernel_image_ok fuel stat load n (v : vst F) v' :
  check_kernel_image fuel stat load n v = Done (0, v') ->
  kernel_image_ok fuel (ram v) (u32 (load + fip_offset v)) n stat.
Proof.
  unfold check_kernel_image, get_fip_offset. intros (fo & v1 & [= <- <-] & Hr)%bind_inv.
  set (h := u32 (load + fip_offset v)) in *.
  apply bind_inv in Hr as (cv & v2 & Hc & Hr). pose proof (reads_fit_check _ _ _ _ _ _ Hc) as ->.
  apply bind_inv in Hr as (r & v3 & [= <- <-] & [= Hv _]).
  destruct (Z.ltb_spec n (trx_len (ram v) h)); [done|].
  destruct (trx_crc_ok (ram v) h) eqn:Hcrc; cbn [negb] in Hv; [|done]. subst cv.
  split; [done|]. split; [done|]. intros ->. revert Hc. unfold fit_check, fit_verify.
  intros (r & v4 & [= <- <-] & Hc)%bind_inv. cbn [Z.eqb VERIFY_SUCCESS] in Hc.
  apply bind_inv in Hc as (w & v5 & Hf & [= Hw _]).
  destruct (fit_all_image_verify _ _ _) as [w'| |]; [|done..]. injection Hf as Hw' _.
  subst w'. destruct (Z.eqb_spec w 1) as [->|]; [done|]. cbn in Hw. discriminate Hw.
Qed.

(** A file with the name of the kernel, and not with that of the boot loader,
    is one that [upgrade_verify] checks. *)
Lemma kernel_name_checked c (e : gmap string string) name : e !! "filename"%string = Some name ->
  e !! "kernel_filename"%string = Some name -> e !! "uboot_filename"%string <> Some name -> check_image_name c e = 1.
Proof.
  intros Hn Hk Hu. unfold check_image_name. rewrite Hn. unfold filename.
  assert (forall l, check_names e name ("uboot_filename"%string :: "kernel_filename"%string :: l) 0 = Some 1) as ->.
  { intros l. cbn [check_names]. rewrite Hk, (bool_decide_eq_true_2 (name = name)) by done.
    destruct (e !! "uboot_filename"%string) as [u|]; [|done]. by rewrite bool_decide_eq_false_2 by congruence. }
  by destruct (arm_multiboot c).
Qed.

End tftp.

(** ** The multicast upgrade *)

Section multicast.
Context {F : Type} `{FlashDrv F} `{Libfdt} `{SecureMonitor} `{FitLib} `{CommandShell}.

(** The hash check of a multicast image can never reject it:
    [MultiUpgradeHandle] compares the verdict of [fit_all_image_verify] with
    -1, and that function answers 0 for a bad hash and 1 otherwise.
    Whatever it answers, [check_tclinux] goes on to the size check. *)
Theorem multi_upgrade_hash_never_rejects fuel c imagelen (s s1 : multi F) v :
  fit_at fuel 0 s = Done (v, s1) ->
  check_tclinux fuel c imagelen s =
    (do! check_image_size c imagelen in
     let! bad := gets (fun s => badimg (m_seq s)) in
     ret (if bad : bool then None else Some IMG_TCLINUX)) s1.
Proof.
  intros Hf. unfold check_tclinux. rewrite (bind_run _ _ _ _ _ Hf).
  assert (v = 0 \/ v = 1) as Hv.
  { revert Hf. unfold fit_at, m_vst, m_lift, u_vst, on_ms, on_vst.
    set (m := bind get_fip_offset _). destruct (m (fst (u_ms (m_up s)))) as [[x w]| |] eqn:E; [|done..].
    intros [= -> _]. unfold m in E. apply bind_inv in E as (fo & v1 & _ & E).
    unfold fit_verify in E. destruct (fit_all_image_verify _ _ _) as [y| |] eqn:Ev; [|done..].
    injection E as <- _. by apply fit_all_image_verify_answer in Ev. }
  by destruct Hv as [-> | ->].
Qed.
End multicast.

(** ** Concrete runs *)

Module SimUpgrade.
Import SimFlash.

#[export] Instance sim_monitor : SecureMonitor :=
  {| do_smc m id a r2 r3 := (0, m); get_sha_alg := 0; hash_func_ws _ l := l |}.
#[export] Instance sim_fdt : Libfdt :=
  {| fdt_path_offset _ _ _ := 1; fdt_subnode_offset _ _ _ _ := 2; fdt_getprop _ _ _ _ := None |}.
(** One image node, whose hashes are good or bad. *)
Definition sim_fit (good : bool) : FitLib :=
  {| fdt_next_node _ _ n d := if n =? 1 then (2, 1) else (-1, 0);
     fit_image_verify _ _ _ := good |}.
#[export] Instance sim_shell : CommandShell := {| command_result _ _ := 0 |}.
#[export] Instance sim_noreturn : NoReturn :=
  {| ecnt_get_ubootenv_size := 0; ecnt_get_factory_size := 0 |}.

(** Memory that holds [l] at [base] and 0 elsewhere. *)
Definition holding (base : Z) (l : list Z) : Z -> Z := ram_store (fun _ => 0) base l.

Definition nand (f : sim) : hal sim := Hal NANDFLASH f 512 6 0 64 [] 0 [].

(** A package with one entry, the boot loader, of 4 bytes at 64. *)
Definition package : list Z :=
  le_bytes 4 TOC_HEADER_NAME ++ memset 0 12 ++
  img_uuid false ++ le_bytes 8 64 ++ le_bytes 8 4 ++ le_bytes 8 0 ++ memset 0 8 ++ [1; 2; 3; 4].

Definition verify_state : vst sim := Vst (nand (holding 0 package)) (fun _ => 0) 0 ∅.

(** A TRX image: a header of 16 bytes, 4 bytes of payload. *)
Definition trx_image : list Z :=
  le_bytes 4 TRX_MAGIC2 ++ le_bytes 4 16 ++ le_bytes 4 20 ++ [50; 4; 195; 73] ++ [1; 2; 3; 4].

Definition upgrade_env : gmap string string :=
  <["filename"%string := "tclinux.bin"%string]> (<["kernel_filename"%string := "tclinux.bin"%string]>
    (<["uboot_filename"%string := "tcboot.bin"%string]> ∅)).

Definition upgrade_state : ust sim :=
  Ust (Vst (nand (fun _ => 0)) (holding 0x81800000 trx_image) 0 upgrade_env, mtd_init) [] 0 0.

Definition cfg_plain : config := Cfg false false.
Definition cfg_secure : config := Cfg true false.
End SimUpgrade.

Module UpgradeWitnesses.
Import SimFlash SimUpgrade.

Lemma parse_fip_first_entry_witness :
  parse_fip 3300 (holding 0x1000 package) 0x1000 0x2000 0 0 0 0
    = Done (Fip SIP_VERIFY_BL33 0x1000 0x2000 64 4 0 64) /\
  exists f', parse_fip 3300 (holding 0x1000 package) 0x1000 0x2000 0 0 0 0 = Done f' /\
    fip_buf f' = 0x1000 /\ fip_buf_size f' = 0x2000 /\
    walk_post (holding 0x1000 package) false (0x1000 + sizeof_toc_header) (0x1000 + 0x2000)
      (Fip 0 0x1000 0x2000 0 0 0 0) f'.
Proof.
  split; [vm_compute; reflexivity|].
  pose proof (parse_fip_first_entry 3300 (holding 0x1000 package) 0x1000 0x2000 0 0 0 0) as H.
  assert ((ram_le (holding 0x1000 package) 0x1000 4 =? TOC_HEADER_NAME) = true) as E
    by (vm_compute; reflexivity).
  rewrite E in H. apply H. vm_compute. discriminate.
Defined.

Lemma read_flash_and_verify_sound_witness :
  exists s', read_flash_and_verify cfg_secure 3300 0x1000 0 verify_state = Done (0, s') /\
    exists m f enc, fip_smc f <> 0 /\ enc = (fip_flag f =? ENCRYPTED_FW) /\ accepted m f enc.
Proof.
  assert (match read_flash_and_verify cfg_secure 3300 0x1000 0 verify_state with
          | Done (v, _) => v =? 0 | _ => false end = true) as H by (vm_compute; reflexivity).
  destruct (read_flash_and_verify cfg_secure 3300 0x1000 0 verify_state) as [[v s']| |] eqn:E;
    [|discriminate H..].
  apply Z.eqb_eq in H. subst v. exists s'. split; [reflexivity|].
  apply (read_flash_and_verify_sound cfg_secure 3300 0x1000 0 verify_state s'); [reflexivity|exact E].
Defined.

Lemma read_flash_and_verify_total_witness :
  exists v s', read_flash_and_verify cfg_secure 3300 0x1000 0 verify_state = Done (v, s').
Proof.
  apply read_flash_and_verify_total; [discriminate|vm_compute; discriminate].
Defined.

(** A kernel in a package, and a monitor that accepts the digest of this
    kernel only (the bytes themselves stand for their digest). *)
Definition kernel_package : list Z :=
  le_bytes 4 TOC_HEADER_NAME ++ memset 0 12 ++
  img_uuid false ++ le_bytes 8 64 ++ le_bytes 8 20 ++ le_bytes 8 0 ++ memset 0 8 ++ trx_image.

Definition kernel_monitor : SecureMonitor :=
  {| do_smc m id a r2 r3 :=
       (if (id =? SIP_VERIFY_BL33) && match a with ArgDigest d => bool_decide (d = trx_image) | _ => false end then 0 else 1, m);
     get_sha_alg := 0; hash_func_ws _ l := l |}.

Definition secure_state (image : list Z) : ust sim :=
  Ust (Vst (nand (fun _ => 0)) (holding 0x81800000 image) 0 upgrade_env, mtd_init) [] 0 0.

Definition secure_upgrade : ust sim -> outcome (unit * ust sim) :=
  ecnt_ImageUpgrade (H1 := kernel_monitor) (H2 := sim_fit true) cfg_secure 3300 0 0x81800000 84.

(** A package with one byte of the kernel changed is refused. *)
Example changed_kernel_refused :
  match secure_upgrade (secure_state (<[80%nat := 9]> kernel_package)) with
  | Done (_, s') => drv (v_hal (fst (u_ms s'))) 0 | _ => 1 end = 0.
Proof. vm_compute. reflexivity. Qed.


(** A tree whose hashes are bad. *)
Definition multi_state : multi sim := Multi upgrade_state seq_init 0 0.
Definition multi_cfg : multi_config :=
  MultiCfg (MtdCfg true false false 1 "") false 0 0 27 0x8000000 0 0x10000 0.

Lemma multi_upgrade_hash_never_rejects_witness :
  fit_at (H2 := sim_fit false) 10 0 multi_state = Done (0, multi_state) /\
  check_tclinux (H2 := sim_fit false) 10 multi_cfg 20 multi_state = Done (Some IMG_TCLINUX, multi_state).
Proof.
  split; [reflexivity|].
  rewrite (multi_upgrade_hash_never_rejects (H2 := sim_fit false) 10 multi_cfg 20 multi_state multi_state 0);
    reflexivity.
Defined.
End UpgradeWitnesses.
