(* ===== verification/Reassembly.v ===== *)
(** Reassembly of a multicast image.

    The sender repeats the fragments 1 .. n of an image over and over; a
    device may join at any of them.  [session j st]: the device is in state
    [st] after [j] fragments in the order of the wire; between two packets
    the memory outside the image buffer may change.  The image is complete in
    the buffer when, and only when, the checks start. *)

From stdpp Require Import base numbers list option strings gmap.
From Stdlib Require Import ZArith Lia.
From S2P Require Import Prelude Crc FlashHal FlashProps Fip Ram ImgInfo Mtd Upgrade MultiUpgrade UpgradeProps.

(** ** Sessions *)

Section session.
Context {F : Type} `{FlashDrv F} `{Libfdt} `{SecureMonitor} `{FitLib} `{CommandShell}.
Variables (image : list Z) (imagelen n s : Z) (fuel : nat) (c : multi_config).

Definition ram_of (st : multi F) : ram_t := ram (fst (u_ms (m_up st))).
Definition set_ram_of (r : ram_t) (st : multi F) : multi F :=
  let u := m_up st in
  Multi (Ust (set_ram r (fst (u_ms u)), snd (u_ms u)) (commands u) (ether_rate_limit u) (isSwap u))
        (m_seq st) (startMultiUpgrade st) (finishMultiUpgrade st).

(** The index of the [i]-th fragment a device that joins at [s] receives. *)
Definition pos (i : Z) : Z := (s - 1 + i) mod n.

(** The packet carries that fragment. *)
Record carries (r : ram_t) (p : packet) (i : Z) : Prop := {
  ca_seq : Z.land (Z.shiftr (ram_le r (skb_data p + LT_OFFSET) 4) 16) pktseqMask = pos i + 1;
  ca_len : ram_le r (skb_data p + IMG_LEN_OFFSET) 4 = imagelen;
  ca_data : forall x, 0 <= x < 1024 ->
    r (skb_data p + MULTI_UPGRADE_PKT_HEADLEN + x) = nth (Z.to_nat (pos i * 1024 + x)) image 0
}.

Definition in_place (r : ram_t) (k : Z) : Prop :=
  forall x, 0 <= x < 1024 -> r (MULTI_BUF_BASE + k * 1024 + x) = nth (Z.to_nat (k * 1024 + x)) image 0.

Inductive session : Z -> multi F -> Prop :=
| session_start st :
    finishMultiUpgrade st <> 1 -> startSeq (m_seq st) = -1 -> recvSeq (m_seq st) = 0 ->
    session 0 st
| session_packet j st p J st' :
    session j st -> carries (ram_of st) p j -> j + 1 < n ->
    MultiUpgradeHandle fuel c J p st = Done (tt, st') -> session (j + 1) st'
| session_memory j st r :
    session j st ->
    (forall x, 0 <= x < n * 1024 -> r (MULTI_BUF_BASE + x) = ram_of st (MULTI_BUF_BASE + x)) ->
    session j (set_ram_of r st).

(** The invariant of a session. *)
Record assembling (j : Z) (st : multi F) : Prop := {
  as_fin : finishMultiUpgrade st <> 1;
  as_recv : recvSeq (m_seq st) = j;
  as_start : (j = 0 /\ startSeq (m_seq st) = -1) \/
    (0 < j /\ startSeq (m_seq st) = s /\ maxSeq (m_seq st) = n /\
     oldSeq (m_seq st) = pos (j - 1) + 1 /\ receive_len (m_seq st) = j * 1024);
  as_data : forall i, 0 <= i < j -> in_place (ram_of st) (pos i)
}.

Hypothesis Hn : 0 < n <= 65535.
Hypothesis Hs : 1 <= s <= n.
Hypothesis Hlen : (n - 1) * 1024 < imagelen <= n * 1024.
Hypothesis Himage : Z.of_nat (length image) = n * 1024.

Lemma pos_bound i : 0 <= pos i < n.
Proof. apply Z.mod_pos_bound. lia. Qed.

Lemma pos_ne i j : 0 <= i < j -> j < n -> pos i <> pos j.
Proof.
  intros Hi Hj Heq. unfold pos in Heq.
  pose proof (Z.div_mod (s - 1 + i) n ltac:(lia)) as Hdi.
  pose proof (Z.div_mod (s - 1 + j) n ltac:(lia)) as Hdj.
  rewrite Heq in Hdi. revert Hdi Hdj.
  generalize ((s - 1 + j) mod n) ((s - 1 + i) / n) ((s - 1 + j) / n). intros m qi qj Hdi Hdj.
  assert (j - i = n * (qj - qi)) as Hd by (rewrite Z.mul_sub_distr_l; lia).
  destruct (Z.le_gt_cases (qj - qi) 0).
  - assert (n * (qj - qi) <= 0) by (apply Z.mul_nonneg_nonpos; lia). lia.
  - assert (n * 1 <= n * (qj - qi)) by (apply Z.mul_le_mono_nonneg_l; lia). lia.
Qed.

Lemma pos_onto k : 0 <= k < n -> exists i, 0 <= i < n /\ pos i = k.
Proof.
  intros Hk. exists ((k - (s - 1)) mod n). split; [apply Z.mod_pos_bound; lia|].
  unfold pos. rewrite Zplus_mod_idemp_r. replace (s - 1 + (k - (s - 1))) with k by lia.
  by apply Z.mod_small.
Qed.

(** The number of the next packet. *)
Lemma pos_next i : 0 <= i -> pos (i + 1) + 1 = Z.land (pos i + 1 + 1) pktseqMask \/
  (pos (i + 1) + 1 = 1 /\ pos i + 1 = Z.land n pktseqMask).
Proof.
  intros Hi. change pktseqMask with (Z.ones 16). rewrite !Z.land_ones by lia.
  change (2 ^ 16) with 65536. pose proof (pos_bound i) as Hb. unfold pos in *.
  pose proof (Z.div_mod (s - 1 + i) n ltac:(lia)) as Hd.
  destruct (decide ((s - 1 + i) mod n = n - 1)) as [E|E].
  - right. assert ((s - 1 + (i + 1)) mod n = 0) as ->.
    { symmetry. apply (Z.mod_unique_pos _ _ ((s - 1 + i) / n + 1)); lia. }
    rewrite E, (Z.mod_small n) by lia. lia.
  - left. assert ((s - 1 + (i + 1)) mod n = (s - 1 + i) mod n + 1) as ->.
    { symmetry. apply (Z.mod_unique_pos _ _ ((s - 1 + i) / n)); lia. }
    rewrite (Z.mod_small ((s - 1 + i) mod n + 1 + 1)) by lia. lia.
Qed.

(** Storing fragment [j] keeps the others. *)
Lemma in_place_store r src j :
  0 <= j < n -> (forall x, 0 <= x < 1024 -> r (src + x) = nth (Z.to_nat (pos j * 1024 + x)) image 0) ->
  (forall i, 0 <= i < j -> in_place r (pos i)) ->
  forall i, 0 <= i < j + 1 ->
    in_place (ram_store r (MULTI_BUF_BASE + pos j * 1024) (ram_bytes r src 1024)) (pos i).
Proof.
  intros Hj Hsrc Hdata i Hi x Hx. pose proof (pos_bound i). pose proof (pos_bound j).
  destruct (decide (i = j)) as [->|Hne].
  - rewrite ram_store_inside by (rewrite ram_bytes_length; lia). rewrite ram_bytes_nth by done.
    by apply Hsrc.
  - assert (pos i <> pos j) by (apply pos_ne; lia).
    rewrite ram_store_outside by (rewrite ram_bytes_length; lia). apply Hdata; [lia|done].
Qed.

(** All fragments in place: the image is complete. *)
Lemma in_place_all r :
  (forall i, 0 <= i < n -> in_place r (pos i)) -> ram_bytes r MULTI_BUF_BASE (n * 1024) = image.
Proof.
  intros Hall. rewrite <- Himage. apply ram_bytes_eq. intros k Hk.
  destruct (pos_onto (k / 1024)) as (i & Hi & Hpos).
  { split; [apply Z.div_pos; lia|apply Z.div_lt_upper_bound; lia]. }
  pose proof (Z.mod_pos_bound k 1024 ltac:(lia)). pose proof (Z.div_mod k 1024 ltac:(lia)) as Hd.
  specialize (Hall i Hi (k mod 1024) ltac:(lia)). rewrite Hpos in Hall.
  replace (MULTI_BUF_BASE + k) with (MULTI_BUF_BASE + k / 1024 * 1024 + k mod 1024) by lia.
  rewrite Hall. do 2 f_equal. lia.
Qed.

(** The state after the fragment of packet [p] has been stored. *)
Definition stored (J : Z) (p : packet) (j : Z) (st : multi F) : multi F :=
  set_ram_of (ram_store (ram_of st) (MULTI_BUF_BASE + pos j * 1024)
                (ram_bytes (ram_of st) (skb_data p + MULTI_UPGRADE_PKT_HEADLEN) 1024))
    (Multi (m_up st)
       (seq_received J (seq_accept (pos j + 1) (seq_begin (pos j + 1) imagelen J (m_seq st))))
       (startMultiUpgrade st) (finishMultiUpgrade st)).

(** The counters with which packet [j] is judged. *)
Lemma begin_seq j st J :
  assembling j st -> 0 <= j ->
  let q := seq_begin (pos j + 1) imagelen J (m_seq st) in
  startSeq q = s /\ maxSeq q = n /\ recvSeq q = j /\ receive_len q = j * 1024 /\
  seq_expected (pos j + 1) q = true.
Proof.
  intros [Hfin Hrecv Hstart Hdata] Hj. unfold seq_begin, seq_expected.
  destruct Hstart as [[-> Hst]|(Hj0 & Hst & Hmax & Hold & Hrl)]; rewrite Hst.
  - pose proof (pos_bound 0). assert (pos 0 = s - 1) as Hp.
    { unfold pos. rewrite Z.mod_small; lia. }
    cbn [Z.eqb]. unfold MULTI_UPGRADE_DATA_LEN. simpl. rewrite Hp, Hrecv.
    split; [lia|]. split.
    { destruct (Z.eqb_spec (imagelen mod 1024) 0) as [E|E]; cbn [negb];
        pose proof (Z.div_mod imagelen 1024 ltac:(lia)); pose proof (Z.mod_pos_bound imagelen 1024 ltac:(lia)); lia. }
    split; [done|]. split; [done|]. apply orb_true_intro. left. apply Z.eqb_eq.
    change pktseqMask with (Z.ones 16). rewrite Z.land_ones, Z.mod_small by lia. lia.
  - rewrite (proj2 (Z.eqb_neq s (-1))) by lia. rewrite Hold, Hmax.
    split_and!; [done|done|done|done|]. apply orb_true_intro.
    destruct (pos_next (j - 1) ltac:(lia)) as [E|[E1 E2]]; replace (j - 1 + 1) with j in * by lia.
    + left. by apply Z.eqb_eq.
    + right. rewrite E1, E2. cbn [Z.eqb andb]. by rewrite Z.eqb_refl.
Qed.

(** One packet: the fragment is stored, then the last one starts the checks. *)
Lemma handle_packet j st p J :
  assembling j st -> 0 <= j < n -> carries (ram_of st) p j ->
  MultiUpgradeHandle fuel c J p st =
    (if j + 1 =? n then multi_finish fuel c imagelen (stored J p j st)
     else Done (tt, stored J p j st)).
Proof.
  intros Has Hj [Hseq Hlen' Hdata]. pose proof (begin_seq j st J Has ltac:(lia)) as Hq.
  set (q := seq_begin _ _ _ _) in Hq. destruct Hq as (Hst & Hmax & Hrecv & Hrl & Hexp).
  unfold MultiUpgradeHandle. erewrite (bind_run (m_vst (gets ram))) by reflexivity.
  change (ram (u_ms (m_up st)).1) with (ram_of st). rewrite Hseq, Hlen'.
  erewrite (bind_run (gets _)) by reflexivity.
  cbn [finishMultiUpgrade]. rewrite (proj2 (Z.eqb_neq _ _) (as_fin _ _ Has)).
  erewrite (bind_run (seq_modify _)) by reflexivity. erewrite (bind_run (gets _)) by reflexivity.
  cbn [m_seq]. fold q. rewrite Hexp. cbn [negb].
  erewrite (bind_run (seq_modify _)) by reflexivity. erewrite (bind_run (gets _)) by reflexivity.
  cbn [m_seq]. fold q. pose proof (pos_bound j) as Hp.
  assert (fragment_address (seq_accept (pos j + 1) q) = Some (MULTI_BUF_BASE + pos j * 1024)) as ->.
  { unfold fragment_address, seq_accept. cbn [maxSeq recvSeq startSeq]. rewrite Hmax, Hrecv, Hst.
    rewrite (proj2 (Z.eqb_neq n 0)) by lia. f_equal.
    replace (j + 1 - 1 + (s - 1)) with (s - 1 + j) by lia.
    rewrite Z.rem_mod_nonneg by lia. apply Z.mod_small.
    unfold MULTI_BUF_BASE, MULTI_UPGRADE_DATA_LEN. fold (pos j). lia. }
  erewrite (bind_run (checked _)) by reflexivity. erewrite (bind_run (m_vst _)) by reflexivity.
  erewrite (bind_run (seq_modify _)) by reflexivity. cbn [m_seq]. fold q.
  assert (seq_last (seq_accept (pos j + 1) q) = (j + 1 =? n)) as ->.
  { unfold seq_last, seq_accept. cbn [maxSeq recvSeq startSeq]. rewrite Hmax, Hrecv, Hst.
    rewrite (proj2 (Z.eqb_neq s (-1))) by lia. cbn [negb andb]. by rewrite Z.eqb_sym. }
  by destruct (j + 1 =? n).
Qed.

Lemma stored_assembling j st p J :
  assembling j st -> 0 <= j < n -> carries (ram_of st) p j -> assembling (j + 1) (stored J p j st).
Proof.
  intros Has Hj [Hseq Hlen' Hdata]. pose proof (begin_seq j st J Has ltac:(lia)) as Hq.
  set (q := seq_begin _ _ _ _) in Hq. destruct Hq as (Hst & Hmax & Hrecv & Hrl & _).
  constructor.
  - apply Has.
  - unfold stored. cbn. fold q. lia.
  - right. unfold stored. cbn. fold q. rewrite Hst, Hmax, Hrl.
    replace (j + 1 - 1) with j by lia. split_and!; [lia|done|done|done|].
    unfold MULTI_UPGRADE_DATA_LEN, u32. rewrite Z.mod_small; lia.
  - apply in_place_store; [done|done|]. apply Has.
Qed.

Lemma session_assembling j st : session j st -> 0 <= j < n /\ assembling j st.
Proof.
  induction 1 as [st Hf Hst Hr|j st p J st' _ [Hj IH] Hca Hjn Hrun|j st r _ [Hj IH] Hr].
  - split; [lia|]. constructor; [done|done|by left|intros; lia].
  - split; [lia|]. rewrite (handle_packet j st p J IH Hj Hca) in Hrun.
    rewrite (proj2 (Z.eqb_neq _ _)) in Hrun by lia. injection Hrun as <-. by apply stored_assembling.
  - split; [done|]. destruct IH as [Hf Hrecv Hstart Hdata]. constructor; try done.
    intros i Hi x Hx. pose proof (pos_bound i). cbn.
    rewrite <- Z.add_assoc, Hr by lia. rewrite Z.add_assoc. by apply (Hdata i Hi).
Qed.

(** C20: reassembly of a multicast image.  A device that joins at fragment
    [s] and has received [j] fragments in order accepts the next one without
    an undefined access: before the last one it only stores the fragment
    and the session goes on; with the last one the checks start, in a state
    in which the buffer holds the whole image, whatever fragment the device
    joined at, and [receive_len] covers it. *)
Theorem multi_upgrade_reassembles j st p J :
  session j st -> carries (ram_of st) p j ->
  (j + 1 < n -> exists st', MultiUpgradeHandle fuel c J p st = Done (tt, st') /\ session (j + 1) st') /\
  (j + 1 = n -> exists st', MultiUpgradeHandle fuel c J p st = multi_finish fuel c imagelen st' /\
     ram_bytes (ram_of st') MULTI_BUF_BASE (n * 1024) = image /\
     imagelen <= receive_len (m_seq st')).
Proof.
  intros Hsess Hca. destruct (session_assembling j st Hsess) as [Hj Has].
  pose proof (handle_packet j st p J Has Hj Hca) as Hrun.
  pose proof (stored_assembling j st p J Has Hj Hca) as Hst. split; intros Hjn.
  - exists (stored J p j st). rewrite (proj2 (Z.eqb_neq _ _)) in Hrun by lia.
    split; [done|]. by eapply session_packet.
  - exists (stored J p j st). rewrite (proj2 (Z.eqb_eq _ _)) in Hrun by lia.
    split; [done|]. rewrite Hjn in Hst. split.
    + apply in_place_all. apply Hst.
    + destruct (as_start _ _ Hst) as [[? _]|(_ & _ & _ & _ & Hr)]; lia.
Qed.
End session.

(** ** Headers the handler does not expect *)

Section headers.
Context {F : Type} `{FlashDrv F} `{Libfdt} `{SecureMonitor} `{FitLib} `{CommandShell}.

(** The sequence number and the image length a packet claims. *)
Definition pkt_seq (r : ram_t) (p : packet) : Z :=
  Z.land (Z.shiftr (ram_le r (skb_data p + LT_OFFSET) 4) 16) pktseqMask.
Definition pkt_imagelen (r : ram_t) (p : packet) : Z := ram_le r (skb_data p + IMG_LEN_OFFSET) 4.

(** The first packet is always in sequence. *)
Lemma first_expected v len J (q : seq_state) :
  startSeq q = -1 ->
  let pktseq := Z.land v pktseqMask in seq_expected pktseq (seq_begin pktseq len J q) = true.
Proof.
  intros Hst pktseq. unfold pktseq, seq_begin, seq_expected. rewrite Hst, Z.eqb_refl. cbn [oldSeq maxSeq].
  replace (Z.land v pktseqMask - 1 + 1) with (Z.land v pktseqMask) by lia.
  by rewrite <- Z.land_assoc, Z.land_diag, Z.eqb_refl.
Qed.

(** A first packet that claims an image of length 0 makes the handler
    compute a remainder by 0. *)
Theorem zero_length_image_undefined fuel c J p (st : multi F) :
  finishMultiUpgrade st <> 1 -> startSeq (m_seq st) = -1 -> pkt_imagelen (ram_of st) p = 0 ->
  MultiUpgradeHandle fuel c J p st = Undef.
Proof.
  intros Hfin Hst Hlen. unfold MultiUpgradeHandle.
  erewrite (bind_run (m_vst (gets ram))) by reflexivity.
  change (ram (u_ms (m_up st)).1) with (ram_of st). unfold pkt_imagelen in Hlen. rewrite Hlen.
  erewrite (bind_run (gets _)) by reflexivity. cbn [finishMultiUpgrade].
  rewrite (proj2 (Z.eqb_neq _ _) Hfin). erewrite (bind_run (seq_modify _)) by reflexivity.
  erewrite (bind_run (gets _)) by reflexivity. cbn [m_seq].
  rewrite (first_expected _ 0 J (m_seq st) Hst). cbn [negb].
  erewrite (bind_run (seq_modify _)) by reflexivity. erewrite (bind_run (gets _)) by reflexivity.
  cbn [m_seq]. unfold seq_begin. rewrite Hst. reflexivity.
Qed.

(** A first packet with sequence number 0 is stored in the 1024 bytes in
    front of the buffer: the C remainder of -1 is -1. *)
Theorem sequence_zero_writes_below_buffer fuel c J p (st : multi F) :
  finishMultiUpgrade st <> 1 -> startSeq (m_seq st) = -1 -> recvSeq (m_seq st) = 0 ->
  pkt_seq (ram_of st) p = 0 -> 1024 < pkt_imagelen (ram_of st) p ->
  exists st', MultiUpgradeHandle fuel c J p st = Done (tt, st') /\
    forall x, 0 <= x < 1024 ->
      ram_of st' (MULTI_BUF_BASE - 1024 + x) = ram_of st (skb_data p + MULTI_UPGRADE_PKT_HEADLEN + x).
Proof.
  intros Hfin Hst Hrecv Hseq Hlen. unfold MultiUpgradeHandle.
  erewrite (bind_run (m_vst (gets ram))) by reflexivity.
  change (ram (u_ms (m_up st)).1) with (ram_of st).
  erewrite (bind_run (gets _)) by reflexivity. cbn [finishMultiUpgrade].
  rewrite (proj2 (Z.eqb_neq _ _) Hfin). erewrite (bind_run (seq_modify _)) by reflexivity.
  erewrite (bind_run (gets _)) by reflexivity. cbn [m_seq].
  pose proof (first_expected (Z.shiftr (ram_le (ram_of st) (skb_data p + LT_OFFSET) 4) 16)
    (pkt_imagelen (ram_of st) p) J (m_seq st) Hst) as Hexp.
  fold (pkt_seq (ram_of st) p) in Hexp |- *. fold (pkt_imagelen (ram_of st) p).
  cbv zeta in Hexp. fold (pkt_seq (ram_of st) p) in Hexp.
  rewrite Hexp, Hseq. cbn [negb]. clear Hexp.
  erewrite (bind_run (seq_modify _)) by reflexivity. erewrite (bind_run (gets _)) by reflexivity.
  cbn [m_seq]. set (len := pkt_imagelen (ram_of st) p) in *. unfold seq_begin. rewrite Hst, Z.eqb_refl.
  set (n := if negb (len mod MULTI_UPGRADE_DATA_LEN =? 0) then _ else _).
  assert (2 <= n) as Hn.
  { unfold n, MULTI_UPGRADE_DATA_LEN. pose proof (Z.div_mod len 1024 ltac:(lia)).
    pose proof (Z.mod_pos_bound len 1024 ltac:(lia)).
    destruct (Z.eqb_spec (len mod 1024) 0); cbn [negb]; lia. }
  unfold fragment_address, seq_accept, seq_last. cbn [maxSeq recvSeq startSeq].
  rewrite Hrecv, (proj2 (Z.eqb_neq n 0)), (proj2 (Z.eqb_neq n (0 + 1))) by lia. change (negb (0 =? -1) && false) with false.
  assert (Z.rem (0 + 1 - 1 + (0 - 1)) n = -1) as ->.
  { change (0 + 1 - 1 + (0 - 1)) with (- (1)). rewrite Z.rem_opp_l by lia. by rewrite Z.rem_small by lia. }
  erewrite (bind_run (checked _)) by reflexivity. erewrite (bind_run (m_vst _)) by reflexivity.
  erewrite (bind_run (seq_modify _)) by reflexivity.
  eexists. split; [reflexivity|]. intros x Hx. unfold ram_of at 1. cbn.
  change (u32 _) with (MULTI_BUF_BASE - 1024).
  rewrite ram_store_inside by (rewrite ram_bytes_length; unfold MULTI_UPGRADE_DATA_LEN; lia).
  by rewrite ram_bytes_nth.
Qed.
End headers.

(** ** Concrete sessions *)

Module SessionWitnesses.
Import SimFlash SimUpgrade.
#[local] Instance hashes : FitLib := sim_fit true.

(** A packet at 0x1000 of the memory. *)
Definition header (seq len : Z) : list Z :=
  memset 0 10 ++ [seq; 0] ++ memset 0 8 ++ le_bytes 4 len ++ memset 0 8.
Definition packet_ram (seq len : Z) : ram_t := holding 0x1000 (header seq len ++ memset 7 1024).
Definition pkt : packet := Packet 0x1000 1056.
Definition start (seq len : Z) : multi sim :=
  Multi (Ust (Vst (nand (fun _ => 0)) (packet_ram seq len) 0 ∅, mtd_init) [] 0 0) seq_init 0 0.
Definition mcfg : multi_config := MultiCfg (MtdCfg true false false 1 "") false 0 0 27 0x8000000 0 0x10000 0.

Lemma nth_memset (v n k d : Z) : 0 <= k < n -> nth (Z.to_nat k) (memset v n) d = v.
Proof. intros Hk. apply nth_lookup_Some. unfold memset. apply lookup_replicate_2. lia. Qed.

(** Fragment 2 of an image of two fragments. *)
Lemma start_carries : carries (memset 7 2048) 2000 2 2 (packet_ram 2 2000) pkt 0.
Proof.
  split; [vm_compute; reflexivity|vm_compute; reflexivity|].
  intros x Hx. change (pos 2 2 0) with 1. rewrite nth_memset by lia.
  unfold packet_ram, holding. cbn [skb_data pkt]. unfold MULTI_UPGRADE_PKT_HEADLEN.
  rewrite <- Z.add_assoc, ram_store_inside
    by (replace (length (header 2 2000 ++ memset 7 1024)) with 1056%nat by reflexivity; lia).
  assert (length (header 2 2000) = 32%nat) as Hh by reflexivity.
  rewrite app_nth2 by lia. replace (Z.to_nat (32 + x) - length (header 2 2000))%nat with (Z.to_nat x) by lia.
  by apply nth_memset.
Qed.

Lemma multi_upgrade_reassembles_witness :
  exists st', MultiUpgradeHandle 10 mcfg 5 pkt (start 2 2000) = Done (tt, st') /\
    session (memset 7 2048) 2000 2 2 10 mcfg 1 st'.
Proof.
  apply (multi_upgrade_reassembles (memset 7 2048) 2000 2 2 10 mcfg) with (j := 0);
    [lia|lia|lia|reflexivity| |exact start_carries|lia].
  apply session_start; [discriminate|reflexivity|reflexivity].
Defined.

Lemma zero_length_image_undefined_witness :
  MultiUpgradeHandle 10 mcfg 5 pkt (start 1 0) = Undef.
Proof. apply zero_length_image_undefined; [discriminate|reflexivity|vm_compute; reflexivity]. Defined.

Lemma sequence_zero_writes_below_buffer_witness :
  exists st', MultiUpgradeHandle 10 mcfg 5 pkt (start 0 2000) = Done (tt, st') /\
    forall x, 0 <= x < 1024 ->
      ram_of st' (MULTI_BUF_BASE - 1024 + x)
      = ram_of (start 0 2000) (skb_data pkt + MULTI_UPGRADE_PKT_HEADLEN + x).
Proof.
  apply sequence_zero_writes_below_buffer;
    [discriminate|reflexivity|reflexivity|vm_compute; reflexivity|vm_compute; reflexivity].
Defined.
End SessionWitnesses.
