(* ===== verification/XmodemProps.v ===== *)
(** Properties of the XMODEM receiver: it always ends, never writes past the
    buffer, and receives what a sender sends, repeated packets included. *)

From stdpp Require Import base numbers list option.
From Stdlib Require Import ZArith Lia.
From S2P Require Import Prelude Xmodem.
#[local] Arguments Z.mul : simpl never.

(** ** Input *)

Lemma in_time_rest t l : (length (in_time t l).2 <= length l)%nat.
Proof.
  revert t. induction l as [|c l IH]; intros t; simpl; [lia|].
  destruct (_ || _); simpl; [lia|]. specialize (IH (t - 1)). lia.
Qed.

Lemma in_time_char t l : 0 <= (in_time t l).1 -> (length (in_time t l).2 < length l)%nat.
Proof.
  revert t. induction l as [|c l IH]; intros t; simpl; [lia|].
  destruct (_ || _); simpl; [lia|]. intros H. specialize (IH _ H). lia.
Qed.

Lemma flush_total fuel l :
  (length l < fuel)%nat -> exists l', flush fuel l = Done l' /\ (length l' <= length l)%nat.
Proof.
  revert l. induction fuel as [|fuel IH]; intros l Hf; [lia|]. cbn [flush].
  set (t := XMODEM_TIMEOUT_DELAY * 1000 * 10).
  pose proof (in_time_rest t l) as H1. pose proof (in_time_char t l) as H2.
  destruct (in_time t l) as [c l']; cbn [fst snd] in *. destruct (Z.leb_spec 0 c) as [Hc|Hc].
  - destruct (IH l') as (l'' & -> & Hl); [specialize (H2 Hc); lia|]. exists l''. split; [done|lia].
  - by exists l'.
Qed.

Definition inputs (s : xst) : nat := length (console s).

(** The memory is the same and no input was made up. *)
Definition only_reads (s s' : xst) : Prop := delivered s' = delivered s /\ (inputs s' <= inputs s)%nat.

Lemma wp_flush fuel s (Q : unit -> xst -> Prop) :
  (inputs s < fuel)%nat -> (forall s', only_reads s s' -> Q tt s') -> wp (xmodemInFlush fuel) Q s.
Proof.
  intros Hf HQ. destruct (flush_total fuel (console s) Hf) as (l' & E & Hl).
  unfold wp, xmodemInFlush. rewrite E. by apply HQ.
Qed.

Lemma wp_in_time t s (Q : Z -> xst -> Prop) :
  (forall c s', only_reads s s' -> (0 <= c -> (inputs s' < inputs s)%nat) -> Q c s') ->
  wp (xmodemInTime t) Q s.
Proof.
  intros HQ. unfold wp, xmodemInTime, act.
  pose proof (in_time_rest (t * 1000 * 10) (console s)) as H1.
  pose proof (in_time_char (t * 1000 * 10) (console s)) as H2.
  destruct (in_time (t * 1000 * 10) (console s)) as [c l]. apply HQ; [done|exact H2].
Qed.

Lemma wp_out c s (Q : unit -> xst -> Prop) : (forall s', only_reads s s' -> Q tt s') -> wp (xmodemOut c) Q s.
Proof. intros HQ. apply wp_modify, HQ. split; [done|]. unfold inputs. simpl. lia. Qed.

Lemma only_reads_trans s1 s2 s3 : only_reads s1 s2 -> only_reads s2 s3 -> only_reads s1 s3.
Proof. intros [H1 ?] [H2 ?]. split; [congruence|lia]. Qed.

Lemma wp_read_rest n s (Q : option (list Z) -> xst -> Prop) :
  (forall r s', only_reads s s' -> (forall pk, r = Some pk -> length pk = n) -> Q r s') ->
  wp (read_rest n) Q s.
Proof.
  revert s Q. induction n as [|n IH]; intros s Q HQ; cbn [read_rest].
  - wp_step. apply HQ; [done|]. by intros pk [= <-].
  - wp_step. apply wp_in_time. intros c s1 H1 _. destruct (0 <=? c).
    + wp_step. apply IH. intros r s2 H2 Hr. wp_step. apply HQ; [by eapply only_reads_trans|].
      intros pk Hpk. destruct r as [bs|]; [|done]. injection Hpk as <-. simpl. by rewrite (Hr bs eq_refl).
    + wp_step. by apply HQ.
Qed.

(** ** One iteration *)

Section receive.
Variable xmdmBufLen : Z.

(** The counters agree with the memory. *)
Record good (l : locals) (s : xst) : Prop := {
  gd_total : totalbytes l = Z.of_nat (length (delivered s));
  gd_bound : totalbytes l <= Z.max 0 xmdmBufLen;
  gd_size : pktsize l = 128 \/ pktsize l = 1024;
  gd_retry : 0 <= retry l <= XMODEM_RETRY_LIMIT
}.

Definition measure (l : locals) (s : xst) : Z := 33 * Z.of_nat (inputs s) + retry l.

(** What an iteration leaves, [m] being the measure before it. *)
Definition step_post (m : Z) (v : verdict) (s : xst) : Prop :=
  match v with
  | Again l => good l s /\ measure l s < m
  | Out err => -4 <= err < 0 /\ Z.of_nat (length (delivered s)) <= Z.max 0 xmdmBufLen /\ 33 * Z.of_nat (inputs s) <= m
  | Return n => Z.of_nat (length (delivered s)) <= Z.max 0 xmdmBufLen /\
      (-4 <= n < 0 \/ n = Z.of_nat (length (delivered s)))
  end.

Lemma good_reads l s s' : good l s -> only_reads s s' -> good l s'.
Proof. intros [? ? ? ?] [Hd _]. split; try done. by rewrite Hd. Qed.

(** The check reads inside the packet. *)
Lemma wp_crc_check cf buffer size s (Q : bool -> xst -> Prop) :
  0 <= size -> Z.of_nat (length buffer) = size + (if cf : bool then 1 else 0) + 1 ->
  (forall b, Q b s) -> wp (xmodemCrcCheck cf buffer size) Q s.
Proof.
  intros Hs Hl HQ. unfold xmodemCrcCheck. destruct cf.
  - destruct (znth_Some buffer size) as [hi Hhi]; [lia|]. destruct (znth_Some buffer (size + 1)) as [lo Hlo]; [lia|].
    wp_step. eapply wp_checked; [done|]. wp_step. eapply wp_checked; [done|]. wp_step. apply HQ.
  - destruct (znth_Some buffer size) as [c Hc]; [lia|].
    wp_step. eapply wp_checked; [done|]. wp_step. apply HQ.
Qed.

Lemma packet_spec fuel pk l s :
  good l s -> (inputs s < fuel)%nat -> 1 <= retry l ->
  Z.of_nat (length pk) = pktsize l + (if crcflag l then 1 else 0) + 3 ->
  wp (xmodem_packet fuel xmdmBufLen pk l) (step_post (33 * Z.of_nat (inputs s) + 33)) s.
Proof.
  intros Hg Hf Hr Hpk. destruct Hg as [Htot Hbound Hsize Hretry]. unfold XMODEM_RETRY_LIMIT in *.
  assert (0 <= pktsize l) by lia.
  assert (Z.of_nat (length pk) = pktsize l + 4 \/ Z.of_nat (length pk) = pktsize l + 3) as Hpk'
    by (destruct (crcflag l); lia).
  destruct (znth_Some pk 0) as [seq Hseq]; [lia|]. destruct (znth_Some pk 1) as [nseq Hnseq]; [lia|].
  unfold xmodem_packet. wp_step. eapply wp_checked; [done|]. wp_step. eapply wp_checked; [done|].
  wp_step. assert (forall (Q : bool -> xst -> Prop), (forall b, Q b s) ->
    wp (if seq =? u8 (Z.lnot nseq) then xmodemCrcCheck (crcflag l) (drop 2 pk) (pktsize l) else ret false) Q s)
    as Hcheck.
  { intros Q HQ. destruct (_ =? _); [|by apply wp_ret]. apply wp_crc_check; [done| |done].
    rewrite length_drop. lia. }
  apply Hcheck. intros [|].
  - destruct (seq =? seqnum l).
    + destruct (Z.ltb_spec xmdmBufLen (totalbytes l + pktsize l)).
      * wp_step. cbn [step_post]. split; [done|]. lia.
      * unfold WriteBuffer. wp_steps. cbn [step_post]. unfold measure, inputs. simpl. unfold XMODEM_RETRY_LIMIT. split; [|lia].
        split; simpl; try (rewrite ?length_app, ?length_take, ?length_drop); unfold XMODEM_RETRY_LIMIT; lia.
    + destruct (seq =? u8 (seqnum l - 1)); wp_step; cbn [step_post].
      * unfold measure. simpl. split; [|lia]. by split.
      * split; [done|]. lia.
  - wp_step. apply wp_flush; [done|]. intros s' [Hd Hi]. wp_step. cbn [step_post]. unfold measure. simpl.
    split; [|lia]. split; simpl; rewrite ?Hd; unfold XMODEM_RETRY_LIMIT; lia.
Qed.

Lemma body_spec fuel l s :
  good l s -> (inputs s < fuel)%nat -> 1 <= retry l ->
  wp (xmodem_body fuel xmdmBufLen l) (step_post (33 * Z.of_nat (inputs s) + 33)) s.
Proof.
  intros Hg Hf Hr. unfold xmodem_body. set (l' := if response l =? SOLICIT then _ else l).
  assert (good l' s /\ 1 <= retry l') as [Hg' Hr'].
  { unfold l'. destruct (_ =? _); [|done]. destruct Hg. split; [by split|done]. }
  clearbody l'. clear l Hg Hr. rename l' into l. cbv zeta. wp_step. apply wp_read_rest. intros r s' Hs Hlen.
  pose proof (good_reads _ _ _ Hg' Hs) as Hgs. destruct Hs as [Hd Hi].
  assert (0 <= pktsize l) by (destruct (gd_size _ _ Hg'); lia).
  destruct r as [pk|].
  - eapply wp_mono; [apply packet_spec; [done|lia|done|]|].
    + rewrite (Hlen pk eq_refl). destruct (crcflag l); lia.
    + intros [l1|e|n] s1; cbn [step_post]; intros Hpost; [|lia|lia]. split; [by apply Hpost|lia].
  - wp_step. apply wp_flush; [lia|]. intros s2 Hs2. wp_step. cbn [step_post].
    pose proof (good_reads _ _ _ Hgs Hs2) as [? ? ? ?]. destruct Hs2.
    unfold measure, XMODEM_RETRY_LIMIT in *. simpl. split; [|lia].
    split; simpl; unfold XMODEM_RETRY_LIMIT; lia.
Qed.

Lemma step_spec fuel l s :
  good l s -> (inputs s < fuel)%nat -> 1 <= retry l ->
  wp (xmodem_step fuel xmdmBufLen l) (step_post (measure l s)) s.
Proof.
  intros Hg Hf Hr. unfold xmodem_step. wp_step. apply wp_out. intros s1 Hs1.
  pose proof (good_reads _ _ _ Hg Hs1) as Hg1. destruct Hs1 as [Hd1 Hi1].
  wp_step. apply wp_in_time. intros c s2 Hs2 Hc. pose proof (good_reads _ _ _ Hg1 Hs2) as Hg2.
  destruct Hs2 as [Hd2 Hi2]. destruct (Z.ltb_spec c 0) as [|Hpos].
  { wp_step. cbn [step_post]. unfold measure. simpl. destruct Hg2. split; [|lia]. split; simpl; lia. }
  specialize (Hc Hpos). clear Hpos.
  assert (forall l' s', good l' s' -> 1 <= retry l' -> (inputs s' <= inputs s2)%nat ->
    wp (xmodem_body fuel xmdmBufLen l') (step_post (measure l s)) s') as Hbody.
  { intros l' s' Hg' Hr' Hi'. eapply wp_mono; [apply body_spec; [done|lia|done]|]. unfold measure.
    intros [l1|e|n] s3; cbn [step_post]; intros Hpost; [|lia|lia].
    destruct Hpost as [Hg3 Hm]. split; [exact Hg3|]. unfold measure in Hm |- *. lia. }
  assert (forall n s', delivered s' = delivered s2 -> -4 <= n < 0 \/ n = totalbytes l ->
    step_post (measure l s) (Return n) s') as Hret.
  { intros n s' Hd' Hn. cbn [step_post]. rewrite Hd'. destruct Hg2. lia. }
  destruct (c =? SOH); [apply Hbody; [|done|lia]; destruct Hg2; by split; auto|].
  destruct (c =? STX); [apply Hbody; [|done|lia]; destruct Hg2; by split; auto|].
  destruct (c =? EOT).
  { wp_step. apply wp_flush; [lia|]. intros s3 [Hd3 _]. wp_step. apply wp_out. intros s4 [Hd4 _].
    wp_step. apply Hret; [congruence|by right]. }
  destruct (c =? CAN); [|by apply Hbody].
  wp_step. apply wp_in_time. intros c2 s3 Hs3 _. destruct (c2 =? CAN).
  - destruct Hs3 as [Hd3 Hi3]. wp_step. apply wp_flush; [lia|]. intros s4 [Hd4 _]. wp_step. apply wp_out.
    intros s5 [Hd5 _]. wp_step. apply Hret; [congruence|by left].
  - apply Hbody; [by eapply good_reads|done|apply Hs3].
Qed.

(** ** The whole transfer *)

Definition final_post (n : Z) (s : xst) : Prop :=
  Z.of_nat (length (delivered s)) <= Z.max 0 xmdmBufLen /\
  (-4 <= n < 0 \/ n = Z.of_nat (length (delivered s))).

Lemma out_spec fuel err s :
  -4 <= err < 0 -> Z.of_nat (length (delivered s)) <= Z.max 0 xmdmBufLen -> (inputs s < fuel)%nat ->
  wp (xmodem_out fuel err) final_post s.
Proof.
  intros He Hb Hf. unfold xmodem_out. wp_step. apply wp_flush; [done|]. intros s1 [Hd1 _].
  do 3 (wp_step; apply wp_out; intros ? [? _]). wp_step. unfold final_post. split; [|by left]. congruence.
Qed.

Lemma loop_spec fuel l s :
  good l s -> measure l s < Z.of_nat fuel -> wp (xmodem_loop fuel xmdmBufLen l) final_post s.
Proof.
  revert l s. induction fuel as [|fuel IH]; intros l s Hg Hm;
    destruct Hg as [Htot Hbound Hsize Hretry] eqn:E; cbn [xmodem_loop].
  - unfold measure in Hm. lia.
  - destruct (Z.ltb_spec 0 (retry l)); cbn [negb].
    + wp_step. eapply wp_mono; [apply step_spec; [done| |lia]|].
      { unfold measure in Hm. lia. }
      intros [l'|err|n] s'; cbn [step_post]; intros Hpost.
      * apply IH; [apply Hpost|]. lia.
      * destruct Hpost as (He & Hb & Hi). apply out_spec; [done|done|]. unfold measure in *. lia.
      * wp_step. exact Hpost.
    + apply out_spec; [done|lia|]. unfold measure in Hm. lia.
Qed.
End receive.

(** ** A sender *)

Lemma crc_bit_u16 crc : is_u16 (crc_bit crc).
Proof. unfold crc_bit, u16, is_u16. destruct (negb _); apply Z.mod_pos_bound; lia. Qed.

Lemma crc_update_u16 crc b : is_u16 (crc_xmodem_update crc b).
Proof. unfold crc_xmodem_update. cbn [Nat.iter]. apply crc_bit_u16. Qed.

Definition crc16 (data : list Z) : Z := fold_left crc_xmodem_update data 0.

Lemma crc16_u16 data : is_u16 (crc16 data).
Proof.
  unfold crc16. assert (is_u16 0) as H0 by (unfold is_u16; lia). revert H0. generalize 0.
  induction data as [|b data IH]; intros c Hc; simpl; [done|]. apply IH, crc_update_u16.
Qed.

(** A packet with its sequence number, in CRC mode. *)
Definition packet_bytes (seq : Z) (data : list Z) : list Z :=
  seq :: 255 - seq :: data ++ [crc16 data / 256; crc16 data mod 256].
Definition packet (seq : Z) (data : list Z) : list Z :=
  (if Nat.eqb (length data) 128 then SOH else STX) :: packet_bytes seq data.

Definition block_ok (data : list Z) : Prop :=
  bytes data /\ (length data = 128%nat \/ length data = 1024%nat).

(** Each block is sent once and then repeated some number of times. *)
Fixpoint stream (seq : Z) (blocks : list (list Z * nat)) : list Z :=
  match blocks with
  | [] => [EOT]
  | (data, again) :: blocks' =>
      packet seq data ++ concat (replicate again (packet seq data)) ++ stream (u8 (seq + 1)) blocks'
  end.

Definition payload (blocks : list (list Z * nat)) : list Z := concat (map fst blocks).

Section roundtrip.
Lemma in_time_here t c l : 0 <= c -> in_time t (c :: l) = (c, l).
Proof. intros Hc. simpl. by rewrite (proj2 (Z.leb_le _ _)). Qed.

Lemma read_rest_bytes bs rest o d :
  bytes bs -> read_rest (length bs) (Xst (bs ++ rest) o d) = Done (Some bs, Xst rest o d).
Proof.
  induction 1 as [|b bs Hb _ IH]; cbn [length read_rest app]; [done|].
  unfold is_u8 in Hb.
  assert (xmodemInTime XMODEM_TIMEOUT_DELAY (Xst (b :: bs ++ rest) o d) = Done (b, Xst (bs ++ rest) o d)) as E.
  { unfold xmodemInTime, act. cbn [console]. by rewrite in_time_here by lia. }
  rewrite (bind_run _ _ _ _ _ E). rewrite (proj2 (Z.leb_le _ _)) by lia.
  rewrite (bind_run _ _ _ _ _ IH). unfold ret. do 4 f_equal.
  change 0xff with (Z.ones 8). rewrite Z.land_ones by lia. by apply Z.mod_small.
Qed.

Lemma znth_app_r {A} (l1 l2 : list A) i :
  0 <= i -> znth (l1 ++ l2) (Z.of_nat (length l1) + i) = znth l2 i.
Proof.
  intros Hi. unfold znth. rewrite !(proj2 (Z.leb_le _ _)) by lia.
  rewrite lookup_app_r by lia. f_equal. lia.
Qed.

(** The CRC of a packet is accepted. *)
Lemma crc_check_packet data s :
  xmodemCrcCheck true (data ++ [crc16 data / 256; crc16 data mod 256]) (Z.of_nat (length data)) s
  = Done (true, s).
Proof.
  pose proof (crc16_u16 data) as [Hlo Hhi]. unfold xmodemCrcCheck.
  rewrite <- (Z.add_0_r (Z.of_nat (length data))) at 1. rewrite !znth_app_r by lia.
  unfold bind, checked, ret, znth. cbn. do 2 f_equal.
  rewrite Nat2Z.id, take_app_length. fold (crc16 data). apply Z.eqb_eq.
  rewrite Z.shiftl_mul_pow2 by lia. change (2 ^ 8) with 256.
  replace (crc16 data / 256 * 256 + crc16 data mod 256) with (crc16 data)
    by (pose proof (Z.div_mod (crc16 data) 256); lia).
  symmetry. by apply Z.mod_small.
Qed.

(** The receiver in CRC mode, or about to enter it. *)
Definition crc_mode (l : locals) : Prop := crcflag l = true \/ response l = SOLICIT.

Lemma packet_bytes_ok seq data : is_u8 seq -> block_ok data -> bytes (packet_bytes seq data).
Proof.
  intros Hs [Hb _]. unfold packet_bytes, bytes, is_u8 in *. pose proof (crc16_u16 data) as [Hlo Hhi].
  change (2 ^ 8) with 256 in *. change (2 ^ 16) with 65536 in *.
  repeat apply Forall_cons_2; [lia|lia|]. apply Forall_app. split; [done|].
  repeat apply Forall_cons_2; [..|constructor].
  - split; [apply Z.div_pos; lia|apply Z.div_lt_upper_bound; lia].
  - apply Z.mod_pos_bound. lia.
Qed.

(** An iteration that meets a packet. *)
Lemma step_packet fuel B seq data rest l o d :
  is_u8 seq -> block_ok data -> crc_mode l ->
  exists o' l', xmodem_step fuel B l (Xst (packet seq data ++ rest) o d) =
    (if seq =? seqnum l then
       if B <? totalbytes l + Z.of_nat (length data) then Done (Out XMODEM_ERROR_OUTOFMEMORY, Xst rest o' d)
       else Done (Again (accept l'), Xst rest o' (d ++ data))
     else if seq =? u8 (seqnum l - 1) then Done (Again (set_response ACK l'), Xst rest o' d)
     else Done (Out XMODEM_ERROR_OUTOFSYNC, Xst rest o' d)) /\
    seqnum l' = seqnum l /\ crcflag l' = true /\ totalbytes l' = totalbytes l /\
    pktsize l' = Z.of_nat (length data) /\ retry l' = retry l.
Proof.
  intros Hseq Hblk Hmode. destruct Hblk as [Hb Hlen]. 
  set (l1 := set_pktsize (Z.of_nat (length data)) l).
  set (l' := if response l1 =? SOLICIT then set_crcflag true l1 else l1).
  exists (response l :: o), l'.
  assert (crcflag l' = true) as Hcf.
  { unfold l', l1. cbn [set_pktsize response]. destruct (Z.eqb_spec (response l) SOLICIT); [done|].
    by destruct Hmode. }
  assert (seqnum l' = seqnum l /\ totalbytes l' = totalbytes l /\ pktsize l' = Z.of_nat (length data)
          /\ retry l' = retry l) as (H1 & H2 & H3 & H4) by (unfold l'; by destruct (_ =? _)).
  split; [|by split_and!].
  unfold xmodem_step. erewrite (bind_run (xmodemOut _)) by reflexivity. cbn [console sent delivered].
  assert (xmodemInTime XMODEM_TIMEOUT_DELAY (Xst (packet seq data ++ rest) (response l :: o) d) =
    Done (if Nat.eqb (length data) 128 then SOH else STX,
          Xst (packet_bytes seq data ++ rest) (response l :: o) d)) as E.
  { unfold xmodemInTime, act, packet. cbn [console app]. by destruct (Nat.eqb _ _). }
  rewrite (bind_run _ _ _ _ _ E). clear E.
  transitivity (xmodem_body fuel B l1 (Xst (packet_bytes seq data ++ rest) (response l :: o) d)).
  { unfold l1. destruct Hlen as [-> | ->]; reflexivity. }
  unfold xmodem_body. fold l'. rewrite Hcf, H3.
  assert (Z.to_nat (Z.of_nat (length data) + 1 + 4 - 1) = length (packet_bytes seq data)) as ->.
  { unfold packet_bytes. simpl. rewrite length_app. simpl. lia. }
  rewrite (bind_run _ _ _ _ _ (read_rest_bytes _ _ _ _ (packet_bytes_ok _ _ Hseq (conj Hb Hlen)))).
  unfold xmodem_packet. erewrite (bind_run (checked _)) by reflexivity.
  erewrite (bind_run (checked _)) by reflexivity. cbv zeta.
  assert (seq = u8 (Z.lnot (255 - seq))) as Hn.
  { unfold u8, is_u8 in *. unfold Z.lnot.
    apply (Z.mod_unique_pos _ _ (-1)); lia. }
  rewrite <- Hn, Z.eqb_refl, Hcf, H3. unfold packet_bytes. cbn [drop].
  rewrite (bind_run _ _ _ _ _ (crc_check_packet data _)). rewrite H1, H2, Nat2Z.id, drop_0, take_app_length.
  destruct (seq =? seqnum l); [|by destruct (seq =? u8 (seqnum l - 1))].
  destruct (B <? _); [done|]. reflexivity.
Qed.

Lemma loop_step fuel B l s l' s' :
  0 < retry l -> xmodem_step (S fuel) B l s = Done (Again l', s') ->
  xmodem_loop (S fuel) B l s = xmodem_loop fuel B l' s'.
Proof.
  intros Hr Hstep. cbn [xmodem_loop]. rewrite (proj2 (Z.ltb_lt _ _) Hr). cbn [negb].
  by rewrite (bind_run _ _ _ _ _ Hstep).
Qed.

(** The locals agree but for the packet size and the response. *)
Record resumes (l l' : locals) : Prop := {
  rs_seq : seqnum l' = seqnum l;
  rs_total : totalbytes l' = totalbytes l;
  rs_retry : 0 < retry l';
  rs_mode : crc_mode l'
}.

(** Repeated packets are acknowledged and change nothing. *)
Lemma loop_repeats k fuel B seq data rest l o d :
  is_u8 seq -> block_ok data -> seqnum l = u8 (seq + 1) -> 0 < retry l -> crc_mode l ->
  exists o' l', resumes l l' /\
    xmodem_loop (k + fuel) B l (Xst (concat (replicate k (packet seq data)) ++ rest) o d)
    = xmodem_loop fuel B l' (Xst rest o' d).
Proof.
  intros Hseq Hblk. revert l o. induction k as [|k IH]; intros l o Hnum Hr Hm.
  - exists o, l. by split.
  - cbn [replicate concat Nat.add]. rewrite <- app_assoc.
    destruct (step_packet (S (k + fuel)) B seq data
      (concat (replicate k (packet seq data)) ++ rest) l o d Hseq Hblk Hm)
      as (o1 & l1 & Hstep & H1 & H2 & H3 & H4 & H5).
    assert ((seq =? seqnum l) = false) as Hne.
    { apply Z.eqb_neq. rewrite Hnum. unfold u8, is_u8 in *.
      destruct (decide (seq = 255)) as [->|]; [done|]. rewrite Z.mod_small; lia. }
    assert ((seq =? u8 (seqnum l - 1)) = true) as He.
    { apply Z.eqb_eq. rewrite Hnum. unfold u8, is_u8 in *. rewrite Zminus_mod_idemp_l.
      rewrite Z.mod_small; lia. }
    rewrite Hne, He in Hstep.
    rewrite (loop_step _ _ _ _ _ _ Hr Hstep).
    destruct (IH (set_response ACK l1) o1) as (o2 & l2 & Hres & Hrun);
      [by rewrite <- Hnum|simpl; lia|by left|].
    exists o2, l2. rewrite Hrun. split; [|done]. destruct Hres as [R1 R2 R3 R4].
    split; [by rewrite R1|by rewrite R2|done|done].
Qed.

Fixpoint packets (blocks : list (list Z * nat)) : nat :=
  match blocks with [] => 0 | (_, again) :: blocks' => S (again + packets blocks') end.

Lemma loop_stream blocks fuel B l o d :
  Forall (fun b => block_ok (fst b)) blocks -> is_u8 (seqnum l) -> crc_mode l -> 0 < retry l ->
  totalbytes l = Z.of_nat (length d) ->
  totalbytes l + Z.of_nat (length (payload blocks)) <= B ->
  exists o', xmodem_loop (packets blocks + S fuel) B l (Xst (stream (seqnum l) blocks) o d) =
    Done (Z.of_nat (length (d ++ payload blocks)), Xst [] (ACK :: o') (d ++ payload blocks)).
Proof.
  revert l o d. induction blocks as [|[data again] blocks IH]; intros l o d Hok Hseq Hm Hr Htot HB.
  - cbn [packets stream payload map concat Nat.add]. rewrite app_nil_r. exists (response l :: o).
    cbn [xmodem_loop]. rewrite (proj2 (Z.ltb_lt _ _) Hr). cbn [negb]. rewrite <- Htot. reflexivity.
  - apply Forall_cons_1 in Hok as [Hblk Hok]. cbn [fst] in Hblk.
    assert (payload ((data, again) :: blocks) = data ++ payload blocks) as HP by done.
    rewrite HP in HB |- *. rewrite length_app in HB. cbn [packets stream Nat.add]. set (seq := seqnum l) in *.
    set (rest := concat (replicate again (packet seq data)) ++ stream (u8 (seq + 1)) blocks).
    destruct (step_packet (S (again + packets blocks + S fuel)) B seq data rest l o d Hseq Hblk Hm)
      as (o1 & l1 & Hstep & H1 & H2 & H3 & H4 & H5). fold seq in Hstep. rewrite Z.eqb_refl in Hstep.
    rewrite (proj2 (Z.ltb_ge B (totalbytes l + Z.of_nat (length data)))) in Hstep by lia.
    rewrite (loop_step _ _ _ _ _ _ Hr Hstep).
    destruct (loop_repeats again (packets blocks + S fuel) B seq data (stream (u8 (seq + 1)) blocks)
      (accept l1) o1 (d ++ data) Hseq Hblk) as (o2 & l2 & [R1 R2 R3 R4] & Hrun);
      [by cbn [accept seqnum]; rewrite H1|done|by left|].
    unfold rest. rewrite <- Nat.add_assoc, Hrun.
    assert (seqnum l2 = u8 (seq + 1)) as Hs2 by (rewrite R1; cbn [accept seqnum]; by rewrite H1).
    rewrite <- Hs2. rewrite app_assoc. apply IH; [done| |done|done| |].
    + rewrite Hs2. unfold u8, is_u8. apply Z.mod_pos_bound. lia.
    + rewrite R2. cbn [accept totalbytes]. rewrite length_app. lia.
    + rewrite R2. cbn [accept totalbytes]. lia.
Qed.
End roundtrip.

(** ** Properties *)

(** C22: [XModemReceive] always ends, whatever arrives on the line, with no
    access outside [xmbuf]; it never stores more than [bufLen] bytes, and an
    answer that is not negative is the number of bytes it stored (a number
    from 2^31 on becomes negative as an int). *)
Theorem xmodem_receive_total_bounded fuel bufLen s :
  33 * Z.of_nat (length (console s)) + XMODEM_RETRY_LIMIT < Z.of_nat fuel -> 0 <= bufLen ->
  exists n s', XModemReceive fuel bufLen s = Done (n, s') /\
    Z.of_nat (length (delivered s')) <= bufLen /\ (n < 0 \/ n = Z.of_nat (length (delivered s'))).
Proof.
  intros Hf Hb. unfold XModemReceive. erewrite (bind_run (modify _)) by reflexivity.
  set (s1 := Xst (console s) (sent s) []). assert (0 <= u32 bufLen <= bufLen) as Hu.
  { unfold u32. split; [apply Z.mod_pos_bound; lia|apply Z.mod_le; lia]. }
  pose proof (u32_is bufLen) as Hw32. unfold is_u32 in Hw32.
  assert (good (u32 bufLen) locals_init s1) as Hg.
  { split; [done|simpl; lia|by left|vm_compute; intuition discriminate]. }
  pose proof (loop_spec (u32 bufLen) fuel locals_init s1 Hg) as Hw.
  apply wp_done in Hw as (n & s' & Hrun & Hlen & Hn).
  - exists (s32 n), s'. split; [by rewrite (bind_run _ _ _ _ _ Hrun)|]. split; [lia|].
    unfold s32. destruct Hn as [Hn| ->].
    + left. rewrite Z.mod_small; lia.
    + destruct (Z.ltb_spec (Z.of_nat (length (delivered s'))) (2 ^ 31)).
      * right. rewrite Z.mod_small; lia.
      * left. rewrite <- (Z.mod_unique _ (2 ^ 32) 1 (Z.of_nat (length (delivered s')) - 2 ^ 31)); lia.
  - unfold measure, inputs. exact Hf.
Qed.

(** C21: what a sender sends is what is received.  A stream of packets of 128
    or 1024 bytes with CRC, numbered from 1 modulo 256 and each followed by
    any number of repetitions (lost acknowledgements), then EOT, leaves the
    concatenation of the blocks, each once, in the buffer; the answer is its
    length (as an int) and the last character sent is an ACK. *)
Theorem xmodem_roundtrip blocks fuel bufLen s :
  console s = stream 1 blocks -> Forall (fun b => block_ok (fst b)) blocks ->
  Z.of_nat (length (payload blocks)) <= u32 bufLen -> (packets blocks < fuel)%nat ->
  exists o, XModemReceive fuel bufLen s =
    Done (s32 (Z.of_nat (length (payload blocks))), Xst [] (ACK :: o) (payload blocks)).
Proof.
  intros Hc Hok Hb Hf. unfold XModemReceive. erewrite (bind_run (modify _)) by reflexivity. rewrite Hc.
  destruct (loop_stream blocks (fuel - S (packets blocks)) (u32 bufLen) locals_init (sent s) []) as (o & Hrun);
    [done|unfold is_u8; simpl; lia|by right|done|done|simpl; lia|].
  exists o. unfold xmodemReceive.
  replace fuel with (packets blocks + S (fuel - S (packets blocks)))%nat by lia. by rewrite (bind_run _ _ _ _ _ Hrun).
Qed.

Module XmodemWitnesses.

Lemma xmodem_receive_total_bounded_witness :
  exists n s', XModemReceive 200 4096 (Xst [SOH; 7; -1; CAN] [] []) = Done (n, s') /\
    Z.of_nat (length (delivered s')) <= 4096 /\ (n < 0 \/ n = Z.of_nat (length (delivered s'))).
Proof. apply xmodem_receive_total_bounded; [vm_compute; reflexivity|lia]. Defined.

(** Two blocks, the first one sent three times. *)
Definition blocks : list (list Z * nat) := [(memset 65 128, 2%nat); (memset 66 1024, 0%nat)].

Lemma xmodem_roundtrip_witness :
  exists o, XModemReceive 10 2048 (Xst (stream 1 blocks) [] []) =
    Done (1152, Xst [] (ACK :: o) (memset 65 128 ++ memset 66 1024)).
Proof.
  apply (xmodem_roundtrip blocks 10 2048); [reflexivity| |vm_compute; discriminate|vm_compute; lia].
  repeat apply Forall_cons_2; [..|constructor].
  - split; [bytes_tac|by left].
  - split; [bytes_tac|by right].
Defined.
End XmodemWitnesses.
