(* ===== verification/Qsort.v ===== *)
(** The library's sort and string comparison ([U/lib/qsort.c], [strcmp] of
    [U/lib/string.c]).

    [qsort] is a shell sort on an array of elements; the byte-wise exchange of
    two elements is the exchange of two list entries, and the byte offsets are
    divided by [width].  The last pass has gap 1 and is an insertion sort:
    with a comparison that is a total preorder the result is sorted, and with
    every comparison it is a permutation. *)

From stdpp Require Import base numbers list option sorting.
From Stdlib Require Import ZArith Lia.
From S2P Require Import Prelude.

(** ** The C strings *)

(** A string is its characters without the NUL; [char] is unsigned on ARM. *)
Definition cstr : Type := list Z.

(** The result of [strcmp] goes through [signed char __res]. *)
Definition s8 (z : Z) : Z := (z + 2 ^ 7) mod 2 ^ 8 - 2 ^ 7.

(** One step of the loop compares [*cs], [*ct]; the end of a string reads as
    its NUL. *)
Fixpoint strcmp (cs ct : cstr) : Z :=
  match cs, ct with
  | [], [] => 0
  | [], t :: _ => s8 (0 - t)
  | c :: _, [] => s8 c
  | c :: cs', t :: ct' => if s8 (c - t) =? 0 then strcmp cs' ct' else s8 (c - t)
  end.

(** ** qsort *)

Section qsort.
Context {A : Type} (comp : A -> A -> Z).

(** The exchange of the bytes of two elements. *)
Definition swap (l : list A) (i j : nat) : option (list A) :=
  match l !! i, l !! j with
  | Some a, Some b => Some (<[j := a]> (<[i := b]> l))
  | _, _ => None
  end.

(** [do { j -= wgap; ...; } while (j >= wgap)]; [None] is an access outside
    the array.  [j] falls in every round, [S j] rounds are enough. *)
Fixpoint qsort_sift (fuel wgap j : nat) (l : list A) : option (list A) :=
  match fuel with
  | O => None
  | S fuel =>
      let j := (j - wgap)%nat in
      match l !! j, l !! (j + wgap)%nat with
      | Some a, Some b =>
          if comp a b <=? 0 then Some l else
          match swap l j (j + wgap) with
          | Some l => if (wgap <=? j)%nat then qsort_sift fuel wgap j l else Some l
          | None => None
          end
      | _, _ => None
      end
  end.

(** [do { ...; i += width; } while (i < nel)] from [i = wgap], as a counted
    loop: [n = nel - wgap] rounds. *)
Fixpoint qsort_pass (n wgap i : nat) (l : list A) : option (list A) :=
  match n with
  | O => Some l
  | S n =>
      match qsort_sift (S i) wgap i l with
      | Some l => qsort_pass n wgap (S i) l
      | None => None
      end
  end.

(** [do { wgap = 3 * wgap + 1; } while (wgap < (nel-1)/3)]. *)
Fixpoint qsort_gap (fuel wgap bound : nat) : nat :=
  match fuel with
  | O => wgap
  | S fuel => let wgap := (3 * wgap + 1)%nat in
      if (wgap <? bound)%nat then qsort_gap fuel wgap bound else wgap
  end.

(** [do { ...; wgap = (wgap - width)/3; } while (wgap)]. *)
Fixpoint qsort_passes (fuel wgap : nat) (l : list A) : option (list A) :=
  match fuel with
  | O => None
  | S fuel =>
      match qsort_pass (length l - wgap) wgap wgap l with
      | Some l' =>
          let wgap := ((wgap - 1) / 3)%nat in
          if (wgap =? 0)%nat then Some l' else qsort_passes fuel wgap l'
      | None => None
      end
  end.

Definition qsort (l : list A) : option (list A) :=
  let nel := length l in
  if (nel <=? 1)%nat then Some l
  else qsort_passes nel (qsort_gap nel 0 ((nel - 1) / 3)) l.
End qsort.

(** ** The result is a permutation *)

Section permutation.
Context {A : Type} (comp : A -> A -> Z).

Lemma swap_perm (l l' : list A) i j : i <> j -> swap l i j = Some l' -> l' ≡ₚ l.
Proof.
  intros Hij. unfold swap. destruct (l !! i) as [a|] eqn:Hi, (l !! j) as [b|] eqn:Hj; intros [= <-].
  apply Permutation_inj. split; [by rewrite !length_insert|].
  exists (fun k => if decide (k = i) then j else if decide (k = j) then i else k). split.
  - intros x y. repeat case_decide; lia.
  - intros k. apply lookup_lt_Some in Hi as Hli. apply lookup_lt_Some in Hj as Hlj.
    repeat case_decide; subst.
    + rewrite list_lookup_insert_ne, list_lookup_insert_eq by done. congruence.
    + rewrite list_lookup_insert_eq by (by rewrite length_insert). congruence.
    + by rewrite !list_lookup_insert_ne by done.
Qed.

Lemma swap_total (l : list A) i j :
  (i < length l)%nat -> (j < length l)%nat -> is_Some (swap l i j).
Proof.
  intros [a Ha]%lookup_lt_is_Some [b Hb]%lookup_lt_is_Some. unfold swap. rewrite Ha, Hb. eauto.
Qed.

(** A round of the middle loop completes and only exchanges elements. *)
Lemma sift_perm fuel wgap j l :
  (0 < wgap <= j)%nat -> (j < fuel)%nat -> (j < length l)%nat ->
  exists l', qsort_sift comp fuel wgap j l = Some l' /\ l' ≡ₚ l.
Proof.
  revert j l. induction fuel as [|fuel IH]; intros j l Hg Hf Hl; [lia|]. simpl.
  destruct (lookup_lt_is_Some_2 l (j - wgap)) as [a ->]; [lia|].
  destruct (lookup_lt_is_Some_2 l (j - wgap + wgap)) as [b ->]; [lia|].
  destruct (comp a b <=? 0); [by exists l|].
  destruct (swap_total l (j - wgap) (j - wgap + wgap)) as [l1 E]; [lia..|]. rewrite E.
  apply swap_perm in E; [|lia]. destruct (Nat.leb_spec wgap (j - wgap)); [|by exists l1].
  destruct (IH (j - wgap)%nat l1) as (l' & ? & ?); [lia..|by rewrite E; lia|].
  exists l'. split; [done|]. by etrans.
Qed.

Lemma pass_perm n wgap i l :
  (0 < wgap <= i)%nat -> (i + n <= length l)%nat ->
  exists l', qsort_pass comp n wgap i l = Some l' /\ l' ≡ₚ l.
Proof.
  revert i l. induction n as [|n IH]; intros i l Hg Hl; [by exists l|]. cbn [qsort_pass].
  destruct (sift_perm (S i) wgap i l) as (l1 & -> & E); [lia..|].
  destruct (IH (S i) l1) as (l' & ? & ?); [lia|rewrite E; lia|].
  exists l'. split; [done|]. by etrans.
Qed.
End permutation.

(** ** The last pass sorts *)

(** The gaps are 1, 4, 13, ... *)
Inductive gap : nat -> Prop :=
| gap_1 : gap 1
| gap_3 g : gap g -> gap (3 * g + 1).

Lemma gap_pos g : gap g -> (0 < g)%nat.
Proof. destruct 1; lia. Qed.

Lemma qsort_gap_ok fuel wgap n :
  wgap = O \/ gap wgap -> (3 * wgap + 1 < n)%nat -> (0 < fuel)%nat ->
  gap (qsort_gap fuel wgap ((n - 1) / 3)) /\ (qsort_gap fuel wgap ((n - 1) / 3) < n)%nat.
Proof.
  revert wgap. induction fuel as [|fuel IH]; intros wgap Hg Hn Hf; [lia|].
  assert (gap (3 * wgap + 1)) as Hg' by (destruct Hg as [->|]; by constructor).
  cbn [qsort_gap]. destruct (Nat.ltb_spec (3 * wgap + 1) ((n - 1) / 3)) as [Hb|]; [|done].
  destruct fuel as [|fuel]; [done|]. apply IH; [by right| |lia].
  pose proof (Nat.Div0.mul_div_le (n - 1) 3). lia.
Qed.

Section sorted.
Context {A : Type} (comp : A -> A -> Z).
Context (P : A -> Prop).
Context (comp_total : forall a b, P a -> P b -> comp a b <= 0 \/ comp b a <= 0).
Context (comp_trans : forall a b c, P a -> P b -> P c ->
  comp a b <= 0 -> comp b c <= 0 -> comp a c <= 0).

Definition le_comp (a b : A) : Prop := comp a b <= 0.

(** Insertion into a prefix that is held in reverse. *)
Fixpoint insert_rev (x : A) (ra : list A) : list A :=
  match ra with
  | [] => [x]
  | a :: ra' => if comp a x <=? 0 then x :: ra else a :: insert_rev x ra'
  end.

Lemma insert_rev_perm x ra : insert_rev x ra ≡ₚ x :: ra.
Proof.
  induction ra as [|a ra IH]; simpl; [done|]. destruct (comp a x <=? 0); [done|].
  rewrite IH. apply Permutation_swap.
Qed.

Lemma insert_rev_sorted x ra :
  P x -> Forall P ra ->
  StronglySorted (flip le_comp) ra -> StronglySorted (flip le_comp) (insert_rev x ra).
Proof.
  intros Hx HP Hs. induction Hs as [|a ra Hs IH Ha]; simpl; [by repeat constructor|].
  inversion_clear HP as [|? ? Hpa Hpr]. destruct (Z.leb_spec (comp a x) 0) as [Hc|Hc].
  - constructor; [by constructor|]. constructor; [done|].
    rewrite Forall_forall in *. intros b Hb. apply (comp_trans b a x); eauto. by apply Ha.
  - constructor; [by apply IH|]. rewrite insert_rev_perm. constructor; [|done].
    unfold flip, le_comp. destruct (comp_total a x); [done..|lia|lia].
Qed.

Lemma lookup_after (l r : list A) a x n :
  n = length l -> (l ++ a :: x :: r) !! (n + 1)%nat = Some x.
Proof.
  intros ->. rewrite lookup_app_r by lia.
  by replace (length l + 1 - length l)%nat with 1%nat by lia.
Qed.

Lemma swap_middle (l r : list A) a x n :
  n = length l -> swap (l ++ a :: x :: r) n (n + 1) = Some (l ++ x :: a :: r).
Proof.
  intros Hn. unfold swap. rewrite list_lookup_middle, lookup_after by done. subst n. f_equal.
  rewrite !insert_app_r_alt by lia. rewrite Nat.sub_diag. cbn.
  by replace (length l + 1 - length l)%nat with 1%nat by lia.
Qed.

(** With gap 1 a round of the middle loop inserts [l[j]] into the prefix. *)
Lemma sift_insert fuel x ra rest :
  ra <> [] -> (length ra < fuel)%nat ->
  qsort_sift comp fuel 1 (length ra) (rev ra ++ x :: rest) = Some (rev (insert_rev x ra) ++ rest).
Proof.
  revert fuel rest. induction ra as [|a ra IH]; intros fuel rest Hne Hf; [done|].
  destruct fuel as [|fuel]; [simpl in Hf; lia|]. cbn [length qsort_sift rev insert_rev].
  replace (S (length ra) - 1)%nat with (length ra) by lia.
  rewrite <-!app_assoc. cbn [app].
  assert (length (rev ra) = length ra) as Hlen by apply length_rev.
  rewrite list_lookup_middle, lookup_after by done.
  destruct (comp a x <=? 0); [by simpl; rewrite <-!app_assoc|].
  rewrite swap_middle by done.
  destruct ra as [|b ra]; [done|]. cbn [length Nat.leb] in *.
  rewrite IH by (done || (simpl in *; lia)). simpl. by rewrite <-!app_assoc.
Qed.

Lemma pass_sorts n ra rest :
  ra <> [] -> length rest = n -> Forall P ra -> Forall P rest ->
  StronglySorted (flip le_comp) ra ->
  exists ra', qsort_pass comp n 1 (length ra) (rev ra ++ rest) = Some (rev ra') /\
    StronglySorted (flip le_comp) ra'.
Proof.
  revert ra rest. induction n as [|n IH]; intros ra rest Hne Hlen Hra Hrest Hs.
  - apply nil_length_inv in Hlen as ->. exists ra. by rewrite app_nil_r.
  - destruct rest as [|x rest]; [done|]. inversion_clear Hrest.
    cbn [qsort_pass]. rewrite sift_insert by (done || lia).
    assert (length (insert_rev x ra) = S (length ra)) as <- by by rewrite insert_rev_perm.
    apply IH; [|by injection Hlen| |done|by apply insert_rev_sorted].
    + intros Hnil%(f_equal length). by rewrite insert_rev_perm in Hnil.
    + rewrite insert_rev_perm. by constructor.
Qed.

Lemma rev_sorted l : StronglySorted (flip le_comp) l -> StronglySorted le_comp (rev l).
Proof.
  induction 1 as [|a l Hs IH Ha]; simpl; [constructor|]. apply StronglySorted_app. split_and!.
  - intros x y Hx Hy. apply list_elem_of_singleton in Hy as ->.
    apply list_elem_of_In, in_rev, list_elem_of_In in Hx. rewrite Forall_forall in Ha. by apply Ha.
  - done.
  - by repeat constructor.
Qed.

Lemma pass1_sorted l :
  (1 < length l)%nat -> Forall P l ->
  exists l', qsort_pass comp (length l - 1) 1 1 l = Some l' /\ StronglySorted le_comp l'.
Proof.
  destruct l as [|x l]; simpl; [lia|]. intros Hl [Hx HP]%Forall_cons.
  destruct (pass_sorts (length l) [x] l) as (ra & Hra & Hs);
    [done|done|by constructor|done|by repeat constructor|].
  rewrite Nat.sub_0_r. exists (rev ra). split; [exact Hra|by apply rev_sorted].
Qed.

Lemma passes_sorted fuel wgap l :
  gap wgap -> (wgap < length l)%nat -> (wgap <= fuel)%nat -> Forall P l ->
  exists l', qsort_passes comp fuel wgap l = Some l' /\ l' ≡ₚ l /\ StronglySorted le_comp l'.
Proof.
  revert wgap l. induction fuel as [|fuel IH]; intros wgap l Hg Hl Hf HP.
  { pose proof (gap_pos _ Hg). lia. }
  cbn [qsort_passes]. destruct Hg as [|g Hg].
  - destruct (pass1_sorted l) as (l' & E & Hs); [lia|done|].
    destruct (pass_perm comp (length l - 1) 1 1 l) as (l2 & E2 & Hp); [lia..|].
    rewrite E in *. injection E2 as <-. by exists l'.
  - pose proof (gap_pos _ Hg).
    destruct (pass_perm comp (length l - (3 * g + 1)) (3 * g + 1) (3 * g + 1) l) as (l' & -> & Hp); [lia..|].
    replace ((3 * g + 1 - 1) / 3)%nat with g
      by (rewrite Nat.add_sub, Nat.mul_comm; symmetry; by apply Nat.div_mul).
    destruct (Nat.eqb_spec g 0); [lia|].
    destruct (IH g l') as (l2 & ? & ? & ?); [done|rewrite Hp; lia|lia|by rewrite Hp|].
    exists l2. split_and!; [done| |done]. by etrans.
Qed.

End sorted.

Lemma passes_perm {A} (comp : A -> A -> Z) fuel wgap l :
  gap wgap -> (wgap < length l)%nat -> (wgap <= fuel)%nat ->
  exists l', qsort_passes comp fuel wgap l = Some l' /\ l' ≡ₚ l.
Proof.
  revert wgap l. induction fuel as [|fuel IH]; intros wgap l Hg Hl Hf.
  { pose proof (gap_pos _ Hg). lia. }
  cbn [qsort_passes]. destruct (pass_perm comp (length l - wgap) wgap wgap l) as (l' & -> & Hp).
  { pose proof (gap_pos _ Hg). lia. } { lia. }
  destruct Hg as [|g Hg]; [by exists l'|]. pose proof (gap_pos _ Hg).
  replace ((3 * g + 1 - 1) / 3)%nat with g
    by (rewrite Nat.add_sub, Nat.mul_comm; symmetry; by apply Nat.div_mul).
  destruct (Nat.eqb_spec g 0); [lia|].
  destruct (IH g l') as (l2 & ? & ?); [done|rewrite Hp; lia|lia|].
  exists l2. split; [done|]. by etrans.
Qed.

(** With any comparison the call completes and permutes the array. *)
Lemma qsort_perm {A} (comp : A -> A -> Z) (l : list A) :
  exists l', qsort comp l = Some l' /\ l' ≡ₚ l.
Proof.
  unfold qsort. destruct (Nat.leb_spec (length l) 1) as [H1|H1]; [by exists l|].
  destruct (qsort_gap_ok (length l) 0 (length l)) as [Hg Hlt]; [by left|lia..|].
  apply passes_perm; [done..|lia].
Qed.

(** The elements satisfy [P], on which the comparison is a total preorder. *)
Lemma qsort_sorted {A} (comp : A -> A -> Z) (P : A -> Prop) (l : list A) :
  (forall a b, P a -> P b -> comp a b <= 0 \/ comp b a <= 0) ->
  (forall a b c, P a -> P b -> P c -> comp a b <= 0 -> comp b c <= 0 -> comp a c <= 0) ->
  Forall P l ->
  exists l', qsort comp l = Some l' /\ l' ≡ₚ l /\ StronglySorted (le_comp comp) l'.
Proof.
  intros Ht Htr HP. unfold qsort. destruct (Nat.leb_spec (length l) 1) as [H1|H1].
  - exists l. split_and!; [done|done|]. destruct l as [|a [|b l]]; [by constructor| |simpl in H1; lia].
    by repeat constructor.
  - destruct (qsort_gap_ok (length l) 0 (length l)) as [Hg Hlt]; [by left|lia..|].
    eapply passes_sorted; [done..|lia|done].
Qed.

(** ** [strcmp] on ASCII strings *)

(** The characters of a C string: no NUL among them. *)
Definition ascii (s : cstr) : Prop := Forall (fun c => 0 < c < 128) s.
Definition cstr_ok (s : cstr) : Prop := Forall (fun c => 0 < c < 256) s.

Lemma ascii_cstr s : ascii s -> cstr_ok s.
Proof. intros H. eapply Forall_impl; [exact H|]. simpl. lia. Qed.

Lemma s8_small z : -128 <= z < 128 -> s8 z = z.
Proof. intros Hz. unfold s8. rewrite Z.mod_small by lia. lia. Qed.

Lemma s8_eq a b : 0 <= a < 256 -> 0 <= b < 256 -> s8 (a - b) = 0 -> a = b.
Proof. unfold s8. intros Ha Hb H. Z.div_mod_to_equations. lia. Qed.

Lemma strcmp_refl a : strcmp a a = 0.
Proof. induction a as [|x a IH]; simpl; [done|]. by rewrite Z.sub_diag. Qed.

(** Equality is decided on all strings. *)
Lemma strcmp_eq a b : cstr_ok a -> cstr_ok b -> strcmp a b = 0 <-> a = b.
Proof.
  intros Ha Hb. split; [|intros ->; apply strcmp_refl].
  revert b Hb. induction Ha as [|x a Hx Ha IH]; intros b Hb; inversion_clear Hb as [|y b' Hy Hb']; simpl.
  - done.
  - intros H. apply (s8_eq 0 y) in H; lia.
  - intros H. rewrite <-(Z.sub_0_r x) in H. apply (s8_eq x 0) in H; lia.
  - destruct (Z.eqb_spec (s8 (x - y)) 0) as [E|]; [|done]. apply s8_eq in E as ->; [|lia..].
    intros ->%IH; done.
Qed.

(** The order is the lexicographic one when the characters are ASCII. *)
Fixpoint lex_le (a b : cstr) : Prop :=
  match a, b with
  | [], _ => True
  | _ :: _, [] => False
  | x :: a', y :: b' => x < y \/ x = y /\ lex_le a' b'
  end.

Lemma strcmp_lex a b : ascii a -> ascii b -> strcmp a b <= 0 <-> lex_le a b.
Proof.
  intros Ha. revert b. induction Ha as [|x a Hx Ha IH]; intros b Hb;
    inversion_clear Hb as [|y b' Hy Hb']; simpl.
  - done.
  - rewrite s8_small by lia. split; [done|lia].
  - rewrite s8_small by lia. split; [lia|done].
  - rewrite s8_small by lia. destruct (Z.eqb_spec (x - y) 0).
    + rewrite IH by done. split; [right; split; [lia|done]|]. intros [?|[_ ?]]; [lia|done].
    + split; [left; lia|]. intros [?|[? _]]; lia.
Qed.

Lemma lex_le_total a b : lex_le a b \/ lex_le b a.
Proof.
  revert b. induction a as [|x a IH]; intros [|y b]; simpl; [by left..|by right|].
  destruct (Z.lt_trichotomy x y) as [?|[->|?]]; [by left; left| |by right; left].
  destruct (IH b); [left|right]; by right.
Qed.

Lemma lex_le_trans a b c : lex_le a b -> lex_le b c -> lex_le a c.
Proof.
  revert b c. induction a as [|x a IH]; intros [|y b] [|z c]; simpl; try done.
  intros [?|[-> ?]] [?|[-> ?]]; [left; lia..|]. right. split; [done|]. by eapply IH.
Qed.
