(* ===== verification/Htab.v ===== *)
(** The hash table behind the environment ([U/lib/hashtable.c],
    [U/include/search.h]).

    Open addressing with double hashing in a table of prime size.  Slot 0 is
    never used; the field [used] of a slot is 0 for a free slot, -1 for a
    deleted one and the (first) hash value otherwise.  The state holds one
    [struct hsearch_data] and [errno].  Entries own their copies of key and
    data; [strdup] and [calloc] are taken to succeed.  What the table calls
    for permission and side effects of a variable - the function pointers
    [change_ok] and [callback], and [env_callback_init], [env_flags_init] of
    the environment - is the class [EnvHooks]. *)

From stdpp Require Import base numbers list option.
From Stdlib Require Import ZArith Lia.
From S2P Require Import Prelude Qsort.

(** ** Data *)

Inductive env_op := env_op_create | env_op_delete | env_op_overwrite.
Inductive ACTION := FIND | ENTER.

Definition EPERM : Z := 1.
Definition ESRCH : Z := 3.
Definition ENOMEM : Z := 12.
Definition EINVAL : Z := 22.

Definition H_NOCLEAR : Z := 1.
Definition H_FORCE : Z := 2.
Definition H_INTERACTIVE : Z := 4.
Definition H_HIDE_DOT : Z := 8.
Definition H_MATCH_KEY : Z := 16.
Definition H_MATCH_DATA : Z := 32.
Definition H_MATCH_IDENT : Z := 64.
Definition H_MATCH_SUBSTR : Z := 128.
Definition H_MATCH_REGEX : Z := 256.
Definition H_MATCH_METHOD : Z := Z.lor H_MATCH_IDENT (Z.lor H_MATCH_SUBSTR H_MATCH_REGEX).

(** [ENTRY]; [C] are the functions a [callback] can point to. *)
Record ENTRY {C : Type} := Entry {
  key : cstr;
  data : cstr;
  callback : option C;
  flags : Z;
}.
Arguments ENTRY : clear implicits.

(** [_ENTRY]. *)
Record slot {C : Type} := Slot {
  used : Z;
  entry : ENTRY C;
}.
Arguments slot : clear implicits.

(** A zeroed slot. *)
Definition free_slot {C} : slot C := Slot C 0 (Entry C [] [] None 0).

(** [struct hsearch_data] and [errno]; [table] is [None] for NULL. *)
Record hsearch_data {C : Type} := Htab {
  table : option (list (slot C));
  size : Z;
  filled : Z;
  errno : Z;
}.
Arguments hsearch_data : clear implicits.

(** The argument of [hsearch_r]; the other fields of the [ENTRY] are not
    read. *)
Record item := Item {
  item_key : cstr;
  item_data : option cstr;
}.

(** The code the table calls.  [change_ok] is [None] for a null pointer, and
    [true] stands for a denial; [callback_of], [flags_of] are what
    [env_callback_init] and [env_flags_init] find for a new variable in the
    lists in force. *)
Class EnvHooks (C : Type) := {
  change_ok : option (ENTRY C -> option cstr -> env_op -> Z -> bool);
  run_callback : C -> cstr -> option cstr -> env_op -> Z -> bool;
  callback_of : cstr -> option C;
  flags_of : cstr -> option Z;
}.

Definition set_table {C} (t : option (list (slot C))) (h : hsearch_data C) : hsearch_data C :=
  Htab C t (size h) (filled h) (errno h).
Definition set_size {C} (n : Z) (h : hsearch_data C) : hsearch_data C :=
  Htab C (table h) n (filled h) (errno h).
Definition set_filled {C} (n : Z) (h : hsearch_data C) : hsearch_data C :=
  Htab C (table h) (size h) n (errno h).
Definition set_errno {C} (n : Z) (h : hsearch_data C) : hsearch_data C :=
  Htab C (table h) (size h) (filled h) n.

Definition set_data {C} (d : cstr) (e : ENTRY C) : ENTRY C :=
  Entry C (key e) d (callback e) (flags e).

(** ** Creation and destruction *)

(** The loop of [isprime]; [fuel] bounds the number of divisors tried. *)
Fixpoint isprime_div (fuel : nat) (div number : Z) : option Z :=
  match fuel with
  | O => None
  | S fuel =>
      if (u32 (div * div) <? number) && negb (number mod div =? 0)
      then isprime_div fuel (div + 2) number else Some div
  end.

Definition isprime (fuel : nat) (number : Z) : option bool :=
  match isprime_div fuel 3 number with
  | Some div => Some (negb (number mod div =? 0))
  | None => None
  end.

(** [while (!isprime(nel)) nel += 2]. *)
Fixpoint next_prime (fuel : nat) (nel : Z) : option Z :=
  match fuel with
  | O => None
  | S fuel' =>
      match isprime (Z.to_nat nel) nel with
      | Some true => Some nel
      | Some false => next_prime fuel' (nel + 2)
      | None => None
      end
  end.

Section ops.
Context {C : Type} {HC : EnvHooks C}.
Abbreviation st := (hsearch_data C).

Definition hcreate_r (fuel : nat) (nel : Z) : M st Z :=
  let! t := gets table in
  match t with
  | Some _ => ret 0
  | None =>
      match next_prime fuel (Z.lor nel 1) with
      | None => out_of_fuel
      | Some n =>
          do! modify (set_size n) in
          do! modify (set_filled 0) in
          do! modify (set_table (Some (memset free_slot (n + 1)))) in
          ret 1
      end
  end.

Definition hdestroy_r : M st unit := modify (set_table None).

(** [htab->table[idx]], read and written. *)
Definition get_slot (idx : Z) : M st (slot C) :=
  let! t := gets table in
  checked (match t with Some l => znth l idx | None => None end).

Definition put_slot (idx : Z) (v : slot C) : M st unit :=
  let! t := gets table in
  let! l := checked (match t with Some l => zset l idx v | None => None end) in
  modify (set_table (Some l)).

(** ** Search *)

Definition hmatch_r (match_ : cstr) (last_idx : Z) : M st (Z * option Z) :=
  let! n := gets size in
  let! r := for_loop (Z.to_nat (n - (last_idx + 1))) (last_idx + 1) 1 (fun idx =>
    let! s := get_slot idx in
    if used s <=? 0 then ret None else
    if bool_decide (take (length match_) (key (entry s)) = match_)
    then ret (Some (idx, Some idx)) else ret None) in
  match r with
  | Some v => ret v
  | None => do! modify (set_errno ESRCH) in ret (0, None)
  end.

(** [change_ok != NULL && change_ok(...)], [callback && callback(...)]. *)
Definition denied (e : ENTRY C) (newval : option cstr) (op : env_op) (flag : Z) : bool :=
  match change_ok with Some f => f e newval op flag | None => false end.

Definition refused (e : ENTRY C) (k : cstr) (v : option cstr) (op : env_op) (flag : Z) : bool :=
  match callback e with Some c => run_callback c k v op flag | None => false end.

(** A failing call: [errno], [*retval = NULL], 0. *)
Definition reject (e : Z) : M st (Z * option Z) :=
  do! modify (set_errno e) in ret (0, None).

(** [None] is the answer -1 (keep searching); otherwise the answer and
    [*retval], the latter as the number of the slot. *)
Definition _compare_and_overwrite_entry (it : item) (action : ACTION) (flag hval idx : Z)
  : M st (option (Z * option Z)) :=
  let! s := get_slot idx in
  if (u32 (used s) =? hval) && (strcmp (item_key it) (key (entry s)) =? 0) then
    match action, item_data it with
    | ENTER, Some d =>
        if denied (entry s) (Some d) env_op_overwrite flag
        then let! r := reject EPERM in ret (Some r)
        else if refused (entry s) (item_key it) (Some d) env_op_overwrite flag
        then let! r := reject EINVAL in ret (Some r)
        else
          do! put_slot idx (Slot C (used s) (set_data d (entry s))) in
          ret (Some (idx, Some idx))
    | _, _ => ret (Some (idx, Some idx))
    end
  else ret None.

(** The value computed from the key, from its last character to its first. *)
Definition hash (k : cstr) : Z :=
  foldl (fun h c => u32 (u32 (Z.shiftl h 4) + c)) (u32 (Z.of_nat (length k))) (rev k).

(** The first hash function: the value modulo the size, but not zero. *)
Definition first_hash (n : Z) (k : cstr) : Z :=
  let hval := hash k mod n in if hval =? 0 then hval + 1 else hval.

(** The second hash function. *)
Definition second_hash (n hval : Z) : Z := 1 + hval mod (u32 (n - 2)).

(** The next index of the walk. *)
Definition next_idx (n hval2 idx : Z) : Z :=
  if idx <=? hval2 then u32 (n + idx - hval2) else idx - hval2.

(** [do { ... } while (htab->table[idx].used)]; [inl] is an answer of the
    function, [inr] the slot at which the loop ended. *)
Fixpoint probe (fuel : nat) (it : item) (action : ACTION) (flag hval hval2 idx : Z)
  : M st ((Z * option Z) + Z) :=
  match fuel with
  | O => out_of_fuel
  | S fuel =>
      let! n := gets size in
      let idx := next_idx n hval2 idx in
      if idx =? hval then ret (inr idx) else
      let! r := _compare_and_overwrite_entry it action flag hval idx in
      match r with
      | Some v => ret (inl v)
      | None =>
          let! s := get_slot idx in
          if used s =? 0 then ret (inr idx) else probe fuel it action flag hval hval2 idx
      end
  end.

Definition _hdelete (idx : Z) : M st unit :=
  let! s := get_slot idx in
  do! put_slot idx (Slot C (-1) (Entry C (key (entry s)) (data (entry s)) None 0)) in
  modify (fun h => set_filled (u32 (filled h - 1)) h).

(** [env_callback_init] and [env_flags_init] on the new entry. *)
Definition init_entry (e : ENTRY C) : ENTRY C :=
  Entry C (key e) (data e)
    (match callback_of (key e) with Some c => Some c | None => callback e end)
    (match flags_of (key e) with Some f => f | None => flags e end).

(** The end of [hsearch_r]: an entry was not found, and the walk ended at
    [idx]. *)
Definition hsearch_enter (it : item) (action : ACTION) (flag hval idx first_deleted : Z)
  : M st (Z * option Z) :=
  match action with
  | FIND => reject ESRCH
  | ENTER =>
      let! n := gets size in
      let! f := gets filled in
      if f =? n then reject ENOMEM else
      let idx := if first_deleted =? 0 then idx else first_deleted in
      let! s := get_slot idx in
      match item_data it with
      | None => undef
      | Some d =>
          let e := Entry C (item_key it) d (callback (entry s)) (flags (entry s)) in
          do! put_slot idx (Slot C hval e) in
          do! modify (fun h => set_filled (u32 (filled h + 1)) h) in
          let e := init_entry e in
          do! put_slot idx (Slot C hval e) in
          if denied e (Some d) env_op_create flag
          then do! _hdelete idx in reject EPERM
          else if refused e (item_key it) (Some d) env_op_create flag
          then do! _hdelete idx in reject EINVAL
          else ret (1, Some idx)
      end
  end.

Definition hsearch_r (it : item) (action : ACTION) (flag : Z) : M st (Z * option Z) :=
  let! n := gets size in
  if n =? 0 then undef else
  let hval := first_hash n (item_key it) in
  let! s := get_slot hval in
  if used s =? 0 then hsearch_enter it action flag hval hval 0 else
  let first_deleted := if used s =? -1 then hval else 0 in
  let! r := _compare_and_overwrite_entry it action flag hval hval in
  match r with
  | Some v => ret v
  | None =>
      let! r := probe (Z.to_nat n) it action flag hval (second_hash n hval) hval in
      match r with
      | inl v => ret v
      | inr idx => hsearch_enter it action flag hval idx first_deleted
      end
  end.

(** ** Deletion and walk *)

Definition hdelete_r (k : cstr) (flag : Z) : M st Z :=
  let! r := hsearch_r (Item k None) FIND 0 in
  let idx := r.1 in
  if idx =? 0 then do! modify (set_errno ESRCH) in ret 0 else
  let! s := get_slot idx in
  if denied (entry s) None env_op_delete flag
  then do! modify (set_errno EPERM) in ret 0
  else if refused (entry s) k None env_op_delete flag
  then do! modify (set_errno EINVAL) in ret 0
  else do! _hdelete idx in ret 1.

(** [callback] is the function passed by the caller: it may change the entry,
    and ends the walk by a value other than 0. *)
Definition hwalk_r (cb : ENTRY C -> Z * ENTRY C) : M st Z :=
  let! n := gets size in
  let! r := for_loop (Z.to_nat n) 1 1 (fun i =>
    let! s := get_slot i in
    if 0 <? used s then
      let (retval, e) := cb (entry s) in
      do! put_slot i (Slot C (used s) e) in
      ret (if retval =? 0 then None else Some retval)
    else ret None) in
  ret (default 0 r).
End ops.
