(* ===== verification/HtabBase.v ===== *)
(** The walk of the double hashing and the invariant of the hash table.

    [pos n hv h2 k] is the slot the search visits in its [k]-th step.  Because
    the size is prime, the first [n] steps visit every slot once.  The
    invariant [ht_ok] says that every entry is found from its hash value
    without crossing a free slot; [repr] relates a table to the finite map of
    its entries. *)

From stdpp Require Import base numbers list option gmap.
From Stdlib Require Import ZArith Zdivisibility Lia.
From S2P Require Import Prelude Qsort Htab.

(** ** The order of the walk *)

Definition pos (n hv h2 k : Z) : Z := (hv - 1 - k * h2) mod n + 1.

Section walk.
Context (n hv h2 : Z) (Hp : Z.prime n) (Hn : 5 <= n < 2 ^ 31).
Context (Hhv : 1 <= hv < n) (Hh2 : 1 <= h2 < n).
Local Notation pos := (pos n hv h2).

Lemma pos_range k : 1 <= pos k <= n.
Proof. unfold pos. pose proof (Z.mod_pos_bound (hv - 1 - k * h2) n). lia. Qed.

Lemma pos_0 : pos 0 = hv.
Proof. unfold pos. rewrite Z.mod_small; lia. Qed.

Lemma pos_n : pos n = hv.
Proof.
  unfold pos. replace (hv - 1 - n * h2) with (hv - 1 + - h2 * n) by lia.
  rewrite Z_mod_plus_full, Z.mod_small; lia.
Qed.

Lemma walk_next k : next_idx n h2 (pos k) = pos (k + 1).
Proof.
  unfold next_idx, pos. pose proof (Z.mod_pos_bound (hv - 1 - k * h2) n ltac:(lia)) as Hb.
  replace (hv - 1 - (k + 1) * h2) with (hv - 1 - k * h2 - h2) by lia.
  rewrite <-(Zminus_mod_idemp_l (hv - 1 - k * h2) h2 n).
  set (r := (hv - 1 - k * h2) mod n) in *. destruct (Z.leb_spec (r + 1) h2).
  - unfold u32. rewrite Z.mod_small by lia.
    rewrite <-(Z_mod_plus_full (r - h2) 1), Z.mod_small by lia. lia.
  - rewrite Z.mod_small by lia. lia.
Qed.

Lemma pos_inj j k : 0 <= j < n -> 0 <= k < n -> pos j = pos k -> j = k.
Proof.
  assert (forall j k, 0 <= j <= k -> k < n -> pos j = pos k -> j = k) as Hle.
  { intros a b Ha Hb H. unfold pos in H.
    assert (n | (b - a) * h2) as [Hd|Hd]%(Z.divide_prime_mul _ _ n Hp).
    - assert ((hv - 1 - a * h2) mod n = (hv - 1 - b * h2) mod n) as E by lia.
      apply Z.mod_divide; [lia|].
      replace ((b - a) * h2) with ((hv - 1 - a * h2) - (hv - 1 - b * h2)) by lia.
      rewrite Zminus_mod, E, Z.sub_diag. by apply Zmod_0_l.
    - destruct (Z.eq_dec a b); [done|]. apply Z.divide_pos_le in Hd; lia.
    - apply Z.divide_pos_le in Hd; lia. }
  intros Hj Hk H. destruct (Z.le_ge_cases j k); [apply Hle; (done || lia)|].
  symmetry. apply Hle; (done || lia).
Qed.

(** Every slot is visited. *)
Lemma pos_surj i : 1 <= i <= n -> exists k, 0 <= k < n /\ pos k = i.
Proof.
  intros Hi. assert (Z.coprime n h2) as Hr by (apply Z.coprime_prime_l; [done|];
    intros Hd; apply Z.divide_pos_le in Hd; lia).
  symmetry in Hr. apply Z.Bezout_coprime in Hr as (u & v & Huv).
  exists (((hv - i) * u) mod n). pose proof (Z.mod_pos_bound ((hv - i) * u) n ltac:(lia)).
  split; [lia|]. unfold pos.
  rewrite Zminus_mod, Z.mul_mod_idemp_l, <-Zminus_mod by lia.
  replace (hv - 1 - (hv - i) * u * h2) with (i - 1 + (hv - i) * v * n) by nia.
  rewrite Z_mod_plus_full, Z.mod_small; lia.
Qed.
End walk.

Lemma first_hash_range n k : 5 <= n -> 1 <= first_hash n k < n.
Proof.
  intros Hn. unfold first_hash. pose proof (Z.mod_pos_bound (hash k) n).
  destruct (Z.eqb_spec (hash k mod n) 0); lia.
Qed.

Lemma second_hash_range n hv : 5 <= n < 2 ^ 31 -> 1 <= second_hash n hv < n.
Proof.
  intros Hn. unfold second_hash, u32. rewrite (Z.mod_small (n - 2)) by lia.
  pose proof (Z.mod_pos_bound hv (n - 2)). lia.
Qed.

Ltac in_range := first [done | by apply second_hash_range | apply first_hash_range; lia].

(** The [j]-th slot of the search for a key. *)
Definition path (n : Z) (k : cstr) (j : Z) : Z :=
  pos n (first_hash n k) (second_hash n (first_hash n k)) j.

Section path.
Context (n : Z) (Hp : Z.prime n) (Hn : 5 <= n < 2 ^ 31) (k : cstr).

Lemma path_range j : 1 <= path n k j <= n.
Proof. apply pos_range. lia. Qed.
Lemma path_0 : path n k 0 = first_hash n k.
Proof. apply pos_0. apply first_hash_range. lia. Qed.
Lemma path_n : path n k n = first_hash n k.
Proof. apply pos_n. apply first_hash_range. lia. Qed.
Lemma path_next j :
  next_idx n (second_hash n (first_hash n k)) (path n k j) = path n k (j + 1).
Proof. apply walk_next; in_range. Qed.
Lemma path_inj i j : 0 <= i < n -> 0 <= j < n -> path n k i = path n k j -> i = j.
Proof. apply pos_inj; in_range. Qed.
Lemma path_surj i : 1 <= i <= n -> exists j, 0 <= j < n /\ path n k j = i.
Proof. apply pos_surj; in_range. Qed.
End path.

(** ** The invariant *)

Section inv.
Context {C : Type}.
Implicit Types (h : hsearch_data C) (l : list (slot C)) (e : ENTRY C).

Definition is_free l (i : Z) : Prop := exists s, znth l i = Some s /\ used s = 0.
Definition live l (i : Z) e : Prop := exists s, znth l i = Some s /\ 0 < used s /\ entry s = e.

(** A live entry: its slot is on the path of its key, and no slot before it on
    the path is free. *)
Definition found_at n l (k : cstr) (i : Z) : Prop :=
  exists j, 0 <= j < n /\ path n k j = i /\ forall j', 0 <= j' < j -> ~ is_free l (path n k j').

Record slot_ok n l (i : Z) (s : slot C) : Prop := {
  so_live : 0 < used s -> cstr_ok (key (entry s)) /\ used s = first_hash n (key (entry s)) /\
    found_at n l (key (entry s)) i;
  so_dead : used s <= 0 -> used s = 0 \/ used s = -1;
  so_blank : used s <= 0 -> callback (entry s) = None /\ flags (entry s) = 0;
}.

(** The number of live slots. *)
Definition live_count l : Z := Z.of_nat (length (filter (fun s => 0 < used s) l)).

(** The invariant of the slots. *)
Record table_ok n l : Prop := {
  to_prime : Z.prime n;
  to_size : 5 <= n < 2 ^ 31;
  to_len : Z.of_nat (length l) = n + 1;
  to_slot i s : znth l i = Some s -> slot_ok n l i s;
  to_zero : is_free l 0;
  to_uniq i1 i2 e1 e2 : live l i1 e1 -> live l i2 e2 -> key e1 = key e2 -> i1 = i2;
}.

(** ** Facts about tables *)

Lemma is_free_lookup l i s : znth l i = Some s -> used s <> 0 -> ~ is_free l i.
Proof. intros Hs Hu (s' & Hs' & ?). congruence. Qed.

Lemma live_not_free l i e : live l i e -> ~ is_free l i.
Proof. intros (s & Hs & Hu & _). eapply is_free_lookup; [done|lia]. Qed.

Lemma live_range n l i e : table_ok n l -> live l i e -> 1 <= i <= n.
Proof.
  intros [_ _ Hlen _ H0 _] Hl. pose proof Hl as (s & Hs%znth_range & _).
  destruct (Z.eq_dec i 0) as [->|]; [|lia]. by apply live_not_free in Hl.
Qed.

Lemma live_found n l i e : table_ok n l -> live l i e ->
  cstr_ok (key e) /\ found_at n l (key e) i.
Proof. intros Ht (s & Hs & Hu & <-). by destruct (so_live n l i s (to_slot n l Ht i s Hs) Hu) as (? & _ & ?). Qed.

Lemma table_lookup n l i : table_ok n l -> 0 <= i <= n -> exists s, znth l i = Some s.
Proof. intros Ht Hi. pose proof (to_len n l Ht). apply znth_Some. lia. Qed.

Lemma insert_lookup l i0 v i s :
  0 <= i0 < Z.of_nat (length l) ->
  znth (<[Z.to_nat i0 := v]> l) i = Some s ->
  i = i0 /\ s = v \/ i <> i0 /\ znth l i = Some s.
Proof.
  intros Hi Hs. assert (0 <= i) by (apply znth_range in Hs; lia).
  rewrite znth_insert in Hs by lia. case_decide; [left|right]; naive_solver.
Qed.

Lemma free_insert l i0 v i :
  0 <= i0 < Z.of_nat (length l) -> used v <> 0 ->
  is_free (<[Z.to_nat i0 := v]> l) i -> is_free l i.
Proof.
  intros Hi Hv (s & Hs & Hu). destruct (insert_lookup _ _ _ _ _ Hi Hs) as [[-> ->]|[_ ?]]; [done|].
  by exists s.
Qed.

Lemma live_insert l i0 v i e :
  0 <= i0 < Z.of_nat (length l) ->
  live (<[Z.to_nat i0 := v]> l) i e <->
  i = i0 /\ 0 < used v /\ entry v = e \/ i <> i0 /\ live l i e.
Proof.
  intros Hi. split.
  - intros (s & Hs & Hu & <-). destruct (insert_lookup _ _ _ _ _ Hi Hs) as [[-> ->]|[? ?]]; [by left|].
    right. split; [done|]. by exists s.
  - intros [(-> & Hu & <-)|[Hne (s & Hs & Hu & <-)]].
    + exists v. rewrite znth_insert, decide_True by (done || lia). done.
    + exists s. pose proof (znth_range _ _ _ Hs). by rewrite znth_insert, decide_False by (done || lia).
Qed.

Lemma found_insert n l i0 v k i :
  0 <= i0 < Z.of_nat (length l) -> used v <> 0 ->
  found_at n l k i -> found_at n (<[Z.to_nat i0 := v]> l) k i.
Proof.
  intros Hi Hv (j & Hj & Hp & Hf). exists j. split_and!; [lia..|done|].
  intros j' Hj' Hfree. eapply Hf; [done|]. by eapply free_insert.
Qed.

(** Storing a slot that is not free keeps the table well formed. *)
Lemma table_ok_put n l i0 v :
  table_ok n l -> 1 <= i0 <= n -> used v <> 0 -> slot_ok n l i0 v ->
  (0 < used v -> forall i e, live l i e -> key e = key (entry v) -> i = i0) ->
  table_ok n (<[Z.to_nat i0 := v]> l).
Proof.
  intros Ht Hi Hv [Hv1 Hv2 Hv3] Hun. pose proof Ht as [Hp Hn Hlen Hs H0 Hu].
  assert (0 <= i0 < Z.of_nat (length l)) as Hr by lia. split; [done|done| | | |].
  - by rewrite length_insert.
  - intros i s Hs'. destruct (insert_lookup _ _ _ _ _ Hr Hs') as [[-> ->]|[? Hs2]].
    + split; [|done..]. intros Hpos. destruct (Hv1 Hpos) as (? & ? & ?).
      split_and!; [done..|]. by apply found_insert.
    + destruct (Hs i s Hs2) as [H1 H2 H3]. split; [|done..]. intros Hpos.
      destruct (H1 Hpos) as (? & ? & ?). split_and!; [done..|]. by apply found_insert.
  - destruct H0 as (s & Hs0 & ?). exists s.
    by rewrite znth_insert, decide_False by lia.
  - intros i1 i2 e1 e2. rewrite !live_insert by done.
    intros [(-> & ? & <-)|[? Hl1]] [(-> & ? & <-)|[? Hl2]] Hk; [done| | |by eapply Hu].
    + symmetry. by eapply Hun.
    + by eapply Hun.
Qed.

Lemma live_count_insert l i0 s v :
  znth l i0 = Some s ->
  live_count (<[Z.to_nat i0 := v]> l) =
    live_count l - (if decide (0 < used s) then 1 else 0) + (if decide (0 < used v) then 1 else 0).
Proof.
  intros Hs. pose proof (znth_range _ _ _ Hs). rewrite znth_lookup in Hs by lia.
  unfold live_count. rewrite insert_take_drop by (apply lookup_lt_Some in Hs; lia).
  rewrite <-(take_drop_middle l (Z.to_nat i0) s) at 3 by done.
  rewrite !filter_app, !filter_cons, !length_app.
  destruct (decide (0 < used v)), (decide (0 < used s)); simpl; lia.
Qed.

Lemma live_count_bound l : 0 <= live_count l <= Z.of_nat (length l).
Proof. unfold live_count. pose proof (length_filter (fun s : slot C => 0 < used s) l). lia. Qed.
End inv.
