(* ===== verification/HtabSearch.v ===== *)
(** Search, insertion and deletion in the hash table.

    [hsearch_r] is resolved into two cases: the key is in the table, and the
    call ends in [hit] on its entry; or it is not, and the call ends in
    [hsearch_enter] at the first free slot of the path, or back at the home
    slot when no slot is free. *)

From stdpp Require Import base numbers list option gmap.
From Stdlib Require Import ZArith Zdivisibility Lia.
From S2P Require Import Prelude Qsort Htab HtabBase.

Section search.
Context {C : Type} {HC : EnvHooks C}.
Implicit Types (h : hsearch_data C) (l : list (slot C)) (e : ENTRY C) (it : item).

Lemma get_slot_run h l i s : table h = Some l -> znth l i = Some s -> get_slot i h = Done (s, h).
Proof. intros Ht Hs. unfold get_slot, bind, gets. by rewrite Ht, Hs. Qed.

Lemma put_slot_run h l i v : table h = Some l -> 0 <= i < Z.of_nat (length l) ->
  put_slot i v h = Done (tt, set_table (Some (<[Z.to_nat i := v]> l)) h).
Proof. intros Ht Hi. unfold put_slot, bind, gets. by rewrite Ht, zset_Some. Qed.

(** What happens to an entry that was found. *)
Definition hit it (action : ACTION) (flag idx : Z) (s : slot C) : M (hsearch_data C) (Z * option Z) :=
  match action, item_data it with
  | ENTER, Some d =>
      if denied (entry s) (Some d) env_op_overwrite flag then reject EPERM
      else if refused (entry s) (item_key it) (Some d) env_op_overwrite flag then reject EINVAL
      else do! put_slot idx (Slot C (used s) (set_data d (entry s))) in ret (idx, Some idx)
  | _, _ => ret (idx, Some idx)
  end.

(** A slot of the path that the search passes over. *)
Definition passes l (k : cstr) (i : Z) : Prop :=
  ~ is_free l i /\ forall e, live l i e -> key e <> k.

Section table.
Context (h : hsearch_data C) (l : list (slot C)) (Ht : table h = Some l).
Context (Hok : table_ok (size h) l).
Notation n := (size h).

Lemma cmp_miss it action flag i :
  cstr_ok (item_key it) -> 0 <= i <= n -> (forall e, live l i e -> key e <> item_key it) ->
  _compare_and_overwrite_entry it action flag (first_hash n (item_key it)) i h = Done (None, h).
Proof.
  intros Hk Hi Hno. destruct (table_lookup n l i Hok Hi) as [s Hs].
  unfold _compare_and_overwrite_entry. erewrite bind_run by by eapply get_slot_run.
  destruct (to_slot _ _ Hok i s Hs) as [Hlive Hdead _]. pose proof (to_size _ _ Hok).
  pose proof (first_hash_range n (item_key it) ltac:(lia)).
  destruct (Z.eqb_spec (u32 (used s)) (first_hash n (item_key it))) as [Hu|]; [|done].
  destruct (Z.ltb_spec 0 (used s)) as [Hpos|Hneg].
  - destruct (Hlive Hpos) as (Hks & _). simpl.
    destruct (Z.eqb_spec (strcmp (item_key it) (key (entry s))) 0) as [E|]; [|done].
    apply strcmp_eq in E; [|done..]. exfalso. eapply Hno; [by exists s|done].
  - exfalso. destruct (Hdead Hneg) as [E|E]; rewrite E in Hu; vm_compute (u32 _) in Hu; lia.
Qed.

Lemma cmp_hit it action flag i s :
  znth l i = Some s -> 0 < used s -> key (entry s) = item_key it ->
  _compare_and_overwrite_entry it action flag (first_hash n (item_key it)) i h
    = bind (hit it action flag i s) (fun r => ret (Some r)) h.
Proof.
  intros Hs Hu Hk. unfold _compare_and_overwrite_entry. erewrite bind_run by by eapply get_slot_run.
  destruct (so_live _ _ _ _ (to_slot _ _ Hok i s Hs) Hu) as (_ & Hus & _). rewrite Hk in Hus.
  pose proof (to_size _ _ Hok). pose proof (first_hash_range n (item_key it) ltac:(lia)).
  destruct (Z.eqb_spec (u32 (used s)) (first_hash n (item_key it))) as [_|E];
    [|unfold u32 in E; rewrite Z.mod_small in E; lia].
  rewrite Hk, strcmp_refl. simpl. unfold hit.
  destruct action; [done|]. destruct (item_data it) as [d|]; [|done].
  destruct (denied _ _ _ _); [done|]. destruct (refused _ _ _ _ _); [done|].
  unfold bind, ret. by destruct (put_slot i _ h) as [[]| |].
Qed.

Lemma probe_skip it action flag j fuel :
  cstr_ok (item_key it) -> 0 <= j -> j + 1 < n ->
  passes l (item_key it) (path n (item_key it) (j + 1)) ->
  probe (S fuel) it action flag (first_hash n (item_key it))
    (second_hash n (first_hash n (item_key it))) (path n (item_key it) j) h
  = probe fuel it action flag (first_hash n (item_key it))
    (second_hash n (first_hash n (item_key it))) (path n (item_key it) (j + 1)) h.
Proof.
  intros Hk Hj Hjn [Hfree Hno]. pose proof (to_size _ _ Hok) as Hn. pose proof (to_prime _ _ Hok) as Hp.
  set (k := item_key it) in *. cbn [probe]. erewrite bind_run by done. rewrite path_next by done.
  pose proof (path_range n Hn k (j + 1)) as Hr.
  destruct (Z.eqb_spec (path n k (j + 1)) (first_hash n k)) as [E|_].
  { rewrite <-(path_0 n Hn k) in E. apply path_inj in E; (done || lia). }
  erewrite bind_run by (apply cmp_miss; [done|lia|done]).
  destruct (table_lookup n l (path n k (j + 1)) Hok) as [s Hs]; [lia|].
  erewrite bind_run by by eapply get_slot_run.
  destruct (Z.eqb_spec (used s) 0) as [|_]; [|done]. destruct Hfree. by exists s.
Qed.

Lemma probe_skips it action flag m fuel :
  cstr_ok (item_key it) -> 0 <= m < n ->
  (forall j, 0 < j <= m -> passes l (item_key it) (path n (item_key it) j)) ->
  (Z.to_nat m <= fuel)%nat ->
  probe fuel it action flag (first_hash n (item_key it))
    (second_hash n (first_hash n (item_key it))) (path n (item_key it) 0) h
  = probe (fuel - Z.to_nat m) it action flag (first_hash n (item_key it))
    (second_hash n (first_hash n (item_key it))) (path n (item_key it) m) h.
Proof.
  intros Hk Hm Hpass. revert fuel.
  destruct Hm as [H0 Hm]. revert Hm Hpass. pattern m. apply natlike_ind; [| |done]; clear m H0.
  - intros _ _ fuel _. by rewrite Nat.sub_0_r.
  - intros m H0 IH Hm Hpass fuel Hf. rewrite IH; [|lia| |lia].
    2: { intros j Hj. apply Hpass. lia. }
    replace (fuel - Z.to_nat m)%nat with (S (fuel - Z.to_nat (Z.succ m))) by lia.
    apply probe_skip; [done|lia|lia|]. apply Hpass. lia.
Qed.

(** The next slot holds the key. *)
Lemma probe_found it action flag j fuel i s :
  0 <= j -> j + 1 < n -> path n (item_key it) (j + 1) = i ->
  znth l i = Some s -> 0 < used s -> key (entry s) = item_key it ->
  probe (S fuel) it action flag (first_hash n (item_key it))
    (second_hash n (first_hash n (item_key it))) (path n (item_key it) j) h
  = bind (hit it action flag i s) (fun r => ret (inl r)) h.
Proof.
  intros Hj Hjn Hp Hs Hu Hk. pose proof (to_size _ _ Hok) as Hn. pose proof (to_prime _ _ Hok).
  cbn [probe]. erewrite bind_run by done. rewrite path_next by done.
  destruct (Z.eqb_spec (path n (item_key it) (j + 1)) (first_hash n (item_key it))) as [E|_].
  { rewrite <-(path_0 n Hn) in E. apply path_inj in E; (done || lia). }
  unfold bind at 1. rewrite Hp, (cmp_hit it action flag i s) by done.
  unfold bind, ret. by destruct (hit it action flag i s h) as [[]| |].
Qed.

(** The slot a key is found at, or where its search ends. *)
Lemma first_free_slot k b :
  0 <= b ->
  (exists m, 0 <= m < b /\ is_free l (path n k m) /\ forall j, 0 <= j < m -> ~ is_free l (path n k j)) \/
  (forall j, 0 <= j < b -> ~ is_free l (path n k j)).
Proof.
  intros Hb. pattern b. apply natlike_ind; [| |done]; clear b Hb; [right; lia|].
  intros b Hb [(m & Hm & Hf & Hl)|Hno]; [left; exists m; split_and!; (done || lia)|].
  pose proof (to_size _ _ Hok) as Hn. pose proof (path_range n Hn k b).
  destruct (table_lookup n l (path n k b) Hok) as [s Hs]; [lia|].
  destruct (decide (used s = 0)).
  - left. exists b. split_and!; [lia..|by exists s|done].
  - right. intros j Hj. destruct (decide (j = b)) as [->|]; [|apply Hno; lia].
    by eapply is_free_lookup.
Qed.

(** The first slot of the path. *)
Lemma hsearch_home it action flag s :
  znth l (first_hash n (item_key it)) = Some s -> used s <> 0 ->
  hsearch_r it action flag h =
    bind (_compare_and_overwrite_entry it action flag
            (first_hash n (item_key it)) (first_hash n (item_key it)))
      (fun r => match r with
        | Some v => ret v
        | None =>
            let! r := probe (Z.to_nat n) it action flag (first_hash n (item_key it))
              (second_hash n (first_hash n (item_key it))) (first_hash n (item_key it)) in
            match r with
            | inl v => ret v
            | inr idx => hsearch_enter it action flag (first_hash n (item_key it)) idx
                (if used s =? -1 then first_hash n (item_key it) else 0)
            end
        end) h.
Proof.
  intros Hs Hu. pose proof (to_size _ _ Hok). unfold hsearch_r. erewrite bind_run by done.
  destruct (Z.eqb_spec n 0); [lia|]. erewrite bind_run by by eapply get_slot_run.
  destruct (Z.eqb_spec (used s) 0); [done|]. done.
Qed.

(** The key is in the table. *)
Lemma search_hit it action flag i e :
  cstr_ok (item_key it) -> live l i e -> key e = item_key it ->
  exists s, znth l i = Some s /\ entry s = e /\
    hsearch_r it action flag h = hit it action flag i s h.
Proof.
  intros Hk Hl Hke. pose proof Hl as (s & Hs & Hu & He). exists s. split_and!; [done..|].
  destruct (live_found _ _ _ _ Hok Hl) as [_ (j & Hj & Hp & Hfree)]. rewrite Hke in Hp, Hfree.
  pose proof (to_size _ _ Hok) as Hn. pose proof (to_prime _ _ Hok) as Hpr.
  assert (forall j', 0 <= j' < j -> passes l (item_key it) (path n (item_key it) j')) as Hpass.
  { intros j' Hj'. split; [by apply Hfree|]. intros e' Hl' Hk'.
    assert (path n (item_key it) j' = i) as E by (apply (to_uniq _ _ Hok _ _ e' e); [done|done|by rewrite Hke]).
    rewrite <-Hp in E. apply path_inj in E; (done || lia). }
  pose proof (cmp_hit it action flag i s Hs Hu ltac:(by rewrite He)) as Hcmp.
  pose proof (path_0 n Hn (item_key it)) as Hp0.
  destruct (decide (j = 0)) as [->|Hj0].
  - assert (first_hash n (item_key it) = i) as Ei by congruence.
    rewrite (hsearch_home it action flag s) by (rewrite ?Ei; (done || lia)).
    unfold bind at 1. rewrite Ei in *. rewrite Hcmp.
    unfold bind, ret. by destruct (hit it action flag i s h) as [[]| |].
  - destruct (table_lookup n l (first_hash n (item_key it)) Hok) as [s0 Hs0].
    { pose proof (path_range n Hn (item_key it) 0). lia. }
    destruct (Hpass 0) as [Hf0 Hno0]; [lia|]. rewrite Hp0 in Hf0, Hno0.
    rewrite (hsearch_home it action flag s0); [|done|].
    2: { intros Hu0. destruct Hf0. by exists s0. }
    erewrite bind_run by (apply cmp_miss; [done| |done]; pose proof (path_range n Hn (item_key it) 0); lia).
    cbv beta iota. rewrite <-Hp0 at 3. unfold bind at 1.
    rewrite (probe_skips it action flag (j - 1)); [|done|lia| |lia].
    2: { intros j' Hj'. apply Hpass. lia. }
    destruct (Z.to_nat n - Z.to_nat (j - 1))%nat as [|fuel] eqn:Ef; [lia|].
    rewrite (probe_found it action flag (j - 1) fuel i s); [|lia..| |done|done|by rewrite He].
    2: { by replace (j - 1 + 1) with j by lia. }
    unfold bind, ret. by destruct (hit it action flag i s h) as [[]| |].
Qed.

(** A slot into which a new entry for [k] can go. *)
Definition target k (i0 : Z) : Prop :=
  exists s, znth l i0 = Some s /\ used s <= 0 /\ found_at n l k i0.

Lemma target_home k : (exists s, znth l (first_hash n k) = Some s /\ used s <= 0) ->
  target k (first_hash n k).
Proof.
  intros (s & Hs & Hu). exists s. split_and!; [done..|]. exists 0. pose proof (to_size _ _ Hok).
  split_and!; [lia..|by apply path_0|lia].
Qed.

(** The last step of the loop when no slot is free. *)
Lemma probe_round it action flag fuel :
  probe (S fuel) it action flag (first_hash n (item_key it))
    (second_hash n (first_hash n (item_key it))) (path n (item_key it) (n - 1)) h
  = Done (inr (first_hash n (item_key it)), h).
Proof.
  pose proof (to_size _ _ Hok) as Hn. cbn [probe]. erewrite bind_run by done.
  rewrite path_next, Z.sub_add, path_n, Z.eqb_refl by done. done.
Qed.

(** The next slot is free. *)
Lemma probe_free it action flag j fuel :
  cstr_ok (item_key it) -> 0 <= j -> j + 1 < n -> is_free l (path n (item_key it) (j + 1)) ->
  (forall i e, live l i e -> key e <> item_key it) ->
  probe (S fuel) it action flag (first_hash n (item_key it))
    (second_hash n (first_hash n (item_key it))) (path n (item_key it) j) h
  = Done (inr (path n (item_key it) (j + 1)), h).
Proof.
  intros Hk Hj Hjn (s & Hs & Hu) Hno. pose proof (to_size _ _ Hok) as Hn.
  pose proof (to_prime _ _ Hok) as Hp. cbn [probe]. erewrite bind_run by done.
  rewrite path_next by done. pose proof (path_range n Hn (item_key it) (j + 1)).
  destruct (Z.eqb_spec (path n (item_key it) (j + 1)) (first_hash n (item_key it))) as [E|_].
  { rewrite <-(path_0 n Hn) in E. apply path_inj in E; (done || lia). }
  erewrite bind_run by (apply cmp_miss; [done|lia|by apply Hno]).
  cbv beta iota. erewrite bind_run by by eapply get_slot_run. by rewrite Hu.
Qed.

(** The key is not in the table. *)
Lemma search_miss it action flag :
  cstr_ok (item_key it) -> (forall i e, live l i e -> key e <> item_key it) ->
  exists idx fd,
    hsearch_r it action flag h
      = hsearch_enter it action flag (first_hash n (item_key it)) idx fd h /\
    ((exists i, 1 <= i <= n /\ is_free l i) ->
     target (item_key it) (if fd =? 0 then idx else fd)).
Proof.
  intros Hk Hno. pose proof (to_size _ _ Hok) as Hn. pose proof (to_prime _ _ Hok) as Hp.
  pose proof (path_0 n Hn (item_key it)) as Hp0. pose proof (path_range n Hn (item_key it) 0).
  destruct (table_lookup n l (first_hash n (item_key it)) Hok) as [s0 Hs0]; [lia|].
  destruct (decide (used s0 = 0)) as [Hu0|Hu0].
  { exists (first_hash n (item_key it)), 0. split.
    - unfold hsearch_r. erewrite bind_run by done. destruct (Z.eqb_spec n 0); [lia|].
      erewrite bind_run by by eapply get_slot_run. by rewrite Hu0.
    - intros _. apply target_home. exists s0. split; [done|lia]. }
  set (fd := if used s0 =? -1 then first_hash n (item_key it) else 0).
  assert (forall idx, found_at n l (item_key it) idx -> is_free l idx ->
    target (item_key it) (if fd =? 0 then idx else fd)) as Htarget.
  { intros idx Hf (s & Hs & Hu). subst fd. destruct (Z.eqb_spec (used s0) (-1)) as [E|]; simpl.
    - destruct (Z.eqb_spec (first_hash n (item_key it)) 0); [lia|].
      apply target_home. exists s0. split; [done|lia].
    - exists s. split_and!; [done|lia|done]. }
  assert (forall idx, probe (Z.to_nat n) it action flag (first_hash n (item_key it))
      (second_hash n (first_hash n (item_key it))) (path n (item_key it) 0) h = Done (inr idx, h) ->
    hsearch_r it action flag h
      = hsearch_enter it action flag (first_hash n (item_key it)) idx fd h) as Hrun.
  { intros idx Hpr. rewrite (hsearch_home it action flag s0) by done.
    erewrite bind_run by (apply cmp_miss; [done|lia|by apply Hno]). cbv beta iota.
    rewrite Hp0 in Hpr. by erewrite bind_run by exact Hpr. }
  destruct (first_free_slot (item_key it) n) as [(m & Hm & Hf & Hbefore)|Hnone]; [lia| |].
  - exists (path n (item_key it) m), fd.
    assert (0 < m) by (destruct (decide (m = 0)) as [->|]; [|lia];
      rewrite Hp0 in Hf; by apply is_free_lookup with (1 := Hs0) in Hu0).
    split; [|intros _; apply Htarget; [by exists m|done]]. apply Hrun.
    rewrite (probe_skips it action flag (m - 1)); [|done|lia| |lia].
    2: { intros j Hj. split; [apply Hbefore; lia|by apply Hno]. }
    destruct (Z.to_nat n - Z.to_nat (m - 1))%nat as [|fuel] eqn:Ef; [lia|].
    rewrite probe_free; [|done|lia|lia| |done]; by replace (m - 1 + 1) with m by lia.
  - exists (first_hash n (item_key it)), fd. split.
    + apply Hrun. rewrite (probe_skips it action flag (n - 1)); [|done|lia| |lia].
      2: { intros j Hj. split; [apply Hnone; lia|by apply Hno]. }
      destruct (Z.to_nat n - Z.to_nat (n - 1))%nat as [|fuel] eqn:Ef; [lia|]. apply probe_round.
    + intros (i & Hi & Hf). destruct (path_surj n Hp Hn (item_key it) i Hi) as (j & Hj & <-).
      by destruct (Hnone j).
Qed.
End table.
End search.
