(* ===== verification/HtabProps.v ===== *)
(** The hash table implements a finite map.

    [ideal_search] and [ideal_delete] are the operations on the map of the
    entries; [hsearch_r] and [hdelete_r] refine them as long as a slot of the
    table was never used ([room]), and so does every sequence of calls on a
    fresh table with fewer insertions than the table has slots.  Without a
    free slot the refinement fails: [hsearch_r_loses_entry]. *)

From stdpp Require Import base numbers list option gmap.
From Stdlib Require Import ZArith Zdivisibility Lia.
From S2P Require Import Prelude Qsort Htab HtabBase HtabSearch.

(** ** The map *)

Section ideal.
Context {C : Type} {HC : EnvHooks C}.
Implicit Types (m : gmap cstr (ENTRY C)) (e : ENTRY C) (it : item).

Definition new_entry (k d : cstr) : ENTRY C := init_entry (Entry C k d None 0).

(** The error, if any, and the new map. *)
Definition ideal_search (full : bool) m it (action : ACTION) (flag : Z) : option Z * gmap cstr (ENTRY C) :=
  let k := item_key it in
  match action, item_data it with
  | ENTER, Some d =>
      match m !! k with
      | Some e =>
          if denied e (Some d) env_op_overwrite flag then (Some EPERM, m)
          else if refused e k (Some d) env_op_overwrite flag then (Some EINVAL, m)
          else (None, <[k := set_data d e]> m)
      | None =>
          if full then (Some ENOMEM, m)
          else if denied (new_entry k d) (Some d) env_op_create flag then (Some EPERM, m)
          else if refused (new_entry k d) k (Some d) env_op_create flag then (Some EINVAL, m)
          else (None, <[k := new_entry k d]> m)
      end
  | _, _ => (match m !! k with Some _ => None | None => Some ESRCH end, m)
  end.

Definition ideal_delete m (k : cstr) (flag : Z) : option Z * gmap cstr (ENTRY C) :=
  match m !! k with
  | None => (Some ESRCH, m)
  | Some e =>
      if denied e None env_op_delete flag then (Some EPERM, m)
      else if refused e k None env_op_delete flag then (Some EINVAL, m)
      else (None, delete k m)
  end.
End ideal.

(** ** Storing a slot *)

Section store.
Context {C : Type} {HC : EnvHooks C}.
Implicit Types (h : hsearch_data C) (l : list (slot C)) (e : ENTRY C) (m : gmap cstr (ENTRY C)).

(** [repr] of a list of slots. *)
Definition reprl l m : Prop :=
  forall k e, m !! k = Some e <-> key e = k /\ exists i, live l i e.

Lemma reprl_none l m k : reprl l m -> m !! k = None -> forall i e, live l i e -> key e <> k.
Proof. intros Hr Hm i e Hl Hk. assert (m !! k = Some e) by (apply Hr; eauto). congruence. Qed.

Lemma reprl_put_live l m i0 s v :
  reprl l m -> znth l i0 = Some s -> 0 < used v ->
  (0 < used s -> key (entry s) = key (entry v)) ->
  (forall i e, live l i e -> key e = key (entry v) -> i = i0) ->
  reprl (<[Z.to_nat i0 := v]> l) (<[key (entry v) := entry v]> m).
Proof.
  intros Hr Hs Hv Hold Hun k e. pose proof (znth_range _ _ _ Hs). setoid_rewrite live_insert; [|done].
  rewrite lookup_insert_Some, (Hr k e). split.
  - intros [[<- <-]|[Hne [<- [i Hl]]]]; [eauto 10|]. split; [done|]. exists i. right. split; [|done].
    intros ->. destruct Hl as (s' & Hs' & Hu & <-). assert (s' = s) as -> by congruence.
    by apply Hne; rewrite Hold.
  - intros [<- (i & [(-> & _ & <-)|[Hne Hl]])]; [by left|]. destruct (decide (key (entry v) = key e)) as [E|E].
    + exfalso. eapply Hne, Hun; [done|by symmetry].
    + right. eauto.
Qed.

Lemma reprl_put_dead l m i0 s v k :
  reprl l m -> znth l i0 = Some s -> used v <= 0 -> 0 < used s -> key (entry s) = k ->
  (forall i e, live l i e -> key e = k -> i = i0) ->
  reprl (<[Z.to_nat i0 := v]> l) (delete k m).
Proof.
  intros Hr Hs Hv Hu Hk Hun k' e. pose proof (znth_range _ _ _ Hs). setoid_rewrite live_insert; [|done].
  rewrite lookup_delete_Some, (Hr k' e). split.
  - intros [Hne [<- [i Hl]]]. split; [done|]. exists i. right. split; [|done]. intros ->.
    destruct Hl as (s' & Hs' & ? & <-). congruence.
  - intros [<- (i & [(_ & ? & _)|[Hne Hl]])]; [lia|]. split; [|eauto].
    intros E. eapply Hne, Hun; [done|by symmetry].
Qed.

Lemma reprl_put_same l m i0 s v :
  reprl l m -> znth l i0 = Some s -> used v <= 0 -> used s <= 0 ->
  reprl (<[Z.to_nat i0 := v]> l) m.
Proof.
  intros Hr Hs Hv Hu k e. pose proof (znth_range _ _ _ Hs). setoid_rewrite live_insert; [|done].
  rewrite (Hr k e). split; intros [<- [i Hl]]; (split; [done|]); exists i.
  - right. split; [|done]. intros ->. destruct Hl as (s' & Hs' & ? & _). assert (s' = s) as -> by congruence. lia.
  - destruct Hl as [(_ & ? & _)|[_ Hl]]; [lia|done].
Qed.

(** Slots that were never used, slot 0 included. *)
Definition free_count l : nat := length (filter (fun s => used s = 0) l).

Lemma free_count_insert l i0 s (v : slot C) :
  znth l i0 = Some s -> used v <> 0 ->
  (free_count (<[Z.to_nat i0 := v]> l) + (if decide (used s = 0)%Z then 1 else 0) = free_count l)%nat.
Proof.
  intros Hs Hv. pose proof (znth_range _ _ _ Hs). rewrite znth_lookup in Hs by lia.
  unfold free_count. rewrite insert_take_drop by (apply lookup_lt_Some in Hs; lia).
  rewrite <-(take_drop_middle l (Z.to_nat i0) s) at 3 by done.
  rewrite !filter_app, !filter_cons, !length_app.
  destruct (decide (used v = 0)), (decide (used s = 0)); simpl; (done || lia).
Qed.

Lemma free_count_room n l : table_ok n l -> (1 < free_count l)%nat ->
  exists i, 1 <= i <= n /\ is_free l i.
Proof.
  intros Ht. destruct (to_zero _ _ Ht) as (s0 & Hs0 & Hu0).
  pose proof (to_len _ _ Ht) as Hlen. destruct l as [|s l]; [done|].
  unfold free_count. rewrite filter_cons. injection Hs0 as ->. rewrite decide_True by done. simpl.
  intros Hf. destruct (filter (fun s : slot C => used s = 0) l) as [|x f] eqn:E; [simpl in Hf; lia|].
  assert (x ∈ filter (fun s : slot C => used s = 0) l) as Hx by (rewrite E; left).
  apply list_elem_of_filter in Hx as [Hu [i Hi]%list_elem_of_lookup].
  exists (Z.of_nat i + 1). pose proof (lookup_lt_Some _ _ _ Hi). split; [simpl in Hlen; lia|].
  exists x. split; [|done]. rewrite znth_lookup by lia.
  by replace (Z.to_nat (Z.of_nat i + 1)) with (S i) by lia.
Qed.

(** The whole: a well-formed table with the right count that stands for [m]. *)
Definition models h m : Prop :=
  exists l, table h = Some l /\ table_ok (size h) l /\ filled h = live_count l /\ reprl l m.

(** The slots that were never used, without slot 0. *)
Definition fresh h : nat :=
  match table h with Some l => free_count l - 1 | None => 0 end.

Lemma put_slot_in (l : list (slot C)) n f er i v : 0 <= i < Z.of_nat (length l) ->
  put_slot i v (Htab C (Some l) n f er) = Done (tt, Htab C (Some (<[Z.to_nat i := v]> l)) n f er).
Proof. intros Hi. by rewrite (put_slot_run _ l). Qed.

Lemma get_slot_in (l : list (slot C)) n f er i s : znth l i = Some s ->
  get_slot i (Htab C (Some l) n f er) = Done (s, Htab C (Some l) n f er).
Proof. intros Hi. by apply (get_slot_run _ l). Qed.

Lemma get_slot_put (l : list (slot C)) n f er i v : 0 <= i < Z.of_nat (length l) ->
  get_slot i (Htab C (Some (<[Z.to_nat i := v]> l)) n f er)
    = Done (v, Htab C (Some (<[Z.to_nat i := v]> l)) n f er).
Proof. intros Hi. apply get_slot_in. by rewrite znth_insert, decide_True by (done || lia). Qed.

Lemma _hdelete_run (l : list (slot C)) n f er i v : 0 <= i < Z.of_nat (length l) ->
  _hdelete i (Htab C (Some (<[Z.to_nat i := v]> l)) n f er)
    = Done (tt, Htab C (Some (<[Z.to_nat i := Slot C (-1) (Entry C (key (entry v)) (data (entry v)) None 0)]> l))
                  n (u32 (f - 1)) er).
Proof.
  intros Hi. unfold _hdelete. erewrite bind_run by by apply get_slot_put.
  erewrite bind_run by (apply put_slot_in; by rewrite length_insert).
  unfold modify. simpl. by rewrite list_insert_insert_eq.
Qed.

(** Creating an entry in a slot that is free or deleted. *)
Lemma enter_run (l : list (slot C)) n f er it d flag hv idx fd i0 s :
  (if fd =? 0 then idx else fd) = i0 -> f <> n -> 0 <= f < 2 ^ 31 -> item_data it = Some d ->
  znth l i0 = Some s -> callback (entry s) = None -> flags (entry s) = 0 ->
  hsearch_enter it ENTER flag hv idx fd (Htab C (Some l) n f er) =
    let e := new_entry (item_key it) d in
    let live := Some (<[Z.to_nat i0 := Slot C hv e]> l) in
    let dead := Some (<[Z.to_nat i0 := Slot C (-1) (Entry C (item_key it) d None 0)]> l) in
    if denied e (Some d) env_op_create flag then Done ((0, None), Htab C dead n f EPERM)
    else if refused e (item_key it) (Some d) env_op_create flag
    then Done ((0, None), Htab C dead n f EINVAL)
    else Done ((1, Some i0), Htab C live n (f + 1) er).
Proof.
  intros Hi0 Hf Hr Hd Hs Hcb Hfl. pose proof (znth_range _ _ _ Hs) as Hi.
  unfold hsearch_enter. run (done). run (done). cbn [size filled].
  destruct (Z.eqb_spec f n); [done|]. rewrite Hi0, Hd.
  run (by apply get_slot_in). rewrite Hcb, Hfl.
  run (by apply put_slot_in). run (done). unfold set_filled. simpl.
  run (by apply put_slot_in; by rewrite length_insert).
  rewrite list_insert_insert_eq. fold (new_entry (item_key it) d).
  assert (u32 (f + 1) = f + 1) as -> by (apply Z.mod_small; lia).
  destruct (denied _ _ _ _); [|destruct (refused _ _ _ _ _); [|done]].
  all: run (by apply _hdelete_run); unfold reject, bind, modify, ret, set_errno; simpl.
  all: unfold u32; by rewrite Z.add_simpl_r, Z.mod_small by lia.
Qed.
End store.

(** ** The operations refine the map *)

#[local] Arguments hsearch_enter : simpl never.

Section refine.
Context {C : Type} {HC : EnvHooks C}.
Implicit Types (h : hsearch_data C) (l : list (slot C)) (e : ENTRY C) (m : gmap cstr (ENTRY C)) (it : item).

Lemma models_errno h m c : models h m -> models (set_errno c h) m.
Proof. done. Qed.

Lemma live_count_le n l : table_ok n l -> live_count l <= n.
Proof.
  intros Ht. destruct (to_zero _ _ Ht) as (s0 & Hs0 & Hu0). pose proof (to_len _ _ Ht) as Hlen.
  destruct l as [|s l]; [done|]. injection Hs0 as ->. unfold live_count. rewrite filter_cons.
  rewrite decide_False by lia. pose proof (length_filter (fun s : slot C => 0 < used s) l).
  simpl in Hlen. lia.
Qed.

(** The data of an entry is replaced. *)
Lemma models_update h m l i s d :
  models h m -> table h = Some l -> znth l i = Some s -> 0 < used s ->
  let l' := <[Z.to_nat i := Slot C (used s) (set_data d (entry s))]> l in
  let h' := set_table (Some l') h in
  models h' (<[key (entry s) := set_data d (entry s)]> m) /\ fresh h' = fresh h /\
  live l' i (set_data d (entry s)).
Proof.
  intros (l0 & Hl0 & Hok & Hf & Hr) Hl Hs Hu l' h'. assert (l0 = l) as -> by congruence.
  pose proof (znth_range _ _ _ Hs) as Hi. set (v := Slot C (used s) (set_data d (entry s))) in l'.
  assert (live l i (entry s)) as Hlive by by exists s.
  pose proof (live_range _ _ _ _ Hok Hlive).
  assert (forall i' e', live l i' e' -> key e' = key (entry v) -> i' = i) as Hun.
  { intros i' e' Hl' Hk. by eapply (to_uniq _ _ Hok _ _ e' (entry s)). }
  destruct (to_slot _ _ Hok i s Hs) as [Hsl _ _].
  split_and!.
  - exists l'. split_and!; [done| | |].
    + apply table_ok_put; [done|done|unfold v; simpl; lia| |done]. split; [by intros; apply Hsl|unfold v; simpl; lia..].
    + unfold l'. rewrite (live_count_insert l i s v) by done.
      rewrite !decide_True by (unfold v; simpl; lia). simpl filled. lia.
    + by eapply (reprl_put_live l m i s v).
  - unfold fresh, h'. simpl. rewrite Hl. unfold l'.
    pose proof (free_count_insert l i s v Hs ltac:(unfold v; simpl; lia)) as Hc.
    rewrite decide_False in Hc by lia. lia.
  - apply live_insert; [done|]. by left.
Qed.

(** A new entry goes into a slot that is not live. *)
Lemma models_create h m l i s k e :
  models h m -> table h = Some l -> target h l k i -> znth l i = Some s -> cstr_ok k ->
  m !! k = None -> key e = k ->
  let l' := <[Z.to_nat i := Slot C (first_hash (size h) k) e]> l in
  let h' := Htab C (Some l') (size h) (filled h + 1) (errno h) in
  models h' (<[k := e]> m) /\ (fresh h <= fresh h' + 1)%nat /\ live l' i e.
Proof.
  intros (l0 & Hl0 & Hok & Hf & Hr) Hl (s' & Hs' & Hdead & Hfound) Hs Hk Hm <- l' h'.
  assert (l0 = l) as -> by congruence. assert (s' = s) as -> by congruence.
  pose proof (znth_range _ _ _ Hs) as Hi. pose proof (to_size _ _ Hok) as Hn.
  pose proof (first_hash_range (size h) (key e) ltac:(lia)).
  set (v := Slot C (first_hash (size h) (key e)) e) in l'.
  assert (1 <= i <= size h) by (destruct Hfound as (j & _ & <- & _); by apply path_range).
  pose proof (reprl_none l m (key e) Hr Hm) as Hno.
  split_and!.
  - exists l'. split_and!; [done| | |].
    + apply table_ok_put; [done|done|unfold v; simpl; lia| |].
      * split; [done|unfold v; simpl; lia..].
      * intros _ i' e' Hl' Hk'. by destruct (Hno i' e').
    + unfold l'. rewrite (live_count_insert l i s v) by done. simpl. rewrite Hf.
      rewrite decide_False, decide_True by lia. lia.
    + apply (reprl_put_live l m i s v); [done|done|unfold v; simpl; lia|lia|].
      intros i' e' Hl' Hk'. by destruct (Hno i' e').
  - unfold fresh, h'. simpl. rewrite Hl. unfold l'.
    pose proof (free_count_insert l i s v Hs ltac:(unfold v; simpl; lia)) as Hc.
    destruct (decide (used s = 0)); lia.
  - apply live_insert; [done|]. left. split_and!; [done|unfold v; simpl; lia|done].
Qed.

(** A slot that is not live is marked as deleted. *)
Lemma models_dead h m l i s k d c :
  models h m -> table h = Some l -> znth l i = Some s -> used s <= 0 -> 1 <= i <= size h ->
  let h' := Htab C (Some (<[Z.to_nat i := Slot C (-1) (Entry C k d None 0)]> l)) (size h) (filled h) c in
  models h' m /\ (fresh h <= fresh h' + 1)%nat.
Proof.
  intros (l0 & Hl0 & Hok & Hf & Hr) Hl Hs Hu Hi h'. assert (l0 = l) as -> by congruence.
  pose proof (znth_range _ _ _ Hs). split.
  - eexists. split_and!; [done| | |].
    + apply table_ok_put; [done|done|done| |done]. split; [done|by right|done].
    + simpl filled. rewrite (live_count_insert l i s) by done. simpl.
      rewrite Hf, decide_False by lia. lia.
    + by eapply reprl_put_same.
  - unfold fresh, h'. simpl. rewrite Hl.
    pose proof (free_count_insert l i s (Slot C (-1) (Entry C k d None 0)) Hs ltac:(done)) as Hc.
    destruct (decide (used s = 0)); lia.
Qed.

(** An entry is deleted. *)
Lemma models_delete h m l i s c :
  models h m -> table h = Some l -> znth l i = Some s -> 0 < used s ->
  let h' := Htab C (Some (<[Z.to_nat i := Slot C (-1) (Entry C (key (entry s)) (data (entry s)) None 0)]> l))
              (size h) (filled h - 1) c in
  models h' (delete (key (entry s)) m) /\ fresh h' = fresh h.
Proof.
  intros (l0 & Hl0 & Hok & Hf & Hr) Hl Hs Hu h'. assert (l0 = l) as -> by congruence.
  pose proof (znth_range _ _ _ Hs). assert (live l i (entry s)) as Hlive by by exists s.
  pose proof (live_range _ _ _ _ Hok Hlive). split.
  - eexists. split_and!; [done| | |].
    + apply table_ok_put; [done|done|done| |done]. split; [done|by right|done].
    + simpl filled. rewrite (live_count_insert l i s) by done. simpl.
      rewrite Hf, decide_True by lia. lia.
    + eapply reprl_put_dead; [done..|]. intros i' e' Hl' Hk. by eapply (to_uniq _ _ Hok _ _ e' (entry s)).
  - unfold fresh, h'. simpl. rewrite Hl.
    pose proof (free_count_insert l i s (Slot C (-1) (Entry C (key (entry s)) (data (entry s)) None 0))
      Hs ltac:(done)) as Hc. rewrite decide_False in Hc by lia. lia.
Qed.

(** The entry an answer points to. *)
Definition entry_at h (i : Z) e : Prop := exists l, table h = Some l /\ live l i e.

(** How many unused slots a call may take. *)
Definition slots_for (action : ACTION) : nat :=
  match action with FIND => 0 | ENTER => 1 end.

(** What the caller sees of the ideal answer. *)
Definition answer h' m' (k : cstr) (r : Z * option Z) (err : option Z) : Prop :=
  match err with
  | Some c => r = (0, None) /\ errno h' = c
  | None => exists i e, r.2 = Some i /\ 0 < r.1 /\ m' !! k = Some e /\ entry_at h' i e
  end.

Lemma search_some h m it action flag e :
  models h m -> cstr_ok (item_key it) -> m !! item_key it = Some e ->
  exists l i s, table h = Some l /\ znth l i = Some s /\ 0 < used s /\ entry s = e /\ 1 <= i /\
    hsearch_r it action flag h = hit it action flag i s h.
Proof.
  intros (l & Hl & Hok & _ & Hr) Hk Hm. apply Hr in Hm as [Hke [i Hlive]].
  destruct (search_hit h l Hl Hok it action flag i e Hk Hlive Hke) as (s & Hs & He & Hrun).
  exists l, i, s. destruct (live_range _ _ _ _ Hok Hlive). split_and!; [done|done| |done|done|done].
  destruct Hlive as (s' & Hs' & ? & _). congruence.
Qed.

Lemma hsearch_found h m it action flag e :
  models h m -> cstr_ok (item_key it) -> m !! item_key it = Some e ->
  let res := ideal_search (filled h =? size h) m it action flag in
  exists r h', hsearch_r it action flag h = Done (r, h') /\ models h' res.2 /\
    size h' = size h /\ fresh h' = fresh h /\ answer h' res.2 (item_key it) r res.1.
Proof.
  intros Hmod Hk Hm res. pose proof Hmod as (l0 & _ & Hok0 & _ & Hr0).
  assert (key e = item_key it) as Hke by by apply Hr0 in Hm as [? _].
  destruct (search_some h m it action flag e Hmod Hk Hm) as (l & i & s & Hl & Hs & Hu & <- & Hi & ->).
  assert (entry_at h i (entry s)) as Hat by (exists l; split; [done|by exists s]).
  unfold res, ideal_search, hit. destruct action; simpl.
  { exists (i, Some i), h. rewrite Hm. split_and!; [done..|]. exists i, (entry s). split_and!; (done || simpl; lia). }
  destruct (item_data it) as [d|]; simpl.
  2: { exists (i, Some i), h. rewrite Hm. split_and!; [done..|]. exists i, (entry s). split_and!; (done || simpl; lia). }
  rewrite Hm. destruct (denied _ _ _ _); [by eexists _, _; split_and!|].
  destruct (refused _ _ _ _ _); [by eexists _, _; split_and!|].
  destruct (models_update h m l i s d Hmod Hl Hs Hu) as (Hmod' & Hfr & Hlive').
  eexists _, _. split; [run (by apply put_slot_run; [|apply znth_range in Hs]); done|].
  rewrite <-Hke. split_and!; [done..|]. exists i, (set_data d (entry s)).
  split_and!; [done|simpl; lia| |by eexists; split]. apply lookup_insert_eq.
Qed.

Lemma hsearch_absent h m it action flag :
  models h m -> cstr_ok (item_key it) -> m !! item_key it = None ->
  (action = ENTER -> is_Some (item_data it)) ->
  (action = ENTER -> filled h <> size h -> (0 < fresh h)%nat) ->
  let res := ideal_search (filled h =? size h) m it action flag in
  exists r h', hsearch_r it action flag h = Done (r, h') /\ models h' res.2 /\
    size h' = size h /\ (fresh h <= fresh h' + slots_for action)%nat /\
    answer h' res.2 (item_key it) r res.1.
Proof.
  intros Hmod Hk Hm Hd Hroom res. pose proof Hmod as (l & Hl & Hok & Hf & Hr).
  pose proof (reprl_none l m _ Hr Hm) as Hno.
  destruct (search_miss h l Hl Hok it action flag Hk) as (idx & fd & -> & Htgt); [exact Hno|].
  unfold res, ideal_search. destruct action; simpl.
  { rewrite Hm. eexists _, _. split_and!; [done|by apply models_errno|done| |done]. simpl. unfold fresh. simpl. lia. }
  destruct Hd as [d Hd]; [done|]. rewrite Hd, Hm. destruct (Z.eqb_spec (filled h) (size h)) as [E|E].
  { eexists _, _. split; [unfold hsearch_enter; run (done); run (done); rewrite E, Z.eqb_refl; done|].
    split_and!; [by apply models_errno|done| |done]. simpl. unfold fresh. simpl. lia. }
  specialize (Hroom eq_refl E). unfold fresh in Hroom. rewrite Hl in Hroom.
  specialize (Htgt (free_count_room _ _ Hok ltac:(lia))).
  set (i0 := if fd =? 0 then idx else fd) in *. pose proof Htgt as (s & Hs & Hdead & Hfound).
  destruct (so_blank _ _ _ _ (to_slot _ _ Hok i0 s Hs) Hdead) as [Hcb Hfl].
  pose proof (live_count_bound l). pose proof (live_count_le _ _ Hok). pose proof (to_size _ _ Hok).
  assert (1 <= i0 <= size h) by (destruct Hfound as (j & _ & <- & _); by apply path_range).
  destruct h as [t n f er]. simpl in Hl. subst t.
  rewrite (enter_run l n f er it d flag _ idx fd i0 s) by (done || (simpl in *; lia)).
  simpl in *. cbv zeta. destruct (denied _ _ _ _).
  { destruct (models_dead _ m l i0 s (item_key it) d EPERM Hmod) as [? ?]; [done..|].
    by eexists _, _; split_and!. }
  destruct (refused _ _ _ _ _).
  { destruct (models_dead _ m l i0 s (item_key it) d EINVAL Hmod) as [? ?]; [done..|].
    by eexists _, _; split_and!. }
  destruct (models_create _ m l i0 s (item_key it) (new_entry (item_key it) d) Hmod) as (? & ? & ?); [done..|].
  eexists _, _. split_and!; [done..|]. exists i0, (new_entry (item_key it) d).
  split_and!; [done|simpl; lia|apply lookup_insert_eq|by eexists; split].
Qed.

(** The two cases together. *)
Lemma hsearch_ideal h m it action flag :
  models h m -> cstr_ok (item_key it) ->
  (action = ENTER -> is_Some (item_data it)) ->
  (action = ENTER -> m !! item_key it = None -> filled h <> size h -> (0 < fresh h)%nat) ->
  let res := ideal_search (filled h =? size h) m it action flag in
  exists r h', hsearch_r it action flag h = Done (r, h') /\ models h' res.2 /\
    size h' = size h /\ (fresh h <= fresh h' + slots_for action)%nat /\
    answer h' res.2 (item_key it) r res.1.
Proof.
  intros Hmod Hk Hd Hroom. destruct (m !! item_key it) as [e|] eqn:Hm; [|by apply hsearch_absent; eauto].
  destruct (hsearch_found h m it action flag e Hmod Hk Hm) as (r & h' & ? & ? & ? & Hfr & ?).
  exists r, h'. split_and!; [done..|rewrite Hfr; lia|done].
Qed.

Lemma hdelete_ideal h m k flag :
  models h m -> cstr_ok k ->
  let res := ideal_delete m k flag in
  exists r h', hdelete_r k flag h = Done (r, h') /\ models h' res.2 /\
    size h' = size h /\ (fresh h <= fresh h')%nat /\
    match res.1 with Some c => r = 0 /\ errno h' = c | None => r = 1 end.
Proof.
  intros Hmod Hk res. unfold res, ideal_delete, hdelete_r.
  destruct (m !! k) as [e|] eqn:Hm.
  - destruct (search_some h m (Item k None) FIND 0 e Hmod Hk Hm) as (l & i & s & Hl & Hs & Hu & He & Hi & Hrun).
    unfold hit in Hrun. run (rewrite Hrun; done). simpl. destruct (Z.eqb_spec i 0); [lia|].
    run (by eapply get_slot_run). rewrite He. pose proof Hmod as (l0 & Hl0 & Hok & Hf & Hr).
    assert (l0 = l) by congruence. subst l0. pose proof (live_count_le _ _ Hok). pose proof (to_size _ _ Hok).
    assert (1 <= live_count l).
    { pose proof (live_count_insert l i s free_slot Hs) as Hc. rewrite decide_True in Hc by done.
      simpl in Hc. pose proof (live_count_bound (<[Z.to_nat i := free_slot]> l)). lia. }
    destruct (denied _ _ _ _); [by eexists _, _; split_and!|].
    destruct (refused _ _ _ _ _); [by eexists _, _; split_and!|].
    assert (key e = k) as Hke by (by destruct (proj1 (Hr k e) Hm)).
    destruct (models_delete h m l i s (errno h) Hmod Hl Hs Hu) as (Hmod' & Hfr).
    eexists _, _. split.
    { unfold _hdelete. run (by run (by eapply get_slot_run); run (by apply put_slot_run; [|apply znth_range in Hs]); done). done. }
    unfold set_filled. simpl. unfold u32. rewrite Z.mod_small by lia.
    rewrite He, Hke in *. split_and!; [done..| |done]. by rewrite Hfr.
  - destruct (hsearch_absent h m (Item k None) FIND 0 Hmod Hk Hm) as (r & h' & Hrun & Hmod' & Hsz & Hfr & Ha); [done..|].
    simpl in *. rewrite Hm in *. destruct Ha as [-> _]. run (exact Hrun). simpl.
    eexists _, _. split_and!; [done|by apply models_errno|done| |done..].
    etrans; [exact Hfr|]. unfold fresh. simpl. lia.
Qed.
End refine.
