(* ===== verification/HtabCreate.v ===== *)
(** Creation of a table: [isprime] decides primality, and [hcreate_r] ends
    with the first prime size that is not smaller than what the caller asked
    for. *)

From stdpp Require Import base numbers list option gmap.
From Stdlib Require Import ZArith Zdivisibility Lia.
From S2P Require Import Prelude Qsort Htab HtabBase HtabSearch HtabProps.

(** ** The trial division *)

Definition no_divisor (b n : Z) : Prop := forall d, Z.Odd d -> 3 <= d < b -> ~ (d | n).

Lemma isprime_div_spec fuel div n :
  5 <= n < 2 ^ 31 -> 3 <= div -> Z.Odd div -> no_divisor div n ->
  div = 3 \/ (div - 2) * (div - 2) < n -> 0 < Z.of_nat fuel -> n - div < Z.of_nat fuel ->
  exists d, isprime_div fuel div n = Some d /\ 3 <= d < n /\ no_divisor d n /\
    (n <= d * d \/ n mod d = 0).
Proof.
  revert div. induction fuel as [|fuel IH]; intros div Hn Hd Ho Hnd Hsq Hf Hf2; [lia|].
  cbn [isprime_div]. assert (div < 65536) by nia. assert (div < n) by nia.
  unfold u32. rewrite Z.mod_small by nia.
  destruct (Z.ltb_spec (div * div) n) as [Hlt|Hge]; simpl; [|exists div; split_and!; auto].
  destruct (Z.eqb_spec (n mod div) 0) as [E|E]; simpl; [exists div; split_and!; auto|].
  apply IH; [done|lia| | | |lia|lia].
  - destruct Ho as [q ->]. exists (q + 1). lia.
  - intros d Hod Hr. destruct (decide (d = div)) as [->|].
    + intros Hdiv. apply E. by apply Z.mod_divide; [lia|].
    + destruct (decide (d = div + 1)) as [->|]; [|apply Hnd; (done || lia)].
      exfalso. destruct Ho as [q ->], Hod as [q' Hq]. lia.
  - right. by replace (div + 2 - 2) with div by lia.
Qed.

Lemma odd_divisor d n : Z.Odd n -> (d | n) -> 1 < d -> Z.Odd d /\ 3 <= d.
Proof.
  intros [q Hq] [k Hk] Hd. destruct (Z.Even_or_Odd d) as [[p ->]|Ho]; [lia|].
  split; [done|]. destruct Ho as [p ->]. lia.
Qed.

Lemma isprime_correct n : 5 <= n < 2 ^ 31 -> Z.Odd n ->
  exists b, isprime (Z.to_nat n) n = Some b /\ (b = true <-> Z.prime n).
Proof.
  intros Hn Ho. destruct (isprime_div_spec (Z.to_nat n) 3 n) as (d & E & Hd & Hnd & Hend);
    [done|lia|by exists 1|intros ? ? ?; lia|by left|lia..|].
  unfold isprime. rewrite E. eexists. split; [done|].
  destruct (Z.eqb_spec (n mod d) 0) as [Hm|Hm]; simpl; split; try done.
  - intros [_ Hp]. exfalso. apply (Hp d); [lia|]. by apply Z.mod_divide; [lia|].
  - intros _. destruct Hend as [Hsq|]; [|done]. split; [lia|]. intros q Hq [r Hr].
    assert (forall x y, 1 < x -> 1 < y -> n = x * y -> d <= x) as Hge.
    { intros x y Hx Hy ->. destruct (Z.le_gt_cases d x); [done|exfalso].
      destruct (odd_divisor x (x * y) Ho) as [Hox ?]; [by exists y; lia|done|].
      apply (Hnd x); [done|lia|]. exists y. lia. }
    assert (1 < r) by nia. pose proof (Hge q r ltac:(lia) ltac:(lia) ltac:(lia)).
    pose proof (Hge r q ltac:(lia) ltac:(lia) ltac:(lia)).
    assert (q = d) as -> by nia. apply Hm. by apply Z.mod_divide; [lia|exists r].
Qed.

(** The largest prime below 2{^16} bounds the search. *)
Lemma prime_65521 : Z.prime 65521.
Proof.
  destruct (isprime_correct 65521) as (b & Hb & Hp); [lia|by exists 32760|]. apply Hp.
  assert (isprime (Z.to_nat 65521) 65521 = Some true) as E by (vm_compute; reflexivity).
  rewrite E in Hb. by injection Hb.
Qed.

Lemma next_prime_spec fuel nel :
  5 <= nel <= 65521 -> Z.Odd nel -> 65521 - nel < 2 * Z.of_nat fuel ->
  exists p, next_prime fuel nel = Some p /\ nel <= p <= 65521 /\ Z.prime p /\
    forall q, Z.prime q -> nel <= q -> p <= q.
Proof.
  revert nel. induction fuel as [|fuel IH]; intros nel Hn Ho Hf; [lia|]. cbn [next_prime].
  destruct (isprime_correct nel) as (b & -> & Hp); [lia|done|]. destruct b.
  - exists nel. split_and!; [done|lia|lia|by apply Hp|]. done.
  - assert (nel <> 65521) by (intros ->; pose proof (proj2 Hp prime_65521); done).
    assert (nel < 65521) by lia. destruct Ho as [k ->].
    destruct (IH (2 * k + 1 + 2)) as (p & ? & ? & ? & Hmin); [lia|exists (k + 1); lia|lia|].
    exists p. split_and!; [done|lia|lia|done|]. intros q Hq Hle.
    destruct (decide (q = 2 * k + 1)) as [->|]; [by apply Hp in Hq|].
    destruct (decide (q = 2 * k + 2)) as [->|]; [|apply Hmin; [done|lia]].
    exfalso. destruct Hq as [_ Hq]. apply (Hq 2); [lia|]. exists (k + 1). lia.
Qed.

Lemma lor_1 n : 0 <= n -> Z.lor n 1 = 2 * (n / 2) + 1.
Proof.
  intros Hn. assert (forall m, Z.lor (2 * m) 1 = 2 * m + 1) as Heven.
  { intros m. rewrite Z.add_nocarry_lor; [done|].
    pose proof (Z.land_ones (2 * m) 1 ltac:(lia)) as E. change (Z.ones 1) with 1 in E.
    rewrite E, Z.pow_1_r, Z.mul_comm. apply Z_mod_mult. }
  pose proof (Z.div_mod n 2 ltac:(lia)) as E. pose proof (Z.mod_pos_bound n 2 ltac:(lia)).
  assert (n mod 2 = 0 \/ n mod 2 = 1) as [E1|E1] by lia; rewrite E1 in E.
  - rewrite E at 1. rewrite Z.add_0_r. apply Heven.
  - rewrite E at 1. rewrite <-Heven, <-Z.lor_assoc, Z.lor_diag. done.
Qed.

(** ** The fresh table *)

Section create.
Context {C : Type}.
Implicit Type h : hsearch_data C.

Lemma znth_memset n i (s s' : slot C) : znth (memset s n) i = Some s' -> s' = s.
Proof.
  unfold znth, memset. destruct (0 <=? i); [|done]. by intros [-> _]%lookup_replicate.
Qed.

Lemma models_fresh h n :
  Z.prime n -> 5 <= n < 2 ^ 31 -> table h = Some (memset free_slot (n + 1)) ->
  size h = n -> filled h = 0 -> models h ∅ /\ Z.of_nat (fresh h) = n.
Proof.
  intros Hp Hn Ht Hs Hf.
  assert (forall i e, ~ live (memset (@free_slot C) (n + 1)) i e) as Hno.
  { intros i e (s & ->%znth_memset & Hu & _). simpl in Hu. lia. }
  assert (Z.of_nat (length (memset (@free_slot C) (n + 1))) = n + 1) as Hlen
    by (unfold memset; rewrite length_replicate; lia).
  split.
  - eexists. rewrite Hs. split_and!; [done| | |].
    + split; [done|done|done| | |].
      * intros i s ->%znth_memset. split; [simpl; lia|by left|done].
      * destruct (znth_Some (memset (@free_slot C) (n + 1)) 0) as [s E]; [lia|].
        exists s. split; [done|]. by apply znth_memset in E as ->.
      * intros i1 i2 e1 e2 Hl. by apply Hno in Hl.
    + rewrite Hf. unfold live_count, memset. generalize (Z.to_nat (n + 1)). intros k.
      induction k as [|k IH]; [done|]. rewrite replicate_S, filter_cons. by rewrite decide_False by (simpl; lia).
    + intros k e. rewrite lookup_empty. split; [done|]. intros [_ [i Hl]]. by apply Hno in Hl.
  - unfold fresh. rewrite Ht. unfold free_count, memset.
    assert (forall k, length (filter (fun s : slot C => used s = 0) (replicate k free_slot)) = k) as ->; [|lia].
    intros k. induction k as [|k IH]; [done|]. rewrite replicate_S, filter_cons.
    rewrite decide_True by done. simpl. by rewrite IH.
Qed.

(** The call with a null table completes with the size the caller needs. *)
Lemma hcreate_spec fuel nel h :
  table h = None -> 2 <= nel <= 65521 -> 32760 < Z.of_nat fuel ->
  exists h', hcreate_r fuel nel h = Done (1, h') /\ models h' ∅ /\
    Z.of_nat (fresh h') = size h' /\ nel <= size h' <= 65521 /\ Z.prime (size h') /\
    forall p, Z.prime p -> 5 <= p -> nel <= p -> size h' <= p.
Proof.
  intros Ht Hn Hf. pose proof (Z.div_mod nel 2 ltac:(lia)) as E.
  pose proof (Z.mod_pos_bound nel 2 ltac:(lia)).
  assert (exists p, next_prime fuel (Z.lor nel 1) = Some p /\ nel <= p <= 65521 /\ 5 <= p /\ Z.prime p /\
    forall q, Z.prime q -> 5 <= q -> nel <= q -> p <= q) as (p & Hrun & Hp & H5 & Hpr & Hmin).
  { rewrite lor_1 by lia. destruct (decide (nel / 2 = 1)) as [E1|E1].
    - rewrite E1. destruct fuel as [|fuel]; [lia|].
      destruct (next_prime_spec fuel 5) as (p & Hrun & ? & ? & Hmin); [lia|by exists 2|lia|].
      exists p. split_and!; [exact Hrun|lia|lia|lia|done|]. intros q Hq H5 _. by apply Hmin.
    - destruct (next_prime_spec fuel (2 * (nel / 2) + 1)) as (p & Hrun & ? & ? & Hmin);
        [lia|by exists (nel / 2)|lia|].
      exists p. split_and!; [exact Hrun|lia|lia|lia|done|]. intros q Hq H5 Hle. apply Hmin; [done|].
      destruct (Z.le_gt_cases (2 * (nel / 2) + 1) q); [done|exfalso]. destruct Hq as [_ Hq].
      apply (Hq 2); [lia|]. exists (nel / 2). lia. }
  eexists. split.
  { unfold hcreate_r. run (done). rewrite Ht, Hrun. run (done). run (done). run (done). done. }
  destruct (models_fresh (Htab C (Some (memset free_slot (p + 1))) p 0 (errno h)) p) as [? ?];
    [done|lia|done..|]. destruct Hp. by split_and!.
Qed.
End create.
