(* ===== verification/HtabRun.v ===== *)
(** Sequences of operations on the hash table, and its theorems. *)

From stdpp Require Import base numbers list option gmap.
From Stdlib Require Import ZArith Zdivisibility Lia.
From S2P Require Import Prelude Qsort Htab HtabBase HtabSearch HtabProps HtabCreate.

(** ** Sequences of calls *)

Section run.
Context {C : Type} {HC : EnvHooks C}.
Implicit Types (h : hsearch_data C) (m : gmap cstr (ENTRY C)).

Inductive op :=
| Search (it : item) (action : ACTION) (flag : Z)
| Delete (k : cstr) (flag : Z).

(** What a client sees: the entry the call answers, read through the pointer,
    or whether the entry was deleted. *)
Inductive result :=
| Found (e : option (ENTRY C))
| Deleted (b : bool).

Definition run_op (o : op) : M (hsearch_data C) result :=
  match o with
  | Search it action flag =>
      let! r := hsearch_r it action flag in
      match r.2 with
      | Some i => let! s := get_slot i in ret (Found (Some (entry s)))
      | None => ret (Found None)
      end
  | Delete k flag => let! r := hdelete_r k flag in ret (Deleted (negb (r =? 0)))
  end.

Fixpoint run_ops (ops : list op) : M (hsearch_data C) (list result) :=
  match ops with
  | [] => ret []
  | o :: ops => let! r := run_op o in let! rs := run_ops ops in ret (r :: rs)
  end.

(** The same on a map that is never full. *)
Definition ideal_op (o : op) m : result * gmap cstr (ENTRY C) :=
  match o with
  | Search it action flag =>
      let res := ideal_search false m it action flag in
      (Found (match res.1 with Some _ => None | None => res.2 !! item_key it end), res.2)
  | Delete k flag =>
      let res := ideal_delete m k flag in
      (Deleted (match res.1 with Some _ => false | None => true end), res.2)
  end.

Fixpoint ideal_ops (ops : list op) m : list result * gmap cstr (ENTRY C) :=
  match ops with
  | [] => ([], m)
  | o :: ops => let r := ideal_op o m in let rs := ideal_ops ops r.2 in (r.1 :: rs.1, rs.2)
  end.

(** The keys are C strings, and data is passed where it is stored. *)
Definition op_ok (o : op) : Prop :=
  match o with
  | Search it action _ => cstr_ok (item_key it) /\ (action = ENTER -> is_Some (item_data it))
  | Delete k _ => cstr_ok k
  end.

(** How many unused slots a call may take: one when it enters a key that is
    not in the map, none when it finds, updates or deletes. *)
Definition op_slots m (o : op) : nat :=
  match o with
  | Search it ENTER _ => match m !! item_key it with Some _ => 0 | None => 1 end
  | _ => 0
  end.

Fixpoint ops_slots (ops : list op) m : nat :=
  match ops with [] => 0 | o :: ops => op_slots m o + ops_slots ops (ideal_op o m).2 end.

(** Whether the table is full matters only for a new key. *)
Lemma ideal_search_known full m it action flag :
  is_Some (m !! item_key it) -> ideal_search full m it action flag = ideal_search false m it action flag.
Proof. intros [e He]. unfold ideal_search. by rewrite He. Qed.

Lemma live_free_count (l : list (slot C)) :
  live_count l + Z.of_nat (free_count l) <= Z.of_nat (length l).
Proof.
  unfold live_count, free_count. induction l as [|s l IH]; [done|]. rewrite !filter_cons.
  destruct (decide (0 < used s)), (decide (used s = 0)); simpl; lia.
Qed.

Lemma fresh_not_full h m : models h m -> (0 < fresh h)%nat -> filled h <> size h.
Proof.
  intros (l & Hl & Hok & Hf & _) Hfr. unfold fresh in Hfr. rewrite Hl in Hfr.
  pose proof (live_free_count l). pose proof (to_len _ _ Hok). lia.
Qed.

Lemma run_op_ideal h m o :
  models h m -> op_ok o -> (op_slots m o <= fresh h)%nat ->
  exists h', run_op o h = Done ((ideal_op o m).1, h') /\ models h' (ideal_op o m).2 /\
    size h' = size h /\ (fresh h <= fresh h' + op_slots m o)%nat.
Proof.
  intros Hmod Hok Hfr. destruct o as [it action flag|k flag]; simpl in *.
  - destruct Hok as [Hk Hd].
    assert (exists r h', hsearch_r it action flag h = Done (r, h') /\
      models h' (ideal_search false m it action flag).2 /\ size h' = size h /\
      (fresh h <= fresh h' + op_slots m (Search it action flag))%nat /\
      answer h' (ideal_search false m it action flag).2 (item_key it) r (ideal_search false m it action flag).1)
      as (r & h' & Hrun & Hm' & Hs & Hf & Ha).
    { simpl. destruct (m !! item_key it) as [e|] eqn:Em.
      - rewrite <-(ideal_search_known (filled h =? size h)) by (by rewrite Em).
        destruct (hsearch_found h m it action flag e Hmod Hk Em) as (r & h' & ? & ? & ? & Hf & ?).
        exists r, h'. split_and!; [done..|destruct action; lia|done].
      - destruct (hsearch_absent h m it action flag Hmod Hk Em Hd) as (r & h' & Hrun & Hm' & Hs & Hf & Ha).
        { intros -> _. simpl in Hfr. lia. }
        assert (ideal_search (filled h =? size h) m it action flag = ideal_search false m it action flag) as E.
        { destruct action; [done|]. simpl in Hfr.
          by rewrite (proj2 (Z.eqb_neq _ _) (fresh_not_full h m Hmod Hfr)). }
        rewrite E in *. exists r, h'. split_and!; [done..|destruct action; simpl in *; lia|done]. }
    exists h'. split_and!; [|done..]. run (exact Hrun).
    destruct (ideal_search false m it action flag) as [[c|] m']; simpl in *.
    + by destruct Ha as [-> _].
    + destruct Ha as (i & e & -> & _ & Hm & l & Hl & s & Hs' & _ & <-).
      run (by eapply get_slot_run). by rewrite Hm.
  - destruct (hdelete_ideal h m k flag Hmod Hok) as (r & h' & Hrun & Hm' & Hs & Hf & Ha).
    exists h'. split_and!; [|done|done|lia]. run (exact Hrun).
    destruct (ideal_delete m k flag) as [[c|] m']; simpl in *; [by destruct Ha as [-> _]|by subst r].
Qed.

Lemma run_ops_ideal h m ops :
  models h m -> Forall op_ok ops -> (ops_slots ops m <= fresh h)%nat ->
  exists h', run_ops ops h = Done ((ideal_ops ops m).1, h') /\ models h' (ideal_ops ops m).2.
Proof.
  intros Hmod Hok. revert h m Hmod. induction Hok as [|o ops Ho _ IH]; intros h m Hmod Hfr; [by exists h|].
  cbn [ops_slots] in Hfr. simpl.
  destruct (run_op_ideal h m o Hmod Ho ltac:(lia)) as (h1 & Hrun & Hm1 & _ & Hf1).
  destruct (IH h1 _ Hm1 ltac:(lia)) as (h2 & Hrun2 & Hm2).
  exists h2. split; [|done]. run (exact Hrun). by run (exact Hrun2).
Qed.
End run.

(** ** Theorems *)

Section theorems.
Context {C : Type} {HC : EnvHooks C}.
Implicit Types (h : hsearch_data C) (m : gmap cstr (ENTRY C)).

(** C25: the table is a finite map.  A table created for [nel] entries runs
    every sequence in which at most [nel] calls enter a key that is not in the
    map at that point, with any number of searches, updates of keys that are,
    and deletions, without an access out of range and with the answers of a
    finite map, the refusals of permission checks and callbacks included.  A
    key entered again after it was deleted counts again: the slot of a deleted
    key is not free, see [hsearch_r_loses_entry]. *)
Theorem htab_run_refines fuel nel h ops :
  table h = None -> 2 <= nel <= 65521 -> 32760 < Z.of_nat fuel ->
  Forall op_ok ops -> Z.of_nat (ops_slots ops ∅) <= nel ->
  exists h0 h', hcreate_r fuel nel h = Done (1, h0) /\
    run_ops ops h0 = Done ((ideal_ops ops ∅).1, h') /\ models h' (ideal_ops ops ∅).2.
Proof.
  intros Ht Hn Hf Hok Hslots. destruct (hcreate_spec fuel nel h Ht Hn Hf) as (h0 & Hc & Hm & Hfr & Hs & _).
  destruct (run_ops_ideal h0 ∅ ops Hm Hok ltac:(lia)) as (h' & ? & ?). by exists h0, h'.
Qed.

Lemma ideal_search_error full m it action flag :
  is_Some (ideal_search full m it action flag).1 -> (ideal_search full m it action flag).2 = m.
Proof. intros [c Hc]. unfold ideal_search in *. by repeat case_match; simplify_eq/=. Qed.

(** A call of [hsearch_r] on a table with an unused slot, or on a full
    table, answers as the map does: it finds the entry, overwrites its data,
    creates an entry, or fails with the error of the first check that
    refuses; a failing call leaves the map as it was. *)
Theorem hsearch_r_refines h m it action flag :
  models h m -> cstr_ok (item_key it) -> (action = ENTER -> is_Some (item_data it)) ->
  (0 < fresh h)%nat \/ filled h = size h ->
  let res := ideal_search (filled h =? size h) m it action flag in
  exists r h', hsearch_r it action flag h = Done (r, h') /\ models h' res.2 /\
    answer h' res.2 (item_key it) r res.1 /\ (is_Some res.1 -> res.2 = m).
Proof.
  intros Hm Hk Hd Hroom res.
  destruct (hsearch_ideal h m it action flag Hm Hk Hd) as (r & h' & ? & ? & _ & _ & ?).
  { intros _ _ Hne. by destruct Hroom. }
  exists r, h'. split_and!; [done..|]. apply ideal_search_error.
Qed.

(** [hcreate_r] chooses as size the first prime from 5 on that is not
    smaller than the request, and its slots are all unused. *)
Theorem hcreate_r_prime fuel nel h :
  table h = None -> 2 <= nel <= 65521 -> 32760 < Z.of_nat fuel ->
  exists h', hcreate_r fuel nel h = Done (1, h') /\ models h' ∅ /\
    Z.of_nat (fresh h') = size h' /\ nel <= size h' /\ Z.prime (size h') /\
    forall p, Z.prime p -> 5 <= p -> nel <= p -> size h' <= p.
Proof.
  intros Ht Hn Hf. destruct (hcreate_spec fuel nel h Ht Hn Hf) as (h' & ? & ? & ? & [? ?] & ? & ?).
  exists h'. by split_and!.
Qed.
End theorems.

(** ** Concrete tables *)

Module Witnesses.

(** No permission checks, no callbacks. *)
#[local] Instance no_hooks : EnvHooks unit := {|
  change_ok := None;
  run_callback _ _ _ _ _ := false;
  callback_of _ := None;
  flags_of _ := None;
|}.

Definition empty_table : hsearch_data unit := Htab unit None 0 0 0.

Definition put (k d : cstr) : op := Search (Item k (Some d)) ENTER 0.
Definition get (k : cstr) : op := Search (Item k None) FIND 0.

(** "a", "b", ... *)
Definition letter (i : Z) : cstr := [96 + i].

(** Two keys, one of them updated more often than the table has slots. *)
Definition short_run : list op :=
  [put (letter 1) (letter 24); put (letter 2) (letter 25); get (letter 1);
   Delete (letter 1) 0; get (letter 1); put (letter 2) (letter 26); get (letter 2)] ++
  replicate 20 (put (letter 2) (letter 3)) ++ [get (letter 2)].

Lemma htab_run_refines_witness :
  exists h0 h', hcreate_r (Z.to_nat 40000) 3 empty_table = Done (1, h0) /\
    run_ops short_run h0 = Done ((ideal_ops short_run ∅).1, h') /\ models h' (ideal_ops short_run ∅).2.
Proof.
  apply (htab_run_refines (Z.to_nat 40000) 3 empty_table short_run); [done|lia|lia| |vm_compute; done].
  repeat constructor; try done; intros; by eexists.
Defined.

Lemma hcreate_r_prime_witness :
  exists h', hcreate_r (Z.to_nat 40000) 90 empty_table = Done (1, h') /\ models h' ∅ /\
    Z.of_nat (fresh h') = size h' /\ 90 <= size h' /\ Z.prime (size h') /\
    forall p, Z.prime p -> 5 <= p -> 90 <= p -> size h' <= p.
Proof. apply (hcreate_r_prime (Z.to_nat 40000) 90 empty_table); [done|lia|lia]. Defined.

Definition fresh_table : hsearch_data unit := Htab unit (Some (memset free_slot 6)) 5 0 0.

Lemma fresh_table_models : models fresh_table ∅ /\ Z.of_nat (fresh fresh_table) = 5.
Proof.
  apply models_fresh; [|lia|done..]. split; [lia|]. intros n Hn [k Hk].
  assert (n = 2 \/ n = 3 \/ n = 4) as [->|[->| ->]] by lia; lia.
Qed.

Lemma hsearch_r_refines_witness :
  let it := Item (letter 1) (Some (letter 2)) in
  let res := ideal_search (filled fresh_table =? size fresh_table) ∅ it ENTER 0 in
  exists r h', hsearch_r it ENTER 0 fresh_table = Done (r, h') /\ models h' res.2 /\
    answer h' res.2 (item_key it) r res.1 /\ (is_Some res.1 -> res.2 = ∅).
Proof.
  destruct fresh_table_models as [Hm Hf].
  apply (hsearch_r_refines fresh_table ∅); [exact Hm|repeat constructor|by eexists|left; lia].
Defined.

(** Five entries fill the table of five slots; then "f", which had to go to
    slot 5, is deleted. *)
Definition worn_run : list op :=
  [put (letter 1) [49]; put (letter 2) [50]; put (letter 3) [51]; put (letter 5) [53];
   put (letter 6) [54]; Delete (letter 6) 0].

(** Without an unused slot [hsearch_r] can lose an entry.  A table of
    five slots holds four entries and a deleted slot that is not the home
    slot of the new key: entering "d" succeeds, and overwrites "c". *)
Theorem hsearch_r_loses_entry :
  exists rs h0 h1 e, run_ops worn_run fresh_table = Done (rs, h0) /\
    filled h0 = 4 /\ size h0 = 5 /\
    run_ops [get (letter 3)] h0 = Done ([Found (Some (Entry unit (letter 3) [51] None 0))], h0) /\
    run_ops [put (letter 4) [52]] h0 = Done ([Found (Some e)], h1) /\
    exists h2, run_ops [get (letter 3)] h1 = Done ([Found None], h2).
Proof.
  eexists _, _, _, _. split; [vm_compute; reflexivity|]. split_and!; [done|done| | |].
  - vm_compute. reflexivity.
  - vm_compute. reflexivity.
  - eexists. vm_compute. reflexivity.
Qed.
End Witnesses.
