(* ===== verification/HtabText.v ===== *)
(** The text form of the hash table: [hexport_r], [himport_r] and their helpers
    ([U/lib/hashtable.c]).

    A pointer into the imported copy is the rest of the copy from there on;
    reading at its end is undefined.  The NULs that [himport_r] writes over the
    copy end strings that it has already read, and are not kept.  The buffer
    of [hexport_r] is [None] for a null [*resp].  [CONFIG_REGEX] is off. *)

From stdpp Require Import base numbers list option.
From Stdlib Require Import ZArith Lia.
From S2P Require Import Prelude Qsort Htab.

Definition CONFIG_ENV_MIN_ENTRIES : Z := 64.
Definition CONFIG_ENV_MAX_ENTRIES : Z := 512.

(** The searches of [himport_r] for a table size stay below 2{^16}. *)
Definition prime_fuel : nat := Z.to_nat 32768.

Section text.
Context {C : Type} {HC : EnvHooks C}.
Abbreviation st := (hsearch_data C).

(** ** Selection and order of the exported entries *)

Definition cmpkey (e1 e2 : ENTRY C) : Z := strcmp (key e1) (key e2).

(** [strstr(s1, s2) != NULL]. *)
Fixpoint strstr (s1 s2 : cstr) : bool :=
  bool_decide (take (length s2) s1 = s2) ||
  match s1 with [] => false | _ :: s1' => strstr s1' s2 end.

Definition match_string (flag : Z) (str pat : cstr) : bool :=
  let m := Z.land flag H_MATCH_METHOD in
  if m =? H_MATCH_IDENT then strcmp str pat =? 0
  else if m =? H_MATCH_SUBSTR then strstr str pat
  else false.

Fixpoint match_entry (ep : ENTRY C) (flag : Z) (argv : list cstr) : bool :=
  match argv with
  | [] => false
  | arg :: argv =>
      if negb (Z.land flag H_MATCH_KEY =? 0) && match_string flag (key ep) arg then true
      else if negb (Z.land flag H_MATCH_DATA =? 0) && match_string flag (data ep) arg then true
      else match_entry ep flag argv
  end.

(** The test of pass 1. *)
Definition exported (flag : Z) (argv : list cstr) (s : slot C) : bool :=
  (0 <? used s) &&
  negb ((0 <? Z.of_nat (length argv)) && negb (match_entry (entry s) flag argv)) &&
  negb (negb (Z.land flag H_HIDE_DOT =? 0) && bool_decide (head (key (entry s)) = Some 46)).

(** The room pass 1 counts for an entry. *)
Definition entry_len (sep : Z) (e : ENTRY C) : Z :=
  Z.of_nat (length (key e)) + 2 +
  (if sep =? 0 then Z.of_nat (length (data e))
   else foldr (fun c n => n + 1 + (if (c =? sep) || (c =? 92) then 1 else 0)) 0 (data e)) + 2.

(** The loop of pass 2 over the characters of the data. *)
Definition escape (sep : Z) (d : cstr) : cstr :=
  d ≫= (fun c => if (c =? sep) || (c =? 92) then [92; c] else [c]).

(** What pass 2 writes for an entry. *)
Definition entry_text (sep : Z) (e : ENTRY C) : list Z :=
  key e ++ 61 :: escape sep (data e) ++ [sep].

(** The collected list: slots 1 to [size], the last one, in order. *)
Definition collect (flag : Z) (argv : list cstr) (l : list (slot C)) : list (ENTRY C) :=
  entry <$> filter (fun s => exported flag argv s = true) (drop 1 l).

(** The length or -1, and the buffer that [*resp] points to afterwards. *)
Definition hexport_r (sep flag : Z) (resp : option (list Z)) (bufsize : Z) (argv : list cstr)
  : M st (Z * option (list Z)) :=
  let! t := gets table in
  let! l := checked t in
  let list_ := collect flag argv l in
  let totlen := foldr (fun e n => entry_len sep e + n) 0 list_ in
  let! sorted := checked (qsort cmpkey list_) in
  if negb (bufsize =? 0) && (bufsize <? totlen + 1)
  then do! modify (set_errno ENOMEM) in ret (-1, resp)
  else
    let bufsize := if bufsize =? 0 then totlen + 1 else bufsize in
    let! res := (match resp with
                 | Some buf => if bufsize <=? Z.of_nat (length buf)
                               then ret (splice buf 0 (memset 0 bufsize)) else undef
                 | None => ret (memset 0 bufsize)
                 end) in
    let text := (sorted ≫= entry_text sep) ++ [0] in
    if Z.of_nat (length text) <=? Z.of_nat (length res)
    then ret (bufsize, Some (splice res 0 text))
    else undef.

(** ** Import *)

(** [vars] holds [None] for the pointers set to NULL. *)
Definition drop_var_from_set (name : cstr) (vars : list (option cstr)) : bool * list (option cstr) :=
  match vars with
  | [] => (true, [])
  | _ =>
      let same v := match v with Some x => strcmp name x =? 0 | None => false end in
      (existsb same vars, (fun v => if same v then None else v) <$> vars)
  end.

(** [*dp]. *)
Definition deref {S} (dp : list Z) : M S Z := checked (head dp).

(** [while (isblank( *dp)) ++dp]. *)
Fixpoint skip_blank {S} (dp : list Z) : M S (list Z) :=
  match dp with
  | [] => undef
  | c :: dp' => if (c =? 32) || (c =? 9) then skip_blank dp' else ret dp
  end.

(** [while ( *dp && ( *dp != sep)) ++dp]. *)
Fixpoint skip_comment {S} (sep : Z) (dp : list Z) : M S (list Z) :=
  match dp with
  | [] => undef
  | c :: dp' => if negb (c =? 0) && negb (c =? sep) then skip_comment sep dp' else ret dp
  end.

(** The name and the rest from the character that ends it. *)
Fixpoint parse_name {S} (sep : Z) (dp : list Z) : M S (cstr * list Z) :=
  match dp with
  | [] => undef
  | c :: dp' =>
      if negb (c =? 61) && negb (c =? 0) && negb (c =? sep)
      then let! r := parse_name sep dp' in ret (c :: r.1, r.2)
      else ret ([], dp)
  end.

(** The value without its escapes, and the rest from its end on; [esc]: the
    character in front was an escape. *)
Fixpoint parse_value {S} (sep : Z) (esc : bool) (dp : list Z) : M S (cstr * list Z) :=
  match dp with
  | [] => undef
  | c :: dp' =>
      if esc then let! r := parse_value sep false dp' in ret (c :: r.1, r.2)
      else if (c =? 0) || (c =? sep) then ret ([], dp)
      else if c =? 92 then
        let! next := deref dp' in
        if next =? 0 then let! r := parse_value sep false dp' in ret (c :: r.1, r.2)
        else parse_value sep true dp'
      else let! r := parse_value sep false dp' in ret (c :: r.1, r.2)
  end.

(** One round: the rest of the copy and the list of variables, or [None] when
    the function returns 0. *)
Definition import_entry (sep flag : Z) (dp : list Z) (vars : list (option cstr))
  : M st (option (list Z * list (option cstr))) :=
  let! dp := skip_blank dp in
  let! c := deref dp in
  if c =? 35 then
    let! dp := skip_comment sep dp in ret (Some (tail dp, vars))
  else
    let! r := parse_name sep dp in
    let '(name, dp) := r in
    let! c := deref dp in
    let! del := (if c =? 0 then ret true else
                 let! next := deref (tail dp) in
                 ret ((next =? 0) || (c =? sep) || (next =? sep))) in
    if del : bool then
      let dp := if c =? 61 then tail dp else dp in
      let dp := tail dp in
      let (found, vars) := drop_var_from_set name vars in
      if negb found then ret (Some (dp, vars)) else
      do! hdelete_r name flag in
      ret (Some (dp, vars))
    else
      let! r := parse_value sep false (tail dp) in
      let '(value, dp) := r in
      let dp := tail dp in
      if bool_decide (name = []) then do! modify (set_errno EINVAL) in ret None else
      let (found, vars) := drop_var_from_set name vars in
      if negb found then ret (Some (dp, vars)) else
      do! hsearch_r (Item name (Some value)) ENTER flag in
      ret (Some (dp, vars)).

(** [do { ... } while ((dp < data + size) && *dp)]. *)
Fixpoint import_loop (fuel : nat) (sep flag : Z) (dp : list Z) (vars : list (option cstr))
  : M st (option (list (option cstr))) :=
  match fuel with
  | O => out_of_fuel
  | S fuel =>
      let! r := import_entry sep flag dp vars in
      match r with
      | None => ret None
      | Some (dp, vars) =>
          match dp with
          | [] => ret (Some vars)
          | c :: _ => if c =? 0 then ret (Some vars) else import_loop fuel sep flag dp vars
          end
      end
  end.

(** The variables of the list that the text did not mention. *)
Fixpoint import_rest (flag : Z) (vars : list (option cstr)) : M st unit :=
  match vars with
  | [] => ret tt
  | None :: vars => import_rest flag vars
  | Some v :: vars => do! hdelete_r v flag in import_rest flag vars
  end.

(** [env] is the object the argument points to. *)
Definition himport_r (env : list Z) (bufsize sep flag : Z) (vars : list cstr) : M st Z :=
  if Z.of_nat (length env) <? bufsize then undef else
  let data := take (Z.to_nat bufsize) env in
  let! t := gets table in
  do! (match t with
       | Some _ => if Z.land flag H_NOCLEAR =? 0 then hdestroy_r else ret tt
       | None => ret tt
       end) in
  let! t := gets table in
  let! ok := (match t with
              | Some _ => ret 1
              | None =>
                  let nent := CONFIG_ENV_MIN_ENTRIES + bufsize / 8 in
                  hcreate_r prime_fuel
                    (if CONFIG_ENV_MAX_ENTRIES <? nent then CONFIG_ENV_MAX_ENTRIES else nent)
              end) in
  if ok =? 0 then ret 0 else
  let! r := import_loop (S (length data)) sep flag data (Some <$> vars) in
  match r with
  | None => ret 0
  | Some vars => do! import_rest flag vars in ret 1
  end.
End text.
