(* ===== verification/HtabTextProps.v ===== *)
(** Export and import are inverse.

    [hexport_r] writes the entries in the order of their keys; [himport_r]
    reads that text back into a table with the same names and values. *)

From stdpp Require Import base numbers list option gmap sorting fin_maps.
From Stdlib Require Import ZArith Zdivisibility Lia.
From S2P Require Import Prelude Qsort Htab HtabBase HtabSearch HtabProps HtabCreate HtabRun HtabText.

(** ** Sums *)

Definition sumz : list Z -> Z := foldr Z.add 0.

Lemma sumz_perm l1 l2 : l1 ≡ₚ l2 -> sumz l1 = sumz l2.
Proof. unfold sumz. induction 1; cbn [foldr fmap list_fmap]; lia. Qed.

Lemma sumz_le {A} (f g : A -> Z) l : Forall (fun x => f x <= g x) l -> sumz (f <$> l) <= sumz (g <$> l).
Proof. unfold sumz. induction 1; cbn [foldr fmap list_fmap]; lia. Qed.

(** ** One entry *)

#[local] Arguments Z.eqb : simpl never.

(** Decides the comparisons of characters. *)
Ltac eqb_tac :=
  repeat match goal with
  | |- context [?a =? ?b] =>
      first [rewrite (proj2 (Z.eqb_neq a b)) by lia | rewrite (proj2 (Z.eqb_eq a b)) by lia];
      cbn [orb negb andb]
  end.

(** Names and values that survive: what the comment of [himport_r] excludes,
    is excluded. *)
Record name_ok (sep : Z) (k : cstr) : Prop := {
  nm_cstr : cstr_ok k;
  nm_chars : Forall (fun c => c <> 61 /\ c <> sep) k;
  nm_first : exists c k', k = c :: k' /\ c <> 32 /\ c <> 9 /\ c <> 35;
}.

Definition value_ok (d : cstr) : Prop := cstr_ok d /\ d <> [].

(** The separators in use are NUL and newline. *)
Definition sep_ok (sep : Z) : Prop := sep <> 61 /\ sep <> 92.

Section parse.
Context {S : Type}.
Implicit Type s : S.

Lemma parse_name_text sep k rest s :
  cstr_ok k -> Forall (fun c => c <> 61 /\ c <> sep) k ->
  parse_name sep (k ++ 61 :: rest) s = Done ((k, 61 :: rest), s).
Proof.
  intros Hk Hc. induction k as [|c k IH]; [done|].
  apply Forall_cons in Hk as [? Hk], Hc as [[? ?] Hc]. simpl.
  eqb_tac. by run (exact (IH Hk Hc)).
Qed.

Lemma parse_value_text sep d rest s :
  sep_ok sep -> cstr_ok d ->
  parse_value sep false (escape sep d ++ sep :: rest) s = Done ((d, sep :: rest), s).
Proof.
  intros [_ Hsep] Hd. induction Hd as [|c d Hc Hd IH].
  - simpl. by rewrite Z.eqb_refl, orb_true_r.
  - unfold escape in *. cbn [mbind list_bind].
    destruct (decide (c = sep)) as [->|]; [|destruct (decide (c = 92)) as [->|]]; eqb_tac; simpl; eqb_tac.
    + unfold deref. run (done). eqb_tac. by run (exact IH).
    + unfold deref. run (done). eqb_tac. by run (exact IH).
    + by run (exact IH).
Qed.
End parse.

Section import.
Context {C : Type} {HC : EnvHooks C}.
Implicit Types (h : hsearch_data C) (m : gmap cstr (ENTRY C)) (e : ENTRY C) (es : list (ENTRY C)).

Lemma escape_head sep d rest :
  value_ok d -> sep <> 0 \/ sep = 0 -> sep_ok sep ->
  exists c r, escape sep d ++ rest = c :: r /\ c <> 0 /\ c <> sep.
Proof.
  intros [Hd Hne] _ [_ Hs]. destruct d as [|c d]; [done|]. apply Forall_cons in Hd as [? _].
  unfold escape. cbn [mbind list_bind]. destruct (Z.eqb_spec c sep); simpl; [eauto 10 with lia|].
  destruct (Z.eqb_spec c 92); simpl; eexists _, _; (split; [done|lia]).
Qed.

(** One round of the import consumes the text of one entry. *)
Lemma import_entry_text sep flag e rest h r h' :
  sep_ok sep -> name_ok sep (key e) -> value_ok (data e) ->
  hsearch_r (Item (key e) (Some (data e))) ENTER flag h = Done (r, h') ->
  import_entry sep flag (entry_text sep e ++ rest) [] h = Done (Some (rest, []), h').
Proof.
  intros Hsep [Hk Hc (c & k' & Hkey & ? & ? & ?)] Hv Hrun. unfold import_entry, entry_text.
  assert (forall t, skip_blank ((key e ++ t)) h = Done (key e ++ t, h)) as Hskip.
  { intros t. rewrite Hkey. simpl. by eqb_tac. }
  rewrite <-app_assoc. run (by apply Hskip).
  run (by rewrite Hkey). eqb_tac.
  cbn [app]. run (by apply parse_name_text). run (done). simpl.
  rewrite <-app_assoc. simpl.
  destruct (escape_head sep (data e) (sep :: rest) Hv ltac:(lia) Hsep) as (c1 & t & Et & ? & ?).
  pose proof Hsep as [? ?]. run (by run (by rewrite Et)). eqb_tac.
  run (apply parse_value_text; [done|apply Hv]). rewrite bool_decide_false by (by rewrite Hkey).
  by run (exact Hrun).
Qed.

(** The calls an import of [es] makes. *)
Definition puts (flag : Z) es : list op :=
  (fun e => Search (Item (key e) (Some (data e))) ENTER flag) <$> es.

Lemma import_loop_text sep flag es rest h m fuel :
  sep_ok sep -> es <> [] -> Forall (fun e => name_ok sep (key e) /\ value_ok (data e)) es ->
  models h m -> (length es <= fresh h)%nat -> (length es <= fuel)%nat ->
  exists h', import_loop fuel sep flag ((es ≫= entry_text sep) ++ 0 :: rest) [] h = Done (Some [], h') /\
    models h' (ideal_ops (puts flag es) m).2.
Proof.
  intros Hsep Hne Hes. revert h m fuel Hne. induction Hes as [|e es [Hn Hv] Hes IH];
    intros h m fuel Hne Hm Hfr Hf; [done|]. destruct fuel as [|fuel]; [simpl in Hf; lia|].
  cbn [import_loop mbind list_bind]. rewrite <-app_assoc.
  destruct (hsearch_ideal h m (Item (key e) (Some (data e))) ENTER flag Hm) as (r & h1 & Hrun & Hm1 & _ & Hf1 & _).
  { apply Hn. } { intros _. by eexists. } { intros _ _ _. simpl in Hfr. lia. }
  assert (ideal_search (filled h =? size h) m (Item (key e) (Some (data e))) ENTER flag
    = ideal_search false m (Item (key e) (Some (data e))) ENTER flag) as E.
  { rewrite (proj2 (Z.eqb_neq _ _)); [done|]. eapply fresh_not_full; [done|]. simpl in Hfr. lia. }
  rewrite E in Hm1. run (by apply (import_entry_text sep flag e _ h r h1)).
  destruct es as [|e2 es].
  - exists h1. split; [done|]. exact Hm1.
  - destruct (IH h1 _ fuel ltac:(done) Hm1) as (h2 & Hrun2 & Hm2); [simpl in *; lia..|].
    exists h2. split; [|exact Hm2].
    assert (exists c t, ((e2 :: es) ≫= entry_text sep) ++ 0 :: rest = c :: t /\ c <> 0) as (c & t & Et & Hc).
    { apply Forall_cons in Hes as [[[Hk _ (c & k' & Hkey & _)] _] _]. rewrite Hkey in Hk.
      apply Forall_cons in Hk as [? _]. cbn [mbind list_bind]. unfold entry_text. rewrite Hkey.
      eexists _, _. split; [done|lia]. }
    rewrite Et in *. by rewrite (proj2 (Z.eqb_neq c 0)).
Qed.

(** ** The imported map *)

Definition renew (e : ENTRY C) : ENTRY C := new_entry (key e) (data e).

(** Neither the permission check nor the callback of the variable objects. *)
Definition accepted (flag : Z) e : Prop :=
  denied (renew e) (Some (data e)) env_op_create flag = false /\
  refused (renew e) (key e) (Some (data e)) env_op_create flag = false.

Definition map_of es : gmap cstr (ENTRY C) := list_to_map ((fun e => (key e, renew e)) <$> es).

Lemma map_of_none es k : k ∉ key <$> es -> map_of es !! k = None.
Proof.
  intros Hk. unfold map_of. apply not_elem_of_list_to_map_1. by rewrite <-list_fmap_compose.
Qed.

Lemma ideal_puts flag es m :
  NoDup (key <$> es) -> Forall (accepted flag) es -> (forall e, e ∈ es -> m !! key e = None) ->
  (ideal_ops (puts flag es) m).2 = map_of es ∪ m.
Proof.
  intros Hnd Hacc. revert m Hnd. induction Hacc as [|e es [Hd Hr] _ IH]; intros m Hnd Hm.
  - unfold map_of. simpl. by rewrite (left_id_L ∅ (∪)).
  - rewrite fmap_cons in Hnd. apply NoDup_cons in Hnd as [Hni Hnd]. cbn [puts fmap list_fmap ideal_ops snd ideal_op].
    unfold ideal_search. cbn [item_key item_data]. rewrite (Hm e) by left. fold (renew e). rewrite Hd, Hr.
    cbn [fst snd]. fold (puts flag es). rewrite IH; [|done|].
    + unfold map_of. cbn [fmap list_fmap list_to_map fst snd]. fold (map_of es).
      rewrite <-insert_union_r, insert_union_l; [done|]. by apply map_of_none.
    + intros e' He'. rewrite lookup_insert_ne; [by apply Hm; right|].
      intros Hk. apply Hni. rewrite Hk. by apply list_elem_of_fmap_2.
Qed.
End import.

(** ** The exported list *)

Section export.
Context {C : Type} {HC : EnvHooks C}.
Implicit Types (h : hsearch_data C) (m : gmap cstr (ENTRY C)) (e : ENTRY C) (es : list (ENTRY C)).

Lemma exported_all (s : slot C) : exported 0 [] s = (0 <? used s).
Proof. unfold exported. simpl. by rewrite !andb_true_r. Qed.

Lemma NoDup_filter_fmap {A B} (f : A -> B) (P : A -> Prop) `{!forall x, Decision (P x)} (l : list A) :
  (forall i j x y, l !! i = Some x -> l !! j = Some y -> P x -> P y -> f x = f y -> i = j) ->
  NoDup (f <$> filter P l).
Proof.
  induction l as [|x l IH]; intros Hu; [by constructor|]. rewrite filter_cons.
  assert (NoDup (f <$> filter P l)) as Hl.
  { apply IH. intros i j y z Hi Hj Hy Hz Hf. by injection (Hu (S i) (S j) y z Hi Hj Hy Hz Hf). }
  case_decide as Hx; [|done]. constructor; [|done].
  intros (y & Hy & [HP [i Hi]%list_elem_of_lookup]%list_elem_of_filter)%list_elem_of_fmap.
  by specialize (Hu O (S i) x y eq_refl Hi Hx HP Hy).
Qed.

Lemma collect_models h m l :
  models h m -> table h = Some l ->
  (forall e, e ∈ collect 0 [] l <-> m !! key e = Some e) /\ NoDup (key <$> collect 0 [] l).
Proof.
  intros (l0 & Hl0 & Hok & _ & Hr) Hl. assert (l0 = l) by congruence. subst l0.
  assert (forall i s, drop 1 l !! i = Some s -> znth l (Z.of_nat i + 1) = Some s) as Hdrop.
  { intros i s. rewrite lookup_drop, znth_lookup by lia.
    by replace (Z.to_nat (Z.of_nat i + 1)) with (1 + i)%nat by lia. }
  split.
  - intros e. rewrite (Hr (key e) e). unfold collect. rewrite list_elem_of_fmap. split.
    + intros (s & -> & [Hx [i Hi]%list_elem_of_lookup]%list_elem_of_filter). split; [done|].
      exists (Z.of_nat i + 1), s. rewrite exported_all in Hx. split_and!; [by apply Hdrop|lia|done].
    + intros [_ [i Hlive]]. pose proof (live_range _ _ _ _ Hok Hlive) as Hi.
      destruct Hlive as (s & Hs & Hu & <-). exists s. split; [done|].
      apply list_elem_of_filter. rewrite exported_all. split; [by apply Z.ltb_lt|].
      apply list_elem_of_lookup. exists (Z.to_nat i - 1)%nat. rewrite lookup_drop.
      rewrite znth_lookup in Hs by lia. by replace (1 + (Z.to_nat i - 1))%nat with (Z.to_nat i) by lia.
  - unfold collect. rewrite <-list_fmap_compose. apply NoDup_filter_fmap.
    intros i j x y Hi%Hdrop Hj%Hdrop Hx Hy Hk. rewrite exported_all in Hx, Hy.
    assert (Z.of_nat i + 1 = Z.of_nat j + 1); [|lia].
    apply (to_uniq _ _ Hok _ _ (entry x) (entry y)); [exists x|exists y|done]; split_and!; (done || lia).
Qed.

Definition entries m : list (ENTRY C) := (map_to_list m).*2.

Lemma collect_perm h m l : models h m -> table h = Some l -> collect 0 [] l ≡ₚ entries m.
Proof.
  intros Hm Hl. destruct (collect_models h m l Hm Hl) as [Hel Hnd].
  destruct Hm as (l0 & _ & _ & _ & Hr). apply NoDup_Permutation.
  - by eapply NoDup_fmap_1.
  - unfold entries. apply (NoDup_fmap_1 key). rewrite <-list_fmap_compose.
    rewrite (list_fmap_ext _ fst); [apply NoDup_fst_map_to_list|].
    intros i [k e] Hi. simpl. apply list_elem_of_lookup_2, elem_of_map_to_list in Hi.
    by destruct (proj1 (Hr k e) Hi).
  - intros e. rewrite Hel. unfold entries. rewrite list_elem_of_fmap. split.
    + intros He. exists (key e, e). split; [done|]. by apply elem_of_map_to_list.
    + intros ([k e'] & -> & He%elem_of_map_to_list). simpl.
      by destruct (proj1 (Hr k e') He) as [-> _].
Qed.

(** The room [hexport_r] counts for the entries of a map. *)
Definition text_len (sep : Z) m : Z := sumz (entry_len sep <$> entries m).

Lemma totlen_sum sep es : foldr (fun e n => entry_len sep e + n) 0 es = sumz (entry_len sep <$> es).
Proof. induction es as [|e es IH]; [done|]. cbn [foldr fmap list_fmap sumz]. by rewrite IH. Qed.

(** With NUL as separator the count leaves out the escapes of backslashes. *)
Definition plain (sep : Z) (d : cstr) : Prop := sep = 0 -> Forall (fun c => c <> 0 /\ c <> 92) d.

Lemma escape_length sep d : plain sep d ->
  Z.of_nat (length (escape sep d)) =
    if sep =? 0 then Z.of_nat (length d)
    else foldr (fun c n => n + 1 + (if (c =? sep) || (c =? 92) then 1 else 0)) 0 d.
Proof.
  unfold escape. intros Hp. destruct (Z.eqb_spec sep 0) as [E|E].
  - specialize (Hp E). induction Hp as [|c d [? ?] Hd IH]; [done|]. cbn [mbind list_bind].
    rewrite length_app. eqb_tac. cbn [length]. lia.
  - clear Hp. induction d as [|c d IH]; [done|]. cbn [mbind list_bind foldr]. rewrite length_app.
    destruct ((c =? sep) || (c =? 92)); cbn [length]; lia.
Qed.

Lemma entry_text_length sep e : plain sep (data e) ->
  Z.of_nat (length (entry_text sep e)) = entry_len sep e - 2.
Proof.
  intros Hp%escape_length. unfold entry_text, entry_len. rewrite length_app. cbn [length].
  rewrite length_app. cbn [length]. destruct (sep =? 0); lia.
Qed.

Lemma text_length sep es : Forall (fun e => plain sep (data e)) es ->
  Z.of_nat (length (es ≫= entry_text sep)) <= sumz (entry_len sep <$> es).
Proof.
  induction 1 as [|e es He _ IH]; [done|]. cbn [mbind list_bind fmap list_fmap]. rewrite length_app.
  pose proof (entry_text_length sep e He). unfold sumz in *. cbn [foldr]. lia.
Qed.

Lemma drop_memset {A} (v : A) n k : drop k (memset v n) = memset v (n - Z.of_nat k).
Proof. unfold memset. rewrite drop_replicate. f_equal. lia. Qed.

Lemma splice_text (text buf : list Z) n :
  Z.of_nat (length text) < n ->
  splice (memset 0 n ++ buf) 0 (text ++ [0])
    = text ++ 0 :: memset 0 (n - Z.of_nat (length text) - 1) ++ buf.
Proof.
  intros Hn. unfold splice. cbn [take app Z.to_nat]. rewrite Nat.add_0_l, length_app, <-app_assoc. cbn [length app].
  assert (length (memset 0 n) = Z.to_nat n) as Hl by (unfold memset; apply length_replicate).
  rewrite drop_app_le, drop_memset by lia.
  by replace (n - Z.of_nat (length text + 1)) with (n - Z.of_nat (length text) - 1) by lia.
Qed.

Lemma splice_zero (buf : list Z) n : splice buf 0 (memset 0 n) = memset 0 n ++ drop (Z.to_nat n) buf.
Proof. unfold splice, memset. by rewrite length_replicate. Qed.

(** The size of the result when the caller passes [bufsize]. *)
Definition export_size (sep bufsize : Z) m : Z :=
  if bufsize =? 0 then text_len sep m + 1 else bufsize.

Lemma hexport_spec sep resp bufsize h m :
  models h m -> Forall (fun e => plain sep (data e)) (entries m) ->
  let n := export_size sep bufsize m in
  text_len sep m + 1 <= n -> (forall buf, resp = Some buf -> n <= Z.of_nat (length buf)) ->
  exists es, es ≡ₚ entries m /\
    (Forall (fun e => ascii (key e)) es -> StronglySorted lex_le (key <$> es)) /\
    let text := es ≫= entry_text sep in
    Z.of_nat (length text) < n /\
    hexport_r sep 0 resp bufsize [] h = Done ((n, Some (text ++ 0 ::
      memset 0 (n - Z.of_nat (length text) - 1) ++ drop (Z.to_nat n) (default [] resp))), h).
Proof.
  intros Hm Hplain n Hn Hbuf. pose proof Hm as (l & Hl & _).
  pose proof (collect_perm h m l Hm Hl) as Hperm.
  assert (foldr (fun e n => entry_len sep e + n) 0 (collect 0 [] l) = text_len sep m) as Htot.
  { rewrite totlen_sum. apply sumz_perm. by rewrite Hperm. }
  destruct (qsort_perm cmpkey (collect 0 [] l)) as (es & Hq & Hes).
  assert (es ≡ₚ entries m) as Hes' by by rewrite Hes.
  assert (Z.of_nat (length (es ≫= entry_text sep)) <= text_len sep m) as Htext.
  { unfold text_len. rewrite <-(sumz_perm _ _ (fmap_Permutation (entry_len sep) _ _ Hes')).
    apply text_length. by rewrite Hes'. }
  exists es. split; [done|]. split.
  { intros Hascii. destruct (qsort_sorted cmpkey (fun e => ascii (key e)) (collect 0 [] l)) as (es' & Hq' & _ & Hs).
    - intros a b Ha Hb. unfold cmpkey. rewrite !strcmp_lex by done. apply lex_le_total.
    - intros a b c Ha Hb Hc. unfold cmpkey. rewrite !strcmp_lex by done. apply lex_le_trans.
    - by rewrite <-Hes.
    - assert (es' = es) as -> by congruence. clear Hq Hq' Htext Hes Hes'.
      induction Hs as [|e es Hs IH He]; [constructor|]. apply Forall_cons in Hascii as [Ha Has].
      rewrite fmap_cons. constructor; [by apply IH|]. rewrite Forall_fmap. rewrite Forall_forall in *.
      intros e' He'. apply strcmp_lex; [done|by apply Has|by apply He]. }
  intros text. split; [unfold text; lia|].
  unfold hexport_r. run (done). rewrite Hl. run (done). rewrite Htot. run (by rewrite Hq).
  assert (negb (bufsize =? 0) && (bufsize <? text_len sep m + 1) = false) as ->.
  { unfold n, export_size in Hn. destruct (bufsize =? 0); [done|]. simpl. apply Z.ltb_ge. lia. }
  fold (export_size sep bufsize m). fold n.
  assert (forall buf, length (memset 0 n ++ buf) = (Z.to_nat n + length buf)%nat) as Hlen.
  { intros buf. unfold memset. by rewrite length_app, length_replicate. }
  assert (forall buf, (Z.of_nat (length ((es ≫= entry_text sep) ++ [0])) <=? Z.of_nat (length (memset 0 n ++ buf))) = true)
    as Hfit.
  { intros buf. rewrite Hlen, length_app. simpl. apply Z.leb_le. lia. }
  destruct resp as [buf|].
  - rewrite (proj2 (Z.leb_le _ _)) by by apply Hbuf. run (done).
    by rewrite splice_zero, Hfit, splice_text by lia.
  - run (done). rewrite <-(app_nil_r (memset 0 n)), Hfit, splice_text by lia. simpl. by rewrite drop_nil.
Qed.
End export.

(** ** The round trip *)

Section roundtrip.
Context {C : Type} {HC : EnvHooks C}.
Implicit Types (h : hsearch_data C) (m : gmap cstr (ENTRY C)) (e : ENTRY C) (es : list (ENTRY C)).

(** The entries a text of [n] bytes may hold: the slots of the new table. *)
Definition import_capacity (n : Z) : Z := Z.min CONFIG_ENV_MAX_ENTRIES (CONFIG_ENV_MIN_ENTRIES + n / 8).

(** A text without entries. *)
Lemma import_loop_blank sep flag rest h m fuel :
  sep_ok sep -> models h m -> m !! ([] : cstr) = None -> rest = [] \/ head rest = Some 0 ->
  exists h', import_loop (S fuel) sep flag (0 :: rest) [] h = Done (Some [], h') /\ models h' m.
Proof.
  intros [Hs _] Hm Hnil Hrest.
  destruct (hdelete_ideal h m [] flag Hm) as (r & h1 & Hrun & Hm1 & _); [by constructor|].
  unfold ideal_delete in Hm1. rewrite Hnil in Hm1. exists h1. split; [|done].
  cbn [import_loop]. run (unfold import_entry; run (done); run (done); eqb_tac; run (done); run (done);
    eqb_tac; run (done); cbn; run (exact Hrun); done).
  destruct Hrest as [->|Hrest]; [done|]. destruct rest as [|c rest]; [done|]. injection Hrest as ->. done.
Qed.

Lemma himport_spec env n sep flag h es rest :
  sep_ok sep -> table h = None \/ Z.land flag H_NOCLEAR = 0 -> 0 <= n <= Z.of_nat (length env) ->
  take (Z.to_nat n) env = (es ≫= entry_text sep) ++ 0 :: rest ->
  rest = [] \/ head rest = Some 0 ->
  Forall (fun e => name_ok sep (key e) /\ value_ok (data e)) es -> Forall (accepted flag) es ->
  NoDup (key <$> es) -> Z.of_nat (length es) <= import_capacity n ->
  exists h', himport_r env n sep flag [] h = Done (1, h') /\ models h' (map_of es).
Proof.
  intros Hsep Hclear Hn Htext Hrest Hok Hacc Hnd Hcap. unfold himport_r.
  rewrite (proj2 (Z.ltb_ge _ _)) by lia. rewrite Htext.
  assert (exists h0, (match table h with
      Some _ => if Z.land flag H_NOCLEAR =? 0 then hdestroy_r else ret tt | None => ret tt end) h
    = Done (tt, h0) /\ table h0 = None) as (h0 & H0 & Ht0).
  { destruct (table h) as [l|] eqn:Ht; [|by exists h]. destruct Hclear as [?|Hc]; [done|].
    rewrite Hc. by eexists. }
  set (nent := if CONFIG_ENV_MAX_ENTRIES <? CONFIG_ENV_MIN_ENTRIES + n / 8 then CONFIG_ENV_MAX_ENTRIES
               else CONFIG_ENV_MIN_ENTRIES + n / 8).
  assert (nent = import_capacity n) as Hnent.
  { unfold nent, import_capacity. destruct (Z.ltb_spec CONFIG_ENV_MAX_ENTRIES (CONFIG_ENV_MIN_ENTRIES + n / 8)); lia. }
  assert (64 <= nent <= 512).
  { rewrite Hnent. unfold import_capacity, CONFIG_ENV_MAX_ENTRIES, CONFIG_ENV_MIN_ENTRIES.
    pose proof (Z.div_pos n 8). lia. }
  destruct (hcreate_spec prime_fuel nent h0 Ht0) as (h1 & Hc & Hm1 & Hf1 & Hs1 & _); [lia| |].
  { unfold prime_fuel. lia. }
  assert (exists h2, import_loop (S (length ((es ≫= entry_text sep) ++ 0 :: rest))) sep flag
      ((es ≫= entry_text sep) ++ 0 :: rest) [] h1 = Done (Some [], h2) /\ models h2 (map_of es)) as (h2 & Hl & Hm2).
  { destruct (decide (es = [])) as [->|Hne].
    - by apply import_loop_blank.
    - destruct (import_loop_text sep flag es rest h1 ∅ (S (length ((es ≫= entry_text sep) ++ 0 :: rest))))
        as (h2 & Hl & Hm2); [done..|lia| |].
      + rewrite length_app. clear. induction es as [|e es IH]; [simpl; lia|].
        cbn [mbind list_bind]. rewrite length_app. unfold entry_text at 1. rewrite length_app.
        simpl in *. lia.
      + exists h2. split; [done|]. rewrite ideal_puts in Hm2; [|done..].
        by rewrite (right_id_L ∅ (∪)) in Hm2. }
  exists h2. split; [|done]. run (done). run (exact H0). run (done). rewrite Ht0. fold nent.
  run (exact Hc). eqb_tac. by run (exact Hl).
Qed.

Lemma map_of_entries es m :
  es ≡ₚ entries m -> (forall k e, m !! k = Some e -> key e = k) -> map_of es = renew <$> m.
Proof.
  intros Hp Hk. unfold map_of.
  assert ((fun e => (key e, renew e)) <$> entries m = prod_map id renew <$> map_to_list m) as E.
  { unfold entries. rewrite <-list_fmap_compose. apply list_fmap_ext. intros i [k e] Hi. simpl.
    apply list_elem_of_lookup_2, elem_of_map_to_list in Hi. by rewrite (Hk k e Hi). }
  rewrite (list_to_map_proper _ (prod_map id renew <$> map_to_list m)).
  - rewrite list_to_map_fmap. by rewrite list_to_map_to_list.
  - rewrite <-list_fmap_compose.
    assert (fst ∘ (fun e => (key e, renew e)) <$> es ≡ₚ (map_to_list m).*1) as ->; [|apply NoDup_fst_map_to_list].
    rewrite Hp. unfold entries. rewrite <-list_fmap_compose. 
    rewrite (list_fmap_ext _ fst); [done|]. intros i [k e] Hi. simpl. apply list_elem_of_lookup_2, elem_of_map_to_list in Hi. by apply Hk.
  - by rewrite Hp, E.
Qed.

(** The entries of a map survive: their names and values have text forms, and
    no check refuses them. *)
Definition exportable (sep flag : Z) m : Prop :=
  forall k e, m !! k = Some e ->
    name_ok sep k /\ value_ok (data e) /\ plain sep (data e) /\ accepted flag e.

(** C35: import inverts export.  A table that holds at most as many entries
    as a table for a text of that size, all with names and non-empty values
    the text form can carry, is written by [hexport_r] in the order of the
    names (when they are ASCII), and [himport_r] reads the buffer back into
    a table with the same names and values, whatever the table held before. *)
Theorem export_import_roundtrip sep flag bufsize h h2 m :
  models h m -> sep_ok sep -> exportable sep flag m ->
  let n := export_size sep bufsize m in
  text_len sep m + 1 <= n -> Z.of_nat (length (entries m)) <= import_capacity n ->
  table h2 = None \/ Z.land flag H_NOCLEAR = 0 ->
  exists es buf h3, es ≡ₚ entries m /\
    (Forall (fun e => ascii (key e)) es -> StronglySorted lex_le (key <$> es)) /\
    hexport_r sep 0 None bufsize [] h = Done ((n, Some buf), h) /\
    take (length (es ≫= entry_text sep)) buf = es ≫= entry_text sep /\
    himport_r buf n sep flag [] h2 = Done (1, h3) /\ models h3 (renew <$> m).
Proof.
  intros Hm Hsep Hex n Hn Hcap Hclear. pose proof Hm as (l & Hl & Hok & _ & Hr).
  assert (forall k e, m !! k = Some e -> key e = k) as Hkey by (intros k e Hk; by destruct (proj1 (Hr k e) Hk)).
  assert (forall P : ENTRY C -> Prop, (forall k e, m !! k = Some e -> P e) -> Forall P (entries m)) as Hall.
  { intros P HP. unfold entries. apply Forall_fmap, Forall_forall. intros [k e] He%elem_of_map_to_list.
    by apply (HP k). }
  destruct (hexport_spec sep None bufsize h m Hm) as (es & Hp & Hs & Hlt & Hrun); [|done|done|].
  { apply Hall. intros k e He. by destruct (Hex k e He) as (_ & _ & ? & _). }
  simpl in Hrun. rewrite drop_nil, app_nil_r in Hrun. set (text := es ≫= entry_text sep) in *. fold n in Hrun, Hlt.
  set (buf := text ++ 0 :: memset 0 (n - Z.of_nat (length text) - 1)) in *.
  assert (Z.of_nat (length buf) = n) as Hbuf.
  { unfold buf, memset. rewrite length_app. simpl. rewrite length_replicate. lia. }
  destruct (himport_spec buf n sep flag h2 es (memset 0 (n - Z.of_nat (length text) - 1))) as (h3 & Hi & Hm3).
  - done.
  - done.
  - lia.
  - by rewrite take_ge by lia.
  - unfold memset. destruct (Z.to_nat _); [by left|by right].
  - rewrite Hp. apply Hall. intros k e He. destruct (Hex k e He) as (? & ? & _). by rewrite (Hkey k e He).
  - rewrite Hp. apply Hall. intros k e He. by destruct (Hex k e He) as (_ & _ & _ & ?).
  - destruct (collect_models h m l Hm Hl) as [_ Hnd].
    by rewrite Hp, <-(collect_perm h m l Hm Hl).
  - by rewrite Hp.
  - exists es, buf, h3. split_and!; [done|done|done| |done|].
    + apply take_app_length.
    + by rewrite <-(map_of_entries es m).
Qed.
End roundtrip.

(** ** Concrete texts *)

Module TextWitnesses.
Import Witnesses.
#[local] Existing Instance no_hooks.

(** "a=" and "xy". *)
Definition one_put : list op := [put (letter 1) (letter 24 ++ letter 25)].
Definition one_entry : gmap cstr (ENTRY unit) := (ideal_ops one_put ∅).2.

Lemma one_entry_eq : one_entry = <[letter 1 := new_entry (letter 1) (letter 24 ++ letter 25)]> ∅.
Proof. reflexivity. Qed.

Lemma one_entry_lookup k e : one_entry !! k = Some e ->
  k = letter 1 /\ e = new_entry (letter 1) (letter 24 ++ letter 25).
Proof.
  rewrite one_entry_eq. intros [[<- <-]|[_ H]]%lookup_insert_Some; [done|]. by rewrite lookup_empty in H.
Qed.

Lemma one_entry_models : exists h, models h one_entry.
Proof.
  destruct fresh_table_models as [Hm Hf].
  destruct (run_ops_ideal fresh_table ∅ one_put Hm) as (h & _ & Hh); [|vm_compute; lia|by exists h].
  repeat constructor; intros; by eexists.
Qed.

Lemma export_import_roundtrip_witness :
  exists h es buf h3, models h one_entry /\ es ≡ₚ entries one_entry /\
    hexport_r 0 0 None 0 [] h = Done ((export_size 0 0 one_entry, Some buf), h) /\
    himport_r buf (export_size 0 0 one_entry) 0 0 [] empty_table = Done (1, h3) /\
    models h3 (renew <$> one_entry).
Proof.
  destruct one_entry_models as [h Hm]. exists h.
  destruct (export_import_roundtrip 0 0 0 h empty_table one_entry) as (es & buf & h3 & Hp & _ & He & _ & Hi & Hm3).
  - exact Hm.
  - split; lia.
  - intros k e [-> ->]%one_entry_lookup. split; [|split; [|split]].
    + split; [repeat constructor|repeat constructor; lia|]. eexists _, _. split; [done|]. split_and!; lia.
    + split; [repeat constructor|done].
    + intros _. repeat constructor; simpl; lia.
    + by split.
  - unfold export_size. simpl. lia.
  - vm_compute. intros H. discriminate H.
  - left. reflexivity.
  - by exists es, buf, h3.
Defined.

(** Exporting with NUL as separator writes past its buffer when the
    values hold backslashes: each of them is written with an escape that the
    computation of the length leaves out.  The buffer has the size the
    function computed itself. *)
Theorem hexport_r_overruns :
  exists (h : hsearch_data unit) m, models h m /\
    Forall (fun e => data e = [92; 92; 92]) (entries m) /\
    hexport_r 0 0 None 0 [] h = Undef.
Proof.
  destruct fresh_table_models as [Hm Hf].
  destruct (run_ops_ideal fresh_table ∅ [put (letter 1) [92; 92; 92]] Hm) as (h & Hrun & Hh).
  { repeat constructor; intros; by eexists. } { vm_compute. lia. }
  exists h, (ideal_ops [put (letter 1) [92; 92; 92]] ∅).2. split; [exact Hh|]. split.
  - vm_compute. by repeat constructor.
  - clear -Hrun. vm_compute in Hrun. injection Hrun as <-. vm_compute. reflexivity.
Qed.

(** [hmatch_r] never looks at the last slot of the table. *)
Lemma hmatch_r_misses_last_slot :
  exists rs h, run_ops (take 5 worn_run) fresh_table = Done (rs, h) /\
    (exists s, get_slot 5 h = Done (s, h) /\ 0 < used s /\ key (entry s) = letter 6) /\
    exists h', hmatch_r (letter 6) 0 h = Done ((0, None), h').
Proof.
  eexists _, _. split; [vm_compute; reflexivity|]. split.
  - eexists. split; [vm_compute; reflexivity|]. done.
  - eexists. vm_compute. reflexivity.
Qed.
End TextWitnesses.
