(* ===== verification/MtkEnv.v ===== *)
(** The environment reader for the first boot
    ([U/board/ecnt/en7523_evb/en7523_evb_mtk_env_parser.c]).

    It works on raw bytes of the environment in flash, before the hash table
    exists.  A pointer is the rest of its object; reading at the end of it is
    undefined ([None]). *)

From stdpp Require Import base numbers list option sorting.
From Stdlib Require Import ZArith Lia.
From S2P Require Import Prelude Qsort.

Definition ENV_READ_LEN : Z := 0xA00.

Definition isDigit (c : Z) : bool := (48 <=? c) && (c <=? 57).

(** ** atoi *)

(** A signed [int] that overflows is undefined. *)
Definition int_ok (z : Z) : bool := (- 2 ^ 31 <=? z) && (z <? 2 ^ 31).

Fixpoint atoi_spaces (str : list Z) : option (list Z) :=
  match str with
  | [] => None
  | c :: str' => if c =? 32 then atoi_spaces str' else Some str
  end.

(** [while(isDigit(str[i])) res = res * 10 + (str[i++] - '0')]. *)
Fixpoint atoi_digits (str : list Z) (res : Z) : option Z :=
  match str with
  | [] => None
  | c :: str' =>
      if isDigit c then
        if int_ok (res * 10) && int_ok (res * 10 + (c - 48))
        then atoi_digits str' (res * 10 + (c - 48)) else None
      else Some res
  end.

Definition atoi (str : list Z) : option Z :=
  match atoi_spaces str with
  | None | Some [] => None
  | Some (c :: str') =>
      let sign := if c =? 45 then -1 else 1 in
      let str := if (c =? 45) || (c =? 43) then str' else c :: str' in
      match atoi_digits str 0 with
      | Some res => Some (res * sign)
      | None => None
      end
  end.

(** ** mtk_transfer_config *)

(** The loop that looks for the last character, down to index 0. *)
Fixpoint last_char (n : nat) (str : list Z) : option Z :=
  match n with
  | O => Some 0
  | S n' =>
      match znth str (Z.of_nat n) with
      | None => None
      | Some c => if c =? 0 then last_char n' str else Some (Z.of_nat n)
      end
  end.

(** [if (str[i] == NUL) str[i] = ';'] for [i = 0 .. end]. *)
Definition semicolons (endp : Z) (str : list Z) : list Z :=
  ((fun c => if c =? 0 then 59 else c) <$> take (Z.to_nat (endp + 1)) str)
    ++ drop (Z.to_nat (endp + 1)) str.

Definition mtk_transfer_config (str : list Z) (size : Z) : option (list Z) :=
  if Z.of_nat (length str) <? size then None else
  match (if 0 <? size - 1 then last_char (Z.to_nat (size - 1)) str else Some (size - 1)) with
  | None => None
  | Some endp => zset (semicolons endp str) endp 0
  end.

(** ** env_get_from_linear *)

(** [for (end = p; *end != ';'; ++end)]: what is in front of the semicolon and
    what is behind it. *)
Fixpoint find_semicolon (p : list Z) : option (list Z * list Z) :=
  match p with
  | [] => None
  | c :: p' =>
      if c =? 59 then Some ([], p')
      else match find_semicolon p' with
           | Some (seg, rest) => Some (c :: seg, rest)
           | None => None
           end
  end.

(** [strncmp(name, p, strlen(name))] is 0, and then [p] from [name_len] on. *)
Fixpoint name_at (name p : list Z) : option (option (list Z)) :=
  match name with
  | [] => Some (Some p)
  | n :: name' =>
      match p with
      | [] => None
      | c :: p' => if s8 (n - c) =? 0 then name_at name' p' else Some None
      end
  end.

(** One round of the loop after the search for the end: [Some (Some value)]
    when the entry is the variable. *)
Definition linear_entry (name seg p : list Z) : option (option (list Z)) :=
  match name_at name p with
  | None => None
  | Some None => Some None
  | Some (Some []) => None
  | Some (Some (c :: value)) =>
      if c =? 61 then
        if (length name + 1 <=? length seg)%nat
        then Some (Some (take (length seg - (length name + 1)) value))
        else None     (* end - value wraps: memcpy of nearly 4 GB *)
      else Some None
  end.

(** The length of the value and [buf] after the call; 0: not found. *)
Fixpoint linear_loop (fuel : nat) (p name buf : list Z) : outcome (Z * list Z) :=
  match fuel with
  | O => OutOfFuel
  | S fuel =>
      match p with
      | [] => Undef
      | c :: _ =>
          if c =? 0 then Done (0, buf) else
          match find_semicolon p with
          | None => Undef
          | Some (seg, rest) =>
              match linear_entry name seg p with
              | None => Undef
              | Some None => linear_loop fuel rest name buf
              | Some (Some value) =>
                  if Z.of_nat (length value) + 1 <=? Z.of_nat (length buf)
                  then Done (Z.of_nat (length value), splice buf 0 (value ++ [0]))
                  else Undef
              end
          end
      end
  end.

Definition env_get_from_linear (env name buf : list Z) : outcome (Z * list Z) :=
  match name with
  | [] => Done (0, buf)
  | _ => linear_loop (S (length env)) env name buf
  end.

(** ** mtk_parse_config_to_bool *)

(** The digits in front of the NUL; [Some None] when another character comes
    first. *)
Fixpoint digits_of (str : list Z) : option (option (list Z)) :=
  match str with
  | [] => None
  | c :: str' =>
      if c =? 0 then Some (Some [])
      else if isDigit c then
        match digits_of str' with
        | Some (Some ds) => Some (Some (c :: ds))
        | r => r
        end
      else Some None
  end.

(** [config] is the array of 10 characters as it is on the stack: the copy of
    the digits is not terminated, and [atoi] reads on.  With an empty string
    the function ends without a value. *)
Definition mtk_parse_config_to_bool (config str : list Z) : option Z :=
  match str with
  | [] => None
  | c :: _ =>
      if c =? 0 then None else
      match digits_of str with
      | None => None
      | Some None => Some 0
      | Some (Some ds) =>
          if Z.of_nat (length ds) <=? Z.of_nat (length config)
          then atoi (splice config 0 ds) else None
      end
  end.

(** ** What the parser does with an environment text *)

Section text.
Implicit Types (r name v : list Z).

(** A record of the text, and a string of characters, without the two
    separators. *)
Definition record_ok r : Prop := Forall (fun c => 0 < c < 256 /\ c <> 59) r.

Definition text (sep : Z) (rs : list (list Z)) : list Z := rs ≫= (fun r => r ++ [sep]).

Lemma last_char_text pre x k m :
  x <> 0 -> (k <= m)%nat ->
  last_char (length pre + k) (pre ++ x :: replicate m 0) = Some (Z.of_nat (length pre)).
Proof.
  intros Hx. induction k as [|k IH]; intros Hk.
  - rewrite Nat.add_0_r. destruct (length pre) as [|n] eqn:E; [done|]. cbn [last_char].
    rewrite znth_lookup, Nat2Z.id, list_lookup_middle by (done || lia).
    by rewrite (proj2 (Z.eqb_neq _ _)).
  - rewrite Nat.add_succ_r. cbn [last_char]. rewrite znth_lookup, Nat2Z.id, lookup_app_r by lia.
    replace (S (length pre + k) - length pre)%nat with (S k) by lia.
    change ((x :: replicate m 0) !! S k) with (replicate m 0 !! k).
    rewrite lookup_replicate_2 by lia. apply IH. lia.
Qed.

Lemma semicolons_text pre x rest : x <> 0 ->
  semicolons (Z.of_nat (length pre)) (pre ++ x :: rest)
    = ((fun c => if c =? 0 then 59 else c) <$> pre) ++ x :: rest.
Proof.
  intros Hx. unfold semicolons. replace (Z.to_nat (Z.of_nat (length pre) + 1)) with (length pre + 1)%nat by lia.
  rewrite firstn_app_2, fmap_app, <-app_assoc. rewrite drop_app_add'; [|done]. simpl.
  by rewrite (proj2 (Z.eqb_neq _ _)).
Qed.

Lemma text_semicolons rs : Forall record_ok rs ->
  (fun c => if c =? 0 then 59 else c) <$> text 0 rs = text 59 rs.
Proof.
  induction 1 as [|r rs Hr _ IH]; [done|]. unfold text in *. cbn [mbind list_bind].
  rewrite !fmap_app, IH. f_equal. f_equal. rewrite <-(list_fmap_id r) at 2.
  apply list_fmap_ext. intros i c Hc. pose proof (Forall_lookup_1 _ _ _ _ Hr Hc) as Hb; simpl in Hb.
  by rewrite (proj2 (Z.eqb_neq _ _)) by lia.
Qed.

(** The NULs become semicolons, but the last character of the last record is
    overwritten: what ends the text is not its own NUL. *)
Lemma transfer_text rs l x m :
  Forall record_ok rs -> record_ok (l ++ [x]) ->
  mtk_transfer_config (text 0 rs ++ (l ++ [x]) ++ replicate m 0)
      (Z.of_nat (length (text 0 rs ++ (l ++ [x]) ++ replicate m 0)))
    = Some (text 59 rs ++ l ++ 0 :: replicate m 0).
Proof.
  intros Hrs Hl. unfold record_ok in Hl. rewrite Forall_app, Forall_singleton in Hl.
  destruct Hl as [Hl [Hx _]]. assert (x <> 0) by lia.
  unfold mtk_transfer_config. rewrite Z.ltb_irrefl.
  set (pre := text 0 rs ++ l).
  assert (text 0 rs ++ (l ++ [x]) ++ replicate m 0 = pre ++ x :: replicate m 0) as ->
    by (unfold pre; by rewrite <-!app_assoc).
  rewrite length_app. cbn [length]. rewrite length_replicate.
  assert ((if 0 <? Z.of_nat (length pre + S m) - 1
     then last_char (Z.to_nat (Z.of_nat (length pre + S m) - 1)) (pre ++ x :: replicate m 0)
     else Some (Z.of_nat (length pre + S m) - 1)) = Some (Z.of_nat (length pre))) as ->.
  { destruct (Z.ltb_spec 0 (Z.of_nat (length pre + S m) - 1)); [|f_equal; lia].
    replace (Z.to_nat (Z.of_nat (length pre + S m) - 1)) with (length pre + m)%nat by lia.
    by apply last_char_text. }
  rewrite semicolons_text by done. unfold pre. rewrite fmap_app, text_semicolons by done.
  assert ((fun c => if c =? 0 then 59 else c) <$> l = l) as ->.
  { rewrite <-(list_fmap_id l) at 2. apply list_fmap_ext. intros i c Hc.
    pose proof (Forall_lookup_1 _ _ _ _ Hl Hc) as Hb; simpl in Hb.
    by rewrite (proj2 (Z.eqb_neq _ _)) by lia. }
  assert (length (text 0 rs) = length (text 59 rs)) as Hlen.
  { rewrite <-text_semicolons by done. by rewrite length_fmap. }
  rewrite <-app_assoc, zset_Some by (rewrite !length_app; cbn [length]; rewrite ?length_app; cbn [length]; lia).
  rewrite length_app, Hlen, Nat2Z.id. f_equal.
  rewrite insert_app_r_alt by lia. f_equal. rewrite insert_app_r_alt by lia.
  by replace (length (text 59 rs) + length l - length (text 59 rs) - length l)%nat with O by lia.
Qed.

(** ** Lookup *)

Lemma find_semicolon_record r rest : record_ok r -> find_semicolon (r ++ 59 :: rest) = Some (r, rest).
Proof.
  induction 1 as [|c r Hc _ IH]; [done|]. simpl. rewrite (proj2 (Z.eqb_neq _ _)) by lia. by rewrite IH.
Qed.

Lemma find_semicolon_none p : Forall (fun c => c <> 59) p -> find_semicolon p = None.
Proof.
  induction 1 as [|c p Hc _ IH]; [done|]. simpl. rewrite (proj2 (Z.eqb_neq _ _)) by done. by rewrite IH.
Qed.

Lemma name_at_prefix name p : name_at name (name ++ p) = Some (Some p).
Proof. induction name as [|c name IH]; [done|]. simpl. by rewrite Z.sub_diag. Qed.

Lemma name_at_record name r rest : record_ok name -> record_ok r ->
  name_at name (r ++ 59 :: rest) = Some None \/
  exists p, r = name ++ p /\ name_at name (r ++ 59 :: rest) = Some (Some (p ++ 59 :: rest)).
Proof.
  intros Hn. revert r. induction Hn as [|n name Hn Hname IH]; intros r Hr.
  - right. by exists r.
  - destruct Hr as [|c r Hc Hr]; simpl.
    + left. destruct (Z.eqb_spec (s8 (n - 59)) 0) as [E|]; [|done]. apply s8_eq in E; lia.
    + destruct (Z.eqb_spec (s8 (n - c)) 0) as [E|]; [|by left]. apply s8_eq in E as ->; [|lia..].
      destruct (IH r Hr) as [->|(p & -> & ->)]; [by left|]. right. by exists p.
Qed.

Lemma linear_entry_hit name v rest : record_ok v ->
  linear_entry name (name ++ 61 :: v) ((name ++ 61 :: v) ++ 59 :: rest) = Some (Some v).
Proof.
  intros Hv. unfold linear_entry. rewrite <-app_assoc, name_at_prefix. cbn [app]. simpl.
  rewrite length_app. cbn [length]. rewrite (proj2 (Nat.leb_le _ _)) by lia.
  replace (length name + S (length v) - (length name + 1))%nat with (length v) by lia.
  by rewrite take_app_length.
Qed.

Lemma linear_entry_miss name r rest : record_ok name -> record_ok r -> (forall v, r <> name ++ 61 :: v) ->
  linear_entry name r (r ++ 59 :: rest) = Some None.
Proof.
  intros Hn Hr Hno. unfold linear_entry. destruct (name_at_record name r rest Hn Hr) as [->|(p & -> & ->)]; [done|].
  destruct p as [|c p]; [done|]. simpl. destruct (Z.eqb_spec c 61) as [->|]; [|done]. by destruct (Hno p).
Qed.

(** Records that are not the variable are passed over. *)
Lemma linear_loop_skip rs fuel rest name buf :
  record_ok name -> Forall (fun r => record_ok r /\ r <> [] /\ forall v, r <> name ++ 61 :: v) rs ->
  (length rs <= fuel)%nat ->
  linear_loop fuel (text 59 rs ++ rest) name buf = linear_loop (fuel - length rs) rest name buf.
Proof.
  intros Hn Hrs. revert fuel. induction Hrs as [|r rs (Hr & Hne & Hno) _ IH]; intros fuel Hf.
  - by rewrite Nat.sub_0_r.
  - destruct fuel as [|fuel]; [simpl in Hf; lia|]. unfold text in *. cbn [mbind list_bind].
    rewrite <-!app_assoc. cbn [app linear_loop]. destruct r as [|c r']; [done|]. cbn [app].
    assert (c <> 0) by (inversion_clear Hr; lia).
    rewrite (proj2 (Z.eqb_neq _ _)) by done.
    change (c :: r' ++ 59 :: ?x) with ((c :: r') ++ 59 :: x).
    rewrite find_semicolon_record, linear_entry_miss by done.
    rewrite IH by (simpl in Hf; lia). done.
Qed.

Lemma text_length_ge sep rs : (length rs <= length (text sep rs))%nat.
Proof. unfold text. induction rs as [|r rs IH]; [done|]. cbn [mbind list_bind]. rewrite !length_app. simpl. lia. Qed.
End text.

(** ** Theorems *)

(** A variable that is not the last of the text is found.  On a text of
    records, each ended by NUL, [mtk_transfer_config] and
    [env_get_from_linear] answer the value of the first record with the name,
    whatever follows in the array. *)
Theorem env_get_from_linear_finds rs1 rs2 name v l x m junk buf :
  record_ok name -> name <> [] -> record_ok v -> Forall record_ok rs2 -> record_ok (l ++ [x]) ->
  Forall (fun r => record_ok r /\ r <> [] /\ forall v, r <> name ++ 61 :: v) rs1 ->
  Z.of_nat (length v) < Z.of_nat (length buf) ->
  let str := text 0 (rs1 ++ (name ++ 61 :: v) :: rs2) ++ (l ++ [x]) ++ replicate m 0 in
  exists str', mtk_transfer_config str (Z.of_nat (length str)) = Some str' /\
    env_get_from_linear (str' ++ junk) name buf = Done (Z.of_nat (length v), splice buf 0 (v ++ [0])).
Proof.
  intros Hn Hne Hv Hrs2 Hl Hrs1 Hbuf str.
  assert (record_ok (name ++ 61 :: v)) as Hr by (apply Forall_app_2; [done|]; constructor; [lia|done]).
  eexists. split.
  { apply transfer_text; [|done]. apply Forall_app_2; [|by constructor].
    eapply Forall_impl; [exact Hrs1|]. by intros r (? & _). }
  unfold env_get_from_linear. destruct name as [|n name]; [done|].
  rewrite <-!app_assoc. cbn [app]. unfold text at 1 2. rewrite bind_app. cbn [mbind list_bind].
  fold (text 59 rs1) (text 59 rs2). rewrite <-!app_assoc. cbn [app].
  rewrite linear_loop_skip; [|done|done|].
  2: { rewrite length_app. pose proof (text_length_ge 59 rs1). lia. }
  destruct (S _ - length rs1)%nat as [|fuel] eqn:Ef.
  { rewrite length_app in Ef. pose proof (text_length_ge 59 rs1). lia. }
  cbn [linear_loop]. assert (n <> 0) by (inversion_clear Hn; lia). rewrite (proj2 (Z.eqb_neq n 0)) by done.
  change (n :: (name ++ 61 :: v) ++ ?t) with (((n :: name) ++ 61 :: v) ++ t).
  rewrite find_semicolon_record by done.
  rewrite linear_entry_hit by done. by rewrite (proj2 (Z.leb_le _ _)) by lia.
Qed.

(** When the variable is not among the records in front of the last, the
    search runs out of the array: the last record has lost its last character
    and the NUL that is put there is not what the search for its end stops
    at.  This includes the case that the last record is the variable. *)
Theorem env_get_from_linear_overruns rs name l x m junk buf :
  record_ok name -> name <> [] -> l <> [] -> record_ok (l ++ [x]) ->
  Forall (fun r => record_ok r /\ r <> [] /\ forall v, r <> name ++ 61 :: v) rs ->
  Forall (fun c => c <> 59) junk ->
  let str := text 0 rs ++ (l ++ [x]) ++ replicate m 0 in
  exists str', mtk_transfer_config str (Z.of_nat (length str)) = Some str' /\
    env_get_from_linear (str' ++ junk) name buf = Undef.
Proof.
  intros Hn Hne Hlne Hl Hrs Hjunk str. eexists. split.
  { apply transfer_text; [|done]. eapply Forall_impl; [exact Hrs|]. by intros r (? & _). }
  unfold env_get_from_linear. destruct name as [|n name]; [done|]. rewrite <-!app_assoc.
  pose proof (text_length_ge 59 rs). rewrite linear_loop_skip; [|done|done|rewrite length_app; lia].
  destruct (S _ - length rs)%nat as [|fuel] eqn:Ef; [rewrite length_app in Ef; lia|].
  cbn [linear_loop]. destruct l as [|c l]; [done|]. cbn [app].
  assert (c <> 0) by (inversion_clear Hl; lia). rewrite (proj2 (Z.eqb_neq c 0)) by done.
  rewrite find_semicolon_none; [done|]. unfold record_ok in Hl.
  change (c :: l ++ ?t) with ((c :: l) ++ t). apply Forall_app_2.
  - change (c :: l ++ [x]) with ((c :: l) ++ [x]) in Hl. rewrite Forall_app in Hl. destruct Hl as [Hl _].
    eapply Forall_impl; [exact Hl|]. simpl. lia.
  - constructor; [done|]. apply Forall_app_2; [|done]. by apply Forall_replicate.
Qed.

(** [mtk_parse_config_to_bool] reads its array behind the digits it has
    copied.  The string "0", which means that the environment has been moved,
    gives 0 when a NUL happens to be on the stack there, and 5 when the
    character '5' is. *)
Theorem mtk_parse_reads_stack :
  mtk_parse_config_to_bool (replicate 10 0) [48; 0] = Some 0 /\
  mtk_parse_config_to_bool [0; 53; 0; 0; 0; 0; 0; 0; 0; 0] [48; 0] = Some 5.
Proof. by vm_compute. Qed.

Module MtkWitnesses.

(** The name "N"; the text "a=1", "N=1", "b=22". *)
Definition name_N : list Z := [78].
Definition rec_a : list Z := [97; 61; 49].
Definition last_b : list Z := [98; 61; 50].

Lemma rec_ok_dec r : forallb (fun c => (0 <? c) && (c <? 256) && negb (c =? 59)) r = true -> record_ok r.
Proof.
  rewrite forallb_forall. intros H. apply Forall_forall. intros c Hc. apply list_elem_of_In, H in Hc. lia.
Qed.

Lemma env_get_from_linear_finds_witness :
  let str := text 0 ([rec_a] ++ (name_N ++ 61 :: [49]) :: []) ++ (last_b ++ [50]) ++ replicate 3 0 in
  exists str', mtk_transfer_config str (Z.of_nat (length str)) = Some str' /\
    env_get_from_linear (str' ++ [7]) name_N (replicate 4 0)
      = Done (Z.of_nat (length [49]), splice (replicate 4 0) 0 ([49] ++ [0])).
Proof.
  apply (env_get_from_linear_finds [rec_a] [] name_N [49] last_b 50 3 [7] (replicate 4 0)).
  - by apply rec_ok_dec.
  - done.
  - by apply rec_ok_dec.
  - constructor.
  - by apply rec_ok_dec.
  - constructor; [|constructor]. split; [by apply rec_ok_dec|done].
  - vm_compute. reflexivity.
Defined.

(** The variable is the last record. *)
Lemma env_get_from_linear_overruns_witness :
  let str := text 0 [rec_a] ++ ([78; 61] ++ [49]) ++ replicate 3 0 in
  exists str', mtk_transfer_config str (Z.of_nat (length str)) = Some str' /\
    env_get_from_linear (str' ++ [7]) name_N (replicate 4 0) = Undef.
Proof.
  apply (env_get_from_linear_overruns [rec_a] name_N [78; 61] 49 3 [7] (replicate 4 0)).
  - by apply rec_ok_dec.
  - done.
  - done.
  - by apply rec_ok_dec.
  - constructor; [|constructor]. split; [by apply rec_ok_dec|done].
  - repeat constructor; lia.
Defined.
End MtkWitnesses.
