(* ===== verification/EnvFlash.v ===== *)
(** The environment and its place in flash ([U/common/ecnt/env_flash.c],
    [U/common/env_common.c], [U/common/cmd_nvedit.c]).

    The environment is a hash table ([Htab]).  It is kept in flash as a block
    of [CONFIG_ENV_SIZE] bytes: a CRC-32 and the exported text, filled with
    NULs.  On the first boot the block is moved from
    [CONFIG_ENV_AIROHA_OFFSET] to the partition [u-boot-env].  The compiled-in
    default environment is a parameter; so are the contents of the
    uninitialised automatic arrays ([StackJunk]) and the effect of the store
    through the uninitialised pointer that [mtk_check_first_boot] passes to
    [flash_read].  [malloc] succeeds. *)

From stdpp Require Import base numbers list option strings gmap.
From Stdlib Require Import ZArith Lia.
From S2P Require Import Prelude Crc Qsort Htab HtabText FlashHal Mtd MtkEnv.

Definition ENV_HEADER_SIZE : Z := 4.
Definition ENV_SIZE : Z := CONFIG_ENV_SIZE - ENV_HEADER_SIZE.
Definition CONFIG_ENV_AIROHA_OFFSET : Z := 0x7C000.
Definition ENV_MOVE_DISABLE : cstr := [48].
Definition CMD_RET_USAGE : Z := -1.

(** The characters of a literal. *)
Definition chars (s : string) : cstr :=
  (fun a => Z.of_N (Ascii.N_of_ascii a)) <$> String.list_ascii_of_string s.

(** The bytes an automatic array holds before it is written. *)
Class StackJunk := {
  first_boot_buf : list Z;
  first_boot_config : list Z;
  parse_config : list Z
}.

(** [env_htab], the drivers below, [gd->env_valid], the two flags of
    [gd->flags] and [env_id]. *)
Record env_st {C F : Type} := EnvSt {
  env_htab : hsearch_data C;
  env_hal : hal F;
  env_mtd : mtd;
  env_valid : Z;
  GD_FLG_ENV_READY : bool;
  GD_FLG_RELOC : bool;
  env_id : Z
}.
Arguments env_st : clear implicits.

Section state.
Context {C F : Type}.
Implicit Type s : env_st C F.

Definition set_env_htab v s : env_st C F :=
  EnvSt C F v (env_hal s) (env_mtd s) (env_valid s) (GD_FLG_ENV_READY s) (GD_FLG_RELOC s) (env_id s).
Definition set_env_hal v s : env_st C F :=
  EnvSt C F (env_htab s) v (env_mtd s) (env_valid s) (GD_FLG_ENV_READY s) (GD_FLG_RELOC s) (env_id s).
Definition set_env_mtd v s : env_st C F :=
  EnvSt C F (env_htab s) (env_hal s) v (env_valid s) (GD_FLG_ENV_READY s) (GD_FLG_RELOC s) (env_id s).
Definition set_env_valid v s : env_st C F :=
  EnvSt C F (env_htab s) (env_hal s) (env_mtd s) v (GD_FLG_ENV_READY s) (GD_FLG_RELOC s) (env_id s).
Definition set_env_ready v s : env_st C F :=
  EnvSt C F (env_htab s) (env_hal s) (env_mtd s) (env_valid s) v (GD_FLG_RELOC s) (env_id s).
Definition set_env_id v s : env_st C F :=
  EnvSt C F (env_htab s) (env_hal s) (env_mtd s) (env_valid s) (GD_FLG_ENV_READY s) (GD_FLG_RELOC s) v.

Definition on_htab {A} (m : M (hsearch_data C) A) : M (env_st C F) A := lift env_htab set_env_htab m.
Definition on_hal {A} (m : M (hal F) A) : M (env_st C F) A := lift env_hal set_env_hal m.
Definition on_mtd {A} (m : M mtd A) : M (env_st C F) A := lift env_mtd set_env_mtd m.
End state.

Section env.
Context {C F : Type} {HC : EnvHooks C} {HF : FlashDrv F} {HJ : StackJunk}.
Context (default_environment : list Z) (wild_store : M (env_st C F) unit).
Abbreviation st := (env_st C F).

Definition CONFIG_ENV_MTK_OFFSET : M st Z := on_mtd ecnt_get_ubootenv_mtd_offset.

(** ** The default environment and the import *)

(** The flags that go with the message [s]. *)
Definition default_flags (s : option cstr) : Z :=
  match s with
  | Some s => if bool_decide (head s = Some 33) then 0 else H_INTERACTIVE
  | None => 0
  end.

Definition set_default_env (s : option cstr) : M st unit :=
  if ENV_SIZE <? Z.of_nat (length default_environment) then ret tt else
  do! on_htab (himport_r default_environment (Z.of_nat (length default_environment)) 0
                 (default_flags s) []) in
  modify (set_env_ready true).

Definition set_default_vars (vars : list cstr) : M st Z :=
  on_htab (himport_r default_environment (Z.of_nat (length default_environment)) 0
             (Z.lor H_NOCLEAR H_INTERACTIVE) vars).

(** [buf] points to an [env_t]; its data starts at an address divisible by
    four. *)
Definition env_import (buf : list Z) (check : bool) : M st Z :=
  let! crc := checked (mem_slice buf 0 ENV_HEADER_SIZE) in
  let! data := checked (mem_slice buf ENV_HEADER_SIZE ENV_SIZE) in
  if check && negb (crc32 4 0 data =? le_val crc)
  then do! set_default_env (Some (chars "!bad CRC")) in ret 0
  else
    let! ok := on_htab (himport_r data ENV_SIZE 0 0 []) in
    if negb (ok =? 0) then do! modify (set_env_ready true) in ret 1
    else do! set_default_env (Some (chars "!import failed")) in ret 0.

(** ** Access to a variable *)

(** [gd->env_addr] is [default_environment] ([env_init]), which the other
    branches of [env_get_char] read too. *)
Definition env_get_char (index : Z) : M st Z := checked (znth default_environment index).

Definition env_get_env_size : M st Z :=
  let! reloc := gets GD_FLG_RELOC in
  let! valid := gets env_valid in
  ret (if negb reloc && (valid =? 0) then Z.of_nat (length default_environment) else CONFIG_ENV_SIZE).

(** The index of the value, or -1; the characters of [s1] read as 0 at the
    end. *)
Fixpoint envmatch (s1 : cstr) (i2 : Z) : M st Z :=
  let! c := env_get_char i2 in
  match s1 with
  | [] => if c =? 0 then undef          (* the end of both: the C code reads on *)
          else ret (if c =? 61 then i2 + 1 else -1)
  | x :: s1' =>
      if x =? c then if x =? 61 then ret (i2 + 1) else envmatch s1' (i2 + 1)
      else ret (-1)
  end.

(** The end of the entry at [i]; -1 when it lies behind the environment. *)
Fixpoint entry_end (fuel : nat) (nxt : Z) : M st Z :=
  match fuel with
  | O => out_of_fuel
  | S fuel =>
      let! c := env_get_char nxt in
      if c =? 0 then ret nxt else
      let! n := env_get_env_size in
      if n <=? nxt then ret (-1) else entry_end fuel (nxt + 1)
  end.

(** Copies the value: the characters stored in [buf] and whether the NUL was
    among them. *)
Fixpoint copy_value (len : nat) (val : Z) : M st (cstr * bool) :=
  match len with
  | O => ret ([], false)
  | S len =>
      let! c := env_get_char val in
      if c =? 0 then ret ([], true)
      else let! r := copy_value len (val + 1) in ret (c :: r.1, r.2)
  end.

(** The value's length as returned, and the string left in [buf]. *)
Fixpoint getenv_f (fuel : nat) (name : cstr) (len i : Z) : M st (Z * cstr) :=
  match fuel with
  | O => out_of_fuel
  | S fuel' =>
      let! c := env_get_char i in
      if c =? 0 then ret (-1, []) else
      let! nxt := entry_end (S (length default_environment)) i in
      if nxt =? -1 then ret (-1, []) else
      let! val := envmatch name i in
      if val <? 0 then getenv_f fuel' name len (nxt + 1)
      else
        let! r := copy_value (Z.to_nat len) val in
        if r.2 : bool then ret (Z.of_nat (length r.1), r.1)
        else ret (Z.of_nat (length r.1), take (length r.1 - 1) r.1)
  end.

(** [sizeof(gd->env_buf)]. *)
Definition sizeof_env_buf : Z := 32.

Definition getenv (name : cstr) : M st (option cstr) :=
  let! ready := gets GD_FLG_ENV_READY in
  if ready : bool then
    let! r := on_htab (hsearch_r (Item name None) FIND 0) in
    match r.2 with
    | Some i => let! s := on_htab (get_slot i) in ret (Some (data (entry s)))
    | None => ret None
    end
  else
    let! r := getenv_f (S (length default_environment)) name sizeof_env_buf 0 in
    ret (if 0 <? r.1 then Some r.2 else None).

(** The options in front of the name: the rest of [argv] and the flags, or
    [None] for an unknown option. *)
Fixpoint set_options (argv : list cstr) (env_flag : Z) : option (list cstr * Z) :=
  match argv with
  | (45 :: arg) :: argv' =>
      if forallb (fun c => c =? 102) arg
      then set_options argv' (match arg with [] => env_flag | _ => Z.lor env_flag H_FORCE end)
      else None
  | _ => Some (argv, env_flag)
  end.

(** The arguments joined with spaces. *)
Fixpoint join_args (argv : list cstr) : cstr :=
  match argv with
  | [] => []
  | [v] => v
  | v :: argv => v ++ 32 :: join_args argv
  end.

(** [argv] is the vector without the command name; [beyond] is the pointer
    behind the counted arguments, which is the name when all arguments are
    options. *)
Definition _do_env_set (argv : list cstr) (beyond : option cstr) : M st Z :=
  match set_options argv H_INTERACTIVE with
  | None => ret CMD_RET_USAGE
  | Some (argv, env_flag) =>
      match (match argv with name :: _ => Some name | [] => beyond end) with
      | None => undef
      | Some name =>
          if existsb (fun c => c =? 61) name then ret 1 else
          do! modify (fun s => set_env_id (s32 (env_id s + 1)) s) in
          match tail argv with
          | [] =>
              let! rc := on_htab (hdelete_r name env_flag) in
              ret (if rc =? 0 then 1 else 0)
          | values =>
              let! r := on_htab (hsearch_r (Item name (Some (join_args values))) ENTER env_flag) in
              ret (match r.2 with None => 1 | Some _ => 0 end)
          end
      end
  end.

Definition setenv (varname : cstr) (varvalue : option cstr) : M st Z :=
  let! ready := gets GD_FLG_ENV_READY in
  if negb ready then ret 1 else
  match varvalue with
  | None | Some [] => _do_env_set [varname] varvalue
  | Some v => _do_env_set [varname; v] None
  end.

(** The names of [env delete], after its options. *)
Fixpoint env_delete_names (names : list cstr) (env_flag r : Z) : M st Z :=
  match names with
  | [] => ret r
  | name :: names =>
      let! rc := on_htab (hdelete_r name env_flag) in
      env_delete_names names env_flag (if rc =? 0 then 1 else r)
  end.

Definition do_env_delete (argv : list cstr) : M st Z :=
  match set_options argv H_INTERACTIVE with
  | None => ret CMD_RET_USAGE
  | Some (names, env_flag) =>
      do! modify (fun s => set_env_id (s32 (env_id s + 1)) s) in
      env_delete_names names env_flag 0
  end.

(** ** The environment in flash *)

(** The export into [env_new]: what the array held before is cleared. *)
Definition export_env : M st (option (list Z)) :=
  let! r := on_htab (hexport_r 0 0 (Some (memset 0 ENV_SIZE)) ENV_SIZE []) in
  match r with
  | (len, Some data) => ret (if len <? 0 then None else Some data)
  | (_, None) => ret None
  end.

Definition env_image (data : list Z) : list Z :=
  le_bytes 4 (crc32 4 0 data) ++ data.

Definition saveenv : M st Z :=
  let! d := export_env in
  match d with
  | None => ret 1
  | Some data =>
      let! off := CONFIG_ENV_MTK_OFFSET in
      let! rc := on_hal (flash_erase off CONFIG_ENV_SIZE) in
      if negb (rc =? 0) then ret 1 else
      let! off := CONFIG_ENV_MTK_OFFSET in
      let! rc := on_hal (flash_write off (env_image data)) in
      if negb (rc =? 0) then ret 1 else
      do! CONFIG_ENV_MTK_OFFSET in
      ret 0
  end.

Definition mtk_save_miconf : M st Z :=
  let! d := export_env in
  match d with
  | None => ret 1
  | Some data =>
      let! rc := on_hal (flash_erase_non_block CONFIG_ENV_AIROHA_OFFSET CONFIG_ENV_SIZE) in
      if negb (rc =? 0) then ret 1 else
      let! rc := on_hal (flash_write CONFIG_ENV_AIROHA_OFFSET (env_image data)) in
      if negb (rc =? 0) then ret 1 else
      ret 0
  end.

(** The loop over the old place of the environment: [Some config] when the
    variable was found. *)
Fixpoint first_boot_loop (fuel : nat) (sig : cstr) (addr read_len : Z) (buf config : list Z)
  : M st (option (list Z)) :=
  match fuel with
  | O => out_of_fuel
  | S fuel =>
      let! off := CONFIG_ENV_MTK_OFFSET in
      if off <=? addr then ret None else
      let! off := CONFIG_ENV_MTK_OFFSET in
      let! read_len := (if off <? u32 (addr + read_len)
                        then let! off := CONFIG_ENV_MTK_OFFSET in ret (u32 (off - addr))
                        else ret read_len) in
      let! r := on_hal (flash_read addr read_len) in
      do! wild_store in
      let! buf := checked (memcpy_at buf 0 r.2) in
      if negb (r.1 =? 0) then undef else       (* goto out: free() of an array *)
      let! buf := checked (mtk_transfer_config buf read_len) in
      match env_get_from_linear buf sig config with
      | Undef => undef
      | OutOfFuel => out_of_fuel
      | Done (res, config) =>
          if negb (res =? 0) then ret (Some config)
          else first_boot_loop fuel sig (u32 (addr + ENV_READ_LEN)) read_len buf config
      end
  end.

Definition mtk_check_first_boot (fuel : nat) (sig : cstr) : M st Z :=
  let! r := first_boot_loop fuel sig (CONFIG_ENV_AIROHA_OFFSET + 4) (ENV_READ_LEN - 1)
              first_boot_buf first_boot_config in
  match r with
  | Some config => checked (mtk_parse_config_to_bool parse_config config)
  | None => ret 0
  end.

Definition mtk_move_miconf : M st unit :=
  let! r := on_hal (flash_read CONFIG_ENV_AIROHA_OFFSET CONFIG_ENV_SIZE) in
  if negb (r.1 =? 0) then ret tt else
  let! off := CONFIG_ENV_MTK_OFFSET in
  let! rc := on_hal (flash_erase off CONFIG_ENV_SIZE) in
  if negb (rc =? 0) then ret tt else
  let! off := CONFIG_ENV_MTK_OFFSET in
  do! on_hal (flash_write off r.2) in
  ret tt.

Definition disable_mtk_move_env : M st unit :=
  let! r := on_hal (flash_read CONFIG_ENV_AIROHA_OFFSET CONFIG_ENV_SIZE) in
  if negb (r.1 =? 0) then set_default_env (Some (chars "!flash_read() failed")) else
  let! rc := env_import r.2 true in
  do! (if negb (rc =? 0) then modify (set_env_valid 1) else ret tt) in
  let! rc := setenv (chars "MTK_MOVE_ENV") (Some ENV_MOVE_DISABLE) in
  if negb (rc =? 0) then ret tt else
  do! mtk_save_miconf in
  ret tt.

(** The second half of [env_relocate_spec]: the environment is loaded. *)
Definition load_env (env_addr : Z) : M st unit :=
  let! r := on_hal (flash_read env_addr CONFIG_ENV_SIZE) in
  if negb (r.1 =? 0) then set_default_env (Some (chars "!flash_read() failed")) else
  let! rc := env_import r.2 true in
  if negb (rc =? 0) then modify (set_env_valid 1) else ret tt.

Definition env_relocate_spec (fuel : nat) : M st unit :=
  let! env_addr := CONFIG_ENV_MTK_OFFSET in
  let! rc := mtk_check_first_boot fuel (chars "MTK_MOVE_ENV") in
  do! (if negb (rc =? 0)
       then do! disable_mtk_move_env in mtk_move_miconf
       else ret tt) in
  load_env env_addr.

Definition env_init : M st Z :=
  do! modify (set_env_valid 1) in ret 0.

Definition env_relocate (fuel : nat) : M st unit :=
  let! valid := gets env_valid in
  if valid =? 0 then set_default_env (Some (chars "!bad CRC"))
  else env_relocate_spec fuel.
End env.
