(* ===== verification/EnvProps.v ===== *)
(** Properties of the environment in flash.

    [EnvRange] is what saving and loading need of the flash: the block of
    [CONFIG_ENV_SIZE] bytes at [off] can be erased, written and read.  A NAND
    whose erase blocks divide that size provides it ([nand_env_range]). *)

From stdpp Require Import base numbers list option strings gmap.
From Stdlib Require Import ZArith Lia.
From S2P Require Import Prelude Crc Qsort Htab HtabBase HtabSearch HtabProps HtabCreate HtabRun HtabText HtabTextProps FlashHal FlashRmw FlashProps Mtd MtkEnv EnvFlash.

Class EnvRange (F : Type) `{FlashDrv F} (off : Z) := {
  env_mem : F -> Z -> Z;
  er_read f bs : nandflash_read f off CONFIG_ENV_SIZE = (0, bs) -> bs = env_mem f <$> seqZ off CONFIG_ENV_SIZE;
  er_erase f f' a :
    nandflash_erase f off CONFIG_ENV_SIZE = (0, f') -> off <= a < off + CONFIG_ENV_SIZE -> env_mem f' a = 255;
  er_write f buf f' a :
    Z.of_nat (length buf) = CONFIG_ENV_SIZE ->
    (forall a, off <= a < off + CONFIG_ENV_SIZE -> env_mem f a = 255) ->
    nandflash_write f off buf = (0, f') -> off <= a < off + CONFIG_ENV_SIZE ->
    env_mem f' a = nth (Z.to_nat (a - off)) buf 255
}.

Section range.
Context {F : Type} {HF : FlashDrv F} {erase size : Z} {HM : NandMem F erase size}.

Lemma nand_env_range off :
  0 <= off -> off + CONFIG_ENV_SIZE <= size -> off mod erase = 0 -> CONFIG_ENV_SIZE mod erase = 0 ->
  EnvRange F off.
Proof.
  intros Ho Hs Hm He. refine {| env_mem := mem |}.
  - intros f bs. by apply nm_read.
  - intros f f' a. by apply nm_erase.
  - intros f buf f' a Hl Hff Hw Ha. apply (nm_write f off buf f' a); [done|lia| |done|lia].
    intros b Hb. apply Hff. lia.
Defined.
End range.

(** ** The block *)

Section image.
Implicit Type d : list Z.

Lemma crc32_u32 addr d : bytes d -> is_u32 (crc32 addr 0 d).
Proof.
  intros Hd. rewrite crc32_fold by done. apply lxor_u32; [|done].
  by apply fold_crc_byte_u32.
Qed.

Lemma env_image_length d : length (env_image d) = (4 + length d)%nat.
Proof. unfold env_image. by rewrite length_app, le_bytes_length. Qed.

Lemma env_image_crc d : mem_slice (env_image d) 0 ENV_HEADER_SIZE = Some (le_bytes 4 (crc32 4 0 d)).
Proof.
  unfold mem_slice, ENV_HEADER_SIZE. rewrite env_image_length.
  rewrite (proj2 (Z.leb_le (0 + 4) _)) by lia. simpl Z.leb. cbn [andb Z.to_nat]. unfold env_image.
  rewrite drop_0. by rewrite take_app_length' by (by rewrite le_bytes_length).
Qed.

Lemma env_image_data d : Z.of_nat (length d) = ENV_SIZE ->
  mem_slice (env_image d) ENV_HEADER_SIZE ENV_SIZE = Some d.
Proof.
  intros Hd. unfold mem_slice. rewrite env_image_length. rewrite <-Hd. unfold ENV_HEADER_SIZE.
  rewrite (proj2 (Z.leb_le 0 (Z.of_nat _))), (proj2 (Z.leb_le (4 + _) _)) by lia. cbn [andb Z.leb].
  unfold env_image. rewrite drop_app_length' by (by rewrite le_bytes_length).
  by rewrite Nat2Z.id, take_ge.
Qed.

Lemma fmap_seqZ_nth (f : Z -> Z) off d :
  (forall a, off <= a < off + Z.of_nat (length d) -> f a = nth (Z.to_nat (a - off)) d 255) ->
  f <$> seqZ off (Z.of_nat (length d)) = d.
Proof.
  intros Hf. apply list_eq_same_length with (length d); [done|by rewrite length_fmap, length_seqZ; lia|].
  intros i x y Hi. rewrite list_lookup_fmap, lookup_seqZ_lt by lia. simpl. intros [= <-] Hy.
  rewrite Hf by lia. replace (Z.to_nat (off + Z.of_nat i - off)) with i by lia.
  by apply nth_lookup_Some.
Qed.
End image.

(** ** Saving and loading *)

Section save.
Context {C F : Type} {HC : EnvHooks C} {HF : FlashDrv F} {HJ : StackJunk}.
Context (default_environment : list Z) (wild_store : M (env_st C F) unit).
Implicit Types (s : env_st C F) (m : gmap cstr (ENTRY C)) (e : ENTRY C).

Abbreviation env_import := (env_import default_environment).
Abbreviation load_env := (load_env default_environment).

(** What a table must be like to be saved whole. *)
Record savable m : Prop := {
  sv_exportable : exportable 0 0 m;
  sv_fits : text_len 0 m + 1 <= ENV_SIZE;
  sv_count : Z.of_nat (length (entries m)) <= import_capacity ENV_SIZE
}.

(** The text of [m], filled with NULs: what [export_env] leaves in the data. *)
Definition data_of m (d : list Z) : Prop :=
  Z.of_nat (length d) = ENV_SIZE /\ bytes d /\
  exists es n, es ≡ₚ entries m /\ d = (es ≫= entry_text 0) ++ 0 :: memset 0 n.

Lemma entries_forall m (P : ENTRY C -> Prop) :
  (forall k e, m !! k = Some e -> P e) -> Forall P (entries m).
Proof.
  intros HP. unfold entries. apply Forall_fmap, Forall_forall. intros [k e] He%elem_of_map_to_list.
  by apply (HP k).
Qed.

Lemma models_key h m k e : models h m -> m !! k = Some e -> key e = k.
Proof. intros (l & _ & _ & _ & Hr) Hk. by destruct (proj1 (Hr k e) Hk). Qed.

Lemma cstr_bytes k : cstr_ok k -> bytes k.
Proof. intros Hk. eapply Forall_impl; [exact Hk|]. unfold is_u8. simpl. lia. Qed.

Lemma entry_text_bytes e : cstr_ok (key e) -> cstr_ok (data e) -> bytes (entry_text 0 e).
Proof.
  intros Hk Hd. unfold entry_text, bytes. apply Forall_app_2; [by apply cstr_bytes|].
  constructor; [done|]. apply Forall_app_2; [|by repeat constructor].
  unfold escape. apply Forall_bind. eapply Forall_impl; [exact Hd|]. simpl. intros c Hc.
  assert (is_u8 c) by (unfold is_u8; lia). destruct (_ || _); [constructor; [done|]|]; by apply Forall_singleton.
Qed.

Lemma export_env_spec s m :
  models (env_htab s) m -> savable m -> exists d, export_env s = Done (Some d, s) /\ data_of m d.
Proof.
  intros Hm [Hex Hfit _].
  destruct (hexport_spec 0 (Some (memset 0 ENV_SIZE)) ENV_SIZE (env_htab s) m Hm) as (es & Hp & _ & Hlt & Hrun).
  { apply entries_forall. intros k e He. by destruct (Hex k e He) as (_ & _ & ? & _). }
  { done. } { intros buf [= <-]. by rewrite length_memset_z. }
  change (export_size 0 ENV_SIZE m) with ENV_SIZE in *.
  rewrite drop_ge in Hrun by (apply Nat.eq_le_incl; done). rewrite app_nil_r in Hrun.
  set (text := es ≫= entry_text 0) in *. eexists. split.
  { unfold export_env. run (by apply lift_run, Hrun). simpl. by destruct s. }
  split_and!; [| |by exists es, (ENV_SIZE - Z.of_nat (length text) - 1)].
  - rewrite length_app. cbn [length]. rewrite Nat2Z.inj_add, Nat2Z.inj_succ, length_memset_z by lia. lia.
  - apply Forall_app_2; [|constructor; [done|by apply Forall_replicate]].
    unfold text. apply Forall_bind. rewrite Hp. apply entries_forall. intros k e He.
    destruct (Hex k e He) as ([Hk _ _] & [Hd _] & _). apply entry_text_bytes; [|done].
    by rewrite (models_key _ m k e Hm He).
Qed.

(** A block with the right CRC is imported. *)
Lemma env_import_spec s h m d check :
  models h m -> savable m -> data_of m d ->
  exists s', env_import (env_image d) check s = Done (1, s') /\ models (env_htab s') (renew <$> m) /\
    s' = set_env_ready true (set_env_htab (env_htab s') s).
Proof.
  intros Hm [Hex _ Hcap] (Hlen & Hb & es & n & Hp & Hd).
  assert (forall k e, m !! k = Some e -> key e = k) as Hkey by (intros k e; by apply (models_key h)).
  destruct (himport_spec d ENV_SIZE 0 0 (env_htab s) es (memset 0 n)) as (h' & Hi & Hm').
  - split; lia.
  - by right.
  - rewrite Hlen. done.
  - by rewrite <-Hlen, Nat2Z.id, take_ge.
  - unfold memset. destruct (Z.to_nat n); [by left|by right].
  - rewrite Hp. apply entries_forall. intros k e He. rewrite (Hkey k e He). by destruct (Hex k e He) as (? & ? & _).
  - rewrite Hp. apply entries_forall. intros k e He. by destruct (Hex k e He) as (_ & _ & _ & ?).
  - pose proof Hm as (l & Hl & _). destruct (collect_models h m l Hm Hl) as [_ Hnd].
    by rewrite Hp, <-(collect_perm h m l Hm Hl).
  - by rewrite Hp.
  - rewrite (map_of_entries es m) in Hm' by done.
    exists (set_env_ready true (set_env_htab h' s)). split_and!; [|done|by destruct s].
    unfold EnvFlash.env_import. rewrite env_image_crc, env_image_data by done.
    run (done). run (done). rewrite le_val_bytes by apply (crc32_u32 4 d Hb).
    rewrite Z.eqb_refl, andb_false_r. by run (by apply lift_run, Hi).
Qed.

(** Writing the block: what [flash_read] answers afterwards. *)
Lemma write_env_block off (HR : EnvRange F off) (f f1 f2 : F) d bs :
  Z.of_nat (length d) = ENV_SIZE ->
  nandflash_erase f off CONFIG_ENV_SIZE = (0, f1) -> nandflash_write f1 off (env_image d) = (0, f2) ->
  nandflash_read f2 off CONFIG_ENV_SIZE = (0, bs) -> bs = env_image d.
Proof.
  intros Hlen He Hw Hr. apply er_read in Hr. rewrite Hr.
  assert (Z.of_nat (length (env_image d)) = CONFIG_ENV_SIZE) as Hl.
  { rewrite env_image_length, Nat2Z.inj_add, Hlen. done. }
  rewrite <-Hl at 1. apply fmap_seqZ_nth. intros a Ha.
  apply (er_write f1 (env_image d) f2 a); [done| |done|lia].
  intros b Hb. by apply (er_erase f f1 b).
Qed.

(** The offset of the partition [u-boot-env] is known. *)
Definition env_at s (off : Z) : Prop := ecnt_get_ubootenv_mtd_offset (env_mtd s) = Done (off, env_mtd s).

Lemma env_offset_run s off : env_at s off -> CONFIG_ENV_MTK_OFFSET s = Done (off, s).
Proof. intros H. unfold CONFIG_ENV_MTK_OFFSET, on_mtd. rewrite (lift_run _ _ _ _ _ _ H). by destruct s. Qed.

Lemma flash_erase_nand s addr len :
  kind (env_hal s) = NANDFLASH ->
  on_hal (flash_erase addr len) s =
    Done ((nandflash_erase (drv (env_hal s)) addr len).1,
          set_env_hal (set_drv (nandflash_erase (drv (env_hal s)) addr len).2 (env_hal s)) s).
Proof.
  intros Hk. apply lift_run. unfold flash_erase. run (done). rewrite Hk. unfold drv_call, act.
  by destruct (nandflash_erase _ _ _).
Qed.

Lemma flash_write_nand s addr buf :
  kind (env_hal s) = NANDFLASH ->
  on_hal (flash_write addr buf) s =
    Done ((nandflash_write (drv (env_hal s)) addr buf).1,
          set_env_hal (set_drv (nandflash_write (drv (env_hal s)) addr buf).2 (env_hal s)) s).
Proof.
  intros Hk. apply lift_run. unfold flash_write. run (done). rewrite Hk. unfold drv_call, act.
  by destruct (nandflash_write _ _ _).
Qed.

Lemma flash_read_nand s addr len :
  kind (env_hal s) = NANDFLASH ->
  on_hal (flash_read addr len) s = Done (nandflash_read (drv (env_hal s)) addr len, s).
Proof.
  intros Hk. unfold on_hal.
  rewrite (lift_run _ _ _ _ (nandflash_read (drv (env_hal s)) addr len) (env_hal s)); [by destruct s|].
  unfold flash_read. run (done). by rewrite Hk.
Qed.

(** [saveenv] on NAND, step by step. *)
Definition saved s off d (rc : Z) s' : Prop :=
  let f := drv (env_hal s) in
  let '(erc, f1) := nandflash_erase f off CONFIG_ENV_SIZE in
  if negb (erc =? 0) then rc = 1 /\ s' = set_env_hal (set_drv f1 (env_hal s)) s else
  let '(wrc, f2) := nandflash_write f1 off (env_image d) in
  rc = (if negb (wrc =? 0) then 1 else 0) /\ s' = set_env_hal (set_drv f2 (env_hal s)) s.

Lemma saveenv_spec s m off :
  kind (env_hal s) = NANDFLASH -> env_at s off -> models (env_htab s) m -> savable m ->
  exists d rc s', saveenv s = Done (rc, s') /\ data_of m d /\ saved s off d rc s'.
Proof.
  intros Hk Ho Hm Hs. destruct (export_env_spec s m Hm Hs) as (d & Hd & Hdata). exists d.
  unfold saved, saveenv. destruct (nandflash_erase _ _ _) as [erc f1] eqn:He.
  set (s1 := set_env_hal (set_drv f1 (env_hal s)) s).
  destruct (nandflash_write f1 off (env_image d)) as [wrc f2] eqn:Hw.
  destruct (Z.eqb_spec erc 0) as [->|Hne]; simpl negb; cbn beta iota.
  - eexists _, _. split; [|split; [exact Hdata|split; reflexivity]].
    run (exact Hd). run (by apply env_offset_run). run (by apply flash_erase_nand). rewrite He.
    cbn [fst snd Z.eqb negb]. fold s1. run (by apply env_offset_run).
    run (by apply flash_write_nand). simpl. rewrite Hw. cbn [fst snd].
    destruct (Z.eqb_spec wrc 0); cbn [negb]; [|done]. by run (by apply env_offset_run).
  - eexists _, _. split; [|split; [exact Hdata|split; reflexivity]].
    run (exact Hd). run (by apply env_offset_run). run (by apply flash_erase_nand). rewrite He.
    cbn [fst snd]. by rewrite (proj2 (Z.eqb_neq _ _) Hne).
Qed.

Lemma load_env_image s h m d off :
  kind (env_hal s) = NANDFLASH -> models h m -> savable m -> data_of m d ->
  nandflash_read (drv (env_hal s)) off CONFIG_ENV_SIZE = (0, env_image d) ->
  exists s', load_env off s = Done (tt, s') /\ models (env_htab s') (renew <$> m) /\
    s' = set_env_valid 1 (set_env_ready true (set_env_htab (env_htab s') s)).
Proof.
  intros Hk Hm Hs Hd Hr.
  destruct (env_import_spec s h m d true Hm Hs Hd) as (s' & Hi & Hm' & Hs').
  exists (set_env_valid 1 s'). split_and!; [|done|by rewrite Hs' at 1].
  unfold EnvFlash.load_env. run (by apply flash_read_nand). rewrite Hr. simpl. by run (exact Hi).
Qed.

(** ** Falling back to the default environment *)

(** The compiled-in environment is the text of [es]. *)
Record default_is es : Prop := {
  df_text : exists rest, default_environment = (es ≫= entry_text 0) ++ 0 :: rest /\
    (rest = [] \/ head rest = Some 0);
  df_size : Z.of_nat (length default_environment) <= ENV_SIZE;
  df_ok : Forall (fun e => name_ok 0 (key e) /\ value_ok (data e)) es;
  df_keys : NoDup (key <$> es);
  df_count : Z.of_nat (length es) <= import_capacity (Z.of_nat (length default_environment))
}.

Lemma set_default_env_spec s msg es :
  default_is es -> Forall (accepted (default_flags msg)) es ->
  exists h', set_default_env default_environment msg s = Done (tt, set_env_ready true (set_env_htab h' s)) /\
    models h' (map_of es).
Proof.
  intros [(rest & Ht & Hrest) Hsz Hok Hnd Hcount] Hacc.
  destruct (himport_spec default_environment (Z.of_nat (length default_environment)) 0 (default_flags msg)
    (env_htab s) es rest) as (h' & Hi & Hm); [split; lia| |lia| |done..|].
  { right. unfold default_flags. destruct msg; [by case_bool_decide|done]. }
  { by rewrite Nat2Z.id, take_ge. }
  exists h'. split; [|done]. unfold set_default_env. rewrite (proj2 (Z.ltb_ge _ _)) by done.
  by run (by apply lift_run, Hi).
Qed.
End save.

(** ** The check of the first boot only reads *)

Section keeps.
Context {C F : Type} {HC : EnvHooks C} {HF : FlashDrv F} {HJ : StackJunk}.
Implicit Type s : env_st C F.

Definition keeps {A} (m : M (env_st C F) A) s : Prop := forall r s', m s = Done (r, s') -> s' = s.

Lemma keeps_bind {A B} (m : M (env_st C F) A) (k : A -> M (env_st C F) B) s :
  keeps m s -> (forall a, keeps (k a) s) -> keeps (bind m k) s.
Proof.
  intros Hm Hk r s'. unfold bind. destruct (m s) as [[a s1]| |] eqn:E; [|done..].
  apply Hm in E as ->. apply Hk.
Qed.

Lemma keeps_ret {A} (a : A) s : keeps (ret a) s.
Proof. by intros r s' [= _ <-]. Qed.

Lemma keeps_undef {A} s : keeps (A:=A) undef s.
Proof. done. Qed.

Lemma keeps_checked {A} (o : option A) s : keeps (checked o) s.
Proof. intros r s'. destruct o; [by intros [= _ <-]|done]. Qed.

Lemma keeps_offset off s : env_at s off -> keeps CONFIG_ENV_MTK_OFFSET s.
Proof. intros Ho r s'. rewrite (env_offset_run s off Ho). by intros [= _ <-]. Qed.

Lemma keeps_read addr len s : kind (env_hal s) = NANDFLASH -> keeps (on_hal (flash_read addr len)) s.
Proof. intros Hk r s'. rewrite flash_read_nand by done. by intros [= _ <-]. Qed.

Lemma first_boot_loop_keeps off fuel sig addr read_len buf config s :
  kind (env_hal s) = NANDFLASH -> env_at s off ->
  keeps (first_boot_loop (ret tt) fuel sig addr read_len buf config) s.
Proof.
  intros Hk Ho. revert addr read_len buf config.
  induction fuel as [|fuel IH]; intros addr read_len buf config; [done|]. cbn [first_boot_loop].
  apply keeps_bind; [by eapply keeps_offset|]. intros o. destruct (o <=? addr); [apply keeps_ret|].
  apply keeps_bind; [by eapply keeps_offset|]. intros o'. apply keeps_bind.
  { destruct (_ <? _); [|apply keeps_ret]. apply keeps_bind; [by eapply keeps_offset|]. intros. apply keeps_ret. }
  intros rl. apply keeps_bind; [by apply keeps_read|]. intros r. apply keeps_bind; [apply keeps_ret|]. intros _.
  apply keeps_bind; [apply keeps_checked|]. intros b. destruct (negb _); [apply keeps_undef|].
  apply keeps_bind; [apply keeps_checked|]. intros b'.
  destruct (env_get_from_linear b' sig config) as [[res c]| |]; [|done..].
  destruct (negb _); [apply keeps_ret|apply IH].
Qed.

Lemma mtk_check_first_boot_keeps off fuel sig s :
  kind (env_hal s) = NANDFLASH -> env_at s off -> keeps (mtk_check_first_boot (ret tt) fuel sig) s.
Proof.
  intros Hk Ho. unfold mtk_check_first_boot. apply keeps_bind; [by eapply first_boot_loop_keeps|].
  intros [c|]; [apply keeps_checked|apply keeps_ret].
Qed.
End keeps.

(** ** Variables *)

Section vars.
Context {C F : Type} {HC : EnvHooks C} {HJ : StackJunk}.
Context (default_environment : list Z).
Implicit Types (s : env_st C F) (m : gmap cstr (ENTRY C)) (e : ENTRY C).

Lemma getenv_spec s m name :
  models (env_htab s) m -> GD_FLG_ENV_READY s = true -> cstr_ok name ->
  exists h', getenv default_environment name s = Done (data <$> m !! name, set_env_htab h' s) /\ models h' m /\
    (fresh (env_htab s) <= fresh h')%nat.
Proof.
  intros Hm Hr Hn. unfold getenv. 
  destruct (hsearch_ideal (env_htab s) m (Item name None) FIND 0 Hm Hn) as (r & h' & Hrun & Hm' & _ & Hf & Ha); [done..|].
  simpl slots_for in Hf. exists h'. split; [|split; [done|lia]]. run (done). rewrite Hr. run (by apply lift_run, Hrun).
  simpl in *. destruct (m !! name) as [e|] eqn:E; simpl in *.
  - destruct Ha as (i & e' & -> & _ & He & l & Hl & s' & Hs' & _ & Hes). rewrite E in He. injection He as <-.
    rewrite <-Hes.
    unfold on_htab. run (by apply lift_run; eapply get_slot_run). by destruct s.
  - by destruct Ha as [-> _].
Qed.

(** A name that [_do_env_set] takes as such. *)
Record var_name (k : cstr) : Prop := {
  vn_cstr : cstr_ok k;
  vn_plain : head k <> Some 45;
  vn_chars : Forall (fun c => c <> 61) k
}.

(** The map after [setenv]. *)
Definition ideal_setenv (full : bool) m (name : cstr) (v : option cstr) : option Z * gmap cstr (ENTRY C) :=
  match v with
  | None | Some [] => ideal_delete m name H_INTERACTIVE
  | Some v => ideal_search full m (Item name (Some v)) ENTER H_INTERACTIVE
  end.

Lemma var_name_run name values beyond : var_name name ->
  _do_env_set (C:=C) (F:=F) (name :: values) beyond =
    (do! modify (fun s => set_env_id (s32 (env_id s + 1)) s) in
     match values with
     | [] =>
         let! rc := on_htab (hdelete_r name H_INTERACTIVE) in ret (if rc =? 0 then 1 else 0)
     | values =>
         let! r := on_htab (hsearch_r (Item name (Some (join_args values))) ENTER H_INTERACTIVE) in
         ret (match r.2 with None => 1 | Some _ => 0 end)
     end).
Proof.
  intros [Hc Hp He]. unfold _do_env_set.
  assert (set_options (name :: values) H_INTERACTIVE = Some (name :: values, H_INTERACTIVE)) as ->.
  { destruct name as [|c name]; [done|]. simpl in Hp. cbn [set_options].
    repeat (case_match; simplify_eq; try done). }
  assert (existsb (fun c => c =? 61) name = false) as ->; [|by destruct values].
  clear Hp. induction He as [|c name Hc' _ IH]; [done|]. simpl. inversion_clear Hc.
  by rewrite (proj2 (Z.eqb_neq _ _)), IH.
Qed.

(** Where a new variable can go: the call enters none, or the table has an
    unused slot, or no slot at all, in which case it refuses. *)
Definition has_room s m (name : cstr) (v : option cstr) : Prop :=
  (v = None \/ v = Some []) \/ is_Some (m !! name) \/ (0 < fresh (env_htab s))%nat \/
  filled (env_htab s) = size (env_htab s).

(** A name that [_do_env_set] takes as an option and skips: "-", "-f", ... *)
Definition option_name (name : cstr) : bool :=
  match name with 45 :: arg => forallb (fun c => c =? 102) arg | _ => false end.

(** Other names are set, or refused before anything is changed: an unknown
    option, or an equals sign in the name. *)
Lemma setenv_name_cases name v s : cstr_ok name -> option_name name = false ->
  GD_FLG_ENV_READY s = true ->
  var_name name \/ setenv name v s = Done (CMD_RET_USAGE, s) \/ setenv name v s = Done (1, s).
Proof.
  intros Hn Ho Hr. destruct (decide (head name = Some 45)) as [E|Hp].
  - right. left. destruct name as [|c arg]; [done|]. simpl in E. injection E as ->. simpl in Ho.
    unfold setenv. run (done). rewrite Hr. cbn [negb].
    destruct v as [[|c' v]|]; unfold _do_env_set; cbn [set_options]; by rewrite Ho.
  - destruct (existsb (fun c => c =? 61) name) eqn:E.
    + right. right. assert (forall l, set_options (name :: l) H_INTERACTIVE = Some (name :: l, H_INTERACTIVE)) as Hs.
      { intros l. destruct name as [|c name]; [done|]. simpl in Hp. cbn [set_options].
        repeat (case_match; simplify_eq; try done). }
      unfold setenv. run (done). rewrite Hr. cbn [negb].
      destruct v as [[|c v]|]; unfold _do_env_set; rewrite Hs; cbn [negb]; by rewrite E.
    + left. split; [done..|]. apply Forall_forall. intros c Hc ->. apply list_elem_of_In in Hc.
      rewrite <-not_true_iff_false, existsb_exists in E. apply E. by exists 61.
Qed.

Lemma setenv_spec s m name v :
  models (env_htab s) m -> GD_FLG_ENV_READY s = true -> var_name name ->
  has_room s m name v ->
  let res := ideal_setenv (filled (env_htab s) =? size (env_htab s)) m name v in
  exists h', setenv name v s = Done (match res.1 with Some _ => 1 | None => 0 end,
      set_env_htab h' (set_env_id (s32 (env_id s + 1)) s)) /\ models h' res.2 /\
    (fresh (env_htab s) <= fresh h' + 1)%nat.
Proof.
  intros Hm Hr Hn Hroom res. pose proof (vn_cstr _ Hn) as Hk. unfold setenv.
  assert (v = None \/ v = Some [] \/ exists c v', v = Some (c :: v')) as Hv.
  { destruct v as [[|c v']|]; [by right; left|by right; right; exists c, v'|by left]. }
  destruct (hdelete_ideal (env_htab s) m name H_INTERACTIVE Hm Hk) as (r & h' & Hrun & Hm' & _ & Hf & Ha).
  assert (forall beyond, ideal_delete m name H_INTERACTIVE = res ->
    exists h', _do_env_set [name] beyond s = Done (match res.1 with Some _ => 1 | None => 0 end,
      set_env_htab h' (set_env_id (s32 (env_id s + 1)) s)) /\ models h' res.2 /\
      (fresh (env_htab s) <= fresh h' + 1)%nat) as Hdel.
  { intros beyond E. rewrite E in *. exists h'. split; [|split; [done|lia]]. rewrite var_name_run by done.
    run (done). run (by apply lift_run, Hrun). destruct res.1; [by destruct Ha as [-> _]|by subst r]. }
  destruct Hv as [->|[->|(c & v' & ->)]].
  - destruct (Hdel None eq_refl) as (h1 & ? & ?). exists h1. split; [|done]. run (done). by rewrite Hr.
  - destruct (Hdel (Some []) eq_refl) as (h1 & ? & ?). exists h1. split; [|done]. run (done). by rewrite Hr.
  - clear Hdel Hrun Hm' Hf Ha h' r. set (v := c :: v') in *.
    destruct (hsearch_ideal (env_htab s) m (Item name (Some v)) ENTER H_INTERACTIVE Hm Hk)
      as (r & h' & Hrun & Hm' & _ & Hf & Ha).
    { intros _. by eexists. }
    { intros _ Hnone Hne. destruct Hroom as [[? | ?]|[[e He]|[?|?]]]; [done..| |done|done]. simpl in Hnone. congruence. }
    exists h'. split; [|done]. run (done). rewrite Hr, var_name_run by done. cbn [negb].
    run (done). run (by apply lift_run, Hrun). unfold answer in Ha. change (ideal_search _ m (Item name (Some v)) ENTER H_INTERACTIVE) with res in Ha.
    by destruct res.1; [destruct Ha as [-> _]|destruct Ha as (i & e & -> & _)].
Qed.
End vars.

(** ** Theorems *)

Section theorems.
Context {C F : Type} {HC : EnvHooks C} {HF : FlashDrv F} {HJ : StackJunk}.
Context (default_environment : list Z) (wild_store : M (env_st C F) unit).
Implicit Types (s : env_st C F) (m : gmap cstr (ENTRY C)) (e : ENTRY C).

Abbreviation load_env := (load_env default_environment).
Abbreviation getenv := (getenv default_environment).

(** C27: what [saveenv] has saved, a restart loads.  On a NAND, [saveenv] of a
    table whose entries have a text form that fits answers 0 or 1, 1 only
    when the driver refuses the erase or the write; after 0, loading the
    block on any later start, whatever the table holds then, gives a table
    with the same names and values and marks the environment as valid. *)
Theorem saveenv_restored off (HR : EnvRange F off) s m :
  kind (env_hal s) = NANDFLASH -> env_at s off -> models (env_htab s) m -> savable m ->
  exists rc s1, saveenv s = Done (rc, s1) /\ env_htab s1 = env_htab s /\
    (rc = 0 \/ rc = 1 /\ exists f f', (nandflash_erase f off CONFIG_ENV_SIZE).1 <> 0 \/
                                      exists d, (nandflash_write f' off d).1 <> 0) /\
    (rc = 0 -> (nandflash_read (drv (env_hal s1)) off CONFIG_ENV_SIZE).1 = 0 ->
     forall s2, kind (env_hal s2) = NANDFLASH -> drv (env_hal s2) = drv (env_hal s1) ->
     exists s3, load_env off s2 = Done (tt, s3) /\ models (env_htab s3) (renew <$> m) /\
       env_valid s3 = 1 /\ GD_FLG_ENV_READY s3 = true).
Proof.
  intros Hk Ho Hm Hs. destruct (saveenv_spec s m off Hk Ho Hm Hs) as (d & rc & s1 & Hrun & Hd & Hsaved).
  exists rc, s1. unfold saved in Hsaved.
  destruct (nandflash_erase _ _ _) as [erc f1] eqn:He.
  destruct (Z.eqb_spec erc 0) as [->|Hne]; cbn [negb] in Hsaved.
  2: { destruct Hsaved as [-> ->]. split_and!; [done|done| |done]. right. split; [done|].
       eexists _, f1. left. by rewrite He. }
  destruct (nandflash_write f1 off (env_image d)) as [wrc f2] eqn:Hw. destruct Hsaved as [-> ->].
  split_and!; [done|done| |].
  { destruct (Z.eqb_spec wrc 0) as [->|Hne]; [by left|]. right. split; [done|].
    exists f1, f1. right. exists (env_image d). by rewrite Hw. }
  destruct (Z.eqb_spec wrc 0) as [->|Hne]; [|done]. intros _ Hr s2 Hk2 Hdrv. simpl in Hr, Hdrv.
  destruct (nandflash_read f2 off CONFIG_ENV_SIZE) as [rrc bs] eqn:Hread. simpl in Hr. subst rrc.
  pose proof (write_env_block off HR _ _ _ d bs (proj1 Hd) He Hw Hread) as ->.
  destruct (load_env_image default_environment s2 _ m d off Hk2 Hm Hs Hd) as (s3 & ? & ? & Hs3);
    [by rewrite Hdrv|]. exists s3. split_and!; [done|done|by rewrite Hs3..].
Qed.

(** When the flash cannot be read, or the CRC of the block is wrong, the
    compiled-in environment takes its place, and [gd->env_valid] stays as it
    was. *)
Theorem load_env_default off s es :
  kind (env_hal s) = NANDFLASH -> default_is default_environment es -> Forall (accepted 0) es ->
  let r := nandflash_read (drv (env_hal s)) off CONFIG_ENV_SIZE in
  r.1 <> 0 \/
  (exists crc d, r = (0, crc ++ d) /\ length crc = 4%nat /\ Z.of_nat (length d) = ENV_SIZE /\
     crc32 4 0 d <> le_val crc) ->
  exists s', load_env off s = Done (tt, s') /\ models (env_htab s') (map_of es) /\
    env_valid s' = env_valid s /\ GD_FLG_ENV_READY s' = true.
Proof.
  intros Hk Hdef Hacc r Hr. unfold EnvFlash.load_env.
  destruct Hr as [Hr|(crc & d & Hr & Hcrc & Hd & Hbad)].
  - destruct (set_default_env_spec default_environment s (Some (chars "!flash_read() failed")) es Hdef Hacc)
      as (h' & Hrun & Hm).
    exists (set_env_ready true (set_env_htab h' s)). split; [|by split_and!].
    run (by apply flash_read_nand). fold r. rewrite (proj2 (Z.eqb_neq _ _)) by done. exact Hrun.
  - destruct (set_default_env_spec default_environment s (Some (chars "!bad CRC")) es Hdef Hacc)
      as (h' & Hrun & Hm).
    exists (set_env_ready true (set_env_htab h' s)). split; [|by split_and!].
    run (by apply flash_read_nand). fold r. rewrite Hr. cbn [fst snd Z.eqb negb].
    assert (mem_slice (crc ++ d) 0 ENV_HEADER_SIZE = Some crc) as E1.
    { unfold mem_slice, ENV_HEADER_SIZE. rewrite length_app, Hcrc.
      rewrite (proj2 (Z.leb_le (0 + 4) _)) by lia. cbn [andb Z.leb]. by rewrite drop_0, take_app_length'. }
    assert (mem_slice (crc ++ d) ENV_HEADER_SIZE ENV_SIZE = Some d) as E2.
    { unfold mem_slice, ENV_HEADER_SIZE. rewrite length_app, Hcrc, <-Hd.
      rewrite (proj2 (Z.leb_le 0 (Z.of_nat _))), (proj2 (Z.leb_le (4 + _) _)) by lia. cbn [andb Z.leb].
      rewrite drop_app_length' by done. by rewrite Nat2Z.id, take_ge. }
    assert (env_import default_environment (crc ++ d) true s = Done (0, set_env_ready true (set_env_htab h' s))) as Hi.
    { unfold env_import. rewrite E1, E2. run (done). run (done).
      rewrite (proj2 (Z.eqb_neq _ _)) by done. cbn [negb andb]. by run (exact Hrun). }
    by run (exact Hi).
Qed.

(** C28: [setenv] and [getenv] on an environment that is loaded.  Two cases
    are set apart.  The name must not be one [_do_env_set] skips as an option
    ("-", "-f", ...): then the value is taken for the name, and the variable
    of that name is deleted ([setenv_option_deletes]).  A new variable must
    find an unused slot in the table, or a table that is full: when all free
    slots are deleted ones, [setenv] can answer 0 and lose another variable
    ([setenv_loses_variable]).  Outside these, [setenv] ends with an answer;
    after 0, the variable has the new value (none, when it was null or
    empty); after any other answer (1 for a refusal or a name with an equals
    sign, CMD_RET_USAGE for an unknown option) it has its old one; and all
    other variables are as they were. *)
Theorem setenv_getenv s m name v :
  models (env_htab s) m -> GD_FLG_ENV_READY s = true -> cstr_ok name -> option_name name = false ->
  has_room s m name v ->
  exists rc s', setenv name v s = Done (rc, s') /\ (rc = 0 \/ rc = 1 \/ rc = CMD_RET_USAGE) /\
    forall k, cstr_ok k -> exists s'', getenv k s' =
      Done (if bool_decide (k = name) && (rc =? 0)
            then match v with Some (c :: v) => Some (c :: v) | _ => None end
            else data <$> m !! k, s'').
Proof.
  intros Hm Hr Hc Ho Hroom. destruct (setenv_name_cases name v s Hc Ho Hr) as [Hn|Hrun].
  2: { destruct Hrun as [Hrun|Hrun]; (eexists _, s; split; [exact Hrun|]; split; [auto|]; intros k Hk;
         destruct (getenv_spec default_environment s m k Hm Hr Hk) as (h2 & Hget & _ & _);
         eexists; rewrite Hget, andb_false_r; reflexivity). }
  destruct (setenv_spec s m name v Hm Hr Hn Hroom) as (h' & Hrun & Hm' & _).
  set (res := ideal_setenv _ m name v) in *. eexists _, _. split; [exact Hrun|].
  split; [destruct res.1; auto|]. intros k Hk.
  destruct (getenv_spec default_environment
    (set_env_htab h' (set_env_id (s32 (env_id s + 1)) s)) res.2 k Hm' Hr Hk) as (h2 & Hget & _ & _).
  eexists. rewrite Hget. f_equal. f_equal. clear Hget Hm' Hrun.
  unfold res, ideal_setenv, ideal_delete, ideal_search. cbn [item_key item_data].
  destruct v as [[|c v]|]; repeat case_match; cbn [fst snd Z.eqb]; rewrite ?andb_false_r, ?andb_true_r;
    try done; case_bool_decide; subst; rewrite ?lookup_delete_eq, ?lookup_delete_ne, ?lookup_insert_eq,
    ?lookup_insert_ne by done; done.
Qed.
End theorems.
