(* ===== verification/EnvBoot.v ===== *)
(** The first boot moves the environment ([U/common/ecnt/env_flash.c],
    [env_relocate_spec]).

    [Reliable]: the NAND driver accepts what lies on the chip.  Then the block
    at [CONFIG_ENV_AIROHA_OFFSET] is loaded, saved again with
    [MTK_MOVE_ENV=0], copied to the partition [u-boot-env], and loaded from
    there. *)

From stdpp Require Import base numbers list option strings gmap.
From Stdlib Require Import ZArith Lia.
From S2P Require Import Prelude Crc Qsort Htab HtabBase HtabSearch HtabProps HtabCreate HtabRun HtabText HtabTextProps FlashHal FlashRmw FlashProps Mtd MtkEnv EnvFlash EnvProps.

(** ** A driver that accepts what lies on the chip *)

Class Reliable (F : Type) `{FlashDrv F} (erase size : Z) := {
  rel_read f a n : 0 <= a -> 0 <= n -> a + n <= size -> (nandflash_read f a n).1 = 0;
  rel_write f a b : 0 <= a -> a + Z.of_nat (length b) <= size -> (nandflash_write f a b).1 = 0;
  rel_erase f a n :
    0 <= a -> a + n <= size -> a mod erase = 0 -> n mod erase = 0 -> (nandflash_erase f a n).1 = 0
}.

Section nand.
Context {F : Type} {HF : FlashDrv F} {erase size : Z} {HM : NandMem F erase size} {HR : Reliable F erase size}.
Implicit Type h : hal F.

(** A call that answers 0 and changes the driver only. *)
Definition accepted_by h (rc : Z) (h' : hal F) : Prop := rc = 0 /\ exists f', h' = set_drv f' h.

Lemma accepts_opt_read (c : bool) h a n :
  kind h = NANDFLASH -> 0 <= a -> 0 <= n -> a + n <= size ->
  wp (if c then flash_read a n else ret (0, []))
     (fun r h' => r.1 = 0 /\ h' = h /\ Z.of_nat (length r.2) <= n) h.
Proof.
  intros Hk ???. destruct c; [|by apply wp_ret].
  unfold flash_read. apply wp_bind, wp_gets. rewrite Hk. apply wp_gets.
  split_and!; [by apply rel_read|done|]. pose proof (nm_read_len (drv h) a n). lia.
Qed.

Lemma accepts_opt_write (c : bool) h a b :
  kind h = NANDFLASH -> 0 <= a -> a + Z.of_nat (length b) <= size ->
  wp (if c then flash_write a b else ret 0) (accepted_by h) h.
Proof.
  intros Hk ??. destruct c; [|apply wp_ret; split; [done|exists (drv h); by destruct h]].
  unfold flash_write. apply wp_bind, wp_gets. rewrite Hk. unfold drv_call. apply wp_act.
  pose proof (rel_write (drv h) a b) as Hw. unfold accepted_by.
  destruct (nandflash_write (drv h) a b) as [rc f']. simpl in *. split; [auto|by exists f'].
Qed.

Lemma accepts_erase h a n :
  kind h = NANDFLASH -> 0 <= a -> a + n <= size -> a mod erase = 0 -> n mod erase = 0 ->
  wp (flash_erase a n) (accepted_by h) h.
Proof.
  intros Hk ????. unfold flash_erase. apply wp_bind, wp_gets. rewrite Hk. unfold drv_call. apply wp_act.
  pose proof (rel_erase (drv h) a n) as He. unfold accepted_by.
  destruct (nandflash_erase (drv h) a n) as [rc f']. simpl in *. split; [auto|by exists f'].
Qed.

Lemma accepts_erase_non_block h addr sz :
  nand_ok (erase:=erase) (size:=size) h -> 0 <= addr -> 0 < sz -> addr + sz <= size ->
  addr mod erase <> 0 \/ (addr + sz) mod erase = 0 ->
  wp (flash_erase_non_block addr sz) (accepted_by h) h.
Proof.
  intros [Hk Hsh He [Hs1 Hs2]] Ha Hsz Hfit Hcase. unfold flash_erase_non_block.
  destruct (erase_range (erase:=erase) (size:=size) addr sz) as (Hmod & Hst0 & Hst & Htm & Hqs & Htail); [lia|done..|].
  apply wp_bind, wp_gets. rewrite Hk, Hsh.
  assert (u32 (addr + sz) = addr + sz) as -> by (apply Z.mod_small; lia).
  fold (tail_of (erase:=erase) addr sz).
  assert (addr mod erase = 0 -> tail_of (erase:=erase) addr sz = 0) as Htail0.
  { intros E. destruct Hcase as [?|E2]; [done|]. unfold tail_of. by rewrite E2. }
  set (head := addr mod erase) in *. set (tail := tail_of (erase:=erase) addr sz) in *.
  assert ((if negb (head =? 0) then head else 0) = head) as -> by (by destruct (Z.eqb_spec head 0)).
  set (endp := if negb ((addr + sz) mod erase =? 0) then addr + sz else 0).
  assert (0 <= endp /\ endp + tail <= size) as [He0 He1].
  { unfold endp, tail, tail_of in *. destruct (Z.eqb_spec ((addr + sz) mod erase) 0); cbn [negb] in *; lia. }
  assert (u32 (sz + head + tail) = sz + head + tail) as -> by (apply Z.mod_small; lia).
  destruct (Z.eqb_spec head 0) as [E|E]; cbn [negb andb].
  - specialize (Htail0 E). rewrite Htail0, E in *. apply wp_bind, wp_ret. cbn [fst Z.eqb negb]. apply wp_bind.
    eapply wp_mono; [apply accepts_opt_read; [done|lia|lia|lia]|]. intros r ? (-> & -> & _). cbn [Z.eqb negb].
    apply accepts_erase; [done|lia|lia|lia|]. by rewrite !Z.add_0_r in Htm.
  - clear Htail0. apply wp_bind. eapply wp_mono; [by apply (accepts_opt_read true); [done|lia|lia|lia]|].
    intros r1 ? (-> & -> & Hl1). cbn [Z.eqb negb]. apply wp_bind.
    eapply wp_mono; [apply accepts_opt_read; [done|lia|lia|lia]|].
    intros r2 ? (-> & -> & Hl2). cbn [Z.eqb negb]. apply wp_bind.
    eapply wp_mono; [apply accepts_erase; [done|lia|lia|done|done]|].
    intros ? ? (-> & f1 & ->). cbn [Z.eqb negb]. apply wp_bind.
    eapply wp_mono; [by apply (accepts_opt_write true); [done|lia|lia]|].
    intros ? ? (-> & f2 & ->). cbn [Z.eqb negb]. apply wp_bind.
    eapply wp_mono; [by apply accepts_opt_write; [done|lia|lia]|].
    intros ? ? (-> & f3 & ->). apply wp_ret. split; [done|by exists f3].
Qed.
End nand.

(** ** The blocks *)

Section boot.
Context {C F : Type} {HC : EnvHooks C} {HF : FlashDrv F} {HJ : StackJunk}.
Context {erase size : Z} {HM : NandMem F erase size} {HR : Reliable F erase size}.
Context (default_environment : list Z) (wild_store : M (env_st C F) unit) (off : Z).
Implicit Types (s : env_st C F) (m : gmap cstr (ENTRY C)) (e : ENTRY C) (f : F).

Abbreviation nand_ok := (nand_ok (erase:=erase) (size:=size)).
Abbreviation MTK_MOVE_ENV := (chars "MTK_MOVE_ENV").

(** Where the two blocks lie; the partition can be erased, and no more than
    the partition. *)
Record places : Prop := {
  pl_off : CONFIG_ENV_AIROHA_OFFSET + CONFIG_ENV_SIZE <= off;
  pl_size : off + CONFIG_ENV_SIZE <= size;
  pl_old : CONFIG_ENV_AIROHA_OFFSET mod erase <> 0 \/ (CONFIG_ENV_AIROHA_OFFSET + CONFIG_ENV_SIZE) mod erase = 0;
  pl_erase f : (nandflash_erase f off CONFIG_ENV_SIZE).1 = 0;
  pl_erased f a : off <= a < off + CONFIG_ENV_SIZE -> mem (nandflash_erase f off CONFIG_ENV_SIZE).2 a = 255;
  pl_only f a : ~ off <= a < off + CONFIG_ENV_SIZE -> mem (nandflash_erase f off CONFIG_ENV_SIZE).2 a = mem f a
}.

Definition block f (a : Z) : list Z := mem f <$> seqZ a CONFIG_ENV_SIZE.

Lemma read_block s a :
  kind (env_hal s) = NANDFLASH -> 0 <= a -> a + CONFIG_ENV_SIZE <= size ->
  on_hal (flash_read a CONFIG_ENV_SIZE) s = Done ((0, block (drv (env_hal s)) a), s).
Proof.
  intros Hk Ha Hs. rewrite flash_read_nand by done. f_equal. f_equal.
  pose proof (rel_read (drv (env_hal s)) a CONFIG_ENV_SIZE Ha ltac:(done) Hs) as Hr.
  destruct (nandflash_read _ _ _) as [rc bs] eqn:E. simpl in Hr. subst rc. f_equal.
  by eapply nm_read.
Qed.

Lemma image_length d : Z.of_nat (length d) = ENV_SIZE -> Z.of_nat (length (env_image d)) = CONFIG_ENV_SIZE.
Proof. intros Hd. by rewrite env_image_length, Nat2Z.inj_add, Hd. Qed.

(** Writing an image on an erased block. *)
Lemma write_block s a d :
  kind (env_hal s) = NANDFLASH -> Z.of_nat (length d) = ENV_SIZE -> 0 <= a -> a + CONFIG_ENV_SIZE <= size ->
  (forall b, a <= b < a + CONFIG_ENV_SIZE -> mem (drv (env_hal s)) b = 255) ->
  exists f', on_hal (flash_write a (env_image d)) s = Done (0, set_env_hal (set_drv f' (env_hal s)) s) /\
    block f' a = env_image d /\
    forall b, ~ a <= b < a + CONFIG_ENV_SIZE -> mem f' b = mem (drv (env_hal s)) b.
Proof.
  intros Hk Hd Ha Hs Hff. pose proof (image_length d Hd) as Hl. rewrite flash_write_nand by done.
  assert ((nandflash_write (drv (env_hal s)) a (env_image d)).1 = 0) as Hw by (apply rel_write; lia).
  destruct (nandflash_write _ _ _) as [rc f'] eqn:E. cbn [fst snd] in *. subst rc. exists f'. split; [done|]. split.
  - unfold block. rewrite <-Hl. apply fmap_seqZ_nth. intros b Hb.
    apply (nm_write (drv (env_hal s)) a (env_image d) f' b); [lia|lia| |done|lia]. intros c Hc. apply Hff. lia.
  - intros b Hb. eapply nm_write_only; [exact E|lia].
Qed.

(** The old place, erased with what surrounds it kept. *)
Lemma erase_old s :
  places -> nand_ok (env_hal s) ->
  exists f', on_hal (flash_erase_non_block CONFIG_ENV_AIROHA_OFFSET CONFIG_ENV_SIZE) s =
      Done (0, set_env_hal (set_drv f' (env_hal s)) s) /\
    forall b, CONFIG_ENV_AIROHA_OFFSET <= b < CONFIG_ENV_AIROHA_OFFSET + CONFIG_ENV_SIZE -> mem f' b = 255.
Proof.
  intros [H1 H2 H3 _ _] Hok.
  assert (0 < CONFIG_ENV_SIZE /\ 0 < CONFIG_ENV_AIROHA_OFFSET) by done.
  destruct (wp_done _ _ _ (erase_non_block_spec (env_hal s) CONFIG_ENV_AIROHA_OFFSET CONFIG_ENV_SIZE Hok
    ltac:(lia) ltac:(lia) ltac:(lia) ltac:(done))) as (rc & h' & Hrun & Hp).
  pose proof (accepts_erase_non_block (env_hal s) CONFIG_ENV_AIROHA_OFFSET CONFIG_ENV_SIZE Hok) as Hacc.
  unfold wp in Hacc. rewrite Hrun in Hacc. destruct Hacc as (-> & f' & ->); [lia..|done|].
  exists f'. split; [by apply lift_run|]. intros b Hb. specialize (Hp eq_refl b). unfold bytes_of in Hp. simpl in Hp.
  rewrite Hp by lia. by rewrite (proj2 (Z.leb_le _ _)), (proj2 (Z.ltb_lt _ _)) by lia.
Qed.

(** [mtk_move_miconf] copies the block. *)
Lemma mtk_move_miconf_spec s d :
  places -> kind (env_hal s) = NANDFLASH -> env_at s off -> Z.of_nat (length d) = ENV_SIZE ->
  block (drv (env_hal s)) CONFIG_ENV_AIROHA_OFFSET = env_image d ->
  exists f', mtk_move_miconf s = Done (tt, set_env_hal (set_drv f' (env_hal s)) s) /\
    block f' off = env_image d /\ block f' CONFIG_ENV_AIROHA_OFFSET = env_image d.
Proof.
  intros [H1 H2 _ H4 H5 H6] Hk Ho Hd Hb.
  assert (0 < CONFIG_ENV_SIZE /\ 0 < CONFIG_ENV_AIROHA_OFFSET) by done.
  set (f0 := drv (env_hal s)) in *. set (f1 := (nandflash_erase f0 off CONFIG_ENV_SIZE).2).
  assert (on_hal (flash_erase off CONFIG_ENV_SIZE) s = Done (0, set_env_hal (set_drv f1 (env_hal s)) s)) as He.
  { rewrite flash_erase_nand by done. fold f0. by rewrite H4. }
  destruct (write_block (set_env_hal (set_drv f1 (env_hal s)) s) off d Hk Hd)
    as (f' & Hw & Hbl & Hout); [lia|done|by apply H5|].
  exists f'. split_and!; [|done|].
  - unfold mtk_move_miconf. run (apply read_block; [done|lia|lia]). fold f0. rewrite Hb. cbn [fst snd Z.eqb negb].
    run (by apply env_offset_run). run (exact He). cbn [Z.eqb negb]. run (by apply env_offset_run).
    by run (exact Hw).
  - rewrite <-Hb. unfold block. apply list_fmap_ext. intros i b Hi. apply lookup_seqZ in Hi as [-> Hi].
    rewrite Hout by lia. apply H6. lia.
Qed.

(** [mtk_save_miconf] replaces the old block. *)
Lemma mtk_save_miconf_spec s m :
  places -> nand_ok (env_hal s) -> models (env_htab s) m -> savable m ->
  exists d f', mtk_save_miconf s = Done (0, set_env_hal (set_drv f' (env_hal s)) s) /\ data_of m d /\
    block f' CONFIG_ENV_AIROHA_OFFSET = env_image d.
Proof.
  intros Hp Hok Hm Hs. destruct (export_env_spec s m Hm Hs) as (d & Hd & Hdata).
  destruct (erase_old s Hp Hok) as (f1 & He & Hff). pose proof (pl_off Hp). pose proof (pl_size Hp).
  assert (0 < CONFIG_ENV_SIZE /\ 0 < CONFIG_ENV_AIROHA_OFFSET) by done.
  destruct (write_block (set_env_hal (set_drv f1 (env_hal s)) s) CONFIG_ENV_AIROHA_OFFSET d)
    as (f' & Hw & Hbl & _); [apply Hok|apply Hdata|lia|lia|done|].
  exists d, f'. split; [|done]. unfold mtk_save_miconf. run (exact Hd). run (exact He). cbn [Z.eqb negb].
  by run (exact Hw).
Qed.

(** ** The first boot *)

(** The table after [MTK_MOVE_ENV=0] has been set. *)
Definition moved m : option Z * gmap cstr (ENTRY C) :=
  ideal_setenv false (renew <$> m) MTK_MOVE_ENV (Some ENV_MOVE_DISABLE).

Lemma move_name : var_name MTK_MOVE_ENV.
Proof. split; [|done|]; repeat constructor; try done; vm_compute; done. Qed.

Lemma disable_mtk_move_env_spec s h m d :
  places -> nand_ok (env_hal s) -> models h m -> savable m -> data_of m d ->
  block (drv (env_hal s)) CONFIG_ENV_AIROHA_OFFSET = env_image d ->
  is_Some (m !! MTK_MOVE_ENV) -> (moved m).1 = None -> savable (moved m).2 ->
  exists s' d' f', disable_mtk_move_env default_environment s = Done (tt, s') /\
    env_hal s' = set_drv f' (env_hal s) /\ env_mtd s' = env_mtd s /\ models (env_htab s') (moved m).2 /\
    data_of (moved m).2 d' /\ block f' CONFIG_ENV_AIROHA_OFFSET = env_image d'.
Proof.
  intros Hp Hok Hm Hs Hd Hb Hsome Hmoved Hs'. pose proof (pl_off Hp). pose proof (pl_size Hp).
  assert (0 < CONFIG_ENV_SIZE /\ 0 < CONFIG_ENV_AIROHA_OFFSET) by done.
  destruct (env_import_spec default_environment s h m d true Hm Hs Hd) as (s1 & Hi & Hm1 & Es1).
  assert (is_Some ((renew <$> m) !! MTK_MOVE_ENV)) as Hsome1 by (by rewrite lookup_fmap, fmap_is_Some).
  destruct (setenv_spec (set_env_valid 1 s1) (renew <$> m) MTK_MOVE_ENV (Some ENV_MOVE_DISABLE)) as (h2 & Hset & Hm2 & _).
  { exact Hm1. } { by rewrite Es1. } { exact move_name. } { by right; left. }
  assert (forall b, ideal_setenv b (renew <$> m) MTK_MOVE_ENV (Some ENV_MOVE_DISABLE) = moved m) as Efull.
  { intros b. unfold moved, ideal_setenv, ideal_search. simpl. destruct Hsome1 as [e1 He1]. by rewrite He1. }
  rewrite Efull, Hmoved in Hset. rewrite Efull in Hm2. set (s2 := set_env_htab h2 _) in Hset.
  assert (env_hal s2 = env_hal s /\ env_mtd s2 = env_mtd s) as [Eh Em] by (by unfold s2; rewrite Es1).
  destruct (mtk_save_miconf_spec s2 (moved m).2 Hp) as (d' & f' & Hsave & Hd' & Hbl); [by rewrite Eh|done|done|].
  exists (set_env_hal (set_drv f' (env_hal s2)) s2), d', f'. split_and!; [|by rewrite <-Eh|by rewrite <-Em|exact Hm2|done|done].
  unfold disable_mtk_move_env. run (apply read_block; [apply Hok|lia|lia]). rewrite Hb. cbn [fst snd Z.eqb negb].
  run (exact Hi). cbn [Z.eqb negb]. run (done). run (exact Hset). cbn [Z.eqb negb]. by run (exact Hsave).
Qed.

End boot.
