(* ===== verification/EnvWit.v ===== *)
(** Concrete runs of the environment in flash: a simulated NAND, an
    environment of two variables, no permission checks. *)

From stdpp Require Import base numbers list option strings gmap.
From Stdlib Require Import ZArith Lia.
From S2P Require Import Prelude Crc Qsort Htab HtabBase HtabSearch HtabProps HtabCreate HtabRun HtabText HtabTextProps FlashHal FlashRmw FlashProps Mtd MtkEnv EnvFlash EnvProps EnvBoot.

Module EnvWitnesses.
Import SimFlash Witnesses.
#[local] Existing Instance no_hooks.

#[local] Instance junk : StackJunk := {|
  first_boot_buf := memset 0 ENV_READ_LEN;
  first_boot_config := memset 0 ENV_READ_LEN;
  parse_config := replicate 10 0
|}.

Definition erase : Z := 64.
Definition size : Z := 0x100000.
Definition off : Z := 0x80000.

#[local] Instance sim_memory : NandMem sim erase size := sim_mem erase size.
#[local] Instance sim_reliable : Reliable sim erase size.
Proof. by split. Qed.

Lemma off_range : EnvRange sim off.
Proof. by apply (nand_env_range (erase:=erase) (size:=size)). Defined.

Definition the_mtd : mtd := Mtd true [Part (Some "u-boot-env"%string) CONFIG_ENV_SIZE off 0] 1 false 0 0 (-1) (-1).

(** "MTK_MOVE_ENV=1" and "a=xy". *)
Definition two_puts : list op := [put (chars "MTK_MOVE_ENV") [49]; put (letter 1) (letter 24 ++ letter 25)].
Definition two : gmap cstr (ENTRY unit) := (ideal_ops two_puts ∅).2.

Lemma two_eq : two = <[letter 1 := new_entry (letter 1) (letter 24 ++ letter 25)]>
  (<[chars "MTK_MOVE_ENV" := new_entry (chars "MTK_MOVE_ENV") [49]]> ∅).
Proof. reflexivity. Qed.

Lemma two_models : exists h, models h two.
Proof.
  destruct fresh_table_models as [Hm Hf].
  destruct (run_ops_ideal fresh_table ∅ two_puts Hm) as (h & _ & Hh); [|vm_compute; lia|by exists h].
  repeat constructor; intros; try done; by eexists.
Qed.

(** Text forms, decided. *)
Definition char_ok (c : Z) : bool := (0 <? c) && (c <? 256).
Definition nameb (k : cstr) : bool :=
  forallb (fun c => char_ok c && negb (c =? 61)) k &&
  match k with c :: _ => negb (c =? 32) && negb (c =? 9) && negb (c =? 35) | [] => false end.
Definition valueb (d : cstr) : bool :=
  forallb (fun c => char_ok c && negb (c =? 92)) d && match d with [] => false | _ => true end.

Lemma nameb_ok k : nameb k = true -> name_ok 0 k.
Proof.
  unfold nameb, char_ok. rewrite andb_true_iff, forallb_forall. intros [Hk Hf]. split.
  - apply Forall_forall. intros c Hc%list_elem_of_In%Hk. lia.
  - apply Forall_forall. intros c Hc%list_elem_of_In%Hk. lia.
  - destruct k as [|c k]; [done|]. exists c, k. split_and!; [done|lia..].
Qed.

Lemma valueb_ok d : valueb d = true -> value_ok d /\ Forall (fun c => c <> 92) d.
Proof.
  unfold valueb, char_ok. rewrite andb_true_iff, forallb_forall. intros [Hk Hf]. split; [split|].
  - apply Forall_forall. intros c Hc%list_elem_of_In%Hk. lia.
  - by destruct d.
  - apply Forall_forall. intros c Hc%list_elem_of_In%Hk. lia.
Qed.

Definition entryb (ke : cstr * ENTRY unit) : bool := nameb ke.1 && valueb (data ke.2).

Lemma savable_dec (m : gmap cstr (ENTRY unit)) :
  forallb entryb (map_to_list m) = true -> text_len 0 m + 1 <= ENV_SIZE ->
  Z.of_nat (length (entries m)) <= import_capacity ENV_SIZE -> savable m.
Proof.
  intros Hall Ht Hn. split; [|done|done]. rewrite forallb_forall in Hall.
  intros k e Hke%elem_of_map_to_list%list_elem_of_In%Hall. unfold entryb in Hke. simpl in Hke.
  apply andb_true_iff in Hke as [Hk Hv]. apply valueb_ok in Hv as [Hv Hv2]. split_and!.
  - by apply nameb_ok.
  - done.
  - intros _. apply Forall_and; split; [|done]. eapply Forall_impl; [apply Hv|]. simpl. lia.
  - by split.
Qed.

Lemma two_savable : savable two.
Proof. apply savable_dec; vm_compute; done. Qed.

Definition two_entries : list (ENTRY unit) :=
  [new_entry (chars "MTK_MOVE_ENV") [49]; new_entry (letter 1) (letter 24 ++ letter 25)].

Definition data_two : list Z :=
  let text := two_entries ≫= entry_text 0 in
  text ++ 0 :: memset 0 (ENV_SIZE - Z.of_nat (length text) - 1).

Lemma data_two_of : data_of two data_two.
Proof.
  split_and!; [done|by apply bytesb_bytes; vm_compute|].
  exists two_entries, (ENV_SIZE - Z.of_nat (length (two_entries ≫= entry_text 0)) - 1). split; [|reflexivity].
  assert (entries two = [new_entry (letter 1) (letter 24 ++ letter 25); new_entry (chars "MTK_MOVE_ENV") [49]]) as ->
    by (vm_compute; reflexivity).
  apply Permutation_swap.
Qed.

(** The old block holds the two variables; the rest of the flash is erased. *)
Definition flash : sim :=
  let image := env_image data_two in
  fun a => if inside a CONFIG_ENV_AIROHA_OFFSET CONFIG_ENV_SIZE
           then nth (Z.to_nat (a - CONFIG_ENV_AIROHA_OFFSET)) image 255 else 255.

Definition hal0 : hal sim := set_drv flash (on NANDFLASH).

Definition state (h : hsearch_data unit) (f : hal sim) : env_st unit sim := EnvSt unit sim h f the_mtd 1 false true 0.

Lemma hal0_ok : nand_ok (erase:=erase) (size:=size) hal0.
Proof. split; [done|done|vm_compute; intuition discriminate|done]. Qed.

Lemma flash_block : block (HM:=sim_memory) flash CONFIG_ENV_AIROHA_OFFSET = env_image data_two.
Proof.
  unfold block. rewrite <-(image_length data_two) by apply data_two_of. apply fmap_seqZ_nth. intros a Ha.
  rewrite image_length in Ha by apply data_two_of. change (mem flash a) with (flash a). unfold flash.
  by rewrite (proj2 (inside_spec _ _ _) Ha).
Qed.

Lemma off_places : places (HM:=sim_memory) off.
Proof.
  split; [by vm_compute|by vm_compute|by right|done| |].
  - intros f a Ha. simpl. by rewrite (proj2 (inside_spec _ _ _) Ha).
  - intros f a Ha. simpl. destruct (inside _ _ _) eqn:E; [|done]. by apply inside_spec in E.
Qed.

Lemma kept_result {S} (m : M S Z) s :
  (match m s with Done (r, _) => r =? 1 | _ => false end) = true ->
  (forall r s', m s = Done (r, s') -> s' = s) -> m s = Done (1, s).
Proof.
  intros H Hk. destruct (m s) as [[r s']| |]; [|done..]. apply Z.eqb_eq in H as ->. by rewrite (Hk _ _ eq_refl).
Qed.

(** The check of the first boot, run; the stray store hits nothing. *)
Lemma first_boot_check :
  mtk_check_first_boot (C:=unit) (ret tt) 100 (chars "MTK_MOVE_ENV") (state empty_table hal0)
    = Done (1, state empty_table hal0).
Proof.
  apply kept_result.
  - vm_compute. reflexivity.
  - by apply (mtk_check_first_boot_keeps off).
Qed.

Lemma moved_two : (moved two).1 = None /\ savable (moved two).2 /\ is_Some (two !! chars "MTK_MOVE_ENV").
Proof.
  split_and!; [vm_compute; reflexivity| |by eexists; vm_compute; reflexivity].
  apply savable_dec; vm_compute; done.
Qed.

Lemma state_env_at h f : env_at (state h f) off.
Proof. vm_compute. reflexivity. Qed.


(** Saved, restarted with an empty table, and loaded. *)
Lemma saveenv_restored_witness :
  exists h rc s1, saveenv (state h hal0) = Done (rc, s1) /\
    exists s3, load_env [] off (state empty_table (set_drv (drv (env_hal s1)) hal0)) = Done (tt, s3) /\
      models (env_htab s3) (renew <$> two).
Proof.
  destruct two_models as [h Hm]. exists h.
  destruct (saveenv_restored [] off off_range (state h hal0) two) as (rc & s1 & Hrun & _ & Hrc & Hload).
  - reflexivity.
  - apply state_env_at.
  - exact Hm.
  - exact two_savable.
  - exists rc, s1. split; [exact Hrun|].
    destruct Hrc as [->|(_ & f & f' & [Hf|[d Hf]])]; [|by destruct Hf..].
    destruct (Hload eq_refl eq_refl (state empty_table (set_drv (drv (env_hal s1)) hal0)) eq_refl eq_refl)
      as (s3 & H1 & H2 & _). exists s3. split; [exact H1|exact H2].
Defined.

Lemma nth_replicate_Z i n : nth i (replicate n 255) 255 = 255.
Proof. revert i. induction n as [|n IH]; intros [|i]; simpl; auto. Qed.

Lemma flash_off : nandflash_read flash off CONFIG_ENV_SIZE = (0, replicate 4 255 ++ memset 255 ENV_SIZE).
Proof.
  change (nandflash_read flash off CONFIG_ENV_SIZE) with (0, flash <$> seqZ off CONFIG_ENV_SIZE).
  apply (f_equal (pair 0)).
  unfold memset. rewrite <-replicate_add. set (n := (4 + Z.to_nat ENV_SIZE)%nat).
  assert (CONFIG_ENV_SIZE = Z.of_nat (length (replicate n 255))) as ->.
  { rewrite length_replicate. unfold n. rewrite Nat2Z.inj_add, Z2Nat.id by done. reflexivity. }
  apply fmap_seqZ_nth. intros a Ha. rewrite nth_replicate_Z. unfold flash.
  destruct (inside a CONFIG_ENV_AIROHA_OFFSET CONFIG_ENV_SIZE) eqn:E; [|done].
  apply inside_spec in E. unfold off, CONFIG_ENV_AIROHA_OFFSET, CONFIG_ENV_SIZE in *. lia.
Qed.

(** The flash is erased: the CRC is wrong. *)
Definition default_two : list Z := (two_entries ≫= entry_text 0) ++ [0].

Lemma load_env_default_witness :
  exists s', load_env default_two off (state empty_table hal0) = Done (tt, s') /\
    models (env_htab s') (map_of two_entries) /\ GD_FLG_ENV_READY s' = true.
Proof.
  destruct (load_env_default default_two off (state empty_table hal0) two_entries)
    as (s' & H1 & H2 & _ & H3).
  - reflexivity.
  - split.
    + exists []. split; [reflexivity|by left].
    + vm_compute. discriminate.
    + apply Forall_cons_2; [|apply Forall_singleton]; (split; [by apply nameb_ok|by apply valueb_ok]).
    + apply NoDup_cons_2; [|apply NoDup_singleton]. intros [=]%list_elem_of_singleton.
    + vm_compute. discriminate.
  - repeat constructor.
  - right. exists (replicate 4 255), (memset 255 ENV_SIZE).
    split_and!; [| |vm_compute; reflexivity|vm_compute; discriminate].
    + apply flash_off.
    + reflexivity.
  - exists s'. split; [exact H1|split; [exact H2|exact H3]].
Defined.

Lemma setenv_getenv_witness :
  let s := set_env_ready true (state fresh_table hal0) in
  exists rc s', setenv (letter 1) (Some (letter 2)) s = Done (rc, s') /\ (rc = 0 \/ rc = 1 \/ rc = CMD_RET_USAGE) /\
    forall k, cstr_ok k -> exists s'', getenv [] k s' =
      Done (if bool_decide (k = letter 1) && (rc =? 0) then Some (letter 2) else data <$> (∅ : gmap cstr (ENTRY unit)) !! k, s'').
Proof.
  intros s. destruct fresh_table_models as [Hm Hf].
  apply (setenv_getenv [] s ∅ (letter 1) (Some (letter 2))).
  - exact Hm.
  - reflexivity.
  - repeat constructor.
  - reflexivity.
  - right. right. left. vm_compute. lia.
Defined.

(** A run of [setenv] calls with their answers. *)
Fixpoint setenvs (calls : list (cstr * cstr)) : M (env_st unit sim) (list Z) :=
  match calls with
  | [] => ret []
  | (k, v) :: calls => let! rc := setenv k (Some v) in let! rcs := setenvs calls in ret (rc :: rcs)
  end.

Definition got (k : cstr) (r : outcome (list Z * env_st unit sim)) : option (option cstr) :=
  match r with
  | Done (_, s) => match getenv [] k s with Done (v, _) => Some v | _ => None end
  | _ => None
  end.

Definition answers (r : outcome (list Z * env_st unit sim)) : option (list Z) :=
  match r with Done (rcs, _) => Some rcs | _ => None end.

Definition loaded : env_st unit sim := set_env_ready true (state fresh_table hal0).

(** Five variables fill the table, one is deleted: no slot is unused, one is
    free.  [setenv] of a new variable answers 0 and overwrites another. *)
Theorem setenv_loses_variable :
  let worn := do! setenvs [(letter 1, [49]); (letter 2, [50]); (letter 3, [51]); (letter 5, [53]); (letter 6, [54])] in
              do! setenv (letter 6) None in ret [] in
  got (letter 3) (worn loaded) = Some (Some [51]) /\
  let r := bind worn (fun _ => setenvs [(letter 4, [52])]) loaded in
  answers r = Some [0] /\ got (letter 4) r = Some (Some [52]) /\ got (letter 3) r = Some None.
Proof.
  cbv zeta. split_and!; vm_compute; reflexivity.
Qed.

(** [setenv] of the name "-f" sets nothing: the value is taken for the name,
    and that variable is deleted. *)
Theorem setenv_option_deletes :
  let r := setenvs [(letter 1, [49]); (chars "-f", letter 1)] loaded in
  answers r = Some [0; 0] /\ got (letter 1) r = Some None /\ got (chars "-f") r = Some None.
Proof. cbv zeta. split_and!; vm_compute; reflexivity. Qed.
End EnvWitnesses.
