(* ===== verification/BootArgs.v ===== *)
(** The kernel command line ([U/drivers/misc/ecnt/bootargs/ecnt_bootargs.c],
    first part).

    The code reaches the environment through [getenv] and [setenv] only: the
    class [EnvOps].  [EnvLaws] is what it relies on; the hash table provides
    it ([EnvArgs]).  A character array is the list of its elements, and a
    string function that leaves it is undefined.  The width of the field
    [raw.dram_size] is a parameter: the header that declares it is not part of
    the repository. *)

From stdpp Require Import base numbers list option strings gmap.
From Stdlib Require Import ZArith Lia Ascii.
From S2P Require Import Prelude Qsort FlashHal Fip ImgInfo Mtd MtkEnv EnvFlash.

(** ** The environment as a client sees it *)

Class EnvOps (E : Type) := {
  env_getenv : cstr -> M E (option cstr);
  env_setenv : cstr -> option cstr -> M E Z
}.

(** ** Strings in arrays *)

(** The index of the NUL. *)
Fixpoint strlen_at (a : list Z) : option nat :=
  match a with
  | [] => None
  | c :: a => if c =? 0 then Some O else S <$> strlen_at a
  end.

(** The string in the array, and an array that holds it. *)
Definition str_of (a : list Z) : option cstr := (fun n => take n a) <$> strlen_at a.

Definition strncat (dest : list Z) (src : cstr) (count : Z) : option (list Z) :=
  if count =? 0 then Some dest else
  match strlen_at dest with
  | None => None
  | Some n => memcpy_at dest (Z.of_nat n) (take (Z.to_nat count) src ++ [0])
  end.

(** Several calls in a row. *)
Fixpoint strncats (dest : list Z) (srcs : list cstr) (count : Z) : option (list Z) :=
  match srcs with
  | [] => Some dest
  | src :: srcs => match strncat dest src count with None => None | Some d => strncats d srcs count end
  end.

(** [sprintf(.., "0x%x", z)] of a 32-bit value. *)
Definition hex_digit (d : Z) : Z := if d <? 10 then 48 + d else 97 + (d - 10).

Fixpoint hex_digits (fuel : nat) (z : Z) (acc : cstr) : cstr :=
  match fuel with
  | O => acc
  | S fuel => if z <? 16 then hex_digit z :: acc else hex_digits fuel (z / 16) (hex_digit (z mod 16) :: acc)
  end.

Definition sprintf_0x (z : Z) : cstr := 48 :: 120 :: hex_digits 8 z [].

(** The C string as a [string]. *)
Definition string_of (s : cstr) : string :=
  foldr (fun c r => String (Ascii.ascii_of_N (Z.to_N c)) r) EmptyString s.

(** ** Constants *)

Definition BOOTARGS_STR_MAX_LEN : Z := 1024.
Definition TCLINUX_IMG_INFO_STR : cstr := chars "tclinux_info".
Definition SZ_1M : Z := 0x100000.

Definition mi_conf : list cstr := (chars <$>
  ["sdram_conf"; "vendor_name"; "product_name"; "ethaddr"; "snmp_sysobjid"; "country_code";
   "ether_gpio"; "power_gpio"; "username"; "password"; "dsl_gpio"; "internet_gpio";
   "multi_upgrade_gpio"; "onu_type"; "qdma_init"; "root"; "console"; "bootflag"; "serdes_sel";
   "iommu"; "mem"; "swiotlb"; "dram_limit"; "iommu.passthrough"; "serdes_pon"; "serdes_ethernet";
   "serdes_wifi1"; "serdes_wifi2"; "serdes_usb1"; "serdes_usb2"; "sn_test"; "board_args"]%string)
  ++ [TCLINUX_IMG_INFO_STR].

(** ** State: the environment, [fip_offset], the register field *)

Record args_st {E : Type} := ArgsSt {
  a_env : E;
  a_fip_offset : Z;
  a_dram : Z
}.
Arguments args_st : clear implicits.

Section bootargs.
Context {E : Type} {HE : EnvOps E} (dram_bits : Z).
Abbreviation st := (args_st E).

Definition set_a_env v (s : st) : st := ArgsSt E v (a_fip_offset s) (a_dram s).
Definition set_a_dram v (s : st) : st := ArgsSt E (a_env s) (a_fip_offset s) v.

Definition a_getenv (k : cstr) : M st (option cstr) := lift a_env set_a_env (env_getenv k).
Definition a_setenv (k : cstr) (v : option cstr) : M st Z := lift a_env set_a_env (env_setenv k v).

(** ** [parse_env_config] *)

Definition eq_str : cstr := [61].
Definition space : cstr := [32].

Fixpoint parse_env_loop (names : list cstr) (totalLen : Z) (var : list Z) : M st (Z * list Z) :=
  match names with
  | [] => ret (0, var)
  | name :: names =>
      let! val := a_getenv name in
      match val with
      | None => parse_env_loop names totalLen var
      | Some val =>
          let totalLen := u32 (totalLen + (Z.of_nat (length name) + Z.of_nat (length eq_str)
                               + Z.of_nat (length val) + Z.of_nat (length space))) in
          if BOOTARGS_STR_MAX_LEN - 1 <=? totalLen then ret (-1, var) else
          let! var := checked (strncats var [name; eq_str; val; space] (BOOTARGS_STR_MAX_LEN - 1)) in
          parse_env_loop names totalLen var
      end
  end.

Definition parse_env_config (var : list Z) : M st (Z * list Z) :=
  let! n := checked (strlen_at var) in
  parse_env_loop mi_conf (Z.of_nat n) var.

(** ** [set_tclinux_img_env] *)

Definition info_size : Z := 86 * 2.

(** The fields of an image, with commas in between. *)
Definition info_fields (fip : Z) (i : tclinux_imginfo) : list cstr :=
  [sprintf_0x (tclinux_size i); [44]; sprintf_0x (u32 (kernel_off i + fip)); [44];
   sprintf_0x (kernel_size i); [44]; sprintf_0x (u32 (rootfs_off i + fip)); [44];
   sprintf_0x (rootfs_size i)].

Definition set_tclinux_img_env (firstInfo secondInfo : option tclinux_imginfo) : M st Z :=
  let! fip := gets a_fip_offset in
  let info_str := memset 0 info_size in
  let! info_str := checked (match firstInfo with
                            | Some i => strncats info_str (info_fields fip i) (info_size - 1)
                            | None => Some info_str end) in
  let! info_str := checked (match secondInfo with
                            | Some i => strncats info_str ([44] :: info_fields fip i) (info_size - 1)
                            | None => Some info_str end) in
  let! info := checked (str_of info_str) in
  do! a_setenv TCLINUX_IMG_INFO_STR (Some info) in
  ret 0.

Definition set_bootflag_env (bootflag : Z) : M st unit :=
  do! a_setenv (chars "bootflag") (Some (if bootflag =? 0 then [48] else [49])) in ret tt.

(** ** [check_dram_limit] *)

Definition GET_DRAM_SIZE : M st Z := gets (fun s => Z.shiftl (a_dram s) 4).
Definition SET_DRAM_SIZE (x : Z) : M st unit :=
  modify (set_a_dram (Z.land (Z.shiftr (Z.land x 0x3FFF) 4) (2 ^ dram_bits - 1))).

Definition check_dram_limit : M st unit :=
  let! dram := GET_DRAM_SIZE in
  let cal_size := (dram * SZ_1M) mod 2 ^ 64 in
  let! val := a_getenv (chars "dram_limit") in
  match val with
  | None => ret tt
  | Some val =>
      let size := (ecnt_memparse (string_of val) 0).1 in
      if size <=? cal_size then SET_DRAM_SIZE (Z.shiftr size 20) else ret tt
  end.

(** ** [bootargs_init] *)

Definition bootargs_init (first_imginfo second_imginfo : option tclinux_imginfo) (bootflag : Z) : M st Z :=
  let var := memset 0 BOOTARGS_STR_MAX_LEN in
  let! rc := set_tclinux_img_env first_imginfo second_imginfo in
  if negb (rc =? 0) then ret (-1) else
  do! set_bootflag_env bootflag in
  let! r := parse_env_config var in
  if negb (r.1 =? 0) then ret (-1) else
  do! check_dram_limit in
  let! bootargs := a_getenv (chars "bootargs") in
  let! var := checked (match bootargs with
                       | Some b => strncat r.2 b (BOOTARGS_STR_MAX_LEN - 1)
                       | None => Some r.2 end) in
  let! args := checked (str_of var) in
  do! a_setenv (chars "bootargs") (Some args) in
  ret 0.
End bootargs.
