(* ===== verification/BootArgsProps.v ===== *)
(** Properties of the kernel command line.

    [EnvLaws] states what the environment promises to its clients; the
    theorems about [bootargs_init] are proved from it. *)

From stdpp Require Import base numbers list option strings gmap.
From Stdlib Require Import ZArith Lia.
From S2P Require Import Prelude Qsort FlashHal FlashRmw Fip ImgInfo Mtd MtkEnv EnvFlash EnvProps BootArgs.

(** ** The interface *)

(** [setenv] with a null pointer or an empty string deletes. *)
Definition env_put (m : gmap cstr cstr) (k : cstr) (v : option cstr) : gmap cstr cstr :=
  match v with Some (c :: v) => <[k := c :: v]> m | _ => delete k m end.

(** The variables after a call that answered [rc]. *)
Definition set_result (m : gmap cstr cstr) (k : cstr) (v : option cstr) (rc : Z) (m' : gmap cstr cstr) : Prop :=
  rc = 0 /\ m' = env_put m k v \/ rc = 1 /\ m' = m.

(** [env_is n e m]: [e] holds the variables [m] and has room for [n] more. *)
Class EnvLaws (E : Type) `{EnvOps E} := {
  env_is : nat -> E -> gmap cstr cstr -> Prop;
  el_get n e m k : env_is n e m -> cstr_ok k ->
    exists e', env_getenv k e = Done (m !! k, e') /\ env_is n e' m;
  el_set n e m k v : env_is (S n) e m -> var_name k ->
    exists rc e' m', env_setenv k v e = Done (rc, e') /\ env_is n e' m' /\ set_result m k v rc m'
}.

(** ** Strings in arrays *)

Section strings.
Implicit Types (a s src : list Z).

(** The array [a] holds the string [s]. *)
Definition holds a s : Prop := exists rest, a = s ++ 0 :: rest /\ Forall (fun c => c <> 0) s.

Lemma holds_zero n : (0 < n)%nat -> holds (replicate n 0) [].
Proof. intros Hn. destruct n as [|n]; [lia|]. by exists (replicate n 0). Qed.

Lemma strlen_holds a s : holds a s -> strlen_at a = Some (length s).
Proof.
  intros (rest & -> & Hs). induction Hs as [|c s Hc _ IH]; [done|]. simpl.
  by rewrite (proj2 (Z.eqb_neq _ _)), IH.
Qed.

Lemma str_of_holds a s : holds a s -> str_of a = Some s.
Proof.
  intros Hh. unfold str_of. rewrite (strlen_holds a s Hh). destruct Hh as (rest & -> & _). simpl.
  by rewrite take_app_length.
Qed.

Lemma strncat_holds a s src n :
  holds a s -> Forall (fun c => c <> 0) src -> 0 < n -> Z.of_nat (length src) <= n ->
  if (length s + length src <? length a)%nat
  then exists a', strncat a src n = Some a' /\ holds a' (s ++ src) /\ length a' = length a
  else strncat a src n = None.
Proof.
  intros Hh Hsrc Hn Hl. unfold strncat. rewrite (proj2 (Z.eqb_neq n 0)), (strlen_holds a s Hh) by lia.
  rewrite take_ge by lia. pose proof Hh as (rest & Ha & Hs).
  destruct (Nat.ltb_spec (length s + length src) (length a)) as [Hlt|Hge].
  - rewrite memcpy_at_ok by (rewrite ?length_app; simpl; lia). eexists. split; [done|]. split.
    + exists (drop (length src + 1) (0 :: rest)). split; [|by apply Forall_app_2].
      unfold splice. rewrite Nat2Z.id, length_app. cbn [length]. rewrite Ha, take_app_length.
      rewrite <-!app_assoc. by rewrite drop_app_add'.
    + apply splice_length; rewrite ?length_app; simpl; lia.
  - unfold memcpy_at. rewrite length_app. cbn [length]. by rewrite (proj2 (Z.leb_gt (_ + _) _)), andb_false_r by lia.
Qed.

Lemma strncats_holds a s srcs n :
  holds a s -> Forall (fun src => Forall (fun c => c <> 0) src /\ Z.of_nat (length src) <= n) srcs -> 0 < n ->
  (length s + length (concat srcs) < length a)%nat ->
  exists a', strncats a srcs n = Some a' /\ holds a' (s ++ concat srcs) /\ length a' = length a.
Proof.
  intros Hh Hsrcs Hn. revert a s Hh. induction Hsrcs as [|src srcs [Hsrc Hl] _ IH]; intros a s Hh Hlen.
  - exists a. rewrite app_nil_r. done.
  - cbn [concat] in *. rewrite length_app in Hlen.
    pose proof (strncat_holds a s src n Hh Hsrc Hn Hl) as H. rewrite (proj2 (Nat.ltb_lt _ _)) in H by lia.
    destruct H as (a1 & E1 & Hh1 & Hl1). destruct (IH a1 (s ++ src) Hh1) as (a2 & E2 & Hh2 & Hl2).
    { rewrite length_app. lia. }
    exists a2. cbn [strncats]. rewrite E1, E2. rewrite <-app_assoc in Hh2. split_and!; [done|done|lia].
Qed.

Lemma cstr_nonzero s : cstr_ok s -> Forall (fun c => c <> 0) s.
Proof. intros H. eapply Forall_impl; [exact H|]. simpl. lia. Qed.
End strings.

(** ** Numbers *)

Lemma hex_digit_ok d : 0 <= d < 16 -> 0 < hex_digit d < 256.
Proof. intros Hd. unfold hex_digit. destruct (Z.ltb_spec d 10); lia. Qed.

Lemma hex_digits_ok fuel z acc : 0 <= z -> cstr_ok acc ->
  cstr_ok (hex_digits fuel z acc) /\ (length (hex_digits fuel z acc) <= fuel + length acc)%nat.
Proof.
  revert z acc. induction fuel as [|fuel IH]; intros z acc Hz Hacc; cbn [hex_digits]; [split; [done|lia]|].
  destruct (Z.ltb_spec z 16).
  - split; [|simpl; lia]. constructor; [apply hex_digit_ok; lia|done].
  - destruct (IH (z / 16) (hex_digit (z mod 16) :: acc)) as [H1 H2].
    + apply Z.div_pos; lia.
    + constructor; [apply hex_digit_ok, Z.mod_pos_bound; lia|done].
    + split; [done|]. simpl in *. lia.
Qed.

Lemma sprintf_0x_ok z : 0 <= z -> cstr_ok (sprintf_0x z) /\ (length (sprintf_0x z) <= 10)%nat.
Proof.
  intros Hz. destruct (hex_digits_ok 8 z [] Hz) as [H1 H2]; [constructor|]. unfold sprintf_0x.
  split; [repeat (constructor; [lia|]); done|simpl in *; lia].
Qed.

(** ** The pieces of [bootargs_init] *)

(** The fields of an image are 32-bit numbers. *)
Record info_ok (i : tclinux_imginfo) : Prop := {
  io_kernel : is_u32 (kernel_off i) /\ is_u32 (kernel_size i);
  io_rootfs : is_u32 (rootfs_off i) /\ is_u32 (rootfs_size i);
  io_size : is_u32 (tclinux_size i)
}.

(** The values are strings that fit the address space. *)
Definition strings_ok (m : gmap cstr cstr) : Prop :=
  map_Forall (fun _ v => cstr_ok v /\ Z.of_nat (length v) < 2 ^ 31) m.

Definition info_text (fip : Z) (first second : option tclinux_imginfo) : cstr :=
  match first with Some i => concat (info_fields fip i) | None => [] end
  ++ match second with Some i => 44 :: concat (info_fields fip i) | None => [] end.

(** "name=value " of every variable on the list that is set. *)
Definition arg_of (m : gmap cstr cstr) (k : cstr) : cstr :=
  match m !! k with Some v => k ++ eq_str ++ v ++ space | None => [] end.

Definition arg_text (m : gmap cstr cstr) (names : list cstr) : cstr := concat (arg_of m <$> names).

Lemma info_fields_ok fip i : info_ok i ->
  Forall (fun f => cstr_ok f /\ (length f <= 10)%nat) (info_fields fip i) /\
  (length (concat (info_fields fip i)) <= 54)%nat.
Proof.
  intros [[H1 H2] [H3 H4] H5].
  assert (forall z, is_u32 z -> cstr_ok (sprintf_0x z) /\ (length (sprintf_0x z) <= 10)%nat) as Hs.
  { intros z [Hz _]. by apply sprintf_0x_ok. }
  assert (forall z, is_u32 (u32 z)) as Hu by (intros z; apply Z.mod_pos_bound; done).
  pose proof (Hs _ H5) as [C1 L1]. pose proof (Hs _ (Hu (kernel_off i + fip))) as [C2 L2].
  pose proof (Hs _ H2) as [C3 L3]. pose proof (Hs _ (Hu (rootfs_off i + fip))) as [C4 L4].
  pose proof (Hs _ H4) as [C5 L5].
  assert (cstr_ok [44]) as Cc by (apply Forall_singleton; lia).
  unfold info_fields. split.
  - repeat (apply Forall_cons_2; [split; [done|cbn [length]; lia]|]). done.
  - cbn [concat]. rewrite !length_app. cbn [length]. lia.
Qed.

Lemma fields_sources fip i n : info_ok i -> 10 <= n ->
  Forall (fun src => Forall (fun c => c <> 0) src /\ Z.of_nat (length src) <= n) (info_fields fip i).
Proof.
  intros Hi Hn. eapply Forall_impl; [apply info_fields_ok; exact Hi|]. simpl. intros f [Hf Hl].
  split; [by apply cstr_nonzero|lia].
Qed.

(** The text of the images always fits its array. *)
Lemma info_str_fits fip first second :
  (forall i, first = Some i -> info_ok i) -> (forall i, second = Some i -> info_ok i) ->
  exists a1 a2,
    match first with Some i => strncats (memset 0 info_size) (info_fields fip i) (info_size - 1)
                   | None => Some (memset 0 info_size) end = Some a1 /\
    match second with Some i => strncats a1 ([44] :: info_fields fip i) (info_size - 1)
                    | None => Some a1 end = Some a2 /\
    str_of a2 = Some (info_text fip first second).
Proof.
  intros H1 H2. assert (holds (memset 0 info_size) []) as H0 by (apply holds_zero; vm_compute; lia).
  assert (length (memset 0 info_size) = 172%nat) as Hl by done.
  assert (exists a1, match first with Some i => strncats (memset 0 info_size) (info_fields fip i) (info_size - 1)
      | None => Some (memset 0 info_size) end = Some a1 /\
    holds a1 (match first with Some i => concat (info_fields fip i) | None => [] end) /\ length a1 = 172%nat)
    as (a1 & E1 & Hh1 & Hl1).
  { destruct first as [i|]; [|by exists (memset 0 info_size)]. specialize (H1 i eq_refl).
    destruct (strncats_holds (memset 0 info_size) [] (info_fields fip i) (info_size - 1) H0) as (a1 & ? & ? & ?).
    - by apply fields_sources.
    - done.
    - destruct (info_fields_ok fip i H1). rewrite Hl. cbn [length]. lia.
    - exists a1. split_and!; [done|done|lia]. }
  exists a1. unfold info_text. set (t := match first with Some i => _ | None => [] end) in *.
  assert (length t <= 54)%nat as Ht.
  { unfold t. destruct first as [i|]; [|simpl; lia]. by destruct (info_fields_ok fip i (H1 i eq_refl)). }
  destruct second as [i|].
  - specialize (H2 i eq_refl).
    destruct (strncats_holds a1 t ([44] :: info_fields fip i) (info_size - 1) Hh1) as (a2 & E2 & Hh2 & _).
    + constructor; [split; [by apply Forall_singleton|done]|by apply fields_sources].
    + done.
    + cbn [concat]. destruct (info_fields_ok fip i H2). rewrite length_app, Hl1. cbn [length]. lia.
    + exists a2. split_and!; [done|done|]. by rewrite (str_of_holds _ _ Hh2).
  - exists a1. rewrite app_nil_r. split_and!; [done|done|]. by apply str_of_holds.
Qed.

Section init.
Context {E : Type} {HO : EnvOps E} {HL : EnvLaws E} (dram_bits : Z).
Implicit Types (s : args_st E) (m : gmap cstr cstr) (n : nat).

Lemma a_getenv_run n s m k : env_is n (a_env s) m -> cstr_ok k ->
  exists e, a_getenv k s = Done (m !! k, set_a_env e s) /\ env_is n e m.
Proof.
  intros He Hk. destruct (el_get n (a_env s) m k He Hk) as (e & Hrun & He'). exists e. split; [|done].
  by apply lift_run.
Qed.

Lemma a_setenv_run n s m k v : env_is (S n) (a_env s) m -> var_name k ->
  exists rc e m', a_setenv k v s = Done (rc, set_a_env e s) /\ env_is n e m' /\
    env_setenv k v (a_env s) = Done (rc, e) /\ set_result m k v rc m'.
Proof.
  intros He Hk. destruct (el_set n (a_env s) m k v He Hk) as (rc & e & m' & Hrun & He' & Hr).
  exists rc, e, m'. split; [|done]. by apply lift_run.
Qed.

Lemma parse_env_loop_spec n m names : strings_ok m ->
  Forall (fun k => cstr_ok k /\ Z.of_nat (length k) < 2 ^ 30) names ->
  forall s var pre, env_is n (a_env s) m -> holds var pre -> Z.of_nat (length var) = BOOTARGS_STR_MAX_LEN ->
  Z.of_nat (length pre) < BOOTARGS_STR_MAX_LEN - 1 ->
  exists e, env_is n e m /\
    if Z.of_nat (length pre + length (arg_text m names)) <? BOOTARGS_STR_MAX_LEN - 1
    then exists var', parse_env_loop names (Z.of_nat (length pre)) var s = Done ((0, var'), set_a_env e s) /\
      holds var' (pre ++ arg_text m names) /\ Z.of_nat (length var') = BOOTARGS_STR_MAX_LEN
    else exists var', parse_env_loop names (Z.of_nat (length pre)) var s = Done ((-1, var'), set_a_env e s).
Proof.
  intros Hm Hnames. unfold BOOTARGS_STR_MAX_LEN.
  induction Hnames as [|k names [Hk Hkl] _ IH]; intros s var pre He Hh Hvl Hpl.
  - exists (a_env s). split; [done|]. rewrite (proj2 (Z.ltb_lt _ _)) by (simpl; lia).
    exists var. rewrite app_nil_r. split_and!; [by destruct s|done|done].
  - destruct (a_getenv_run n s m k He Hk) as (e1 & Hget & He1). cbn [parse_env_loop].
    change (arg_text m (k :: names)) with (arg_of m k ++ arg_text m names). unfold arg_of.
    destruct (m !! k) as [v|] eqn:Hv.
    2: { destruct (IH (set_a_env e1 s) var pre He1 Hh Hvl Hpl) as (e2 & He2 & H2). exists e2. split; [done|].
         rewrite app_nil_l. destruct (_ <? _); destruct H2 as (var' & H2); exists var'; by run (exact Hget). }
    destruct (Hm k v Hv) as [Hvc Hvn].
    set (item := k ++ eq_str ++ v ++ space).
    assert (length item = length k + 1 + length v + 1)%nat as Hil.
    { unfold item. rewrite !length_app. simpl. lia. }
    assert (u32 (Z.of_nat (length pre) + (Z.of_nat (length k) + Z.of_nat (length eq_str)
      + Z.of_nat (length v) + Z.of_nat (length space))) = Z.of_nat (length (pre ++ item))) as Hu.
    { rewrite length_app, Hil. unfold u32. rewrite Z.mod_small; simpl length; lia. }
    destruct (Z.leb_spec (1024 - 1) (Z.of_nat (length (pre ++ item)))) as [Hbig|Hsmall].
    + exists e1. split; [done|]. rewrite (proj2 (Z.ltb_ge _ _)) by (rewrite !length_app in *; lia).
      exists var. run (exact Hget). rewrite Hu. by rewrite (proj2 (Z.leb_le _ _)).
    + destruct (strncats_holds var pre [k; eq_str; v; space] (1024 - 1) Hh) as (var1 & Hcat & Hh1 & Hl1).
      { rewrite length_app in Hsmall. unfold eq_str, space.
        repeat (apply Forall_cons_2; [split; [first [by apply cstr_nonzero|by apply Forall_singleton]|cbn [length]; lia]|]).
        done. }
      { done. }
      { cbn [concat]. rewrite app_nil_r. fold item. rewrite length_app in Hsmall. lia. }
      change (1024 - 1) with (BOOTARGS_STR_MAX_LEN - 1) in Hcat. cbn [concat] in Hh1. rewrite app_nil_r in Hh1. fold item in Hh1.
      destruct (IH (set_a_env e1 s) var1 (pre ++ item) He1 Hh1) as (e2 & He2 & H2); [lia|done|].
      exists e2. split; [done|].
      replace (length (pre ++ item) + length (arg_text m names))%nat
        with (length pre + length (item ++ arg_text m names))%nat in H2 by (rewrite !length_app; lia).
      destruct (_ <? _); destruct H2 as (var' & H2); exists var'; [rewrite app_assoc|];
        run (exact Hget); rewrite Hu, (proj2 (Z.leb_gt _ _)) by done; run (by rewrite Hcat); exact H2.
Qed.

(** The register field after [check_dram_limit]. *)
Definition limited (dram : Z) (v : option cstr) : Z :=
  match v with
  | None => dram
  | Some v =>
      let size := (ecnt_memparse (string_of v) 0).1 in
      if size <=? (Z.shiftl dram 4 * SZ_1M) mod 2 ^ 64
      then Z.land (Z.shiftr (Z.land (Z.shiftr size 20) 0x3FFF) 4) (2 ^ dram_bits - 1) else dram
  end.

Lemma check_dram_limit_run n s m : env_is n (a_env s) m ->
  exists e, check_dram_limit dram_bits s =
      Done (tt, set_a_dram (limited (a_dram s) (m !! chars "dram_limit")) (set_a_env e s)) /\ env_is n e m.
Proof.
  intros He. destruct (a_getenv_run n s m (chars "dram_limit") He) as (e & Hget & He').
  { repeat constructor; done. }
  exists e. split; [|done]. unfold check_dram_limit. run (done). run (exact Hget). unfold limited.
  destruct (m !! _) as [v|]; [|by destruct s]. by destruct (_ <=? _); destruct s.
Qed.

Lemma mi_conf_ok : Forall (fun k => cstr_ok k /\ Z.of_nat (length k) < 2 ^ 30) mi_conf.
Proof.
  assert (forallb (fun k => forallb (fun c => (0 <? c) && (c <? 256)) k && (Z.of_nat (length k) <? 2 ^ 30)) mi_conf = true)
    as H by (vm_compute; reflexivity).
  rewrite forallb_forall in H. apply Forall_forall. intros k Hk%list_elem_of_In%H.
  apply andb_true_iff in Hk as [Hk Hl]. split; [|lia]. rewrite forallb_forall in Hk.
  apply Forall_forall. intros c Hc%list_elem_of_In%Hk. lia.
Qed.

Lemma strings_ok_set m k v rc m' : strings_ok m -> set_result m k v rc m' ->
  (forall v', v = Some v' -> cstr_ok v' /\ Z.of_nat (length v') < 2 ^ 31) -> strings_ok m'.
Proof.
  intros Hm [[_ ->]|[_ ->]] Hv; [|done]. destruct v as [[|c v]|]; simpl; try by apply map_Forall_delete.
  apply map_Forall_insert_2; [by apply Hv|done].
Qed.

Lemma info_text_ok fip first second :
  (forall i, first = Some i -> info_ok i) -> (forall i, second = Some i -> info_ok i) ->
  cstr_ok (info_text fip first second) /\ Z.of_nat (length (info_text fip first second)) < 2 ^ 31.
Proof.
  intros H1 H2. assert (forall i, info_ok i -> cstr_ok (concat (info_fields fip i)) /\
    (length (concat (info_fields fip i)) <= 54)%nat) as Hc.
  { intros i Hi. destruct (info_fields_ok fip i Hi) as [Hf Hl]. split; [|done]. apply Forall_concat.
    eapply Forall_impl; [exact Hf|]. by intros f [? _]. }
  unfold info_text. split.
  - apply Forall_app_2; [destruct first as [i|]; [by apply Hc, H1|constructor]|].
    destruct second as [i|]; constructor; [lia|by apply Hc, H2].
  - rewrite length_app. assert (length (match first with Some i => concat (info_fields fip i) | None => [] end) <= 54)%nat.
    { destruct first as [i|]; [by apply Hc, H1|simpl; lia]. }
    assert (length (match second with Some i => 44%Z :: concat (info_fields fip i) | None => [] end) <= 55)%nat.
    { destruct second as [i|]; [|simpl; lia]. destruct (Hc i (H2 i eq_refl)). cbn [length]. lia. }
    lia.
Qed.

Definition info_name_ok : var_name TCLINUX_IMG_INFO_STR.
Proof. split; [|done|]; repeat constructor; try done; vm_compute; done. Qed.
Definition flag_name_ok : var_name (chars "bootflag").
Proof. split; [|done|]; repeat constructor; try done; vm_compute; done. Qed.
Definition args_name_ok : var_name (chars "bootargs").
Proof. split; [|done|]; repeat constructor; try done; vm_compute; done. Qed.

Definition flag_text (bootflag : Z) : cstr := if bootflag =? 0 then [48] else [49].

(** From the environment [e], with the variables [m], to [e2], with [m2], by
    the two calls of [setenv] that record the images and the flag.  [setenv]
    answers 0 when it has stored the variable and 1 when it refused. *)
Definition prepared (e : E) m fip (first second : option tclinux_imginfo) (bootflag : Z) (e2 : E) m2 : Prop :=
  exists rc1 e1 m1 rc2,
    env_setenv TCLINUX_IMG_INFO_STR (Some (info_text fip first second)) e = Done (rc1, e1) /\
    set_result m TCLINUX_IMG_INFO_STR (Some (info_text fip first second)) rc1 m1 /\
    env_setenv (chars "bootflag") (Some (flag_text bootflag)) e1 = Done (rc2, e2) /\
    set_result m1 (chars "bootflag") (Some (flag_text bootflag)) rc2 m2.

(** Up to the length check. *)
Lemma bootargs_prefix n s m first second bootflag :
  env_is (2 + n) (a_env s) m -> strings_ok m ->
  (forall i, first = Some i -> info_ok i) -> (forall i, second = Some i -> info_ok i) ->
  exists e e2 m2, prepared (a_env s) m (a_fip_offset s) first second bootflag e2 m2 /\ strings_ok m2 /\ env_is n e m2 /\
    let text := arg_text m2 mi_conf in
    if Z.of_nat (length text) <? BOOTARGS_STR_MAX_LEN - 1
    then exists var, holds var text /\ Z.of_nat (length var) = BOOTARGS_STR_MAX_LEN /\
      bootargs_init dram_bits first second bootflag s =
        (do! check_dram_limit dram_bits in
         let! bootargs := a_getenv (chars "bootargs") in
         let! var := checked (match bootargs with
                              | Some b => strncat var b (BOOTARGS_STR_MAX_LEN - 1)
                              | None => Some var end) in
         let! args := checked (str_of var) in
         do! a_setenv (chars "bootargs") (Some args) in
         ret 0) (set_a_env e s)
    else bootargs_init dram_bits first second bootflag s = Done (-1, set_a_env e s).
Proof.
  intros He Hm H1 H2.
  destruct (info_str_fits (a_fip_offset s) first second H1 H2) as (a1 & a2 & E1 & E2 & E3).
  destruct (a_setenv_run (S n) s m TCLINUX_IMG_INFO_STR (Some (info_text (a_fip_offset s) first second)) He info_name_ok)
    as (rc1 & e1 & m1 & Hset1 & He1 & Hc1 & Hr1).
  destruct (a_setenv_run n (set_a_env e1 s) m1 (chars "bootflag") (Some (flag_text bootflag)) He1 flag_name_ok)
    as (rc2 & e2 & m2 & Hset2 & He2 & Hc2 & Hr2).
  assert (strings_ok m2) as Hm2.
  { eapply strings_ok_set; [|exact Hr2|].
    - eapply strings_ok_set; [exact Hm|exact Hr1|]. intros v [= <-]. by apply info_text_ok.
    - intros v [= <-]. unfold flag_text. destruct (bootflag =? 0); (split; [apply Forall_singleton; lia|done]). }
  assert (holds (memset 0 BOOTARGS_STR_MAX_LEN) []) as H0 by (apply holds_zero; vm_compute; lia).
  destruct (parse_env_loop_spec n m2 mi_conf Hm2 mi_conf_ok (set_a_env e2 s) _ [] He2 H0) as (e3 & He3 & Hp); [done..|].
  exists e3, e2, m2. split; [by exists rc1, e1, m1, rc2|]. split; [done|]. split; [done|].
  cbn [length app] in Hp. rewrite Nat.add_0_l in Hp.
  assert (set_tclinux_img_env first second s = Done (0, set_a_env e1 s)) as Hinfo.
  { unfold set_tclinux_img_env. run (done). run (by rewrite E1). run (by rewrite E2). run (by rewrite E3).
    by run (exact Hset1). }
  assert (set_bootflag_env bootflag (set_a_env e1 s) = Done (tt, set_a_env e2 s)) as Hflag.
  { unfold set_bootflag_env. by run (exact Hset2). }
  assert (forall r s', parse_env_loop mi_conf 0 (memset 0 BOOTARGS_STR_MAX_LEN) (set_a_env e2 s) = Done (r, s') ->
    parse_env_config (memset 0 BOOTARGS_STR_MAX_LEN) (set_a_env e2 s) = Done (r, s')) as Hparse.
  { intros r s' Hr. unfold parse_env_config. run (by rewrite (strlen_holds _ _ H0)). exact Hr. }
  set (text := arg_text m2 mi_conf) in *. cbn zeta. unfold bootargs_init.
  destruct (_ <? _); [destruct Hp as (var & Hrun & Hh & Hl); exists var; split; [exact Hh|split; [exact Hl|]]
                     |destruct Hp as (var & Hrun)];
    run (exact Hinfo); cbn [Z.eqb negb]; run (exact Hflag); run (by apply Hparse, Hrun); done.
Qed.

(** The whole: what is collected, and the three ways it can end. *)
Lemma bootargs_init_spec n s m first second bootflag :
  env_is (3 + n) (a_env s) m -> strings_ok m ->
  (forall i, first = Some i -> info_ok i) -> (forall i, second = Some i -> info_ok i) ->
  exists e2 m2, prepared (a_env s) m (a_fip_offset s) first second bootflag e2 m2 /\
    let text := arg_text m2 mi_conf in
    let old := take 1023 (default [] (m2 !! chars "bootargs")) in
    if Z.of_nat (length text) <? BOOTARGS_STR_MAX_LEN - 1
    then if Z.of_nat (length text + length old) <? BOOTARGS_STR_MAX_LEN
      then exists e3 e m3 rc, bootargs_init dram_bits first second bootflag s =
             Done (0, set_a_dram (limited (a_dram s) (m2 !! chars "dram_limit")) (set_a_env e s)) /\
             env_is (S n) e3 m2 /\ env_setenv (chars "bootargs") (Some (text ++ old)) e3 = Done (rc, e) /\
             env_is n e m3 /\ set_result m2 (chars "bootargs") (Some (text ++ old)) rc m3
      else bootargs_init dram_bits first second bootflag s = Undef
    else exists e, bootargs_init dram_bits first second bootflag s = Done (-1, set_a_env e s) /\
           env_is (S n) e m2.
Proof.
  intros He Hm H1 H2.
  destruct (bootargs_prefix (S n) s m first second bootflag He Hm H1 H2) as (e & e2 & m2 & Hp & Hm2 & He2 & Hrun).
  exists e2, m2. split; [done|]. cbn zeta in *. set (text := arg_text m2 mi_conf) in *.
  destruct (Z.ltb_spec (Z.of_nat (length text)) (BOOTARGS_STR_MAX_LEN - 1)) as [Hlen|Hlen]; [|by exists e].
  destruct Hrun as (var & Hh & Hl & ->).
  destruct (check_dram_limit_run (S n) (set_a_env e s) m2 He2) as (e3 & Hdram & He3).
  set (d := limited _ _) in Hdram. change (limited (a_dram s) _) with d.
  set (s3 := set_a_dram d (set_a_env e3 (set_a_env e s))) in Hdram.
  destruct (a_getenv_run (S n) s3 m2 (chars "bootargs") He3) as (e4 & Hget & He4); [apply args_name_ok|].
  set (old := take 1023 (default [] (m2 !! chars "bootargs"))).
  assert (Forall (fun c => c <> 0) old /\ (length old <= 1023)%nat) as [Ho1 Ho2].
  { unfold old. split; [|rewrite length_take; lia]. apply Forall_take.
    destruct (m2 !! chars "bootargs") as [v|] eqn:Ev; [|constructor]. by apply cstr_nonzero, (Hm2 _ _ Ev). }
  assert (match m2 !! chars "bootargs" with Some b => strncat var b (BOOTARGS_STR_MAX_LEN - 1) | None => Some var end
    = match m2 !! chars "bootargs" with Some b => strncat var old (BOOTARGS_STR_MAX_LEN - 1) | None => Some var end) as Ecat.
  { unfold old. destruct (m2 !! chars "bootargs") as [v|]; [|done]. simpl default. unfold strncat.
    destruct (strlen_at var); [|done]. by rewrite take_take, Nat.min_id. }
  pose proof (strncat_holds var text old (BOOTARGS_STR_MAX_LEN - 1) Hh Ho1 ltac:(done) ltac:(unfold BOOTARGS_STR_MAX_LEN; lia)) as Hcat.
  destruct (Z.ltb_spec (Z.of_nat (length text + length old)) BOOTARGS_STR_MAX_LEN) as [Hfit|Hfit].
  - rewrite (proj2 (Nat.ltb_lt _ _)) in Hcat by lia. destruct Hcat as (a & Hcat & Ha & _).
    destruct (a_setenv_run n (set_a_env e4 s3) m2 (chars "bootargs") (Some (text ++ old)) He4 args_name_ok)
      as (rc & e5 & m3 & Hset & He5 & Hc5 & Hr).
    exists e4, e5, m3, rc. split; [|done]. run (exact Hdram). run (exact Hget). rewrite Ecat.
    assert (exists a, match m2 !! chars "bootargs" with Some b => strncat var old (BOOTARGS_STR_MAX_LEN - 1) | None => Some var end = Some a
      /\ holds a (text ++ old)) as (a' & Ea & Ha').
    { destruct (m2 !! chars "bootargs") as [v|] eqn:Ev; [by exists a|]. exists var. split; [done|].
      unfold old. by rewrite app_nil_r. }
    run (by rewrite Ea). run (by rewrite (str_of_holds _ _ Ha')). by run (exact Hset).
  - rewrite (proj2 (Nat.ltb_ge _ _)) in Hcat by lia.
    run (exact Hdram). run (exact Hget). rewrite Ecat.
    destruct (m2 !! chars "bootargs") as [v|]; [|simpl in Hfit; lia].
    by rewrite Hcat.
Qed.
End init.

(** ** The parser of sizes *)

Lemma strtoull_loop_nonneg t base r : 0 <= r -> 0 <= (strtoull_loop t base r).1.
Proof.
  revert r. induction t as [|c t IH]; intros r Hr; [done|]. cbn [strtoull_loop].
  destruct (_ && _); [|done]. apply IH, Z.mod_pos_bound. done.
Qed.

Lemma ecnt_memparse_nonneg t bs : 0 <= (ecnt_memparse t bs).1.
Proof.
  unfold ecnt_memparse. assert (0 <= (simple_strtoull t 0).1) as H.
  { unfold simple_strtoull. repeat case_match; by apply strtoull_loop_nonneg. }
  destruct (simple_strtoull t 0) as [r endp]. simpl in H. destruct endp as [|c rest]; [done|].
  repeat (destruct (_ || _); [apply Z.mod_pos_bound; done|]). done.
Qed.

(** ** Theorems *)

Section theorems.
Context {E : Type} {HO : EnvOps E} {HL : EnvLaws E} (dram_bits : Z).
Implicit Types (s : args_st E) (m : gmap cstr cstr) (n : nat).

(** C29: [bootargs_init] against any environment that keeps the laws.  It
    calls [setenv] for the images and for the boot flag, collects "name=value "
    of every listed variable that is then set, in the order of the list, in
    front of the old [bootargs] (cut to 1023 characters), and calls [setenv]
    to store the result as [bootargs].  Each call stores its variable when it
    answers 0 and leaves the variables as they were when it answers 1; the
    answers are ignored.  It answers -1, with [bootargs] untouched, exactly
    when what is collected does not leave two of the 1024 bytes.  When what is
    collected fits and is 1024 bytes or more together with the old [bootargs],
    it writes past the end of the array (undefined). *)
Theorem bootargs_init_correct n s m first second bootflag :
  env_is (3 + n) (a_env s) m -> strings_ok m ->
  (forall i, first = Some i -> info_ok i) -> (forall i, second = Some i -> info_ok i) ->
  exists e2 m2, prepared (a_env s) m (a_fip_offset s) first second bootflag e2 m2 /\
    let text := arg_text m2 mi_conf in
    let old := take 1023 (default [] (m2 !! chars "bootargs")) in
    (Z.of_nat (length text) >= BOOTARGS_STR_MAX_LEN - 1 ->
     exists e, bootargs_init dram_bits first second bootflag s = Done (-1, set_a_env e s) /\ env_is (S n) e m2) /\
    (Z.of_nat (length text) < BOOTARGS_STR_MAX_LEN - 1 ->
     Z.of_nat (length text + length old) < BOOTARGS_STR_MAX_LEN ->
     exists e3 e m3 rc, bootargs_init dram_bits first second bootflag s =
       Done (0, set_a_dram (limited dram_bits (a_dram s) (m2 !! chars "dram_limit")) (set_a_env e s)) /\
       env_is (S n) e3 m2 /\ env_setenv (chars "bootargs") (Some (text ++ old)) e3 = Done (rc, e) /\
       env_is n e m3 /\ set_result m2 (chars "bootargs") (Some (text ++ old)) rc m3) /\
    (Z.of_nat (length text) < BOOTARGS_STR_MAX_LEN - 1 ->
     BOOTARGS_STR_MAX_LEN <= Z.of_nat (length text + length old) ->
     bootargs_init dram_bits first second bootflag s = Undef).
Proof.
  intros He Hm H1 H2.
  destruct (bootargs_init_spec dram_bits n s m first second bootflag He Hm H1 H2) as (e2 & m2 & Hp & Hrun).
  exists e2, m2. split; [exact Hp|]. cbn zeta in *. split_and!.
  - intros Hl. by rewrite (proj2 (Z.ltb_ge _ _)) in Hrun by lia.
  - intros Hl Hl2. by rewrite !(proj2 (Z.ltb_lt _ _)) in Hrun by lia.
  - intros Hl Hl2. by rewrite (proj2 (Z.ltb_lt _ _)), (proj2 (Z.ltb_ge _ _)) in Hrun by lia.
Qed.

(** The length check does not know the old [bootargs]: when the two
    together take 1024 bytes or more, [strncat] writes past the end of the
    array. *)
Theorem bootargs_init_overflows n s m first second bootflag old :
  env_is (3 + n) (a_env s) m -> strings_ok m ->
  (forall i, first = Some i -> info_ok i) -> (forall i, second = Some i -> info_ok i) ->
  (forall e2 m2, prepared (a_env s) m (a_fip_offset s) first second bootflag e2 m2 ->
     m2 !! chars "bootargs" = Some old /\
     Z.of_nat (length (arg_text m2 mi_conf)) < BOOTARGS_STR_MAX_LEN - 1 /\
     BOOTARGS_STR_MAX_LEN <= Z.of_nat (length (arg_text m2 mi_conf) + Nat.min 1023 (length old))) ->
  bootargs_init dram_bits first second bootflag s = Undef.
Proof.
  intros He Hm H1 H2 Hlong.
  destruct (bootargs_init_spec dram_bits n s m first second bootflag He Hm H1 H2) as (e2 & m2 & Hp & Hrun).
  destruct (Hlong e2 m2 Hp) as (Hold & Ht & Hl). rewrite Hold in Hrun. cbn zeta in Hrun. simpl default in Hrun.
  rewrite length_take in Hrun.
  by rewrite (proj2 (Z.ltb_lt _ _)), (proj2 (Z.ltb_ge _ _)) in Hrun by lia.
Qed.

(** C30: the variable [dram_limit] can only lower the memory size that the
    kernel is told, whatever its text. *)
Theorem dram_limit_never_raises n s m :
  env_is n (a_env s) m -> 0 <= dram_bits <= 16 -> 0 <= a_dram s < 2 ^ dram_bits ->
  exists s', check_dram_limit dram_bits s = Done (tt, s') /\ 0 <= a_dram s' <= a_dram s.
Proof.
  intros He Hb Hd. destruct (check_dram_limit_run dram_bits n s m He) as (e & Hrun & _).
  eexists. split; [exact Hrun|]. simpl. unfold limited. destruct (m !! _) as [v|]; [|lia].
  set (size := (ecnt_memparse (string_of v) 0).1).
  destruct (Z.leb_spec size ((Z.shiftl (a_dram s) 4 * SZ_1M) mod 2 ^ 64)) as [Hs|]; [|lia].
  assert (0 <= size) as H0 by apply ecnt_memparse_nonneg.
  assert (2 ^ dram_bits <= 2 ^ 16) by (apply Z.pow_le_mono_r; lia).
  rewrite Z.mod_small in Hs by (rewrite Z.shiftl_mul_pow2; unfold SZ_1M; lia).
  rewrite Z.shiftl_mul_pow2 in Hs by lia. unfold SZ_1M in Hs.
  rewrite !Z.shiftr_div_pow2 by lia. change 0x3FFF with (Z.ones 14).
  replace (2 ^ dram_bits - 1) with (Z.ones dram_bits) by (rewrite Z.ones_equiv; lia).
  rewrite !Z.land_ones by lia.
  assert (0 <= size / 2 ^ 20 <= a_dram s * 16) as Hx.
  { split; [apply Z.div_pos; lia|]. apply Z.div_le_upper_bound; lia. }
  pose proof (Z.mod_le (size / 2 ^ 20) (2 ^ 14) ltac:(lia) ltac:(lia)) as Hx2.
  pose proof (Z.mod_pos_bound (size / 2 ^ 20) (2 ^ 14) ltac:(lia)) as Hx3.
  set (x := (size / 2 ^ 20) mod 2 ^ 14) in *.
  assert (0 <= x / 2 ^ 4 <= a_dram s) as Hy.
  { split; [apply Z.div_pos; lia|]. apply Z.div_le_upper_bound; lia. }
  rewrite Z.mod_small by lia. exact Hy.
Qed.
End theorems.
