(* ===== verification/EnvArgs.v ===== *)
(** The hash table environment keeps the laws of [EnvLaws]: [bootargs_init]
    runs on it. *)

From stdpp Require Import base numbers list option strings gmap.
From Stdlib Require Import ZArith Lia.
From S2P Require Import Prelude Qsort Htab HtabBase HtabSearch HtabProps HtabCreate HtabRun FlashHal FlashProps Fip ImgInfo Mtd MtkEnv EnvFlash EnvProps EnvWit BootArgs BootArgsProps.

Section instance.
Context {C F : Type} {HC : EnvHooks C} {HJ : StackJunk} (default_environment : list Z).
Implicit Types (s : env_st C F) (m : gmap cstr cstr) (hm : gmap cstr (ENTRY C)).

#[export] Instance env_ops : EnvOps (env_st C F) := {|
  env_getenv := getenv default_environment;
  env_setenv := setenv
|}.

Definition table_is (n : nat) s m : Prop :=
  exists hm, models (env_htab s) hm /\ GD_FLG_ENV_READY s = true /\ (n <= fresh (env_htab s))%nat /\ m = data <$> hm.

Lemma table_get n s m k : table_is n s m -> cstr_ok k ->
  exists s', env_getenv k s = Done (m !! k, s') /\ table_is n s' m.
Proof.
  intros (hm & Hm & Hr & Hn & ->) Hk.
  destruct (getenv_spec default_environment s hm k Hm Hr Hk) as (h' & Hrun & Hm' & Hf).
  eexists. rewrite lookup_fmap. split; [exact Hrun|]. exists hm. split_and!; [done|done|simpl; lia|done].
Qed.

(** The map after a successful or refused [setenv], by its values. *)
Lemma ideal_setenv_values full hm k v : let res := ideal_setenv full hm k v in
  data <$> res.2 = match res.1 with None => env_put (data <$> hm) k v | Some _ => data <$> hm end.
Proof.
  unfold ideal_setenv, ideal_delete, ideal_search, env_put. cbn [item_key item_data].
  destruct v as [[|c v]|]; repeat case_match; cbn [fst snd] in *; simplify_eq;
    by rewrite ?fmap_delete, ?fmap_insert.
Qed.

Lemma table_set n s m k v : table_is (S n) s m -> var_name k ->
  exists rc s' m', env_setenv k v s = Done (rc, s') /\ table_is n s' m' /\ set_result m k v rc m'.
Proof.
  intros (hm & Hm & Hr & Hn & ->) Hk.
  destruct (setenv_spec s hm k v Hm Hr Hk) as (h' & Hrun & Hm' & Hf); [right; right; left; lia|].
  set (res := ideal_setenv _ hm k v) in *. eexists _, _, (data <$> res.2). split; [exact Hrun|]. split.
  - exists res.2. split_and!; [done|done|simpl; lia|done].
  - unfold set_result. pose proof (ideal_setenv_values (filled (env_htab s) =? size (env_htab s)) hm k v) as Hv.
    cbn zeta in Hv. fold res in Hv. rewrite Hv. destruct res.1; [by right|by left].
Qed.

#[export] Instance env_laws : EnvLaws (env_st C F) := {|
  env_is := table_is;
  el_get := table_get;
  el_set := table_set
|}.
End instance.

(** ** Concrete runs *)

Module ArgsWitnesses.
Import SimFlash Witnesses EnvWitnesses.
#[local] Existing Instance no_hooks.
#[local] Existing Instance junk.

(** The environment after some insertions in a table of five slots. *)
Definition after (ops : list op) : hsearch_data unit :=
  match run_ops ops fresh_table with Done (_, h) => h | _ => fresh_table end.

Definition env_after (ops : list op) : env_st unit sim := set_env_ready true (state (after ops) hal0).

Lemma after_is ops m n :
  forallb (fun o => match o with Search it ENTER _ =>
     forallb char_ok (item_key it) && match item_data it with Some _ => true | None => false end | _ => false end) ops = true ->
  (length ops <= 5)%nat -> (n <= fresh (after ops))%nat -> m = data <$> (ideal_ops ops ∅).2 ->
  env_is (EnvLaws := env_laws []) n (env_after ops) m.
Proof.
  intros Hok Hlen Hn ->. destruct fresh_table_models as [Hm Hf].
  destruct (run_ops_ideal fresh_table ∅ ops Hm) as (h & Hrun & Hh).
  - apply Forall_forall. intros o Ho%list_elem_of_In. rewrite forallb_forall in Hok. specialize (Hok o Ho).
    destruct o as [[k [d|]] [|] flag|]; try done; simpl in *; [|by rewrite andb_false_r in Hok].
    rewrite andb_true_r, forallb_forall in Hok. split; [|by eexists].
    apply Forall_forall. intros c Hc%list_elem_of_In%Hok. unfold char_ok in Hc. lia.
  - assert (forall m0, ops_slots ops m0 <= length ops)%nat as Hle; [|specialize (Hle ∅); lia]. clear.
    induction ops as [|o ops IH]; intros m0; [done|]. cbn [ops_slots length]. specialize (IH (ideal_op o m0).2).
    assert (op_slots m0 o <= 1)%nat by (destruct o as [it [|] ?|]; simpl; [|destruct (_ !! _)|]; lia). lia.
  - assert (after ops = h) as E by (unfold after; by rewrite Hrun). rewrite <-E in Hh.
    exists (ideal_ops ops ∅).2. by split_and!.
Qed.

Definition image : tclinux_imginfo := ImgInfo 0x100 0x300000 0x300100 0x900000 0xC00100.

Lemma image_ok : info_ok image.
Proof. repeat split; vm_compute; done. Qed.

Definition args_of (ops : list op) : args_st (env_st unit sim) := ArgsSt _ (env_after ops) 0x40 0x20.

Lemma bootargs_init_correct_witness :
  exists e2 m2, prepared (HO := env_ops []) (a_env (args_of [])) ∅ 0x40 (Some image) None 0 e2 m2 /\
    (exists e3 e m3 rc, bootargs_init (HE := env_ops []) 10 (Some image) None 0 (args_of []) =
       Done (0, set_a_dram (limited 10 0x20 (m2 !! chars "dram_limit")) (set_a_env e (args_of []))) /\
       env_is (EnvLaws := env_laws []) 3 e3 m2 /\
       env_setenv (EnvOps := env_ops []) (chars "bootargs")
         (Some (arg_text m2 mi_conf ++ take 1023 (default [] (m2 !! chars "bootargs")))) e3 = Done (rc, e) /\
       env_is (EnvLaws := env_laws []) 2 e m3 /\
       set_result m2 (chars "bootargs") (Some (arg_text m2 mi_conf ++ take 1023 (default [] (m2 !! chars "bootargs")))) rc m3).
Proof.
  destruct (bootargs_init_correct (HL := env_laws []) 10 2 (args_of []) ∅ (Some image) None 0) as (e2 & m2 & Hp & _ & Hrun & _).
  - apply after_is; [reflexivity|simpl; lia|vm_compute; lia|reflexivity].
  - apply map_Forall_empty.
  - intros i [= <-]. exact image_ok.
  - discriminate.
  - exists e2, m2. split; [exact Hp|].
    destruct Hp as (rc1 & e1 & m1 & rc2 & _ & [[_ ->]|[_ ->]] & _ & [[_ ->]|[_ ->]]); apply Hrun; vm_compute; reflexivity.
Defined.

(** An old [bootargs] of 1023 characters, and one more variable. *)
Definition long_ops : list op :=
  [put (chars "bootargs") (replicate 1023 97); put (chars "username") [120]].

Definition long_vars : gmap cstr cstr := data <$> (ideal_ops long_ops ∅).2.

Lemma long_vars_eq : long_vars = <[chars "username" := [120]]> (<[chars "bootargs" := replicate 1023 97]> ∅).
Proof. vm_compute. reflexivity. Qed.

Lemma bootargs_init_overflows_witness :
  bootargs_init (HE := env_ops []) 10 (Some image) None 0 (args_of long_ops) = Undef.
Proof.
  apply (bootargs_init_overflows (HL := env_laws []) 10 0 (args_of long_ops) long_vars (Some image) None 0
           (replicate 1023 97)).
  - apply after_is; [reflexivity|simpl; lia|vm_compute; lia|reflexivity].
  - rewrite long_vars_eq. repeat apply map_Forall_insert_2; [| |apply map_Forall_empty].
    + split; [apply Forall_singleton; lia|done].
    + split; [apply Forall_replicate; lia|by rewrite length_replicate].
  - intros i [= <-]. exact image_ok.
  - discriminate.
  - intros e2 m2 (rc1 & e1 & m1 & rc2 & _ & [[_ ->]|[_ ->]] & _ & [[_ ->]|[_ ->]]); rewrite long_vars_eq;
      (split; [reflexivity|split; vm_compute; [reflexivity|discriminate]]).
Defined.

(** "dram_limit=128M" on a memory of 512 MB. *)
Definition limit_ops : list op := [put (chars "dram_limit") (chars "128M")].

Lemma dram_limit_never_raises_witness :
  exists s', check_dram_limit (HE := env_ops []) 10 (args_of limit_ops) = Done (tt, s') /\ 0 <= a_dram s' <= 0x20.
Proof.
  apply (dram_limit_never_raises (HL := env_laws []) 10 0 (args_of limit_ops) (data <$> (ideal_ops limit_ops ∅).2)).
  - apply after_is; [reflexivity|simpl; lia|vm_compute; lia|reflexivity].
  - lia.
  - vm_compute. split; [discriminate|reflexivity].
Defined.
End ArgsWitnesses.
