(* ===== verification/BootFlag.v ===== *)
(** The boot flag in flash ([U/drivers/misc/ecnt/bootargs/ecnt_bootargs.c],
    last part, and [U/common/ecnt/cmd_bootflag.c]).

    One byte, '0' or '1', tells which of the two images is started.  The SPI
    flash is read through its window in the address space, a parameter.
    [IMG_BOOT_FLAG_OFFSET] is not defined in the repository and is a
    parameter too. *)

From stdpp Require Import base numbers list option strings gmap.
From Stdlib Require Import ZArith Lia.
From S2P Require Import Prelude FlashHal Fip ImgInfo MtkEnv EnvFlash Mtd.

Record flag_config := FlagCfg {
  fl_mtd : mtd_config;
  IMG_BOOT_FLAG_OFFSET : Z;
  new_spiflash : bool;            (* TCSUPPORT_NEW_SPIFLASH *)
  flash_base : Z;
  reservearea_size : Z;
  spi_mtd_size : Z                (* mtd.size *)
}.

Section bootflag.
Context {F : Type} {HF : FlashDrv F} (c : flag_config) (mapped : F -> Z -> Z).
Abbreviation st := (mtd_st (F:=F)).

Definition is_nand_or_emmc (k : flash_kind) : bool :=
  match k with NANDFLASH | EMMC => true | _ => false end.

Definition get_boot_flag_addr : M st Z :=
  let! h := gets (fun s => v_hal s.1) in
  let block := reservearea_block (fl_mtd c) in
  if is_nand_or_emmc (kind h) then
    let! off := on_mtd (ecnt_get_reservearea_flash_offset (fl_mtd c) (flash_base c)) in
    ret (u32 (flash_base c + off +
              (if openwrt (fl_mtd c) then reservearea_size c * (block - 1) else IMG_BOOT_FLAG_OFFSET c)))
  else if new_spiflash c then
    ret (u32 (flash_base c + spi_mtd_size c - mtd_erasesize h * block + IMG_BOOT_FLAG_OFFSET c))
  else ret 0.

(** The variable [flag] is an array of one byte. *)
Definition readBootFlagFromFlash : M st Z :=
  let! boot_flag_addr := get_boot_flag_addr in
  let! h := gets (fun s => v_hal s.1) in
  let! flag :=
    (if is_nand_or_emmc (kind h) then
       let! r := on_vst (lift_hal (flash_read boot_flag_addr 1)) in
       checked (memcpy_at [0] 0 r.2)
     else if new_spiflash c then ret [mapped (drv h) boot_flag_addr] else ret [0]) in
  let flag := u8 (nth 0 flag 0 - 48) in
  ret (if negb (flag =? 0) && negb (flag =? 1) then 0 else flag).

Definition writeBootFlagtoFlash (flag : Z) : M st Z :=
  if negb (flag =? 0) && negb (flag =? 1) then ret (-1) else
  let! old_flag := readBootFlagFromFlash in
  if old_flag =? flag then ret (-1) else
  let! boot_flag_addr := get_boot_flag_addr in
  let! retVal := on_vst (lift_hal (flash_partial_write boot_flag_addr [u8 (flag + 48)])) in
  do! readBootFlagFromFlash in
  ret retVal.

Definition swap_bootflag : M st Z :=
  let! bootflag := readBootFlagFromFlash in
  writeBootFlagtoFlash (if bootflag =? 0 then 1 else 0).

(** [argv] is the vector without the command name. *)
Definition bootflag_command (argv : list string) : M st Z :=
  match argv with
  | [] => ret CMD_RET_USAGE
  | a :: _ =>
      if starts_with "read" a then do! readBootFlagFromFlash in ret 0
      else if starts_with "swap" a then swap_bootflag
      else ret CMD_RET_USAGE
  end.
End bootflag.
