(* ===== verification/FlashCmd.v ===== *)
(** The shell commands of the flash ([U/common/ecnt/cmd_flash.c]).

    The command runs on the state of the flash layer, the RAM, the partition
    table, the environment and the register field of the memory size.  The
    chip-level sub-commands (init, forceeraseall, readId, dumpbmt) only call
    the driver: the parameter [chip_command]. *)

From stdpp Require Import base numbers list option strings gmap.
From Stdlib Require Import ZArith Lia Ascii.
From S2P Require Import Prelude Qsort MtkEnv EnvFlash FlashHal Fip ImgInfo Mtd Upgrade BootArgs BootFlag.

(** ** Arguments *)

Fixpoint strtoul_loop (s : string) (base result : Z) : Z :=
  match s with
  | String d s' =>
      if isxdigit d && (digit_value d <? base)
      then strtoul_loop s' base (u32 (result * base + digit_value d)) else result
  | EmptyString => result
  end.

(** [simple_strtoul(cp, NULL, base)] on a 32-bit machine. *)
Definition simple_strtoul (cp : string) (base : Z) : Z :=
  match cp with
  | String "0" cp' =>
      match cp' with
      | String "x" (String d _ as cp'') =>
          if isxdigit d then strtoul_loop cp'' 16 0
          else strtoul_loop cp' (if base =? 0 then 8 else base) 0
      | _ => strtoul_loop cp' (if base =? 0 then 8 else base) 0
      end
  | _ => strtoul_loop cp (if base =? 0 then 10 else base) 0
  end.

(** ** The environment of the boot loader as variables of [vst] *)

Definition cstr_of (s : string) : cstr := chars s.

#[export] Instance map_env `{EnvPolicy} : EnvOps (gmap string string) := {|
  env_getenv k := gets (fun e => cstr_of <$> e !! string_of k);
  env_setenv k v := fun e => Done (env_set e (string_of k) (string_of <$> v))
|}.

Record cmd_config := CmdCfg {
  c_verify : config;
  c_flag : flag_config;
  dual_image : bool;             (* CONFIG_DUAL_IMAGE *)
  c_dram_bits : Z
}.

Definition CONFIG_ENV_ROOT : cstr := chars "/dev/mtdblock5 ro".
Definition CONFIG_ENV_ROOT_SLAVE : cstr := chars "/dev/mtdblock8 ro".

Section command.
Context {F : Type} {HF : FlashDrv F} {HL : Libfdt} {HS : SecureMonitor} {HP : EnvPolicy}.
Context (c : cmd_config) (mapped : F -> Z -> Z).

(** The register field is the last component. *)
Definition cmd_st : Type := mtd_st (F:=F) * Z.
Abbreviation st := cmd_st.

Definition c_mtd_st {A} (m : M (mtd_st (F:=F)) A) : M st A := lift fst (fun t s => (t, s.2)) m.
Definition c_vst {A} (m : M (vst F) A) : M st A := c_mtd_st (on_vst m).

(** The arguments of the kernel, on the parts of the state they use. *)
Definition get_args (s : st) : args_st (gmap string string) :=
  ArgsSt _ (env s.1.1) (fip_offset s.1.1) s.2.
Definition put_args (a : args_st (gmap string string)) (s : st) : st :=
  ((set_env (a_env a) s.1.1, s.1.2), a_dram a).
Definition c_args {A} (m : M (args_st (gmap string string)) A) : M st A := lift get_args put_args m.

(** Argument [i] of the vector without the command name; a missing one is a
    null pointer. *)
Definition arg (argv : list string) (i : nat) : M st string := checked (argv !! i).

Definition num_arg (argv : list string) (i : nat) : M st Z :=
  let! a := arg argv i in ret (simple_strtoul a 16).

(** [buf], which the fifth word replaces. *)
Definition buf_arg (argv : list string) : M st Z :=
  if Nat.eqb (length argv) 4 then num_arg argv 3 else ret CONFIG_SYS_LOAD_ADDR.

(** One image: read its information, and the kernel when it is started. *)
Definition imgread_image (addr buf : Z) (boot : IMG_BOOT_STATUS) : M st (Z * tclinux_imginfo) :=
  c_vst (get_tclinux_imginfo addr no_info boot buf).

(** The end of imgread: [boot] is read and started, the other image only
    contributes its places. *)
Definition imgread_load (bootflag first_imgAddr second_imgAddr buf : Z)
  : M st (option (tclinux_imginfo * tclinux_imginfo)) :=
  if bootflag =? 0 then
    do! c_args (a_setenv (chars "root") (Some CONFIG_ENV_ROOT)) in
    let! second := (if dual_image c then imgread_image second_imgAddr buf NOT_BOOT_IMG
                    else ret (0, no_info)) in
    let! first := imgread_image first_imgAddr buf BOOT_IMG in
    ret (if negb (first.1 =? 0) then None else Some (first.2, second.2))
  else
    do! c_args (a_setenv (chars "root") (Some CONFIG_ENV_ROOT_SLAVE)) in
    let! first := imgread_image first_imgAddr buf NOT_BOOT_IMG in
    let! second := imgread_image second_imgAddr buf BOOT_IMG in
    ret (if negb (second.1 =? 0) then None else Some (first.2, second.2)).

Definition imgread (fuel : nat) (argv : list string) : M st Z :=
  do! num_arg argv 1 in
  let! buf := (if Nat.leb 4 (length argv) then num_arg argv 2 else ret CONFIG_SYS_LOAD_ADDR) in
  let base := flash_base (c_flag c) in
  let! first := c_mtd_st (on_mtd (ecnt_get_tclinux_flash_offset base)) in
  let! second := c_mtd_st (on_mtd (ecnt_get_tclinux_slave_flash_offset base)) in
  let! bootflag := (if dual_image c then c_mtd_st (readBootFlagFromFlash (c_flag c) mapped) else ret 0) in
  let! rc := c_mtd_st (boot_verify (c_verify c) fuel base buf bootflag) in
  if negb (rc =? 0) then ret (-1) else
  let! infos := imgread_load bootflag (u32 (first + sizeof_trx_header)) (u32 (second + sizeof_trx_header)) buf in
  match infos with
  | None => ret (-1)
  | Some (first_imginfo, second_imginfo) =>
      let! rc := c_args (bootargs_init (c_dram_bits c) (Some first_imginfo) (Some second_imginfo) bootflag) in
      ret (if negb (rc =? 0) then -1 else 0)
  end.

Context (chip_command : string -> M st Z).

(** [argv] is the vector without the command name. *)
Definition flash_command (fuel : nat) (argv : list string) : M st Z :=
  match argv with
  | [] => ret CMD_RET_USAGE
  | sub :: _ =>
      if bool_decide (sub = "init"%string) || starts_with "forcee" sub || starts_with "readId" sub
         || starts_with "dumpbm" sub
      then chip_command sub
      else if bool_decide (sub = "erase"%string) then
        let! addr := num_arg argv 1 in let! len := num_arg argv 2 in
        do! c_vst (lift_hal (flash_erase addr len)) in ret 0
      else if bool_decide (sub = "read"%string) then
        let! addr := num_arg argv 1 in let! len := num_arg argv 2 in let! buf := buf_arg argv in
        do! c_vst (flash_read_ram addr len buf) in ret 0
      else if bool_decide (sub = "write"%string) then
        let! addr := num_arg argv 1 in let! len := num_arg argv 2 in let! buf := buf_arg argv in
        do! c_vst (lift_hal (flash_erase addr len)) in
        do! c_vst (flash_write_ram addr len buf) in ret 0
      else if starts_with "imgrea" sub then imgread fuel argv
      else if starts_with "imgwri" sub then
        (* the size in the image's own header is only compared and printed *)
        let! addr := num_arg argv 1 in let! len := num_arg argv 2 in let! buf := buf_arg argv in
        do! c_vst (lift_hal (flash_erase addr len)) in
        do! c_vst (flash_write_ram addr len buf) in ret 0
      else if starts_with "upgrad" sub then
        let! addr := num_arg argv 1 in let! len := num_arg argv 2 in let! buf := buf_arg argv in
        do! c_vst (lift_hal (flash_erase_non_block addr len)) in
        do! c_vst (flash_write_ram addr len buf) in ret 0
      else ret CMD_RET_USAGE
  end.

(** The version string of each image, for the console; -1 when one of them has
    no header. *)
Definition imginfo_command (trxHdr : Z) : M st Z :=
  let base := flash_base (c_flag c) in
  let! first := c_mtd_st (on_mtd (ecnt_get_tclinux_flash_offset base)) in
  let! second := c_mtd_st (on_mtd (ecnt_get_tclinux_slave_flash_offset base)) in
  let! rc1 := c_vst (get_tclinux_img_version first trxHdr) in
  let! rc2 := c_vst (get_tclinux_img_version second trxHdr) in
  ret (if negb (rc1 =? 0) || negb (rc2 =? 0) then -1 else 0).
End command.
