(* ===== verification/FlashArgs.v ===== *)
(** The kernel command line of "flash imgread" ([bootargs_init] of
    [U/drivers/misc/ecnt/bootargs/ecnt_bootargs.c] on the variables of the boot
    loader, [map_env]).

    [extends]: what the collecting loop has put into the array stays in front
    of what follows, whatever the values are.  So the array that
    [bootargs_init] stores holds "bootflag=0 " or "bootflag=1 ". *)

From stdpp Require Import base numbers list option strings gmap.
From Stdlib Require Import ZArith Lia.
From S2P Require Import Prelude Qsort MtkEnv EnvFlash EnvProps FlashHal Fip ImgInfo Mtd Upgrade BootArgs BootFlag FlashCmd.

(** ** Strings in arrays *)

(** The string in [b] starts with the string in [a]. *)
Definition extends (a b : list Z) : Prop := exists s t, str_of a = Some s /\ str_of b = Some (s ++ t).

Lemma strlen_at_le a n : strlen_at a = Some n -> (n < length a)%nat.
Proof.
  revert n. induction a as [|c a IH]; intros n; [done|]. simpl. destruct (c =? 0); [intros [= <-]; lia|].
  destruct (strlen_at a) as [m|]; [|done]. intros [= <-]. specialize (IH m eq_refl). lia.
Qed.

Lemma strlen_at_split a n : strlen_at a = Some n ->
  exists rest, a = take n a ++ 0 :: rest /\ Forall (fun c => c <> 0) (take n a).
Proof.
  revert n. induction a as [|c a IH]; intros n; [done|]. simpl.
  destruct (Z.eqb_spec c 0) as [->|Hc]; [intros [= <-]; by exists a|].
  destruct (strlen_at a) as [m|]; [|done]. intros [= <-]. destruct (IH m eq_refl) as (rest & Ha & Hf).
  exists rest. cbn [take app]. split; [by f_equal|by constructor].
Qed.

(** The string of an array that starts with characters and then [l]. *)
Lemma str_of_app s l : Forall (fun c => c <> 0) s -> str_of (s ++ l) = (fun t => s ++ t) <$> str_of l.
Proof.
  unfold str_of. induction 1 as [|c s Hc _ IH]; [simpl; by destruct (strlen_at l)|].
  cbn [app strlen_at]. rewrite (proj2 (Z.eqb_neq _ _) Hc).
  destruct (strlen_at (s ++ l)) as [n|], (strlen_at l) as [m|]; simpl in *; [|done..].
  injection IH as IH. by rewrite IH.
Qed.

Lemma str_of_total l rest : exists t, str_of (l ++ 0 :: rest) = Some t.
Proof.
  unfold str_of. induction l as [|c l [t IH]]; [by eexists|]. cbn [app strlen_at].
  destruct (c =? 0); [by eexists|]. destruct (strlen_at (l ++ 0 :: rest)); [|done]. by eexists.
Qed.

(** [strncat] keeps the string; a source without NUL that is not cut is
    appended as it is. *)
Lemma strncat_extends d src n d' s : strncat d src n = Some d' -> n <> 0 -> str_of d = Some s ->
  extends d d' /\
  (Forall (fun c => c <> 0) src -> Z.of_nat (length src) <= n -> str_of d' = Some (s ++ src)).
Proof.
  unfold strncat. intros Hd Hn Hs. rewrite (proj2 (Z.eqb_neq _ _) Hn) in Hd.
  unfold str_of in Hs. destruct (strlen_at d) as [k|] eqn:Ek; [|done]. injection Hs as Hs.
  destruct (strlen_at_split d k Ek) as (rest & Hd0 & Hf). rewrite Hs in Hf.
  unfold memcpy_at in Hd. destruct (_ && _); [|done]. injection Hd as <-.
  unfold splice. rewrite Nat2Z.id, Hs, <-app_assoc. cbn [app]. split.
  - destruct (str_of_total (take (Z.to_nat n) src)
      (drop (k + length (take (Z.to_nat n) src ++ [0])) d)) as [t Ht].
    exists s, t. unfold str_of at 1. rewrite Ek. simpl. split; [by rewrite Hs|].
    rewrite str_of_app by done. by rewrite Ht.
  - intros Hsrc Hl. rewrite take_ge by lia. rewrite str_of_app by done.
    rewrite str_of_app by done. simpl. by rewrite app_nil_r.
Qed.

Definition short_nonzero (n : Z) (src : cstr) : Prop :=
  Forall (fun c => c <> 0) src /\ Z.of_nat (length src) <= n.

Lemma extends_trans a b d : extends a b -> extends b d -> extends a d.
Proof.
  intros (s & t & Ha & Hb) (s' & t' & Hb' & Hd). rewrite Hb in Hb'. injection Hb' as <-.
  exists s, (t ++ t'). by rewrite Hd, <-app_assoc.
Qed.

Lemma extends_refl a s : str_of a = Some s -> extends a a.
Proof. intros Hs. exists s, []. by rewrite app_nil_r. Qed.

Lemma strncats_extends d srcs n d' s : strncats d srcs n = Some d' -> n <> 0 -> str_of d = Some s ->
  extends d d' /\ (Forall (short_nonzero n) srcs -> str_of d' = Some (s ++ concat srcs)).
Proof.
  intros Hd Hn. revert d s Hd. induction srcs as [|src srcs IH]; intros d s Hd Hs; cbn [strncats] in Hd.
  - injection Hd as <-. split; [by eapply extends_refl|]. intros _. by rewrite app_nil_r.
  - destruct (strncat d src n) as [d1|] eqn:E; [|done].
    destruct (strncat_extends d src n d1 s E Hn Hs) as [Hx He].
    pose proof Hx as (s1 & t & Hs1 & Hd1). destruct (IH d1 _ Hd Hd1) as [Hx2 He2]. split.
    + by eapply extends_trans.
    + intros Hf. inversion Hf as [|? ? [Hz Hl] Hf']; subst. specialize (He Hz Hl).
      rewrite He in Hd1. injection Hd1 as Hd1. rewrite <-Hd1 in He2. rewrite He2 by done. cbn [concat].
      by rewrite app_assoc.
Qed.

(** The string of the array contains [item]. *)
Definition contains (a : list Z) (item : cstr) : Prop :=
  exists p q, str_of a = Some (p ++ item ++ q).

Lemma contains_extends a b item : contains a item -> extends a b -> contains b item.
Proof.
  intros (p & q & Ha) (s & t & Hs & Hb). rewrite Ha in Hs. injection Hs as <-.
  exists p, (q ++ t). by rewrite Hb, <-!app_assoc.
Qed.

Lemma string_of_app a b : string_of (a ++ b) = String.append (string_of a) (string_of b).
Proof. induction a as [|c a IH]; [done|]. unfold string_of in *. cbn [foldr app]. by rewrite IH. Qed.

(** ** [bootargs_init] on the variables *)

Section args.
Context {HP : EnvPolicy}.
Implicit Types (a : args_st (gmap string string)) (e : gmap string string).

(** [getenv] only reads; [setenv] stores or refuses. *)
Lemma map_getenv a k : a_getenv k a = Done (cstr_of <$> a_env a !! string_of k, a).
Proof. unfold a_getenv. rewrite (lift_run _ _ _ _ (cstr_of <$> a_env a !! string_of k) (a_env a)); [by destruct a|done]. Qed.

Lemma map_setenv a k v : let r := env_set (a_env a) (string_of k) (string_of <$> v) in
  a_setenv k v a = Done (r.1, set_a_env r.2 a).
Proof. apply lift_run. simpl. by destruct (env_set _ _ _). Qed.

Lemma parse_env_loop_reads names n var a r a' : parse_env_loop names n var a = Done (r, a') -> a' = a.
Proof.
  revert n var. induction names as [|k names IH]; intros n var; cbn [parse_env_loop]; [by intros [= _ <-]|].
  erewrite bind_run by apply map_getenv. destruct (cstr_of <$> _) as [v|]; [|apply IH].
  cbv zeta. destruct (_ <=? _); [by intros [= _ <-]|].
  intros (var' & a1 & ->%checked_state & H2)%bind_inv. by apply IH in H2.
Qed.

Lemma parse_env_config_reads var a r a' : parse_env_config var a = Done (r, a') -> a' = a.
Proof.
  unfold parse_env_config. intros (n & a1 & ->%checked_state & H)%bind_inv. by apply parse_env_loop_reads in H.
Qed.

Definition item_of (k v : cstr) : cstr := k ++ eq_str ++ v ++ space.

(** The item of a listed variable ends up in the array. *)
Lemma parse_env_loop_contains k v names n var a var' a' s :
  short_nonzero (BOOTARGS_STR_MAX_LEN - 1) k -> short_nonzero (BOOTARGS_STR_MAX_LEN - 1) v ->
  cstr_of <$> a_env a !! string_of k = Some v ->
  parse_env_loop names n var a = Done ((0, var'), a') -> str_of var = Some s ->
  extends var var' /\ (k ∈ names -> contains var' (item_of k v)).
Proof.
  intros Hk Hv Hget. revert n var s.
  induction names as [|k' names IH]; intros n var s H Hs; cbn [parse_env_loop] in H.
  { injection H as <- <-. split; [by eapply extends_refl|]. by intros ?%elem_of_nil. }
  erewrite bind_run in H by apply map_getenv.
  destruct (cstr_of <$> a_env a !! string_of k') as [v'|] eqn:Ev.
  2: { destruct (IH _ _ _ H Hs) as [Hx Hc]. split; [done|].
       intros [->|Hin]%elem_of_cons; [congruence|by apply Hc]. }
  cbv zeta in H. destruct (_ <=? _); [discriminate H|].
  apply bind_inv in H as (var1 & a1 & Hcat & H). pose proof (checked_state _ _ _ _ Hcat) as ->.
  assert (strncats var [k'; eq_str; v'; space] (BOOTARGS_STR_MAX_LEN - 1) = Some var1) as Hc1.
  { unfold checked in Hcat. destruct (strncats _ _ _); [|done]. by injection Hcat as ->. }
  destruct (strncats_extends _ _ _ _ s Hc1 ltac:(done) Hs) as [Hx1 Hitem].
  pose proof Hx1 as (s1 & t1 & _ & Hs1). destruct (IH _ _ _ H Hs1) as [Hx2 Hc2]. split.
  - by eapply extends_trans.
  - intros [<-|Hin]%elem_of_cons; [|by apply Hc2]. rewrite Hget in Ev. injection Ev as <-.
    eapply contains_extends; [|exact Hx2]. exists s, []. rewrite Hitem.
    + by rewrite app_nil_r; cbn [concat]; rewrite app_nil_r.
    + assert (short_nonzero (BOOTARGS_STR_MAX_LEN - 1) eq_str /\ short_nonzero (BOOTARGS_STR_MAX_LEN - 1) space)
        as [? ?] by (split; (split; [by apply Forall_singleton|done])).
      by repeat apply Forall_cons_2.
Qed.

Lemma check_dram_limit_env bits a r a' : check_dram_limit bits a = Done (r, a') -> a_env a' = a_env a.
Proof.
  unfold check_dram_limit. intros (d & a1 & [= _ <-] & H)%bind_inv. revert H.
  erewrite bind_run by apply map_getenv. destruct (cstr_of <$> _) as [v|]; [|by intros [= _ <-]].
  cbv zeta. destruct (_ <=? _); by intros [= _ <-].
Qed.

Definition flag_string (bootflag : Z) : string := if bootflag =? 0 then "0" else "1".
Definition flag_cstr (bootflag : Z) : cstr := if bootflag =? 0 then [48] else [49].

(** The environment accepts every value of the variable. *)
Definition accepts_name (k : string) : Prop := forall e v, env_refuses e k v = false.

(** The command line holds the item of the flag. *)
Definition told_flag e (bootflag : Z) : Prop :=
  exists pre post, e !! "bootargs"%string
    = Some (pre +:+ "bootflag=" +:+ flag_string bootflag +:+ " " +:+ post)%string.

Lemma put_flag e bootflag : accepts_name "bootflag" ->
  (env_set e "bootflag" (Some (string_of (flag_cstr bootflag)))).2 !! "bootflag"%string
  = Some (flag_string bootflag).
Proof.
  intros Ha. unfold env_set. rewrite Ha. unfold flag_cstr, flag_string.
  destruct (bootflag =? 0); apply lookup_insert_eq.
Qed.

Lemma put_other e k v k' : k <> k' -> (env_set e k v).2 !! k' = e !! k'.
Proof.
  intros Hk. unfold env_set. destruct (env_refuses e k v); [done|]. simpl.
  destruct v as [v|]; [destruct (bool_decide _)|]; rewrite ?lookup_delete_ne, ?lookup_insert_ne by done; done.
Qed.

Lemma args_stored e args item : accepts_name "bootargs" ->
  contains args item -> item <> [] -> forall s, str_of args = Some s ->
  exists pre post, (env_set e "bootargs" (Some (string_of s))).2 !! "bootargs"%string
    = Some (pre +:+ string_of item +:+ post)%string.
Proof.
  intros Ha (p & q & Hp) Hne s Hs. rewrite Hs in Hp. injection Hp as ->.
  exists (string_of p), (string_of q). unfold env_set. rewrite Ha. simpl.
  rewrite bool_decide_eq_false_2.
  - rewrite lookup_insert_eq. by rewrite !string_of_app.
  - destruct p; [|done]. destruct item; done.
Qed.

Lemma flag_listed : chars "bootflag" ∈ mi_conf.
Proof. apply (bool_decide_unpack _). vm_compute. exact I. Qed.

Lemma set_bootflag_env_run bootflag a :
  set_bootflag_env bootflag a =
    Done (tt, set_a_env (env_set (a_env a) "bootflag" (Some (string_of (flag_cstr bootflag)))).2 a).
Proof. unfold set_bootflag_env. by erewrite bind_run by apply map_setenv. Qed.

(** The collected arguments contain the item of the flag. *)
Lemma parse_env_config_told bootflag var0 var a a' :
  str_of var0 = Some [] -> a_env a !! "bootflag"%string = Some (flag_string bootflag) ->
  parse_env_config var0 a = Done ((0, var), a') ->
  contains var (item_of (chars "bootflag") (flag_cstr bootflag)).
Proof.
  intros H0 Hflag Hp. unfold parse_env_config in Hp. apply bind_inv in Hp as (n & a3 & Hn & Hp).
  pose proof (checked_state _ _ _ _ Hn) as ->.
  eapply parse_env_loop_contains; [..|exact Hp|exact H0|exact flag_listed].
  - split; [|done]. repeat constructor; done.
  - unfold flag_cstr. destruct (bootflag =? 0); (split; [by apply Forall_singleton|done]).
  - change (string_of (chars "bootflag")) with "bootflag"%string. rewrite Hflag.
    unfold flag_string, flag_cstr. by destruct (bootflag =? 0).
Qed.

(** Storing the array as [bootargs]. *)
Lemma store_args_told bootflag var (bootargs : option cstr) a a' :
  accepts_name "bootargs" -> contains var (item_of (chars "bootflag") (flag_cstr bootflag)) ->
  (let! var := checked (match bootargs with
                        | Some b => strncat var b (BOOTARGS_STR_MAX_LEN - 1)
                        | None => Some var end) in
   let! args := checked (str_of var) in
   do! a_setenv (chars "bootargs") (Some args) in ret 0) a = Done (0, a') ->
  a_env a' !! "bootflag"%string = a_env a !! "bootflag"%string /\ told_flag (a_env a') bootflag.
Proof.
  intros Hb Hc (var2 & a6 & Hcat & H)%bind_inv. pose proof (checked_state _ _ _ _ Hcat) as ->.
  assert (contains var2 (item_of (chars "bootflag") (flag_cstr bootflag))) as Hc2.
  { destruct bootargs as [b|]; [|injection Hcat as <-; done].
    destruct (strncat var b (BOOTARGS_STR_MAX_LEN - 1)) as [v2|] eqn:E; [|done]. injection Hcat as <-.
    pose proof Hc as (p & q & Hs). destruct (strncat_extends _ _ _ _ _ E ltac:(done) Hs) as [Hx _].
    by eapply contains_extends. }
  clear Hcat Hc. apply bind_inv in H as (args & a7 & Hargs & H). pose proof (checked_state _ _ _ _ Hargs) as ->.
  assert (str_of var2 = Some args) as Hstr.
  { unfold checked in Hargs. destruct (str_of var2); [|done]. by injection Hargs as ->. }
  apply bind_inv in H as (rc & a8 & H & Hret). injection Hret as <-.
  rewrite map_setenv in H.
  assert (a_env a8 = (env_set (a_env a) "bootargs" (Some (string_of args))).2) as -> by (by injection H as _ <-).
  clear H.
  split; [by apply put_other|].
  destruct (args_stored (a_env a) var2 _ Hb Hc2 ltac:(done) args Hstr) as (pre & post & Hput).
  exists pre, post. rewrite Hput. f_equal. unfold flag_cstr, flag_string. by destruct (bootflag =? 0).
Qed.

Lemma empty_args : str_of (memset 0 BOOTARGS_STR_MAX_LEN) = Some [].
Proof. vm_compute. reflexivity. Qed.

(** [bootargs_init] that answers 0 has told the flag. *)
Lemma bootargs_init_told bits i1 i2 bootflag a a' :
  accepts_name "bootflag" -> accepts_name "bootargs" ->
  bootargs_init bits i1 i2 bootflag a = Done (0, a') ->
  a_env a' !! "bootflag"%string = Some (flag_string bootflag) /\ told_flag (a_env a') bootflag.
Proof.
  intros Hf Hb. unfold bootargs_init. cbv zeta. intros (rc & a1 & _ & H)%bind_inv.
  destruct (negb (rc =? 0)); [discriminate H|].
  erewrite bind_run in H by apply set_bootflag_env_run.
  set (a2 := set_a_env _ a1) in H.
  assert (a_env a2 !! "bootflag"%string = Some (flag_string bootflag)) as Hflag
    by exact (put_flag (a_env a1) bootflag Hf).
  clearbody a2. apply bind_inv in H as ([r var] & a3 & Hp & H).
  pose proof (parse_env_config_reads _ _ _ _ Hp) as ->.
  cbn [fst snd] in H. destruct (Z.eqb_spec r 0) as [->|]; [|discriminate H]. cbn [negb] in H.
  pose proof (parse_env_config_told _ _ _ _ _ empty_args Hflag Hp) as Hc.
  apply bind_inv in H as ([] & a5 & H5%check_dram_limit_env & H).
  erewrite bind_run in H by apply map_getenv.
  destruct (store_args_told bootflag var _ a5 a' Hb Hc H) as [-> Ht]. by rewrite H5.
Qed.
End args.
