(* ===== verification/BootFlagProps.v ===== *)
(** Properties of the boot flag and of the flash commands, on NAND. *)

From stdpp Require Import base numbers list option strings gmap.
From Stdlib Require Import ZArith Lia.
From S2P Require Import Prelude Qsort MtkEnv EnvFlash EnvBoot FlashHal FlashRmw FlashProps Fip ImgInfo Mtd Upgrade BootArgs BootFlag FlashCmd.

(** ** The kind of the flash stays *)

Section kind.
Context {F : Type} {HF : FlashDrv F}.
Implicit Type h : hal F.

Definition keeps_nand {A} (m : M (hal F) A) : Prop :=
  forall h a h', kind h = NANDFLASH -> m h = Done (a, h') -> kind h' = NANDFLASH.

Lemma keeps_nand_bind {A B} (m : M (hal F) A) (k : A -> M (hal F) B) :
  keeps_nand m -> (forall a, keeps_nand (k a)) -> keeps_nand (bind m k).
Proof. intros Hm Hk h b h' Hh (a & h1 & H1 & H2)%bind_inv. eapply Hk; [|exact H2]. by eapply Hm. Qed.

Lemma keeps_nand_ret {A} (a : A) : keeps_nand (ret a).
Proof. by intros h b h' Hh [= _ <-]. Qed.

Lemma keeps_nand_checked {A} (o : option A) : keeps_nand (checked o).
Proof. intros h b h' Hh. destruct o; [by intros [= _ <-]|done]. Qed.

Lemma keeps_nand_gets {A} (f : hal F -> A) : keeps_nand (gets f).
Proof. by intros h b h' Hh [= _ <-]. Qed.

Lemma keeps_nand_buf v : keeps_nand (modify (set_block_buf v)).
Proof. by intros h b h' Hh [= _ <-]. Qed.

Lemma keeps_nand_read a n : keeps_nand (flash_read a n).
Proof. intros h r h' Hh. unfold flash_read, bind, gets. rewrite Hh. by intros [= _ <-]. Qed.

Lemma keeps_nand_erase a n : keeps_nand (flash_erase a n).
Proof.
  intros h r h' Hh. unfold flash_erase, bind, gets. rewrite Hh. unfold drv_call, act.
  destruct (nandflash_erase _ _ _). by intros [= _ <-].
Qed.

Lemma keeps_nand_write a b : keeps_nand (flash_write a b).
Proof.
  intros h r h' Hh. unfold flash_write, bind, gets. rewrite Hh. unfold drv_call, act.
  destruct (nandflash_write _ _ _). by intros [= _ <-].
Qed.

#[local] Create HintDb keeps.
#[local] Hint Resolve keeps_nand_bind keeps_nand_ret keeps_nand_checked keeps_nand_gets keeps_nand_buf
  keeps_nand_read keeps_nand_erase keeps_nand_write : keeps.

Lemma keeps_nand_partial to buf : keeps_nand (flash_partial_write to buf).
Proof.
  unfold flash_partial_write. apply keeps_nand_bind; [apply keeps_nand_gets|]. intros s.
  assert (forall to e, keeps_nand
    (if e <? u32 (to mod e + Z.of_nat (length buf)) then ret (-1) else
     do! modify (set_block_buf (memset 0 _SPI_NAND_BLOCK_SIZE_512KBYTE)) in
     let! r := flash_read (to - to mod e) e in
     let! bb := gets block_buf in
     let! bb := checked (memcpy_at bb 0 (snd r)) in
     do! modify (set_block_buf bb) in
     if negb (fst r =? 0) then ret (-1) else
     let! erc := flash_erase (to - to mod e) e in
     if negb (erc =? 0) then ret (-1) else
     let! bb := gets block_buf in
     let! bb := checked (memcpy_at bb (to mod e) buf) in
     do! modify (set_block_buf bb) in
     let! dat := checked (mem_slice bb 0 e) in
     let! wrc := flash_write (to - to mod e) dat in
     ret (if negb (wrc =? 0) then -1 else 0))) as H.
  { intros to' e. repeat first [apply keeps_nand_bind; [by auto with keeps|intros ?]|case_match]; auto with keeps. }
  destruct (kind s); [apply H..|apply keeps_nand_ret].
Qed.
End kind.

(** ** The boot flag *)

(** What is read from a byte. *)
Definition flag_value (b : Z) : Z :=
  let flag := u8 (b - 48) in if negb (flag =? 0) && negb (flag =? 1) then 0 else flag.

Lemma flag_value_cases b : flag_value b = 0 \/ flag_value b = 1.
Proof.
  unfold flag_value. destruct (Z.eqb_spec (u8 (b - 48)) 0) as [->|]; cbn [negb andb]; [by left|].
  destruct (Z.eqb_spec (u8 (b - 48)) 1) as [->|]; cbn [negb]; [by right|by left].
Qed.

Section flag.
Context {F : Type} {HF : FlashDrv F} {erase size : Z} {HM : NandMem F erase size}.
Context (c : flag_config) (mapped : F -> Z -> Z).
Implicit Type s : mtd_st (F:=F).

(** The place of the flag, in a table that has the reserve area. *)
Definition flag_at s (a : Z) : Prop :=
  exists off, ecnt_get_reservearea_flash_offset (fl_mtd c) (flash_base c) s.2 = Done (off, s.2) /\
    a = u32 (flash_base c + off + (if openwrt (fl_mtd c)
             then reservearea_size c * (reservearea_block (fl_mtd c) - 1) else IMG_BOOT_FLAG_OFFSET c)) /\
    0 <= a /\ a + 1 <= size.

Lemma flag_addr_run s a : kind (v_hal s.1) = NANDFLASH -> flag_at s a -> get_boot_flag_addr c s = Done (a, s).
Proof.
  intros Hk (off & Ho & -> & _). unfold get_boot_flag_addr. run (done). rewrite Hk. cbn [is_nand_or_emmc].
  run (unfold on_mtd; rewrite Ho; done). by destruct s.
Qed.

Hypothesis read_works : forall f a, 0 <= a -> a + 1 <= size -> (nandflash_read f a 1).1 = 0.

Lemma read_flag_run s a : kind (v_hal s.1) = NANDFLASH -> flag_at s a ->
  readBootFlagFromFlash c mapped s = Done (flag_value (mem (drv (v_hal s.1)) a), s).
Proof.
  intros Hk Ha. pose proof Ha as (_ & _ & _ & H0 & H1). unfold readBootFlagFromFlash.
  run (by apply flag_addr_run). run (done). rewrite Hk. cbn [is_nand_or_emmc].
  pose proof (read_works (drv (v_hal s.1)) a H0 H1) as Hr.
  destruct (nandflash_read (drv (v_hal s.1)) a 1) as [rc bs] eqn:E. simpl in Hr. subst rc.
  assert (bs = mem (drv (v_hal s.1)) <$> seqZ a 1) as -> by (by eapply nm_read; [..|exact E]).
  run (run (unfold on_vst, lift_hal, flash_read, bind, gets; rewrite Hk, E; done); done).
  destruct s as [[h r f e] t]. by destruct h.
Qed.

(** Every byte but the flag's is as it was. *)
Definition same_but (f f' : F) (a : Z) : Prop := forall b, 0 <= b < size -> b <> a -> mem f' b = mem f b.

Lemma write_flag_spec s a flag :
  nand_ok (erase:=erase) (size:=size) (v_hal s.1) -> flag_at s a -> flag = 0 \/ flag = 1 ->
  flag_value (mem (drv (v_hal s.1)) a) <> flag ->
  exists rc s', writeBootFlagtoFlash c mapped flag s = Done (rc, s') /\
    kind (v_hal s'.1) = NANDFLASH /\ s'.2 = s.2 /\
    (forall b, ~ a - a mod erase <= b < a - a mod erase + erase ->
       mem (drv (v_hal s'.1)) b = mem (drv (v_hal s.1)) b) /\
    (rc = 0 -> mem (drv (v_hal s'.1)) a = flag + 48 /\ same_but (drv (v_hal s.1)) (drv (v_hal s'.1)) a).
Proof.
  intros Hok Ha Hf Hne. pose proof (no_kind _ Hok) as Hk. pose proof Ha as (_ & _ & _ & H0 & H1).
  pose proof (no_erase _ Hok) as He. pose proof (Z.mod_pos_bound a erase ltac:(lia)) as Hmod.
  assert (u8 (flag + 48) = flag + 48) as Hu by (unfold u8; apply Z.mod_small; lia).
  destruct (wp_done _ _ _ (partial_write_spec (v_hal s.1) a [flag + 48] Hok ltac:(lia) ltac:(simpl; lia)))
    as (rc & h' & Hrun & Hout & Hin).
  assert (kind h' = NANDFLASH) as Hk' by (by eapply keeps_nand_partial).
  set (s' := (set_hal h' s.1, s.2)).
  exists rc, s'. split; [|split; [done|split; [done|split; [exact Hout|]]]].
  - unfold writeBootFlagtoFlash. rewrite Hu.
    assert (negb (flag =? 0) && negb (flag =? 1) = false) as -> by (by destruct Hf as [->| ->]).
    run (by apply read_flag_run). rewrite (proj2 (Z.eqb_neq _ _)) by done.
    run (by apply flag_addr_run). run (unfold on_vst, lift_hal; rewrite Hrun; done).
    run (apply (read_flag_run s' a); [done|exact Ha]). done.
  - intros ->. specialize (Hin eq_refl). unfold bytes_of in Hin. cbn [length] in Hin. split.
    + simpl. rewrite Hin by lia. rewrite (proj2 (Z.leb_le _ _)), (proj2 (Z.ltb_lt _ _)) by lia.
      by rewrite Z.sub_diag.
    + intros b Hb Hba. simpl. rewrite Hin by done.
      destruct (Z.leb_spec a b); [|done]. by rewrite (proj2 (Z.ltb_ge _ _)) by lia.
Qed.

(** C31: [swap_bootflag] selects the other image.  On a NAND whose reads
    succeed it always completes; when it answers 0 the flag that is read
    afterwards is the other one and every other byte of the flash is
    unchanged; whatever it answers, nothing outside the erase block of the
    flag has changed.  A byte that is neither '0' nor '1' counts as 0. *)
Theorem swap_bootflag_flips s a :
  nand_ok (erase:=erase) (size:=size) (v_hal s.1) -> flag_at s a ->
  exists rc s' old, swap_bootflag c mapped s = Done (rc, s') /\
    readBootFlagFromFlash c mapped s = Done (old, s) /\ (old = 0 \/ old = 1) /\
    (forall b, ~ a - a mod erase <= b < a - a mod erase + erase ->
       mem (drv (v_hal s'.1)) b = mem (drv (v_hal s.1)) b) /\
    (rc = 0 -> readBootFlagFromFlash c mapped s' = Done (1 - old, s') /\
               same_but (drv (v_hal s.1)) (drv (v_hal s'.1)) a).
Proof.
  intros Hok Ha. pose proof (no_kind _ Hok) as Hk. set (old := flag_value (mem (drv (v_hal s.1)) a)).
  assert ((if old =? 0 then 1 else 0) = 1 - old /\ (1 - old = 0 \/ 1 - old = 1) /\ old <> 1 - old) as (E & Hc & Hne).
  { unfold old. by destruct (flag_value_cases (mem (drv (v_hal s.1)) a)) as [->| ->]; (split; [|split; [auto|lia]]). }
  destruct (write_flag_spec s a (1 - old) Hok Ha Hc Hne) as (rc & s' & Hrun & Hk' & Hs2 & Hout & Hin).
  exists rc, s', old. split_and!; [|by apply read_flag_run|apply flag_value_cases|done|].
  - unfold swap_bootflag. run (by apply read_flag_run). fold old. rewrite E. exact Hrun.
  - intros Hrc. destruct (Hin Hrc) as [Hb Hsame]. split; [|done].
    rewrite (read_flag_run s' a); [|done|unfold flag_at in *; by rewrite Hs2]. f_equal. f_equal. rewrite Hb.
    by destruct Hc as [->| ->].
Qed.
End flag.
