(* ===== verification/FlashCmdProps.v ===== *)
(** Properties of the flash commands, and witnesses for them and for the boot
    flag on the simulated NAND. *)

From stdpp Require Import base numbers list option strings gmap.
From Stdlib Require Import ZArith Lia.
From S2P Require Import Prelude Qsort Htab HtabRun MtkEnv EnvFlash EnvProps EnvBoot EnvWit FlashHal FlashRmw FlashProps Fip ImgInfo Mtd Upgrade BootArgs BootFlag FlashCmd FlashArgs BootFlagProps UpgradeProps.

Section command.
Context {F : Type} {HF : FlashDrv F} {HL : Libfdt} {HS : SecureMonitor} {HP : EnvPolicy}.
Context {erase size : Z} {HM : NandMem F erase size} {HR : Reliable F erase size}.
Context (c : cmd_config) (mapped : F -> Z -> Z) (chip_command : string -> M (cmd_st (F:=F)) Z).
Implicit Type s : cmd_st (F:=F).

Definition cmd_hal s : hal F := v_hal s.1.1.
Definition set_cmd_hal (h : hal F) s : cmd_st := ((set_hal h s.1.1, s.1.2), s.2).

Lemma c_vst_run {A} (m : M (vst F) A) s r v :
  m s.1.1 = Done (r, v) -> c_vst m s = Done (r, ((v, s.1.2), s.2)).
Proof. intros Hm. unfold c_vst, c_mtd_st, lift, on_vst. by rewrite Hm. Qed.

(** A call of the flash layer from a command. *)
Lemma c_hal_run {A} (m : M (hal F) A) s r h :
  m (cmd_hal s) = Done (r, h) -> c_vst (lift_hal m) s = Done (r, set_cmd_hal h s).
Proof.
  intros Hm. unfold c_vst, c_mtd_st, lift, on_vst, lift_hal. unfold cmd_hal in Hm. by rewrite Hm.
Qed.

Lemma erase_non_block_run h addr len :
  nand_ok (erase:=erase) (size:=size) h -> 0 <= addr -> 0 < len -> addr + len <= size ->
  addr mod erase <> 0 \/ (addr + len) mod erase = 0 ->
  exists f, flash_erase_non_block addr len h = Done (0, set_drv f h) /\
    forall a, 0 <= a < size -> mem f a = if (addr <=? a) && (a <? addr + len) then 255 else mem (drv h) a.
Proof.
  intros Hok Ha Hl Hs Hc.
  destruct (wp_done _ _ _ (erase_non_block_spec h addr len Hok Ha Hl Hs Hc)) as (rc & h' & Hrun & Hp).
  pose proof (accepts_erase_non_block h addr len Hok Ha Hl Hs Hc) as Hacc.
  unfold wp in Hacc. rewrite Hrun in Hacc. destruct Hacc as (-> & f & ->). exists f. split; [done|].
  intros a Hin. exact (Hp eq_refl a Hin).
Qed.

Lemma write_run h addr bs :
  kind h = NANDFLASH -> 0 <= addr -> addr + Z.of_nat (length bs) <= size ->
  (forall a, addr <= a < addr + Z.of_nat (length bs) -> mem (drv h) a = 255) ->
  exists f, flash_write addr bs h = Done (0, set_drv f h) /\
    forall a, mem f a = if (addr <=? a) && (a <? addr + Z.of_nat (length bs))
                        then nth (Z.to_nat (a - addr)) bs 255 else mem (drv h) a.
Proof.
  intros Hk Ha Hs Hff. pose proof (accepts_opt_write true h addr bs Hk Ha Hs) as Hacc.
  unfold wp in Hacc. destruct (flash_write addr bs h) as [[rc h']| |] eqn:E; [|done..].
  destruct Hacc as (-> & f & ->). exists f. split; [done|]. intros a.
  assert (nandflash_write (drv h) addr bs = (0, f)) as Hw.
  { unfold flash_write, bind, gets, drv_call, act in E. rewrite Hk in E.
    destruct (nandflash_write (drv h) addr bs) as [rc f']. by injection E as -> ->. }
  destruct (Z.leb_spec addr a), (Z.ltb_spec a (addr + Z.of_nat (length bs))); cbn [andb];
    [by eapply nm_write|eapply nm_write_only; [exact Hw|lia]..].
Qed.

(** C32: "flash upgrade" on NAND, with a driver that does not fail
    ([Reliable]) and a range that either ends on an erase block or starts
    inside one, replaces exactly the named range by the bytes from RAM, at the
    address named by a third argument or else at the default load address:
    every other byte of the flash, the RAM, the partition table and the
    environment are as before.  For a range that starts on an erase block and
    ends inside one this is false: the erase starts at byte 0 of the flash
    ([flash_erase_non_block_erases_block_0]). *)
Theorem flash_upgrade_writes fuel s a_str l_str b_str addr len src :
  let argv := ["upgrade"; a_str; l_str]%string ++ option_list b_str in
  simple_strtoul a_str 16 = addr -> simple_strtoul l_str 16 = len ->
  src = from_option (fun b => simple_strtoul b 16) CONFIG_SYS_LOAD_ADDR b_str ->
  nand_ok (erase:=erase) (size:=size) (cmd_hal s) -> 0 <= addr -> 0 < len -> addr + len <= size ->
  addr mod erase <> 0 \/ (addr + len) mod erase = 0 ->
  exists f, flash_command c mapped chip_command fuel argv s = Done (0, set_cmd_hal (set_drv f (cmd_hal s)) s) /\
    forall a, 0 <= a < size ->
      mem f a = if (addr <=? a) && (a <? addr + len) then ram s.1.1 (src + (a - addr))
                else mem (drv (cmd_hal s)) a.
Proof.
  intros argv <- <- Hsrc Hok Ha Hl Hs Hc. set (addr := simple_strtoul a_str 16) in *. set (len := simple_strtoul l_str 16) in *.
  destruct (erase_non_block_run (cmd_hal s) addr len Hok Ha Hl Hs Hc) as (f1 & Her & Hf1).
  set (s1 := set_cmd_hal (set_drv f1 (cmd_hal s)) s). set (bs := ram_bytes (ram s.1.1) src len).
  assert (Z.of_nat (length bs) = len) as Hbs by (unfold bs, ram_bytes; rewrite length_fmap, length_seqZ; lia).
  destruct (write_run (cmd_hal s1) addr bs) as (f2 & Hw & Hf2).
  - apply Hok.
  - done.
  - lia.
  - intros a Hin. simpl. rewrite Hf1 by lia. by rewrite (proj2 (Z.leb_le _ _)), (proj2 (Z.ltb_lt _ _)) by lia.
  - exists f2. split.
    + assert (buf_arg argv s = Done (src, s)) as Hb by (subst src; by destruct b_str).
      clear Hsrc. unfold flash_command. cbn -[c_vst simple_strtoul lift_hal flash_write_ram bind buf_arg].
      rewrite !bool_decide_eq_false_2 by done. cbn [orb].
      run (done). run (done). run (exact Hb). run (by apply c_hal_run, Her). fold s1.
      assert (flash_write_ram addr len src s1.1.1 = Done (tt, set_hal (set_drv f2 (cmd_hal s1)) s1.1.1)) as Hwr.
      { assert (lift_hal (flash_write addr bs) s1.1.1 = Done (0, set_hal (set_drv f2 (cmd_hal s1)) s1.1.1)) as Hl'.
        { unfold lift_hal. change (v_hal s1.1.1) with (cmd_hal s1). by rewrite Hw. }
        unfold flash_write_ram. run (done). by run (exact Hl'). }
      run (by apply c_vst_run, Hwr). done.
    + intros a Hin. rewrite Hf2, Hbs. simpl. destruct ((addr <=? a) && (a <? addr + len)) eqn:E; [|by rewrite Hf1, E].
      unfold bs, ram_bytes. rewrite nth_fmap_seqZ by lia. f_equal. lia.
Qed.
End command.

(** ** imgread *)

Section imgread.
Context {F : Type} {HF : FlashDrv F} {HL : Libfdt} {HS : SecureMonitor} {HP : EnvPolicy}.
Context (c : cmd_config) (mapped : F -> Z -> Z).
Implicit Types (s : cmd_st (F:=F)) (a : args_st (gmap string string)).

Lemma find_part_reads ps n f d (t : mtd) r t' : find_part ps n f d t = Done (r, t') -> t' = t.
Proof.
  induction ps as [|p ps IH]; cbn [find_part]; [by intros [= _ <-]|].
  intros (b & t1 & H1 & H)%bind_inv. unfold name_is in H1. destruct (p_name p); [injection H1 as <- <-|done].
  case_bool_decide; [by injection H|by apply IH].
Qed.

Lemma offset_reads n base t r t' : mtd_offset_or_0 n base t = Done (r, t') -> t' = t.
Proof.
  unfold mtd_offset_or_0, ecnt_get_mtd_offset. intros (p & t1 & (x & t2 & [= <- <-] & H1)%bind_inv & [= _ <-])%bind_inv.
  destruct (negb (ecnt_parts t)); [by injection H1|by apply find_part_reads in H1].
Qed.

Lemma c_mtd_inv {A} (m : M (mtd_st (F:=F)) A) s r s' :
  c_mtd_st m s = Done (r, s') -> exists t, m s.1 = Done (r, t) /\ s' = (t, s.2).
Proof. unfold c_mtd_st, lift. destruct (m s.1) as [[x t]| |]; [|done..]. intros [= -> <-]. eauto. Qed.

Lemma c_args_inv {A} (m : M (args_st (gmap string string)) A) s r s' :
  c_args m s = Done (r, s') -> exists a, m (get_args s) = Done (r, a) /\ s' = put_args a s.
Proof. unfold c_args, lift. destruct (m (get_args s)) as [[x a]| |]; [|done..]. intros [= -> <-]. eauto. Qed.

Lemma c_offset_reads n base s r s' : c_mtd_st (on_mtd (mtd_offset_or_0 n base)) s = Done (r, s') -> s' = s.
Proof.
  intros (t & H & ->)%c_mtd_inv. unfold on_mtd in H. destruct s as [[v t0] d]. simpl in H.
  destruct (mtd_offset_or_0 n base t0) as [[x t1]| |] eqn:E; [|done..]. apply offset_reads in E as ->. by injection H as <- <-.
Qed.

(** C33: "flash imgread" answers 0 only when the image that the boot flag
    names passed the verification.  If the environment refuses neither
    [bootflag] nor [bootargs] the kernel is told the same flag: both variables
    hold it, [bootargs] as the item "bootflag=0 " or "bootflag=1 ".  A refused
    [setenv] goes unnoticed by the code. *)
Theorem imgread_verified fuel argv s s' :
  imgread c mapped fuel argv s = Done (0, s') ->
  exists flag (s0 s1 : mtd_st) buf,
    (if dual_image c then readBootFlagFromFlash (c_flag c) mapped s.1 = Done (flag, s0) else flag = 0 /\ s0 = s.1) /\
    boot_verify (c_verify c) fuel (flash_base (c_flag c)) buf flag s0 = Done (0, s1) /\
    (accepts_name "bootflag" -> accepts_name "bootargs" ->
     env s'.1.1 !! "bootflag"%string = Some (flag_string flag) /\ told_flag (env s'.1.1) flag).
Proof.
  unfold imgread. intros (x & t1 & (y & t0 & ->%checked_state & [= _ <-])%bind_inv & H)%bind_inv.
  apply bind_inv in H as (buf & t2 & H2 & H).
  assert (t2 = s) as ->.
  { destruct (Nat.leb 4 (length argv)); [|by injection H2]. apply bind_inv in H2 as (z & t0 & ->%checked_state & [= _ <-]). done. }
  cbv zeta in H. apply bind_inv in H as (first & t3 & ->%c_offset_reads & H).
  apply bind_inv in H as (second & t4 & ->%c_offset_reads & H).
  apply bind_inv in H as (flag & t5 & H5 & H). apply bind_inv in H as (rc & t6 & (s1 & H6 & ->)%c_mtd_inv & H).
  destruct (rc =? 0) eqn:Erc; [|done]. apply Z.eqb_eq in Erc as ->. cbn [negb] in H.
  apply bind_inv in H as (infos & t7 & _ & H). destruct infos as [[i1 i2]|]; [|done].
  apply bind_inv in H as (rc & t8 & (a & H8 & ->)%c_args_inv & H).
  destruct (rc =? 0) eqn:Erc; [|done]. apply Z.eqb_eq in Erc as ->. injection H as <-.
  exists flag, t5.1, s1, buf. split; [|split; [done|]].
  2: { intros Hf Hb. by apply (bootargs_init_told _ _ _ _ _ _ Hf Hb) in H8. }
  destruct (dual_image c); [apply c_mtd_inv in H5 as (t & ? & ->); done|by injection H5 as <- <-].
Qed.
End imgread.

(** ** Concrete runs *)

Module CmdWitnesses.
Import SimFlash.

Definition cfg : flag_config :=
  FlagCfg (MtdCfg false false false 1 "") 0x10 false 0 0 0.

Definition table : mtd := Mtd true [Part (Some "reservearea"%string) 0x40 0x100 0] 1 false 0 0 (-1) (-1).

(** RAM byte [a] is [a mod 251]. *)
Definition vst0 : vst sim := Vst (on NANDFLASH) (fun a => a mod 251) 0 ∅.

Lemma swap_bootflag_flips_witness :
  exists rc s' old, swap_bootflag cfg (fun f a => f a) (vst0, table) = Done (rc, s') /\
    readBootFlagFromFlash cfg (fun f a => f a) (vst0, table) = Done (old, (vst0, table)) /\ (old = 0 \/ old = 1) /\
    (forall b, ~ 0x110 - 0x110 mod 64 <= b < 0x110 - 0x110 mod 64 + 64 ->
       mem (NandMem := sim_mem 64 512) (drv (v_hal s'.1)) b = mem (NandMem := sim_mem 64 512) (drv (v_hal vst0)) b) /\
    (rc = 0 -> readBootFlagFromFlash cfg (fun f a => f a) s' = Done (1 - old, s') /\
       same_but (HM := sim_mem 64 512) (drv (v_hal vst0)) (drv (v_hal s'.1)) 0x110).
Proof.
  apply (swap_bootflag_flips (HM := sim_mem 64 512) cfg (fun f a => f a)).
  - intros f a _ _. reflexivity.
  - exact nand_on.
  - exists 0x100. split; [reflexivity|]. split; [reflexivity|lia].
Defined.

#[local] Instance reliable : Reliable sim 64 512.
Proof. by split. Qed.
#[local] Instance no_fdt : Libfdt := Build_Libfdt (fun _ _ _ => -1) (fun _ _ _ _ => -1) (fun _ _ _ _ => None).
#[local] Instance accept_all : EnvPolicy := {| env_refuses _ _ _ := false |}.
#[local] Instance no_smc : SecureMonitor := Build_SecureMonitor (fun r _ _ _ _ => (0, r)) 0 (fun _ l => l).

Definition cmd_cfg : cmd_config := CmdCfg (Cfg false false) cfg true 10.

(** "flash upgrade 64 c8 40": 200 bytes at 100, from RAM address 64. *)
Lemma flash_upgrade_writes_witness :
  exists f, flash_command cmd_cfg (fun f a => f a) (fun _ => ret 0) 0 ["upgrade"; "64"; "c8"; "40"]%string ((vst0, table), 0)
      = Done (0, set_cmd_hal (set_drv f (on NANDFLASH)) ((vst0, table), 0)) /\
    forall a, 0 <= a < 512 ->
      mem (NandMem := sim_mem 64 512) f a =
        if (100 <=? a) && (a <? 100 + 200) then (64 + (a - 100)) mod 251 else a mod 256.
Proof.
  apply (flash_upgrade_writes (HM := sim_mem 64 512) cmd_cfg (fun f a => f a) (fun _ => ret 0) 0 ((vst0, table), 0)
           "64" "c8" (Some "40"%string) 100 200 64).
  - reflexivity.
  - reflexivity.
  - reflexivity.
  - exact nand_on.
  - lia.
  - lia.
  - lia.
  - left. vm_compute. discriminate.
Defined.

(** A device that refuses every erase and every write: "flash upgrade" answers
    0 all the same, with nothing written. *)
Definition broken_drv : FlashDrv sim := {|
  nandflash_erase f _ _ := (1, f); nandflash_read f _ _ := (0, []); nandflash_write f _ _ := (1, f);
  spiflash_erase f _ _ := (1, f); spiflash_read f _ _ := (0, []); spiflash_write f _ _ := (1, f);
  mmc_block_read f _ := (0, []); mmc_block_write f _ _ _ := (1, f); mmc_block_erase f _ _ := (1, f)
|}.

Example flash_upgrade_ignores_failure :
  match flash_command (HF := broken_drv) cmd_cfg (fun f a => f a) (fun _ => ret 0) 0 ["upgrade"; "80"; "40"; "40"]%string ((vst0, table), 0) with
  | Done (v, s') => (v, bool_decide (map (drv (cmd_hal s')) [0x80; 0x90; 0xa0] = map (drv (cmd_hal ((vst0, table), 0))) [0x80; 0x90; 0xa0]))
  | _ => (1, false)
  end = (0, true).
Proof. vm_compute. reflexivity. Qed.

(** A device with a signed package at 0 and a FIT image behind it. *)
Definition fit_header : list Z := [0xd0; 0x0d; 0xfe; 0xed; 0; 0; 0x10; 0] ++ memset 0 40.
Definition signed_flash : sim := ram_store (ram_store (fun _ => 0) 0 SimUpgrade.package) 0x140 fit_header.
Definition signed_state : cmd_st :=
  ((Vst (SimUpgrade.nand signed_flash) (fun _ => 0) 0 ∅, table), 0).
#[local] Instance some_fdt : Libfdt :=
  Build_Libfdt (fun _ _ _ => 1) (fun _ _ _ _ => 2) (fun _ buf _ _ => Some (buf + 64, 16)).
Definition boot_cfg : cmd_config := CmdCfg (Cfg true false) cfg true 10.
Lemma imgread_verified_witness :
  exists s',
    imgread (HS := SimUpgrade.sim_monitor) boot_cfg (fun f a => f a) 3300 ["imgread"; "40"]%string signed_state = Done (0, s') /\
  exists flag (s0 s1 : mtd_st) buf,
    readBootFlagFromFlash cfg (fun f a => f a) signed_state.1 = Done (flag, s0) /\
    boot_verify (H1 := SimUpgrade.sim_monitor) (c_verify boot_cfg) 3300 (flash_base (c_flag boot_cfg)) buf flag s0 = Done (0, s1) /\
    env s'.1.1 !! "bootflag"%string = Some (flag_string flag) /\ told_flag (env s'.1.1) flag.
Proof.
  assert (match imgread (HS := SimUpgrade.sim_monitor) boot_cfg (fun f a => f a) 3300 ["imgread"; "40"]%string signed_state
          with Done (v, _) => v =? 0 | _ => false end = true) as H by (vm_compute; reflexivity).
  destruct (imgread (HS := SimUpgrade.sim_monitor) boot_cfg (fun f a => f a) 3300 ["imgread"; "40"]%string signed_state)
    as [[v s']| |] eqn:E; [|discriminate H..].
  apply Z.eqb_eq in H. subst v. exists s'. split; [reflexivity|].
  destruct (imgread_verified (HS := SimUpgrade.sim_monitor) boot_cfg (fun f a => f a) 3300 ["imgread"; "40"]%string
    signed_state s' E) as (flag & s0 & s1 & buf & Hread & Hver & Htold).
  exists flag, s0, s1, buf. split; [exact Hread|]. split; [exact Hver|].
  apply Htold; intros e v; reflexivity.
Defined.

(** An environment that refuses [bootargs]: imgread answers 0 and the kernel is
    told nothing. *)
Definition refuse_args : EnvPolicy := {| env_refuses _ k _ := String.eqb k "bootargs" |}.

Example imgread_ignores_refusal :
  match imgread (HS := SimUpgrade.sim_monitor) (HP := refuse_args) boot_cfg (fun f a => f a) 3300
          ["imgread"; "40"]%string signed_state with
  | Done (v, s') => (v, bool_decide (env s'.1.1 !! "bootflag"%string = Some "0"%string),
                     bool_decide (env s'.1.1 !! "bootargs"%string = None))
  | _ => (1, false, false)
  end = (0, true, true).
Proof. vm_compute. reflexivity. Qed.
End CmdWitnesses.
