(* ===== verification/Trx.v ===== *)
(** The image tool of the build host ([src/tools/trx/trx.c], [trx.h]).

    A little-endian 64-bit host: [unsigned long] and [size_t] have 64 bits, an
    [unsigned int] stored through a pointer is written least byte first.  The
    state is the file system and the one buffer of the tool.  The contents of
    memory that is not written yet, of [config_file] and of the automatic
    variables, the answer of [realloc] and the write permissions are
    parameters.  Messages are not modelled. *)

From stdpp Require Import base numbers list option strings gmap.
From Stdlib Require Import ZArith Lia Ascii.
From S2P Require Import Prelude Crc Qsort FlashHal Fip ImgInfo EnvFlash.

Definition u64 (z : Z) : Z := z mod 2 ^ 64.

(** ** What the tool uses of the C library *)

Definition is_space (c : Z) : bool := (c =? 32) || ((9 <=? c) && (c <=? 13)).

Fixpoint skip_spaces (s : list Z) : list Z :=
  match s with c :: s' => if is_space c then skip_spaces s' else s | [] => [] end.

(** The value of a digit of the bases up to 36. *)
Definition digit_of (c : Z) : Z :=
  if (48 <=? c) && (c <=? 57) then c - 48
  else if (65 <=? c) && (c <=? 90) then c - 65 + 10
  else if (97 <=? c) && (c <=? 122) then c - 97 + 10 else 36.

(** All digits from here on: the value, and what is left. *)
Fixpoint digits (base acc : Z) (s : list Z) : Z * list Z :=
  match s with
  | c :: s' => if digit_of c <? base then digits base (acc * base + digit_of c) s' else (acc, s)
  | [] => (acc, [])
  end.

Definition sign (s : list Z) : bool * list Z :=
  match s with
  | c :: s' => if c =? 45 then (true, s') else if c =? 43 then (false, s') else (false, s)
  | [] => (false, [])
  end.

(** The base and the first digit; "0x" counts in front of a digit only. *)
Definition prefix (base : Z) (s : list Z) : Z * list Z :=
  match s with
  | z :: x :: d :: s' =>
      if (z =? 48) && ((x =? 120) || (x =? 88)) && (digit_of d <? 16) && ((base =? 0) || (base =? 16))
      then (16, d :: s')
      else ((if base =? 0 then (if z =? 48 then 8 else 10) else base), s)
  | z :: _ => ((if base =? 0 then (if z =? 48 then 8 else 10) else base), s)
  | [] => ((if base =? 0 then 10 else base), s)
  end.

(** [strtoul(s, &e, base)]: the value, whether [errno] is set, and [e];
    [None] for an [e] that is [s]. *)
Definition strtoul (s : list Z) (base : Z) : Z * bool * option (list Z) :=
  let '(neg, s1) := sign (skip_spaces s) in
  let '(base, s2) := prefix base s1 in
  let '(v, e) := digits base 0 s2 in
  if Nat.eqb (length e) (length s2) then (0, false, None)
  else if 2 ^ 64 <=? v then (2 ^ 64 - 1, true, Some e)
  else (if neg then u64 (- v) else v, false, Some e).

(** [(int) strtol(s, NULL, 10)] *)
Definition host_atoi (s : list Z) : Z :=
  let '(neg, s1) := sign (skip_spaces s) in
  let '(v, _) := digits 10 0 s1 in
  s32 (if neg then Z.max (- v) (- 2 ^ 63) else Z.min v (2 ^ 63 - 1)).

(** The string at the first occurrence of [pat]. *)
Fixpoint strstr_from (s pat : list Z) : option (list Z) :=
  if bool_decide (take (length pat) s = pat) then Some s
  else match s with [] => None | _ :: s' => strstr_from s' pat end.

(** The C string at the head of some memory. *)
Fixpoint cstring (s : list Z) : list Z :=
  match s with c :: s' => if c =? 0 then [] else c :: cstring s' | [] => [] end.

(** [strncpy(dst, src, n)] fills [n] bytes. *)
Definition strncpy_bytes (src : list Z) (n : nat) : list Z := resize n 0 src.

(** The lines as [fgets(buf, n + 1, fp)] delivers them. *)
Fixpoint fgets_line (n : nat) (file : list Z) : list Z * list Z :=
  match n, file with
  | S n, c :: file' =>
      if c =? 10 then ([c], file')
      else let '(l, rest) := fgets_line n file' in (c :: l, rest)
  | _, _ => ([], file)
  end.

(** *** [getopt] with the options of the tool

    The leading '-' makes every other argument the value of option 1; the ':'
    after it makes a missing value answer ':'. *)

Definition optstring : list (Ascii.ascii * bool) :=
  [("k", true); ("r", true); ("s", true); ("o", true); ("m", true); ("a", true); ("b", true);
   ("u", true); ("c", true); ("d", true); ("f", true); ("p", true); ("t", true); ("g", false);
   ("h", true); ("x", true); ("z", true); ("y", true); ("i", false)]%char.

Inductive opt : Type :=
| Opt (c : Ascii.ascii) (optarg : option string)
| NonOpt (optarg : string)        (* 1 *)
| BadOpt.                         (* ? and : *)

Definition takes_value (c : Ascii.ascii) : option bool :=
  snd <$> find (fun o => bool_decide (o.1 = c)) optstring.

(** The options in one argument; the flag says that the last one wants the
    next argument. *)
Fixpoint cluster (s : string) : list opt * option Ascii.ascii :=
  match s with
  | EmptyString => ([], None)
  | String c s' =>
      match takes_value c with
      | None => let '(os, w) := cluster s' in (BadOpt :: os, w)
      | Some false => let '(os, w) := cluster s' in (Opt c None :: os, w)
      | Some true =>
          match s' with
          | EmptyString => ([], Some c)
          | _ => ([Opt c (Some s')], None)
          end
      end
  end.

Fixpoint getopt (argv : list string) : list opt :=
  match argv with
  | [] => []
  | arg :: argv' =>
      match arg with
      | String "-" (String c s) =>
          if bool_decide (arg = "--"%string) then [] else
          let '(os, w) := cluster (String c s) in
          match w with
          | None => os ++ getopt argv'
          | Some c =>
              match argv' with
              | [] => os ++ [BadOpt]
              | v :: argv'' => os ++ Opt c (Some v) :: getopt argv''
              end
          end
      | _ => NonOpt arg :: getopt argv'
      end
  end.

(** ** CRC *)

Definition crc_32_tab : list Z :=
  [0x00000000; 0x77073096; 0xee0e612c; 0x990951ba; 0x076dc419; 0x706af48f;
   0xe963a535; 0x9e6495a3; 0x0edb8832; 0x79dcb8a4; 0xe0d5e91e; 0x97d2d988;
   0x09b64c2b; 0x7eb17cbd; 0xe7b82d07; 0x90bf1d91; 0x1db71064; 0x6ab020f2;
   0xf3b97148; 0x84be41de; 0x1adad47d; 0x6ddde4eb; 0xf4d4b551; 0x83d385c7;
   0x136c9856; 0x646ba8c0; 0xfd62f97a; 0x8a65c9ec; 0x14015c4f; 0x63066cd9;
   0xfa0f3d63; 0x8d080df5; 0x3b6e20c8; 0x4c69105e; 0xd56041e4; 0xa2677172;
   0x3c03e4d1; 0x4b04d447; 0xd20d85fd; 0xa50ab56b; 0x35b5a8fa; 0x42b2986c;
   0xdbbbc9d6; 0xacbcf940; 0x32d86ce3; 0x45df5c75; 0xdcd60dcf; 0xabd13d59;
   0x26d930ac; 0x51de003a; 0xc8d75180; 0xbfd06116; 0x21b4f4b5; 0x56b3c423;
   0xcfba9599; 0xb8bda50f; 0x2802b89e; 0x5f058808; 0xc60cd9b2; 0xb10be924;
   0x2f6f7c87; 0x58684c11; 0xc1611dab; 0xb6662d3d; 0x76dc4190; 0x01db7106;
   0x98d220bc; 0xefd5102a; 0x71b18589; 0x06b6b51f; 0x9fbfe4a5; 0xe8b8d433;
   0x7807c9a2; 0x0f00f934; 0x9609a88e; 0xe10e9818; 0x7f6a0dbb; 0x086d3d2d;
   0x91646c97; 0xe6635c01; 0x6b6b51f4; 0x1c6c6162; 0x856530d8; 0xf262004e;
   0x6c0695ed; 0x1b01a57b; 0x8208f4c1; 0xf50fc457; 0x65b0d9c6; 0x12b7e950;
   0x8bbeb8ea; 0xfcb9887c; 0x62dd1ddf; 0x15da2d49; 0x8cd37cf3; 0xfbd44c65;
   0x4db26158; 0x3ab551ce; 0xa3bc0074; 0xd4bb30e2; 0x4adfa541; 0x3dd895d7;
   0xa4d1c46d; 0xd3d6f4fb; 0x4369e96a; 0x346ed9fc; 0xad678846; 0xda60b8d0;
   0x44042d73; 0x33031de5; 0xaa0a4c5f; 0xdd0d7cc9; 0x5005713c; 0x270241aa;
   0xbe0b1010; 0xc90c2086; 0x5768b525; 0x206f85b3; 0xb966d409; 0xce61e49f;
   0x5edef90e; 0x29d9c998; 0xb0d09822; 0xc7d7a8b4; 0x59b33d17; 0x2eb40d81;
   0xb7bd5c3b; 0xc0ba6cad; 0xedb88320; 0x9abfb3b6; 0x03b6e20c; 0x74b1d29a;
   0xead54739; 0x9dd277af; 0x04db2615; 0x73dc1683; 0xe3630b12; 0x94643b84;
   0x0d6d6a3e; 0x7a6a5aa8; 0xe40ecf0b; 0x9309ff9d; 0x0a00ae27; 0x7d079eb1;
   0xf00f9344; 0x8708a3d2; 0x1e01f268; 0x6906c2fe; 0xf762575d; 0x806567cb;
   0x196c3671; 0x6e6b06e7; 0xfed41b76; 0x89d32be0; 0x10da7a5a; 0x67dd4acc;
   0xf9b9df6f; 0x8ebeeff9; 0x17b7be43; 0x60b08ed5; 0xd6d6a3e8; 0xa1d1937e;
   0x38d8c2c4; 0x4fdff252; 0xd1bb67f1; 0xa6bc5767; 0x3fb506dd; 0x48b2364b;
   0xd80d2bda; 0xaf0a1b4c; 0x36034af6; 0x41047a60; 0xdf60efc3; 0xa867df55;
   0x316e8eef; 0x4669be79; 0xcb61b38c; 0xbc66831a; 0x256fd2a0; 0x5268e236;
   0xcc0c7795; 0xbb0b4703; 0x220216b9; 0x5505262f; 0xc5ba3bbe; 0xb2bd0b28;
   0x2bb45a92; 0x5cb36a04; 0xc2d7ffa7; 0xb5d0cf31; 0x2cd99e8b; 0x5bdeae1d;
   0x9b64c2b0; 0xec63f226; 0x756aa39c; 0x026d930a; 0x9c0906a9; 0xeb0e363f;
   0x72076785; 0x05005713; 0x95bf4a82; 0xe2b87a14; 0x7bb12bae; 0x0cb61b38;
   0x92d28e9b; 0xe5d5be0d; 0x7cdcefb7; 0x0bdbdf21; 0x86d3d2d4; 0xf1d4e242;
   0x68ddb3f8; 0x1fda836e; 0x81be16cd; 0xf6b9265b; 0x6fb077e1; 0x18b74777;
   0x88085ae6; 0xff0f6a70; 0x66063bca; 0x11010b5c; 0x8f659eff; 0xf862ae69;
   0x616bffd3; 0x166ccf45; 0xa00ae278; 0xd70dd2ee; 0x4e048354; 0x3903b3c2;
   0xa7672661; 0xd06016f7; 0x4969474d; 0x3e6e77db; 0xaed16a4a; 0xd9d65adc;
   0x40df0b66; 0x37d83bf0; 0xa9bcae53; 0xdebb9ec5; 0x47b2cf7f; 0x30b5ffe9;
   0xbdbdf21c; 0xcabac28a; 0x53b39330; 0x24b4a3a6; 0xbad03605; 0xcdd70693;
   0x54de5729; 0x23d967bf; 0xb3667a2e; 0xc4614ab8; 0x5d681b02; 0x2a6f2b94;
   0xb40bbe37; 0xc30c8ea1; 0x5a05df1b; 0x2d02ef8d].

(** [UPDC32(octet, crc)]; a [char] is signed. *)
Definition UPDC32 (octet crc : Z) : Z :=
  Z.lxor (nth (Z.to_nat (Z.land (Z.lxor crc octet) 0xff)) crc_32_tab 0) (Z.shiftr crc 8).


Definition crc32buf (buf : list Z) : Z :=
  fold_left (fun crc b => UPDC32 (s8 b) crc) buf 0xFFFFFFFF.

(** ** State *)

Definition TRX_MAX_LEN : Z := 0x8000000.
Definition TRX_MAGIC : Z := 0x30524448.
Definition TRX_MAGIC1 : Z := 0x31524448.
Definition TRX_MAGIC3 : Z := 0x33524448.

Record trx_config := TrxCfg {
  little_endian : bool;          (* TCSUPPORT_LITTLE_ENDIAN *)
  bb_256kb : bool;               (* TCSUPPORT_BB_256KB *)
  bootrom_large : bool;          (* BOOTROM_LARGE_SIZE *)
  bl2_optimization : bool        (* TCSUPPORT_BL2_OPTIMIZATION *)
}.

(** What the host decides. *)
Record trx_host := TrxHost {
  writable : string -> bool;
  malloc_ok : bool;
  realloc_moves : Z -> Z -> option bool;  (* [None]: it fails *)
  junk_name : option string;              (* in [config_file]; [None]: no NUL *)
  junk_word : Z -> Z;                     (* in [bl2_h] and [f], by offset *)
  junk_pad : Z                            (* in [is_pad] *)
}.

Record trx_st := TrxSt {
  files : gmap string (list Z);
  stdout : list Z;
  buf : ram_t;              (* from offset 0; beyond [buf_size] it is not allocated *)
  buf_size : Z;             (* [maxlen] *)
  p_valid : bool;           (* [p] still points to the buffer *)
  cur_len : Z;
  need_padding : bool;
  in_open : bool;           (* [in != NULL] *)
  out : option string;      (* [None]: stdout *)
  config_file : option string
}.

Section trx.
Context (c : trx_config) (h : trx_host).
Implicit Type s : trx_st.
Abbreviation st := trx_st.

Definition set_files v s := TrxSt v (stdout s) (buf s) (buf_size s) (p_valid s) (cur_len s) (need_padding s) (in_open s) (out s) (config_file s).
Definition set_stdout v s := TrxSt (files s) v (buf s) (buf_size s) (p_valid s) (cur_len s) (need_padding s) (in_open s) (out s) (config_file s).
Definition set_buf v s := TrxSt (files s) (stdout s) v (buf_size s) (p_valid s) (cur_len s) (need_padding s) (in_open s) (out s) (config_file s).
Definition set_alloc n v s := TrxSt (files s) (stdout s) (buf s) n v (cur_len s) (need_padding s) (in_open s) (out s) (config_file s).
Definition set_cur_len v s := TrxSt (files s) (stdout s) (buf s) (buf_size s) (p_valid s) v (need_padding s) (in_open s) (out s) (config_file s).
Definition set_padding v s := TrxSt (files s) (stdout s) (buf s) (buf_size s) (p_valid s) (cur_len s) v (in_open s) (out s) (config_file s).
Definition set_in v s := TrxSt (files s) (stdout s) (buf s) (buf_size s) (p_valid s) (cur_len s) (need_padding s) v (out s) (config_file s).
Definition set_out v s := TrxSt (files s) (stdout s) (buf s) (buf_size s) (p_valid s) (cur_len s) (need_padding s) (in_open s) v (config_file s).
Definition set_config v s := TrxSt (files s) (stdout s) (buf s) (buf_size s) (p_valid s) (cur_len s) (need_padding s) (in_open s) (out s) v.

(** *** The buffer *)

Definition buf_store (a : Z) (bs : list Z) : M st unit :=
  let! s := gets (fun s => s) in
  if (0 <=? a) && (a + Z.of_nat (length bs) <=? buf_size s)
  then modify (set_buf (ram_store (buf s) a bs)) else undef.

Definition buf_load (a n : Z) : M st (list Z) :=
  let! s := gets (fun s => s) in
  if (0 <=? a) && (0 <=? n) && (a + n <=? buf_size s) then ret (ram_bytes (buf s) a n) else undef.

(** [memset(buf + a, 0, n)] *)
Definition buf_zero (a n : Z) : M st unit :=
  let! s := gets (fun s => s) in
  if (0 <=? a) && (0 <=? n) && (a + n <=? buf_size s)
  then modify (set_buf (ram_store (buf s) a (memset 0 n))) else undef.

(** [*p.field = bs] *)
Definition p_store (off : Z) (bs : list Z) : M st unit :=
  let! ok := gets p_valid in if ok : bool then buf_store off bs else undef.

Definition bswap_32 (x : Z) : Z := le_val (reverse (le_bytes 4 x)).
Definition STORE32_LE (x : Z) : Z := if little_endian c then x else bswap_32 x.

(** Store an unsigned int in a field of the header. *)
Definition p_word (off x : Z) : M st unit := p_store off (le_bytes 4 (STORE32_LE x)).

Definition off_magic : Z := 0.
Definition off_header_len : Z := 4.
Definition off_len : Z := 8.
Definition off_crc32 : Z := 12.
Definition off_version : Z := 16.
Definition off_customerversion : Z := 48.
Definition off_kernel_len : Z := 80.
Definition off_rootfs_len : Z := 84.
Definition off_romfile_len : Z := 88.
Definition off_Model : Z := 92.
Definition off_decompAddr : Z := 124.
Definition off_saflag : Z := 128.
Definition off_saflen : Z := 132.

(** *** Files *)

Definition EXIT_FAILURE : Z := 1.
Definition EXIT_SUCCESS : Z := 0.

(** Every step answers the exit code, or [None] to go on. *)
Definition next : M st (option Z) := ret None.
Definition exit (code : Z) : M st (option Z) := ret (Some code).
Definition usage : M st (option Z) := exit EXIT_FAILURE.

Definition fopen_r (name : string) : M st bool := gets (fun s => bool_decide (is_Some (files s !! name))).
Definition fopen_w (name : string) : M st bool :=
  if writable h name then do! modify (fun s => set_files (<[name := []]> (files s)) s) in ret true
  else ret false.
Definition content (name : string) : M st (list Z) := gets (fun s => default [] (files s !! name)).

(** [fread(buf + a, 1, n, in)] from the start of the file: the number of
    bytes, and [feof]. *)
Definition fread (a n : Z) (name : string) : M st (Z * bool) :=
  let! bs := content name in
  let got := if Z.of_nat (length bs) <=? n then bs else take (Z.to_nat n) bs in
  do! buf_store a got in
  ret (Z.of_nat (length got), Z.of_nat (length bs) <? n).

(** [fwrite(buf, n, 1, out)] *)
Definition fwrite (n : Z) : M st unit :=
  let! bs := buf_load 0 n in
  let! o := gets out in
  match o with
  | None => modify (fun s => set_stdout (stdout s ++ bs) s)
  | Some name => modify (fun s => set_files (<[name := default [] (files s !! name) ++ bs]> (files s)) s)
  end.

Definition arg (argv : list string) (i : nat) : M st string := checked (argv !! i).

(** The size that [ftell] answers at the end, as an int. *)
Definition input_size_of (name : string) : M st Z :=
  let! bs := content name in ret (s32 (Z.of_nat (length bs))).

Definition crc_at (a n : Z) : M st Z := let! bs := buf_load a n in ret (crc32buf bs).

(** *** [get_config] *)

Fixpoint get_config_loop (fuel : nat) (pat file : list Z) : option (list Z) :=
  match fuel, file with
  | S fuel, _ :: _ =>
      let '(line, rest) := fgets_line 255 file in
      match strstr_from (cstring line) pat with
      | Some point1 => Some (drop (length pat) point1)
      | None => get_config_loop fuel pat rest
      end
  | _, _ => None
  end.

(** The text behind the first "key=". *)
Definition config_value (key : string) (file : list Z) : option (list Z) :=
  get_config_loop (length file) (chars key ++ [61]) file.

(** [get_config(key, p->field, 32, config_file)] *)
Definition get_config (key : string) (off : Z) (file_path : string) : M st unit :=
  let! file := content file_path in
  match config_value key file with
  | Some v => p_store off (strncpy_bytes v 32)
  | None => ret tt
  end.

(** *** The modes that replace the image header *)

Definition sizeof_multi_bl2_h : Z := 28.
Definition sizeof_f_header_t : Z := 32.

(** The loop body of 'y': one copy of the boot extension. *)
Definition y_copy (in_name : string) (n : Z) (bl2_h : list Z) (i : Z) : M st unit :=
  let base := 0x20000 * i in
  do! buf_zero base 0x800 in
  do! buf_store (base + 0x800) bl2_h in
  let! crc := crc_at (base + 0x800) sizeof_multi_bl2_h in
  do! buf_store (base + 0x800 + sizeof_multi_bl2_h) (le_bytes 4 (STORE32_LE crc)) in
  do! fread (base + 0x800 + sizeof_multi_bl2_h + 4) n in_name in ret tt.

Definition do_y (argv : list string) : M st (option Z) :=
  let! in_name := arg argv 2 in
  let! ok := fopen_r in_name in if negb ok then usage else
  let! out_name := arg argv 3 in
  let! ok := fopen_w out_name in if negb ok then usage else
  let! input_size := input_size_of in_name in
  let n := u64 (input_size + 1 - 32) in
  do! fread 0 n in_name in
  let! crc := crc_at 0 (u64 (input_size - 32)) in
  let bl2_h := le_bytes 4 0xAA640001 ++ le_bytes 4 (STORE32_LE crc) ++ le_bytes 4 1 ++ memset 0 12
               ++ (junk_word h <$> seqZ 24 4) in
  do! for_each 8 0 1 (y_copy in_name n bl2_h) in
  do! modify (set_out (Some out_name)) in
  do! fwrite (0x20000 * 8) in
  exit EXIT_SUCCESS.

(** One input of 'z' behind what is there; [None] when it was not read to its
    end. *)
Definition z_part (a size : Z) (name : string) : M st bool :=
  let! r := fread a (u64 (size + 1)) name in ret r.2.

Definition do_z (argv : list string) : M st (option Z) :=
  if negb (bl2_optimization c) then exit 0 else
  let! n1 := arg argv 2 in let! ok := fopen_r n1 in if negb ok then usage else
  let! n2 := arg argv 3 in let! ok := fopen_r n2 in if negb ok then usage else
  let! n3 := arg argv 4 in let! ok := fopen_r n3 in if negb ok then usage else
  let! n4 := arg argv 5 in let! ok := fopen_r n4 in if negb ok then usage else
  let! out_name := arg argv 6 in let! ok := fopen_w out_name in if negb ok then usage else
  let! input_size := input_size_of n1 in
  let! output_size := input_size_of n2 in
  let! input_size2 := input_size_of n3 in
  let! flash_table_size := input_size_of n4 in
  do! buf_zero 0 (input_size + output_size + input_size2 + flash_table_size) in
  let word z := le_bytes 4 z in
  let f := word output_size ++ word input_size2 ++ word flash_table_size
           ++ word (0x1e843c00 + sizeof_f_header_t) ++ word 0x08004000 ++ word output_size
           ++ (junk_word h <$> seqZ 24 8) in
  let! eof := z_part 0 input_size n1 in if negb eof then exit EXIT_FAILURE else
  do! buf_store input_size f in
  let! eof := z_part (input_size + sizeof_f_header_t) output_size n2 in if negb eof then exit EXIT_FAILURE else
  let! eof := z_part (input_size + sizeof_f_header_t + output_size) input_size2 n3 in
  if negb eof then exit EXIT_FAILURE else
  let! eof := z_part (input_size + sizeof_f_header_t + output_size + input_size2) flash_table_size n4 in
  if negb eof then exit EXIT_FAILURE else
  do! modify (set_out (Some out_name)) in
  do! fwrite (input_size + output_size + sizeof_f_header_t + input_size2 + flash_table_size) in
  exit 0.

Definition TCBOOT_SIZE : Z := if bb_256kb c then 0x40000 else if bootrom_large c then 0x20000 else 0x10000.
Definition TCBOOT_CRC32_LOC : Z := TCBOOT_SIZE - 512 - 4.

(** The CRC of the first [n] bytes, stored behind them. *)
Definition put_crc (n : Z) : M st unit :=
  let! crc := crc_at 0 n in buf_store n (le_bytes 4 (STORE32_LE crc)).

(** 't' under TCSUPPORT_BB_256KB, from the [memset] on: the name of the
    output and the size. *)
Definition t_bb (argv : list string) (in_name : string) (input_size : Z) : M st (string * Z) :=
  do! buf_zero 0 input_size in
  do! fread 0 input_size in_name in
  let a3 := argv !! 3%nat in
  if Nat.leb 4 (length argv) && bool_decide (a3 = Some "bootext.ram"%string) then
    do! put_crc (u64 (input_size - 4)) in ret ("bootext.ram"%string, input_size)
  else if Nat.leb 4 (length argv) && bool_decide (a3 = Some "rsa_pub.txt"%string) then
    do! put_crc input_size in ret ("rsa_pub.txt"%string, input_size + 4)
  else
    do! put_crc (0x20000 - 4) in
    do! put_crc TCBOOT_CRC32_LOC in ret ("tcboot.bin"%string, input_size).

Definition do_t (argv : list string) : M st (option Z) :=
  let! in_name := arg argv 2 in
  let! ok := fopen_r in_name in if negb ok then usage else
  let! input_size := input_size_of in_name in
  if (input_size <? 0) || (TRX_MAX_LEN <? input_size) then exit EXIT_FAILURE else
  if bb_256kb c then
    let! r := t_bb argv in_name input_size in
    let! ok := fopen_w r.1 in if negb ok then exit EXIT_FAILURE else
    do! modify (set_out (Some r.1)) in
    do! fwrite r.2 in exit 0
  else
    let! ok := fopen_w "tcboot.bin" in if negb ok then usage else
    let! cal_len := (if Nat.leb 4 (length argv)
                     then let! a := arg argv 3 in ret (strtoul (chars a) 16).1.1 else ret TCBOOT_SIZE) in
    let! r := fread 0 (input_size + 1) in_name in
    if negb (r.2 : bool) then exit EXIT_FAILURE else
    do! put_crc (u64 (cal_len - 4)) in
    do! modify (set_out (Some "tcboot.bin"%string)) in
    do! fwrite input_size in exit 0.

Definition do_x (argv : list string) : M st (option Z) :=
  let! in_name := arg argv 2 in
  let! ok := fopen_r in_name in if negb ok then usage else
  let! is_pad := (if Nat.eqb (length argv) 5
                  then let! a := arg argv 4 in ret (s32 (strtoul (chars a) 16).1.1) else ret (junk_pad h)) in
  let! input_size := input_size_of in_name in
  if (input_size <? 0) || (TRX_MAX_LEN <? input_size) then exit EXIT_FAILURE else
  do! buf_zero 0 (input_size + 4) in
  let! out_name := arg argv 3 in
  let! ok := fopen_w out_name in if negb ok then usage else
  let! r := fread 0 (input_size + 1) in_name in
  if negb (r.2 : bool) then exit EXIT_FAILURE else
  let input_size := if is_pad =? 1 then input_size - 4 else input_size in
  do! put_crc (u64 input_size) in
  do! modify (set_out (Some out_name)) in
  do! fwrite (input_size + 4) in exit 0.

(** 'g' and 'h': append the CRC to a file, most significant byte first. *)
Definition do_allinone (name : string) : M st (option Z) :=
  let! ok := fopen_r name in if negb (ok && writable h name) then usage else
  let! bs := content name in
  let count := Z.of_nat (length bs) in
  do! fread 0 count name in
  let! crc := crc_at 0 count in
  let tail := reverse (le_bytes 4 (STORE32_LE crc)) in
  do! buf_store count tail in
  do! modify (fun s => set_files (<[name := bs ++ tail]> (files s)) s) in
  exit 0.

(** *** The options *)

Definition NO_ALIGN : Z := 1.
Definition ALIGN_4B : Z := 4.
Definition ALIGN_64K : Z := 0x1000.

Definition named (name : list Z) (pat : string) : bool := bool_decide (is_Some (strstr_from name (chars pat))).

(** The magic number by the name of the input. *)
Definition magic_of (name : string) : option Z :=
  let n := chars name in
  if named n "linux.7z" then Some TRX_MAGIC
  else if named n "rootfs" then Some TRX_MAGIC1
  else if named n "tclinux" then Some TRX_MAGIC2
  else if named n "romfile.cfg" || named n "romfile_f.cfg" || named n "romfile_epon.cfg" || named n "romfile_"
  then Some TRX_MAGIC3 else None.

(** Fill up with zeros to a multiple of [round]: the new length. *)
Definition round_up (at_ n round : Z) : M st Z :=
  let r := Z.land n (round - 1) in
  if r =? 0 then ret n else do! buf_zero (at_ + n) (round - r) in ret (n + (round - r)).

Definition add_file (optarg : string) : M st (option Z) :=
  do! match magic_of optarg with Some m => p_word off_magic m | None => ret tt end in
  let! ok := fopen_r optarg in if negb ok then usage else
  do! modify (set_in true) in
  let! s := gets (fun s => s) in
  let! r := fread (cur_len s) (u64 (buf_size s - cur_len s)) optarg in
  if negb (r.2 : bool) then exit EXIT_FAILURE else
  let! n := round_up (cur_len s) r.1 (if need_padding s then ALIGN_4B else NO_ALIGN) in
  do! modify (set_cur_len (u32 (cur_len s + n))) in
  next.

(** [strtoul(optarg, &e, 0)] with the test of what it leaves. *)
Definition number (optarg : string) : option Z :=
  match strtoul (chars optarg) 0 with
  | (v, false, Some []) => Some v
  | _ => None
  end.

Definition set_maxlen (optarg : string) : M st (option Z) :=
  match number optarg with
  | None => usage
  | Some maxlen =>
      let r := Z.land maxlen (ALIGN_4B - 1) in
      let maxlen := if r =? 0 then maxlen else u64 (maxlen + (ALIGN_4B - r)) in
      if maxlen <? ALIGN_4B then usage else
      let! old := gets buf_size in
      match realloc_moves h old maxlen with
      | None => exit EXIT_FAILURE
      | Some moved => do! modify (fun s => set_alloc maxlen (p_valid s && negb moved) s) in next
      end
  end.

Definition align_to (optarg : string) : M st (option Z) :=
  match number optarg with
  | None => usage
  | Some n =>
      let! cur := gets cur_len in
      let r := Z.land cur (u64 (n - 1)) in
      if r =? 0 then next else
      if n <? r then usage else
      do! buf_zero cur (n - r) in
      do! modify (set_cur_len (u32 (cur + (n - r)))) in next
  end.

Definition offset_to (optarg : string) : M st (option Z) :=
  match number optarg with
  | None => usage
  | Some n =>
      let! cur := gets cur_len in
      if n <? cur then next else
      do! buf_zero cur (n - cur) in
      do! modify (set_cur_len (u32 n)) in next
  end.

Definition set_out_file (name : string) : M st (option Z) :=
  let! ok := fopen_w name in if negb ok then usage else
  do! modify (set_out (Some name)) in next.

Definition option_step (argv : list string) (o : opt) : M st (option Z) :=
  match o with
  | NonOpt optarg => add_file optarg
  | BadOpt => usage
  | Opt code v =>
      let! v := checked (if bool_decide (code = "g"%char) || bool_decide (code = "i"%char)
                         then Some ""%string else v) in
      let word off := do! p_word off (u32 (host_atoi (chars v))) in next in
      match code with
      | "y" => do_y argv
      | "z" => do_z argv
      | "k" => word off_kernel_len
      | "r" => word off_rootfs_len
      | "d" => word off_romfile_len
      | "p" => do! modify (set_padding true) in next
      | "c" => do! modify (set_config (Some (String.substring 0 127 v))) in next
      | "t" => do_t argv
      | "x" => do_x argv
      | "f" => add_file v
      | "o" => set_out_file v
      | "m" => set_maxlen v
      | "a" => align_to v
      | "b" => offset_to v
      | "u" => match number v with
               | None => usage
               | Some n => do! p_word off_decompAddr (u32 n) in next
               end
      | "g" => do_allinone "tclinux_allinone"
      | "h" => do_allinone "tclinux_allinone_nand"
      | "s" => do! p_word off_saflen (u32 (host_atoi (chars v))) in
               do! p_word off_saflag 1 in next
      | _ => usage
      end%char
  end.

Fixpoint options (argv : list string) (os : list opt) : M st (option Z) :=
  match os with
  | [] => next
  | o :: os =>
      let! r := option_step argv o in
      match r with Some code => exit code | None => options argv os end
  end.

(** *** The end of [main] *)

Definition write_image : M st (option Z) :=
  let! s := gets (fun s => s) in
  if negb (in_open s) then usage else
  let! len := round_up 0 (cur_len s) (if need_padding s then ALIGN_64K else NO_ALIGN) in
  let cur := u32 len in
  do! modify (set_cur_len cur) in
  let! crc := crc_at sizeof_trx_header (u64 (cur - sizeof_trx_header)) in
  do! p_word off_crc32 crc in
  do! p_word off_header_len sizeof_trx_header in
  let! cfg := checked (config_file s) in
  let! present := fopen_r cfg in
  do! (if present : bool then
         do! get_config "Model" off_Model cfg in
         do! get_config "version" off_version cfg in
         get_config "customerversion" off_customerversion cfg
       else ret tt) in
  do! p_word off_len cur in
  if cur =? 0 then exit EXIT_FAILURE else
  do! fwrite cur in exit EXIT_SUCCESS.

(** [argv] with the name of the program. *)
Definition main (argv : list string) : M st (option Z) :=
  if negb (malloc_ok h) then exit EXIT_FAILURE else
  let! r := options argv (getopt (tail argv)) in
  match r with Some code => exit code | None => write_image end.

(** The start: the file system and what the buffer happens to hold. *)
Definition trx_start (fs : gmap string (list Z)) (heap : ram_t) : trx_st :=
  TrxSt fs [] heap TRX_MAX_LEN true sizeof_trx_header false false None (junk_name h).
End trx.
