(* ===== verification/TrxProps.v ===== *)
(** What the image tool writes is what the boot loader checks: the TRX header
    and the CRC of an image, and the CRC of a boot loader file. *)

From stdpp Require Import base numbers list option strings gmap.
From Stdlib Require Import ZArith Lia Ascii.
From S2P Require Import Prelude Crc Qsort FlashHal Fip Ram ImgInfo EnvFlash Mtd Upgrade Reassembly Trx.

(** ** The CRC *)

Lemma crc_32_tab_eq : crc_32_tab = crc_table.
Proof. reflexivity. Qed.

Lemma land_lxor_distr x y z : Z.land (Z.lxor x y) z = Z.lxor (Z.land x z) (Z.land y z).
Proof. apply Z.bits_inj'. intros n _. rewrite !Z.lxor_spec, !Z.land_spec, Z.lxor_spec. by destruct (Z.testbit x n), (Z.testbit y n), (Z.testbit z n). Qed.

Lemma land_s8 x y : is_u8 y -> Z.land (Z.lxor x (s8 y)) 255 = Z.land (Z.lxor x y) 255.
Proof.
  intros Hy. unfold is_u8 in Hy. rewrite !land_lxor_distr. f_equal. change 255 with (Z.ones 8).
  rewrite !Z.land_ones by lia. unfold s8. rewrite Zminus_mod_idemp_l. rewrite Z.mod_small with (a := y) by lia.
  replace (y + 2 ^ 7 - 2 ^ 7) with y by lia. by apply Z.mod_small.
Qed.

(** The loop of the tool is the CRC of the boot loader. *)
Lemma crc32buf_fold buf : bytes buf -> crc32buf buf = fold_left crc_byte buf 0xFFFFFFFF.
Proof.
  unfold crc32buf. generalize 0xFFFFFFFF as z. induction buf as [|b buf IH]; intros z Hb; [done|].
  apply Forall_cons in Hb as [Hb Hbs]. cbn [fold_left]. rewrite IH by done. f_equal.
  unfold UPDC32. rewrite land_s8 by done. rewrite crc_32_tab_eq. by apply (DO_CRC_byte z b).
Qed.

Lemma crc32buf_u32 buf : bytes buf -> is_u32 (crc32buf buf).
Proof. intros Hb. rewrite crc32buf_fold by done. apply fold_crc_byte_u32; [done|]. by vm_compute. Qed.

Lemma crc_byte_low z : crc_byte z (z mod 256) = z / 256.
Proof.
  unfold crc_byte. change 256 with (2 ^ 8). rewrite <- Z.land_ones, <- Z.shiftr_div_pow2 by lia. change (Z.ones 8) with 255.
  rewrite (split_low_byte z) at 1. rewrite Z.lxor_comm, <- Z.lxor_assoc, Z.lxor_nilpotent, Z.lxor_0_l.
  apply (crc_steps_high 8).
Qed.

(** A CRC that follows its data makes the CRC of both 0. *)
Lemma crc_residue z : is_u32 z -> fold_left crc_byte (le_bytes 4 z) z = 0.
Proof.
  intros Hz. unfold is_u32 in Hz. cbn [le_bytes fold_left]. rewrite !crc_byte_low.
  rewrite !Z.div_div by lia. apply Z.div_small. lia.
Qed.

(** ** The invariant of the option loop *)

(** Partial correctness: [Q] of every answer there is. *)
Definition post {S A} (m : M S A) (Q : A -> S -> Prop) (s : S) : Prop :=
  forall r s', m s = Done (r, s') -> Q r s'.

Lemma post_bind {S A B} (m : M S A) (k : A -> M S B) Q s :
  post m (fun a s1 => post (k a) Q s1) s -> post (bind m k) Q s.
Proof. intros H r s' (a & s1 & Hm & Hk)%bind_inv. by eapply H. Qed.

Record inv (s : trx_st) : Prop := {
  inv_buf : forall x, is_u8 (buf s x);
  inv_size : 0 <= buf_size s < 2 ^ 64;
  inv_cur : is_u32 (cur_len s);
  inv_files : forall n f, files s !! n = Some f -> bytes f;
  inv_out : forall n, out s = Some n -> files s !! n = Some [];
  inv_stdout : stdout s = []
}.

Section options.
Context (c : trx_config) (h : trx_host).
Implicit Types (s : trx_st) (argv : list string).

(** [m] keeps the invariant; a step of the loop also may fail. *)
Definition keeps {A} (m : M trx_st A) : Prop := forall s, inv s -> post m (fun _ => inv) s.
Definition step_ok (m : M trx_st (option Z)) : Prop :=
  forall s, inv s -> post m (fun r s' => match r with Some code => code = EXIT_FAILURE | None => inv s' end) s.

Lemma rkeeps_ret {A} (a : A) : keeps (ret a).
Proof. by intros s Hi r s' [= _ <-]. Qed.

Lemma keeps_gets {A} (f : trx_st -> A) : keeps (gets f).
Proof. by intros s Hi r s' [= _ <-]. Qed.

Lemma rkeeps_undef {A} : keeps (A:=A) undef.
Proof. by intros s Hi r s'. Qed.

Lemma rkeeps_checked {A} (o : option A) : keeps (checked o).
Proof. intros s Hi r s' ->%checked_state. done. Qed.

Lemma keeps_modify f : (forall s, inv s -> inv (f s)) -> keeps (modify f).
Proof. intros Hf s Hi r s' [= _ <-]. by apply Hf. Qed.

Lemma rkeeps_bind {A B} (m : M trx_st A) (k : A -> M trx_st B) : keeps m -> (forall a, keeps (k a)) -> keeps (bind m k).
Proof. intros Hm Hk s Hi. apply post_bind. intros a s1 E. by eapply Hk, Hm. Qed.

Lemma step_bind {A} (m : M trx_st A) (k : A -> M trx_st (option Z)) :
  keeps m -> (forall a, step_ok (k a)) -> step_ok (bind m k).
Proof. intros Hm Hk s Hi. apply post_bind. intros a s1 E. by eapply Hk, Hm. Qed.

Lemma step_next : step_ok next.
Proof. by intros s Hi r s' [= <- <-]. Qed.

Lemma step_usage : step_ok usage.
Proof. by intros s Hi r s' [= <- _]. Qed.

Lemma step_fails : step_ok (exit EXIT_FAILURE).
Proof. exact step_usage. Qed.

Lemma inv_set_buf s a bs : inv s -> bytes bs -> inv (set_buf (ram_store (buf s) a bs) s).
Proof. intros [] Hb. split; try done. by apply ram_store_bytes. Qed.

Lemma keeps_buf_store a bs : bytes bs -> keeps (buf_store a bs).
Proof.
  intros Hb s Hi r s'. unfold buf_store, bind, gets. destruct (_ && _); [|done].
  intros [= _ <-]. by apply inv_set_buf.
Qed.

Lemma bytes_zeros n : bytes (memset 0 n).
Proof. by apply Forall_replicate. Qed.

Lemma keeps_buf_zero a n : keeps (buf_zero a n).
Proof.
  intros s Hi r s'. unfold buf_zero, bind, gets. destruct (_ && _); [|done].
  intros [= _ <-]. apply inv_set_buf; [done|apply bytes_zeros].
Qed.

Lemma keeps_p_store off bs : bytes bs -> keeps (p_store off bs).
Proof.
  intros Hb. apply rkeeps_bind; [apply keeps_gets|]. intros []; [by apply keeps_buf_store|apply rkeeps_undef].
Qed.

Lemma keeps_p_word off x : keeps (p_word c off x).
Proof. apply keeps_p_store, le_bytes_bytes. Qed.

Lemma keeps_fread a n name : keeps (fread a n name).
Proof.
  intros s Hi r s'. unfold fread, content. intros (bs & s1 & [= <- <-] & H)%bind_inv.
  apply bind_inv in H as ([] & s1 & H & [= _ <-]). revert H. apply keeps_buf_store; [|done].
  assert (bytes (default [] (files s !! name))) as Hb.
  { destruct (files s !! name) as [f|] eqn:E; [by apply (inv_files s Hi name)|by apply Forall_nil]. }
  destruct (_ <=? _); [done|by apply Forall_take].
Qed.

Lemma keeps_round_up a n round : keeps (round_up a n round).
Proof.
  unfold round_up. destruct (_ =? 0); [apply rkeeps_ret|]. apply rkeeps_bind; [apply keeps_buf_zero|]. intros. apply rkeeps_ret.
Qed.

Lemma inv_set_cur v s : inv s -> is_u32 v -> inv (set_cur_len v s).
Proof. by intros [] Hv. Qed.

Lemma keeps_set_cur z : keeps (modify (set_cur_len (u32 z))).
Proof. apply keeps_modify. intros s Hi. apply inv_set_cur; [done|apply u32_is]. Qed.

Lemma keeps_fopen_w name : keeps (fopen_w h name).
Proof.
  unfold fopen_w. destruct (writable h name); [|apply rkeeps_ret]. apply rkeeps_bind; [|intros; apply rkeeps_ret].
  apply keeps_modify. intros s []. split; try done; simpl.
  - intros n f. rewrite lookup_insert. case_decide; [intros [= <-]; by apply Forall_nil|eauto].
  - intros n Hn. rewrite lookup_insert. case_decide; eauto.
Qed.
End options.

Create HintDb trx.
#[export] Hint Resolve rkeeps_ret keeps_gets rkeeps_undef rkeeps_checked keeps_buf_store keeps_buf_zero keeps_p_word
  keeps_p_store keeps_fread keeps_round_up keeps_set_cur keeps_fopen_w step_next step_usage step_fails : trx.

(** Walk through a step. *)
Ltac trx_step :=
  repeat first
    [ progress intros
    | solve [auto with trx]
    | apply step_bind | apply rkeeps_bind
    | match goal with
      | |- context [if ?b then _ else _] => destruct b
      | |- context [match ?o with Some _ => _ | None => _ end] => destruct o
      end ].

Section steps.
Context (c : trx_config) (h : trx_host).
Implicit Types (s : trx_st) (argv : list string).

Lemma digit_of_nonneg d : 0 <= digit_of d.
Proof.
  unfold digit_of.
  destruct (Z.leb_spec 48 d), (Z.leb_spec d 57), (Z.leb_spec 65 d), (Z.leb_spec d 90), (Z.leb_spec 97 d),
    (Z.leb_spec d 122); cbn [andb]; lia.
Qed.

Lemma digits_nonneg base acc l : 0 <= base -> 0 <= acc -> 0 <= (digits base acc l).1.
Proof.
  intros Hb. revert acc. induction l as [|d l IH]; intros acc Ha; [done|]. cbn [digits].
  destruct (_ <? _); [|done]. apply IH. pose proof (digit_of_nonneg d). nia.
Qed.

Lemma prefix_base base l : 0 <= base -> 0 <= (prefix base l).1.
Proof.
  intros Hb. unfold prefix. destruct l as [|z [|x [|d l]]]; repeat (destruct (_ && _); simpl); simpl;
    destruct (base =? 0); simpl; try destruct (z =? 48); lia.
Qed.

Lemma strtoul_range l base : 0 <= base -> 0 <= (strtoul l base).1.1 < 2 ^ 64.
Proof.
  intros Hb. unfold strtoul. destruct (sign _) as [neg l1].
  pose proof (prefix_base base l1 Hb). destruct (prefix base l1) as [b l2]. simpl in *.
  pose proof (digits_nonneg b 0 l2 ltac:(done) ltac:(done)). destruct (digits b 0 l2) as [v e]. simpl in *.
  destruct (Nat.eqb _ _); [done|]. destruct (Z.leb_spec (2 ^ 64) v); [done|].
  destruct neg; simpl; [|lia]. unfold u64. apply Z.mod_pos_bound. lia.
Qed.

Lemma number_range v n : number v = Some n -> 0 <= n < 2 ^ 64.
Proof.
  unfold number. pose proof (strtoul_range (chars v) 0 ltac:(done)) as Hr.
  destruct (strtoul (chars v) 0) as [[z []] [[|]|]]; intros [= <-]; done.
Qed.

Lemma keeps_set_config v : keeps (modify (set_config v)).
Proof. apply keeps_modify. by intros s []. Qed.

Lemma keeps_set_padding v : keeps (modify (set_padding v)).
Proof. apply keeps_modify. by intros s []. Qed.

Lemma keeps_set_in v : keeps (modify (set_in v)).
Proof. apply keeps_modify. by intros s []. Qed.

#[local] Hint Resolve keeps_set_config keeps_set_padding keeps_set_in : trx.

Lemma add_file_ok v : step_ok (add_file c v).
Proof. unfold add_file, fopen_r. trx_step. Qed.

Lemma align_to_ok v : step_ok (align_to v).
Proof. unfold align_to. trx_step. Qed.

Lemma offset_to_ok v : step_ok (offset_to v).
Proof. unfold offset_to. trx_step. Qed.

Lemma set_out_file_ok v : step_ok (set_out_file h v).
Proof.
  unfold set_out_file, fopen_w. intros s Hi. apply post_bind. intros ok s1.
  destruct (writable h v); [|intros [= <- <-]; by apply step_usage].
  intros ([] & s2 & [= <-] & [= <- <-])%bind_inv. cbn [negb].
  apply post_bind. intros [] s3 [= <-]. intros r s' [= <- <-].
  destruct Hi. split; try done; simpl.
  - intros n f. rewrite lookup_insert. case_decide; [intros [= <-]; by apply Forall_nil|eauto].
  - intros n [= ->]. apply lookup_insert_eq.
Qed.

Lemma set_maxlen_ok v : step_ok (set_maxlen h v).
Proof.
  unfold set_maxlen. destruct (number v) as [n|] eqn:En; [|auto with trx]. apply number_range in En.
  set (m := if _ : bool then n else _). assert (0 <= m < 2 ^ 64) as Hm.
  { subst m. destruct (_ =? 0); [done|]. unfold u64. apply Z.mod_pos_bound. lia. }
  cbv zeta. destruct (m <? ALIGN_4B); [auto with trx|]. apply step_bind; [auto with trx|]. intros old.
  destruct (realloc_moves h old m); [|auto with trx]. apply step_bind; [|auto with trx].
  apply keeps_modify. intros s []. by split.
Qed.

(** The options that build an image, as opposed to the modes. *)
Definition image_option (o : opt) : bool :=
  match o with
  | Opt code _ => negb (bool_decide (code ∈ ["y"; "z"; "t"; "x"; "g"; "h"]%char))
  | _ => true
  end.

#[local] Hint Resolve add_file_ok align_to_ok offset_to_ok set_out_file_ok set_maxlen_ok : trx.

Lemma option_step_ok argv o : image_option o = true -> step_ok (option_step c h argv o).
Proof.
  destruct o as [code v|v|]; cbn [option_step image_option]; [|auto with trx..].
  intros Hc. apply step_bind; [apply rkeeps_checked|]. clear v. intros v.
  destruct code as [[] [] [] [] [] [] [] []]; cbv beta iota zeta;
    match goal with
    | |- step_ok usage => exact step_usage
    | |- step_ok (do_y _ _ _) => discriminate Hc
    | |- step_ok (do_z _ _ _) => discriminate Hc
    | |- step_ok (do_t _ _ _) => discriminate Hc
    | |- step_ok (do_x _ _ _) => discriminate Hc
    | |- step_ok (do_allinone _ _ _) => discriminate Hc
    | _ => trx_step
    end.
Qed.

Lemma options_ok argv os : forallb image_option os = true -> step_ok (options c h argv os).
Proof.
  induction os as [|o os IH]; cbn [options forallb]; [auto with trx|]. rewrite andb_true_iff. intros [Ho Hos] s Hi.
  apply post_bind. intros r s1 E. apply option_step_ok in E; [|done|done].
  destruct r as [code|]; [by intros r s' [= <- <-]|]. by apply IH.
Qed.
End steps.

(** ** The end of main *)

Lemma ram_bytes_sub r r' a b n k m :
  ram_bytes r a n = ram_bytes r' b n -> 0 <= k -> 0 <= m -> k + m <= n ->
  ram_bytes r (a + k) m = ram_bytes r' (b + k) m.
Proof.
  intros H Hk Hm Hn. replace n with (k + (m + (n - k - m))) in H by lia.
  rewrite !(ram_bytes_app _ _ k) in H by lia. apply app_inj_1 in H as [_ H]; [|by rewrite !ram_bytes_len].
  rewrite !(ram_bytes_app _ _ m) in H by lia. by apply app_inj_1 in H as [? _]; [|by rewrite !ram_bytes_len].
Qed.

(** [s'] differs from [s] in buffer bytes in the range only. *)
Definition wrote (lo hi : Z) (s s' : trx_st) : Prop :=
  exists r, s' = set_buf r s /\ forall x, x < lo \/ hi <= x -> r x = buf s x.

Lemma wrote_refl lo hi s : wrote lo hi s s.
Proof. exists (buf s). by destruct s. Qed.

Lemma wrote_trans lo hi s1 s2 s3 : wrote lo hi s1 s2 -> wrote lo hi s2 s3 -> wrote lo hi s1 s3.
Proof.
  intros (r & -> & Hr) (r' & -> & Hr'). exists r'. split; [done|]. intros x Hx. rewrite Hr' by done. by apply Hr.
Qed.

Lemma wrote_mono lo hi lo' hi' s s' : wrote lo hi s s' -> lo' <= lo -> hi <= hi' -> wrote lo' hi' s s'.
Proof. intros (r & -> & Hr) Hl Hh. exists r. split; [done|]. intros x Hx. apply Hr. lia. Qed.

Lemma wrote_bytes lo hi s s' a n :
  wrote lo hi s s' -> a + n <= lo \/ hi <= a -> ram_bytes (buf s') a n = ram_bytes (buf s) a n.
Proof. intros (r & -> & Hr) Ha. apply ram_bytes_ext. intros k Hk. simpl. apply Hr. lia. Qed.

(** The values of a configuration file are bytes. *)
Lemma fgets_line_bytes n f : bytes f -> bytes (fgets_line n f).1 /\ bytes (fgets_line n f).2.
Proof.
  revert f. induction n as [|n IH]; intros f Hf; [by split; [apply Forall_nil|]|].
  destruct f as [|b f]; [by split|]. apply Forall_cons in Hf as [Hb Hf]. cbn [fgets_line].
  destruct (b =? 10); [split; [by apply Forall_singleton|done]|].
  destruct (IH f Hf) as [H1 H2]. destruct (fgets_line n f). by split; [apply Forall_cons|].
Qed.

Lemma cstring_bytes f : bytes f -> bytes (cstring f).
Proof. induction 1; cbn [cstring]; [by apply Forall_nil|]. destruct (_ =? 0); [by apply Forall_nil|by apply Forall_cons]. Qed.

Lemma strstr_from_bytes f pat g : bytes f -> strstr_from f pat = Some g -> bytes g.
Proof.
  intros Hf. induction Hf as [|b f Hb Hf IH]; cbn [strstr_from]; case_bool_decide; intros E; simplify_eq; eauto.
  - by apply Forall_nil.
  - by apply Forall_cons.
Qed.

Lemma config_value_bytes key f v : config_value key f = Some v -> bytes f -> bytes v.
Proof.
  unfold config_value. generalize (length f) as n. intros n. revert f. induction n as [|n IH]; intros f E Hf; [done|].
  destruct f as [|b f]; [done|]. cbn [get_config_loop] in E.
  destruct (fgets_line_bytes 255 (b :: f) Hf) as [H1 H2]. destruct (fgets_line 255 (b :: f)) as [l rest].
  destruct (strstr_from (cstring l) _) as [g|] eqn:Eg; [|by eapply IH].
  injection E as <-. apply Forall_drop. eapply strstr_from_bytes; [|done]. by apply cstring_bytes.
Qed.

Section image.
Context (c : trx_config) (h : trx_host).
Implicit Types (s : trx_st) (argv : list string).

Lemma buf_store_wrote a bs s r s' :
  buf_store a bs s = Done (r, s') ->
  wrote a (a + Z.of_nat (length bs)) s s' /\ ram_bytes (buf s') a (Z.of_nat (length bs)) = bs.
Proof.
  unfold buf_store, bind, gets. destruct (_ && _); [|done]. intros [= _ <-]. split; [|apply ram_bytes_store].
  eexists. split; [done|]. intros x Hx. by apply ram_store_outside.
Qed.

Lemma p_store_wrote off bs s r s' :
  p_store off bs s = Done (r, s') ->
  wrote off (off + Z.of_nat (length bs)) s s' /\ ram_bytes (buf s') off (Z.of_nat (length bs)) = bs.
Proof.
  unfold p_store. intros (ok & s1 & [= <- <-] & H)%bind_inv. destruct (p_valid s); [|done]. by eapply buf_store_wrote.
Qed.

Lemma p_word_wrote off x s r s' :
  little_endian c = true -> p_word c off x s = Done (r, s') ->
  wrote off (off + 4) s s' /\ ram_bytes (buf s') off 4 = le_bytes 4 x.
Proof. unfold p_word, STORE32_LE. intros -> H. exact (p_store_wrote _ _ _ _ _ H). Qed.

Lemma get_config_wrote key off file s r s' : get_config key off file s = Done (r, s') -> wrote off (off + 32) s s'.
Proof.
  unfold get_config, content. intros (bs & s1 & [= <- <-] & H)%bind_inv.
  destruct (config_value _ _) as [v|]; [|injection H as _ <-; apply wrote_refl].
  apply p_store_wrote in H as [H _]. unfold strncpy_bytes in H. by rewrite length_resize in H.
Qed.

Lemma crc_at_inv a n s z s' : crc_at a n s = Done (z, s') ->
  s' = s /\ z = crc32buf (ram_bytes (buf s) a n) /\ 0 <= a /\ 0 <= n /\ a + n <= buf_size s.
Proof.
  unfold crc_at, buf_load. intros (bs & s1 & H & [= <- <-])%bind_inv. unfold bind, gets in H.
  destruct (_ && _) eqn:E; [|done]. injection H as <- <-. split_and!; [done|done|lia..].
Qed.

(** The configuration file only touches model and versions. *)
Lemma config_wrote cfg (present : bool) s r s' :
  (if present then
     do! get_config "Model" off_Model cfg in
     do! get_config "version" off_version cfg in
     get_config "customerversion" off_customerversion cfg
   else ret tt) s = Done (r, s') -> wrote 16 256 s s'.
Proof.
  intros H. destruct present; [|injection H as _ <-; apply wrote_refl].
  apply bind_inv in H as (r1 & s1 & H1%get_config_wrote & H). apply bind_inv in H as (r2 & s2 & H2%get_config_wrote & H).
  apply get_config_wrote in H. eapply wrote_mono in H1, H2, H; [eapply wrote_trans; [exact H1|eapply wrote_trans; [exact H2|exact H]]|..];
    unfold off_Model, off_version, off_customerversion; lia.
Qed.
End image.

Lemma keeps_get_config key off file : keeps (get_config key off file).
Proof.
  unfold get_config, content. intros s Hi r s' (bs & s1 & [= <- <-] & H)%bind_inv. revert H.
  destruct (config_value _ _) as [v|] eqn:E; [|by intros [= _ <-]]. apply keeps_p_store; [|done].
  unfold strncpy_bytes. apply Forall_resize; [done|]. apply config_value_bytes in E; [done|].
  destruct (files s !! file) as [f|] eqn:Ef; [by apply (inv_files s Hi file)|by apply Forall_nil].
Qed.

Lemma keeps_config cfg (present : bool) :
  keeps (if present then
     do! get_config "Model" off_Model cfg in
     do! get_config "version" off_version cfg in
     get_config "customerversion" off_customerversion cfg
   else ret tt).
Proof. destruct present; [|apply rkeeps_ret]. repeat (apply rkeeps_bind; [apply keeps_get_config|intros]). apply keeps_get_config. Qed.

(** The header words and the payload of an image. *)
Definition header_ok (r : ram_t) (cur : Z) : Prop :=
  sizeof_trx_header <= cur < 2 ^ 32 /\
  ram_bytes r off_header_len 4 = le_bytes 4 sizeof_trx_header /\
  ram_bytes r off_len 4 = le_bytes 4 cur /\
  ram_bytes r off_crc32 4 = le_bytes 4 (crc32buf (ram_bytes r sizeof_trx_header (cur - sizeof_trx_header))) /\
  bytes (ram_bytes r sizeof_trx_header (cur - sizeof_trx_header)).

(** What the program has written. *)
Definition written (s : trx_st) (image : list Z) : Prop :=
  match out s with Some n => files s !! n = Some image | None => stdout s = image end.

Section accepted.
Context (c : trx_config) (h : trx_host).
Hypothesis Hle : little_endian c = true.
Implicit Types (s : trx_st) (argv : list string).

Lemma fwrite_written n s r s' :
  fwrite n s = Done (r, s') -> inv s -> written s' (ram_bytes (buf s) 0 n) /\ buf s' = buf s.
Proof.
  unfold fwrite, buf_load. intros (bs & s1 & H & H2)%bind_inv Hi. unfold bind, gets in H.
  destruct (_ && _); [|done]. injection H as <- <-. apply bind_inv in H2 as (o & s1 & [= <- <-] & H2).
  unfold written. destruct (out s) as [n'|] eqn:E; injection H2 as _ <-; simpl; rewrite E.
  - rewrite (inv_out s Hi n' E), lookup_insert_eq. done.
  - by rewrite (inv_stdout s Hi).
Qed.

(** The end of [main] writes an image with a header that fits. *)
Lemma write_image_ok s s' :
  inv s -> write_image c s = Done (Some EXIT_SUCCESS, s') ->
  exists r cur, written s' (ram_bytes r 0 cur) /\ header_ok r cur.
Proof.
  unfold write_image. intros Hi (x & s0 & [= <- <-] & H)%bind_inv. destruct (in_open s); [|done]. cbn [negb] in H.
  apply bind_inv in H as (len & s0 & H0%keeps_round_up & H); [|done].
  apply bind_inv in H as ([] & s1 & H1%keeps_set_cur & H); [|done].
  set (cur := u32 len) in *. assert (is_u32 cur) as Hcur by apply u32_is.
  apply bind_inv in H as (crc & s2 & (-> & -> & _ & Hn & Hsz)%crc_at_inv & H).
  assert (sizeof_trx_header <= cur) as Hlo.
  { destruct (Z.leb_spec sizeof_trx_header cur); [done|]. exfalso. pose proof (inv_size s1 H1) as Hs.
    unfold u64, sizeof_trx_header, is_u32 in *. revert Hsz.
    rewrite <- (Z_mod_plus_full (cur - 256) 1), Z.mod_small by lia. lia. }
  assert (u64 (cur - sizeof_trx_header) = cur - sizeof_trx_header) as Hu.
  { unfold u64, is_u32, sizeof_trx_header in *. apply Z.mod_small. lia. }
  rewrite Hu in *. set (payload := ram_bytes (buf s1) sizeof_trx_header (cur - sizeof_trx_header)) in *.
  assert (bytes payload) as Hpb by (apply ram_bytes_bytes, H1).
  apply bind_inv in H as (r2 & s2 & H2 & H). pose proof (keeps_p_word c _ _ s1 H1 _ _ H2) as Hi2.
  apply p_word_wrote in H2 as [W2 E2]; [|done].
  apply bind_inv in H as (r3 & s3 & H3 & H). pose proof (keeps_p_word c _ _ s2 Hi2 _ _ H3) as Hi3.
  apply p_word_wrote in H3 as [W3 E3]; [|done].
  apply bind_inv in H as (cfg & s4 & ->%checked_state & H).
  apply bind_inv in H as (present & s4 & [= _ <-] & H).
  apply bind_inv in H as (r4 & s4 & H4 & H). pose proof (keeps_config _ _ s3 Hi3 _ _ H4) as Hi4.
  apply config_wrote in H4 as W4.
  apply bind_inv in H as (r5 & s5 & H5 & H). pose proof (keeps_p_word c _ _ s4 Hi4 _ _ H5) as Hi5.
  apply p_word_wrote in H5 as [W5 E5]; [|done].
  destruct (cur =? 0); [done|]. apply bind_inv in H as (r6 & s6 & H6 & [= <-]).
  apply fwrite_written in H6 as [Hw _]; [|done]. exists (buf s5), cur. split; [done|].
  unfold off_crc32, off_header_len, off_len, sizeof_trx_header in *.
  assert (ram_bytes (buf s5) 256 (cur - 256) = payload) as Hp.
  { rewrite (wrote_bytes _ _ _ _ _ _ W5), (wrote_bytes _ _ _ _ _ _ W4), (wrote_bytes _ _ _ _ _ _ W3),
      (wrote_bytes _ _ _ _ _ _ W2) by lia. done. }
  unfold header_ok, off_crc32, off_header_len, off_len, sizeof_trx_header. rewrite Hp. split_and!.
  - done.
  - apply Hcur.
  - rewrite (wrote_bytes _ _ _ _ _ _ W5), (wrote_bytes _ _ _ _ _ _ W4) by lia. done.
  - done.
  - rewrite (wrote_bytes _ _ _ _ _ _ W5), (wrote_bytes _ _ _ _ _ _ W4), (wrote_bytes _ _ _ _ _ _ W3) by lia. done.
  - done.
Qed.

(** The checks of the boot loader on an image with a header that fits. *)
Lemma header_accepted r cur r' a :
  header_ok r cur -> ram_bytes r' a cur = ram_bytes r 0 cur -> 0 <= a -> a + cur < 2 ^ 32 ->
  trx_header_len r' a = sizeof_trx_header /\ trx_len r' a = cur /\ trx_crc_ok r' a = true.
Proof.
  unfold header_ok, off_crc32, off_header_len, off_len, sizeof_trx_header.
  intros (Hc & E1 & E2 & E3 & Hb) Heq Ha Hs.
  assert (forall k m, 0 <= k -> 0 <= m -> k + m <= cur -> ram_bytes r' (a + k) m = ram_bytes r k m) as Hsub.
  { intros k m Hk Hm Hkm. rewrite (ram_bytes_sub r' r a 0 cur k m) by done. done. }
  assert (forall k z, 0 <= k -> k + 4 <= cur -> ram_bytes r k 4 = le_bytes 4 z -> is_u32 z -> ram_le r' (a + k) 4 = z) as Hw.
  { intros k z Hk Hkc E Hz. unfold ram_le. rewrite Hsub, E by lia. by apply (le_val_bytes 4). }
  assert (trx_header_len r' a = 256) as Hl by (apply Hw; [lia..|done|by vm_compute]).
  assert (trx_len r' a = cur) as Hlen by (apply Hw; [lia..|done|unfold is_u32; lia]).
  split_and!; [done|done|]. unfold trx_crc_ok. rewrite Hl, Hlen. unfold crc_ram, u32.
  rewrite !Z.mod_small by lia. rewrite Hsub by lia. apply Z.eqb_eq. rewrite crc32_no_comp_fold by done.
  unfold DEFAULT_CRC. rewrite <- crc32buf_fold by done. symmetry.
  apply Hw; [lia..|done|by apply crc32buf_u32].
Qed.

(** C34: an image that the tool has built from any options is one that the boot
    loader accepts: loaded anywhere below 4 GB its header gives the length of
    the header and of the file, and the CRC matches. *)
Theorem trx_image_accepted argv fs heap s' :
  (forall x, is_u8 (heap x)) -> (forall n f, fs !! n = Some f -> bytes f) ->
  forallb image_option (getopt (tail argv)) = true ->
  main c h argv (trx_start h fs heap) = Done (Some EXIT_SUCCESS, s') ->
  exists image, written s' image /\
    forall r a, ram_bytes r a (Z.of_nat (length image)) = image -> 0 <= a -> a + Z.of_nat (length image) < 2 ^ 32 ->
      trx_header_len r a = sizeof_trx_header /\ trx_len r a = Z.of_nat (length image) /\ trx_crc_ok r a = true.
Proof.
  intros Hheap Hfs Hopts Hrun.
  assert (inv (trx_start h fs heap)) as Hi by (split; try done).
  unfold main in Hrun. destruct (malloc_ok h); [|done]. cbn [negb] in Hrun.
  apply bind_inv in Hrun as (r & s1 & H1%options_ok & Hrun); [|done..].
  destruct r as [code|]; [subst code; discriminate Hrun|].
  apply write_image_ok in Hrun as (r & cur & Hw & Hh); [|done].
  exists (ram_bytes r 0 cur). split; [done|]. intros r' a.
  assert (0 <= cur) by (destruct Hh as [Hh _]; unfold sizeof_trx_header in Hh; lia).
  rewrite ram_bytes_len, Z2Nat.id by done. intros. by eapply header_accepted.
Qed.
End accepted.

(** ** The boot loader file *)

Section tcboot.
Context (c : trx_config) (h : trx_host).
Hypothesis Hle : little_endian c = true.
Implicit Types (s : trx_st) (argv : list string).

Definition with_crc (r : ram_t) (n : Z) : ram_t := ram_store r n (le_bytes 4 (crc32buf (ram_bytes r 0 n))).

Lemma buf_load_run a n s : 0 <= a -> 0 <= n -> a + n <= buf_size s -> buf_load a n s = Done (ram_bytes (buf s) a n, s).
Proof. intros. unfold buf_load, bind, gets. by rewrite !(proj2 (Z.leb_le _ _)) by lia. Qed.

Lemma buf_store_run a bs s :
  0 <= a -> a + Z.of_nat (length bs) <= buf_size s -> buf_store a bs s = Done (tt, set_buf (ram_store (buf s) a bs) s).
Proof. intros. unfold buf_store, bind, gets. by rewrite !(proj2 (Z.leb_le _ _)) by lia. Qed.

Lemma put_crc_run n s :
  0 <= n -> n + 4 <= buf_size s -> put_crc c n s = Done (tt, set_buf (with_crc (buf s) n) s).
Proof.
  intros Hn Hs. unfold put_crc, crc_at. run (run (apply buf_load_run; lia); reflexivity).
  unfold STORE32_LE. rewrite Hle. apply buf_store_run; [done|]. by rewrite le_bytes_length.
Qed.

(** The CRC over the data and its CRC is 0. *)
Lemma with_crc_residue r n a :
  0 <= n -> (forall x, is_u8 (r x)) ->
  forall r', ram_bytes r' a (n + 4) = ram_bytes (with_crc r n) 0 (n + 4) -> crc_ram r' a (n + 4) = 0.
Proof.
  intros Hn Hr r' Heq. unfold crc_ram. rewrite Heq.
  assert (bytes (ram_bytes r 0 n)) as Hb by by apply ram_bytes_bytes.
  rewrite crc32_no_comp_fold by (apply ram_bytes_bytes, ram_store_bytes; [done|apply le_bytes_bytes]).
  rewrite ram_bytes_app by lia. unfold with_crc. rewrite ram_bytes_outside by lia.
  replace 4 with (Z.of_nat (length (le_bytes 4 (crc32buf (ram_bytes r 0 n))))) at 1 by by rewrite le_bytes_length.
  rewrite Z.add_0_l, ram_bytes_store, fold_left_app.
  unfold DEFAULT_CRC. rewrite <- crc32buf_fold by done. by apply crc_residue, crc32buf_u32.
Qed.

Lemma fwrite_run n s name :
  out s = Some name -> files s !! name = Some [] -> 0 <= n -> n <= buf_size s ->
  fwrite n s = Done (tt, set_files (<[name := ram_bytes (buf s) 0 n]> (files s)) s).
Proof.
  intros Ho Hf Hn Hs. unfold fwrite. run (by apply buf_load_run). run (reflexivity). rewrite Ho. unfold modify.
  by rewrite Hf.
Qed.

Lemma input_size_run name s bs :
  files s !! name = Some bs -> input_size_of name s = Done (s32 (Z.of_nat (length bs)), s).
Proof. intros Hf. unfold input_size_of, content. run (reflexivity). by rewrite Hf. Qed.

Lemma fread_whole a n name s bs :
  files s !! name = Some bs -> Z.of_nat (length bs) <= n -> 0 <= a -> a + Z.of_nat (length bs) <= buf_size s ->
  fread a n name s = Done ((Z.of_nat (length bs), Z.of_nat (length bs) <? n), set_buf (ram_store (buf s) a bs) s).
Proof.
  intros Hf Hn Ha Hs. unfold fread, content. run (reflexivity). rewrite Hf. simpl default.
  rewrite (proj2 (Z.leb_le _ _) Hn). by run (by apply buf_store_run).
Qed.

(** "trx -t file len" writes tcboot.bin with the CRC of the first [len] - 4
    bytes behind them and nothing else changed, so that the CRC which the boot
    loader computes over these [len] bytes before it writes a boot loader is
    0. *)
Theorem tcboot_passes_check f l fs heap file cal_len :
  bb_256kb c = false -> malloc_ok h = true -> writable h "tcboot.bin" = true -> f <> "tcboot.bin"%string ->
  fs !! f = Some file -> bytes file -> (forall x, is_u8 (heap x)) ->
  (strtoul (chars l) 16).1.1 = cal_len -> 4 <= cal_len <= Z.of_nat (length file) ->
  Z.of_nat (length file) <= TRX_MAX_LEN ->
  exists s' image, main c h ["trx"; "-t"; f; l]%string (trx_start h fs heap) = Done (Some EXIT_SUCCESS, s') /\
    files s' = <["tcboot.bin"%string := image]> fs /\ length image = length file /\
    (forall k, (k < length file)%nat -> Z.of_nat k < cal_len - 4 \/ cal_len <= Z.of_nat k -> image !! k = file !! k) /\
    forall r a, ram_bytes r a cal_len = take (Z.to_nat cal_len) image -> crc_ram r a cal_len = 0.
Proof.
  intros Hbb Hm Hw Hne Hf Hfb Hheap Hl Hcal Hmax.
  set (len := Z.of_nat (length file)) in *. set (r0 := ram_store heap 0 file). set (r1 := with_crc r0 (cal_len - 4)).
  assert (s32 len = len) as Hs32 by (unfold s32; rewrite Z.mod_small; unfold TRX_MAX_LEN in Hmax; lia).
  assert (forall x, is_u8 (r0 x)) as Hr0 by by apply ram_store_bytes.
  set (s1 := set_files (<["tcboot.bin"%string := []]> fs) (trx_start h fs heap)).
  set (s2 := set_out (Some "tcboot.bin"%string) (set_buf r1 (set_buf r0 s1))).
  exists (set_files (<["tcboot.bin"%string := ram_bytes r1 0 len]> (files s2)) s2), (ram_bytes r1 0 len).
  split; [|split_and!].
  - unfold main. rewrite Hm. cbn [negb]. change (getopt _) with (Opt "t" (Some f) :: getopt [l]).
    cbn [options option_step].
    assert (do_t c h ["trx"; "-t"; f; l]%string (trx_start h fs heap) =
            Done (Some EXIT_SUCCESS, set_files (<["tcboot.bin"%string := ram_bytes r1 0 len]> (files s2)) s2)) as Hrun.
    { unfold do_t. run (reflexivity). run (reflexivity). rewrite bool_decide_eq_true_2 by (simpl; rewrite Hf; eauto).
      cbn [negb]. run (by apply input_size_run). fold len. rewrite Hs32. rewrite (proj2 (Z.ltb_ge len 0)), (proj2 (Z.ltb_ge TRX_MAX_LEN len)) by lia.
      cbn [orb]. rewrite Hbb. run (unfold fopen_w; rewrite Hw; reflexivity). cbn [negb].
      fold s1. run (reflexivity). rewrite Hl.
      run (apply fread_whole; [simpl; rewrite lookup_insert_ne by done; exact Hf|lia|done|exact Hmax]).
      fold len. rewrite (proj2 (Z.ltb_lt len (len + 1))) by lia. cbn [negb snd].
      unfold u64. rewrite Z.mod_small by (unfold TRX_MAX_LEN in Hmax; lia).
      run (apply put_crc_run; [lia|simpl; lia]). run (reflexivity).
      run (apply (fwrite_run _ _ "tcboot.bin"); [reflexivity|apply lookup_insert_eq|lia|exact Hmax]). reflexivity. }
    by run (run (run (reflexivity); exact Hrun); reflexivity).
  - simpl. by rewrite insert_insert_eq.
  - rewrite ram_bytes_len. lia.
  - intros k Hk Hout. unfold ram_bytes. rewrite list_lookup_fmap, lookup_seqZ_lt by lia. simpl.
    rewrite Z.add_0_l. unfold r1, with_crc. rewrite ram_store_outside by (rewrite le_bytes_length; lia).
    unfold r0. rewrite <- (Z.add_0_l (Z.of_nat k)), ram_store_inside by lia. rewrite Nat2Z.id.
    destruct (lookup_lt_is_Some_2 file k Hk) as [b Hb]. by rewrite Hb, (nth_lookup_Some _ _ _ b).
  - intros r a Hr. replace cal_len with (cal_len - 4 + 4) by lia. apply (with_crc_residue r0); [lia|done|].
    fold r1. replace (cal_len - 4 + 4) with cal_len by lia. rewrite Hr.
    replace len with (cal_len + (len - cal_len)) by lia. rewrite ram_bytes_app by lia.
    apply take_app_length'. by rewrite ram_bytes_len.
Qed.
End tcboot.

(** ** Building an image *)

Section build.
Context (c : trx_config) (h : trx_host).
Hypothesis Hle : little_endian c = true.
Implicit Types (s : trx_st) (argv : list string).

Lemma p_store_done off bs s :
  p_valid s = true -> sizeof_trx_header <= buf_size s -> 0 <= off -> off + Z.of_nat (length bs) <= sizeof_trx_header ->
  p_store off bs s = Done (tt, set_buf (ram_store (buf s) off bs) s).
Proof. intros Hp Hs Ho Hl. unfold p_store. run (reflexivity). rewrite Hp. apply buf_store_run; [done|lia]. Qed.

(** A call that changes nothing but buffer bytes of the range. *)
Definition writes {A} (m : M trx_st A) (lo hi : Z) (s : trx_st) : Prop :=
  exists a s', m s = Done (a, s') /\ wrote lo hi s s'.

Lemma writes_bind {A B} (m : M trx_st A) (k : A -> M trx_st B) lo hi s :
  writes m lo hi s -> (forall a s', wrote lo hi s s' -> writes (k a) lo hi s') -> writes (bind m k) lo hi s.
Proof.
  intros (a & s1 & Hm & W1) Hk. destruct (Hk a s1 W1) as (b & s2 & Hr & W2).
  exists b, s2. split; [|by eapply wrote_trans]. by run (exact Hm).
Qed.

(** The header can be written. *)
Definition header_room s : Prop := p_valid s = true /\ sizeof_trx_header <= buf_size s.

Lemma header_room_wrote lo hi s s' : wrote lo hi s s' -> header_room s -> header_room s'.
Proof. by intros (r & -> & _) []. Qed.

Lemma p_store_writes off bs s :
  header_room s -> 4 <= off -> off + Z.of_nat (length bs) <= sizeof_trx_header -> writes (p_store off bs) 4 256 s.
Proof.
  intros [Hp Hs] Ho Hl. exists tt. eexists. split; [by apply p_store_done; try lia|].
  eexists. split; [done|]. intros x Hx. unfold sizeof_trx_header in *. apply ram_store_outside. lia.
Qed.

Lemma p_word_writes off x s : header_room s -> 4 <= off -> off + 4 <= sizeof_trx_header -> writes (p_word c off x) 4 256 s.
Proof. intros. by apply p_store_writes; rewrite ?le_bytes_length. Qed.

Lemma get_config_writes key off file s :
  header_room s -> 4 <= off -> off + 32 <= sizeof_trx_header -> writes (get_config key off file) 4 256 s.
Proof.
  intros Hr Ho Hl. apply writes_bind; [by exists (default [] (files s !! file)), s; split; [done|apply wrote_refl]|].
  intros bs s' W. destruct (config_value _ _) as [v|].
  - apply p_store_writes; [by eapply header_room_wrote|done|]. unfold strncpy_bytes. by rewrite length_resize.
  - exists tt, s'. split; [done|apply wrote_refl].
Qed.

Lemma config_writes cfg (present : bool) s :
  header_room s ->
  writes (if present then
     do! get_config "Model" off_Model cfg in
     do! get_config "version" off_version cfg in
     get_config "customerversion" off_customerversion cfg
   else ret tt) 4 256 s.
Proof.
  intros Hr. destruct present; [|by exists tt, s; split; [|apply wrote_refl]].
  repeat (apply writes_bind; [apply get_config_writes; [eauto using header_room_wrote|done|done]|intros]).
  apply get_config_writes; [eauto using header_room_wrote|done|done].
Qed.

Lemma write_image_done s g o :
  header_room s -> in_open s = true -> need_padding s = false -> config_file s = Some g ->
  out s = Some o -> files s !! o = Some [] ->
  sizeof_trx_header <= cur_len s <= buf_size s -> cur_len s < 2 ^ 32 ->
  exists r s', write_image c s = Done (Some EXIT_SUCCESS, s') /\
    files s' = <[o := ram_bytes r 0 (cur_len s)]> (files s) /\ (forall x, x < 4 \/ 256 <= x -> r x = buf s x).
Proof.
  intros Hr Hin Hp Hg Ho Hf Hcur H32. unfold sizeof_trx_header in *.
  set (cur := cur_len s) in *. set (s1 := set_cur_len cur s).
  assert (header_room s1) as Hr1 by done.
  destruct (p_word_writes off_crc32 (crc32buf (ram_bytes (buf s1) 256 (cur - 256))) s1) as ([] & s2 & H2 & W2); [done..|].
  destruct (p_word_writes off_header_len 256 s2) as ([] & s3 & H3 & W3); [by eapply header_room_wrote|done..|].
  destruct (config_writes g (bool_decide (is_Some (files s3 !! g))) s3) as ([] & s4 & H4 & W4);
    [eauto using header_room_wrote|].
  destruct (p_word_writes off_len cur s4) as ([] & s5 & H5 & W5); [eauto 6 using header_room_wrote|done..|].
  assert (wrote 4 256 s1 s5) as (r & E5 & Hout) by eauto 6 using wrote_trans.
  exists r, (set_files (<[o := ram_bytes r 0 cur]> (files s5)) s5). split; [|by subst s5].
  unfold write_image. run (reflexivity). rewrite Hin, Hp. cbn [negb]. fold cur.
  run (unfold round_up, NO_ALIGN; rewrite Z.land_0_r; reflexivity).
  unfold u32. rewrite Z.mod_small by lia. run (reflexivity). fold s1.
  unfold u64, sizeof_trx_header. rewrite Z.mod_small by lia.
  run (unfold crc_at; run (apply buf_load_run; simpl; lia); reflexivity).
  run (exact H2). run (exact H3). rewrite Hg. run (reflexivity). run (reflexivity). run (exact H4). run (exact H5).
  rewrite (proj2 (Z.eqb_neq cur 0)) by lia.
  run (apply (fwrite_run _ _ o); subst s5; [exact Ho|exact Hf|lia|simpl; lia]). by subst s5.
Qed.

Lemma add_file_run f m file s :
  header_room s -> magic_of f = Some m -> files s !! f = Some file -> need_padding s = false ->
  sizeof_trx_header <= cur_len s -> cur_len s + Z.of_nat (length file) < buf_size s -> buf_size s < 2 ^ 32 ->
  add_file c f s = Done (None, set_cur_len (cur_len s + Z.of_nat (length file))
    (set_buf (ram_store (ram_store (buf s) 0 (le_bytes 4 m)) (cur_len s) file) (set_in true s))).
Proof.
  intros [Hp Hs] Hm Hf Hpad Hcur Hroom H32. unfold sizeof_trx_header in *. unfold add_file. rewrite Hm.
  unfold p_word, STORE32_LE, off_magic. rewrite Hle.
  run (apply p_store_done; [done|done|done|by rewrite le_bytes_length]).
  run (reflexivity). rewrite bool_decide_eq_true_2 by (simpl; rewrite Hf; eauto). cbn [negb].
  run (reflexivity). run (reflexivity). simpl cur_len. simpl buf_size. unfold u64. rewrite Z.mod_small by lia.
  run (apply fread_whole; [exact Hf|simpl; lia|lia|simpl; lia]). rewrite (proj2 (Z.ltb_lt _ _)) by lia.
  cbn [negb snd]. change (need_padding _) with (need_padding s). rewrite Hpad.
  run (unfold round_up, NO_ALIGN; rewrite Z.land_0_r; reflexivity). cbn [fst]. unfold u32. rewrite Z.mod_small by lia.
  by run (reflexivity).
Qed.

(** "trx -f file -o image -c config", the command of the build: the image
    is a header of 256 bytes, with the magic number that the name of the file
    asks for, and the file. *)
Theorem trx_builds f o g fs heap file m :
  malloc_ok h = true -> writable h o = true -> f <> o -> fs !! f = Some file -> magic_of f = Some m ->
  sizeof_trx_header + Z.of_nat (length file) < TRX_MAX_LEN ->
  exists s' header, main c h ["trx"; "-f"; f; "-o"; o; "-c"; g]%string (trx_start h fs heap) = Done (Some EXIT_SUCCESS, s') /\
    files s' = <[o := header ++ file]> fs /\ Z.of_nat (length header) = sizeof_trx_header /\
    take 4 header = le_bytes 4 m.
Proof.
  intros Hm Hw Hne Hf Hmagic Hroom. set (len := Z.of_nat (length file)) in *.
  unfold sizeof_trx_header, TRX_MAX_LEN in *.
  set (s1 := set_cur_len (256 + len) (set_buf (ram_store (ram_store heap 0 (le_bytes 4 m)) 256 file)
               (set_in true (trx_start h fs heap)))).
  set (s2 := set_config (Some (String.substring 0 127 g)) (set_out (Some o) (set_files (<[o := []]> fs) s1))).
  destruct (write_image_done s2 (String.substring 0 127 g) o) as (r & s' & Hrun & Hfiles & Hout);
    [done|done|done|done|done|apply lookup_insert_eq|simpl; unfold sizeof_trx_header, TRX_MAX_LEN; lia|simpl; lia|].
  exists s', (ram_bytes r 0 256). split_and!.
  - unfold main. rewrite Hm. cbn [negb].
    change (getopt _) with [Opt "f" (Some f); Opt "o" (Some o); Opt "c" (Some g)].
    assert (options c h ["trx"; "-f"; f; "-o"; o; "-c"; g]%string [Opt "f" (Some f); Opt "o" (Some o); Opt "c" (Some g)]
             (trx_start h fs heap) = Done (None, s2)) as Hopts.
    { cbn [options]. run (unfold option_step; run (reflexivity); apply (add_file_run f m file);
        [done|done|exact Hf|done|done|simpl; unfold sizeof_trx_header, TRX_MAX_LEN; lia|done]).
      simpl cur_len. fold len s1.
      run (unfold option_step; run (reflexivity); unfold set_out_file, fopen_w; rewrite Hw; reflexivity).
      by run (unfold option_step; run (reflexivity); run (reflexivity); reflexivity). }
    by run (exact Hopts).
  - rewrite Hfiles. change (cur_len s2) with (256 + len). change (files s2) with (<[o := []]> fs). rewrite insert_insert_eq. f_equal. rewrite ram_bytes_app by lia. f_equal.
    rewrite (ram_bytes_ext r (buf s2)) by (intros k Hk; apply Hout; lia). simpl buf. apply ram_bytes_store.
  - by rewrite ram_bytes_len.
  - change 256 with (4 + 252). rewrite ram_bytes_app, take_app_length' by (rewrite ?ram_bytes_len; done).
    rewrite (ram_bytes_ext r (buf s2)) by (intros k Hk; apply Hout; lia). simpl buf.
    rewrite ram_bytes_outside by lia. apply (ram_bytes_store heap 0 (le_bytes 4 m)).
Qed.
End build.

(** ** The configuration file *)

Lemma fgets_line_run n l rest :
  Forall (fun b => b <> 10) l -> (length l < n)%nat -> fgets_line n (l ++ [10] ++ rest) = (l ++ [10], rest).
Proof.
  intros Hl. revert n. induction Hl as [|b l Hb Hl IH]; intros [|n] Hn; simpl in Hn; try lia; [done|].
  cbn [app fgets_line]. rewrite (proj2 (Z.eqb_neq b 10)) by done.
  change (10 :: rest) with ([10] ++ rest). by rewrite IH by lia.
Qed.

Lemma cstring_id l : Forall (fun b => b <> 0) l -> cstring l = l.
Proof. induction 1 as [|b l Hb _ IH]; cbn [cstring]; [done|]. rewrite (proj2 (Z.eqb_neq b 0)) by done. by rewrite IH. Qed.

(** A key is looked for anywhere in a line: a [customerversion] in front of
    the [version] is taken for it, with its line feed. *)
Theorem config_prefers_customerversion v rest :
  Forall (fun b => b <> 0 /\ b <> 10) v -> (length v < 200)%nat ->
  config_value "version" (chars "customerversion=" ++ v ++ [10] ++ rest) = Some (v ++ [10]).
Proof.
  intros Hv Hl. unfold config_value. rewrite length_app. change (length (chars "customerversion=")) with 16%nat.
  cbn [Nat.add get_config_loop]. change (chars "customerversion=" ++ v ++ [10] ++ rest) with
    (99 :: tail (chars "customerversion=") ++ v ++ [10] ++ rest). cbv iota.
  change (99 :: tail (chars "customerversion=") ++ v ++ [10] ++ rest) with (chars "customerversion=" ++ v ++ [10] ++ rest).
  rewrite (app_assoc (chars _) v). rewrite fgets_line_run.
  - rewrite cstring_id.
    + rewrite <- app_assoc. by generalize (v ++ [10]).
    + apply Forall_app. split; [apply Forall_app; split|by apply Forall_singleton].
      * by repeat (apply Forall_cons; split; [done|]).
      * eapply Forall_impl; [exact Hv|]. by intros b [].
  - apply Forall_app; split; [by repeat (apply Forall_cons; split; [done|])|]. eapply Forall_impl; [exact Hv|]. by intros b [].
  - rewrite length_app. change (length (chars "customerversion=")) with 16%nat. lia.
Qed.

(** ** Concrete runs *)

Module TrxWitnesses.

Definition cfg : trx_config := TrxCfg true false false false.
Definition host : trx_host := TrxHost (fun _ => true) true (fun _ _ => Some true) (Some ""%string) (fun _ => 0xcc) 0.
Definition heap : ram_t := fun _ => 0xee.
Definition kernel : list Z := chars "a kernel and a root file system".
Definition fs : gmap string (list Z) :=
  <["tclinux.bin"%string := kernel]>
    (<["trx_config"%string := chars "version=7.3" ++ [10] ++ chars "Model=3 6035"]> ∅).
Definition command : list string := ["trx"; "-k"; "8"; "-r"; "23"; "-f"; "tclinux.bin"; "-o"; "out"; "-c"; "trx_config"]%string.

Lemma fs_bytes n f : fs !! n = Some f -> bytes f.
Proof.
  unfold fs. rewrite !lookup_insert, lookup_empty. repeat case_decide; intros [= <-]; bytes_tac.
Qed.

Lemma trx_image_accepted_witness :
  exists s', main cfg host command (trx_start host fs heap) = Done (Some EXIT_SUCCESS, s') /\
  exists image, written s' image /\
    forall r a, ram_bytes r a (Z.of_nat (length image)) = image -> 0 <= a -> a + Z.of_nat (length image) < 2 ^ 32 ->
      trx_header_len r a = sizeof_trx_header /\ trx_len r a = Z.of_nat (length image) /\ trx_crc_ok r a = true.
Proof.
  assert (match main cfg host command (trx_start host fs heap) with
          | Done (Some v, _) => v =? 0 | _ => false end = true) as H by (vm_compute; reflexivity).
  destruct (main cfg host command (trx_start host fs heap)) as [[[v|] s']| |] eqn:E; [|discriminate H..].
  apply Z.eqb_eq in H. subst v. exists s'. split; [reflexivity|].
  apply (trx_image_accepted cfg host eq_refl command fs heap s').
  - intros x. by vm_compute.
  - exact fs_bytes.
  - reflexivity.
  - exact E.
Defined.

Lemma tcboot_passes_check_witness :
  exists s' image, main cfg host ["trx"; "-t"; "tclinux.bin"; "0x10"]%string (trx_start host fs heap) = Done (Some EXIT_SUCCESS, s') /\
    files s' = <["tcboot.bin"%string := image]> fs /\ length image = length kernel /\
    (forall k, (k < length kernel)%nat -> Z.of_nat k < 16 - 4 \/ 16 <= Z.of_nat k -> image !! k = kernel !! k) /\
    forall r a, ram_bytes r a 16 = take (Z.to_nat 16) image -> crc_ram r a 16 = 0.
Proof.
  apply (tcboot_passes_check cfg host eq_refl "tclinux.bin" "0x10" fs heap kernel 16); try reflexivity.
  - discriminate.
  - bytes_tac.
  - intros x. by vm_compute.
  - vm_compute. split; discriminate.
  - vm_compute. discriminate.
Defined.

Lemma trx_builds_witness :
  exists s' header, main cfg host ["trx"; "-f"; "tclinux.bin"; "-o"; "out"; "-c"; "trx_config"]%string (trx_start host fs heap)
      = Done (Some EXIT_SUCCESS, s') /\
    files s' = <["out"%string := header ++ kernel]> fs /\ Z.of_nat (length header) = sizeof_trx_header /\
    take 4 header = le_bytes 4 TRX_MAGIC2.
Proof.
  apply (trx_builds cfg host eq_refl "tclinux.bin" "out" "trx_config" fs heap kernel TRX_MAGIC2);
    [reflexivity|reflexivity|discriminate|reflexivity|vm_compute; reflexivity|vm_compute; reflexivity].
Defined.

Lemma config_prefers_customerversion_witness :
  config_value "version" (chars "customerversion=" ++ chars "ACME" ++ [10] ++ chars "version=7.3") = Some (chars "ACME" ++ [10]).
Proof.
  apply config_prefers_customerversion; [|vm_compute; lia].
  repeat (apply Forall_cons; split; [split; discriminate|]). apply Forall_nil. exact I.
Defined.
End TrxWitnesses.
