(* ===== verification/AtfIo.v ===== *)
(** The storage layer of the trusted firmware
    ([A/drivers/io/io_storage.c], [io_memmap.c], [io_fip.c], [io_encrypted.c]).

    An image is read through a stack of devices: the encryption device opens
    files of the package device, which opens the block of memory the package
    lies in.  Each C function is a definition over the globals [io_st].  A
    driver calls back into the storage layer; these calls go through the class
    [IoOps], and [io_stack n] ties the knot for [n] nested calls.  The build
    is the release build: assertions are empty.  An address is read or written
    only inside the mapped regions, anything else is a fault ([Undef]). *)

From stdpp Require Import base numbers list option.
From Stdlib Require Import ZArith Lia.
From S2P Require Import Prelude Fip.

Definition ENOENT : Z := 2.
Definition EIO : Z := 5.
Definition ENOMEM : Z := 12.
Definition ENODEV : Z := 19.
Definition EINVAL : Z := 22.
Definition EFBIG : Z := 27.
Definition EAUTH : Z := 80.

Definition u64 (z : Z) : Z := z mod 2 ^ 64.

(** ** Data *)

(** Device handles are pointers to the one [io_dev_info_t] of each kind. *)
Inductive io_dev := FipDev | MemmapDev | EncDev.

(** Pointers to the specifications of images: null, [&fip_block_spec], the
    address of a constant [io_uuid_spec_t]. *)
Inductive io_spec := NoSpec | BlockSpec | UuidSpec (id : list Z).

(** [entity->info]: null or the address of the driver's [current_file]. *)
Inductive io_info := NoInfo | MemmapFile | FipFile.

Record io_entity := Entity { dev_handle : option io_dev; info : io_info }.
Definition no_entity : io_entity := Entity None NoInfo.

(** [file_state_t] of [io_memmap.c]. *)
Record mm_file := MmFile { mm_in_use : Z; mm_base : Z; mm_pos : Z; mm_size : Z }.
Definition mm_none : mm_file := MmFile 0 0 0 0.

Record toc_entry := TocEntry {
  te_uuid : list Z;
  te_offset_address : Z;
  te_size : Z;
  te_flags : Z
}.

(** [file_state_t] of [io_fip.c]. *)
Record fip_file := FipState { ff_pos : Z; ff_entry : toc_entry }.

Definition uuid_null : list Z := replicate 16 0.
Definition fip_none : fip_file := FipState 0 (TocEntry uuid_null 0 0 0).

(** A mapped piece of the address space. *)
Record region := Region { rg_base : Z; rg_size : Z; rg_rw : bool }.

(** [secure_efuse_t], 160 bytes: a word of bit fields, 12 reserved bytes, the
    hash of the root key, the secret key, and keys of other uses. *)
Definition secure_efuse : Type := list Z.
Definition hash_mode (d : secure_efuse) : Z := Z.land (Z.shiftr (le_val (take 4 d)) 1) 3.
Definition enc_mode (d : secure_efuse) : Z := Z.land (Z.shiftr (le_val (take 4 d)) 3) 3.
Definition rotpk (d : secure_efuse) : list Z := take 64 (drop 16 d).
Definition ssk (d : secure_efuse) : list Z := take 32 (drop 80 d).

Record io_st := IoSt {
  mem : ram_t;
  regions : list region;               (* mapped at run time *)
  entity_map : list (option nat);      (* pointers into the pool *)
  entity_pool : list io_entity;
  entity_count : Z;
  dev_count : Z;
  mm_cur : mm_file;
  fip_cur : fip_file;
  fip_backend : option io_dev * io_spec;
  fip_dev_spec : Z;                    (* [state_pool[0].dev_spec] *)
  plat_toc_flag : Z;                   (* [state_pool[0].plat_toc_flag] *)
  fip_dev_count : Z;
  enc_backend : option io_dev * io_spec;
  enc_handle : option nat;
  enc_image_spec : io_spec;
  fip_block_spec : Z * Z;
  fip_dev_handle : option io_dev;
  memmap_dev_handle : option io_dev;
  enc_dev_handle : option io_dev;
  secure_data : secure_efuse
}.

Definition set_mem v s := IoSt v (regions s) (entity_map s) (entity_pool s) (entity_count s) (dev_count s) (mm_cur s) (fip_cur s) (fip_backend s) (fip_dev_spec s) (plat_toc_flag s) (fip_dev_count s) (enc_backend s) (enc_handle s) (enc_image_spec s) (fip_block_spec s) (fip_dev_handle s) (memmap_dev_handle s) (enc_dev_handle s) (secure_data s).
Definition set_regions v s := IoSt (mem s) v (entity_map s) (entity_pool s) (entity_count s) (dev_count s) (mm_cur s) (fip_cur s) (fip_backend s) (fip_dev_spec s) (plat_toc_flag s) (fip_dev_count s) (enc_backend s) (enc_handle s) (enc_image_spec s) (fip_block_spec s) (fip_dev_handle s) (memmap_dev_handle s) (enc_dev_handle s) (secure_data s).
Definition set_entities m p c s := IoSt (mem s) (regions s) m p c (dev_count s) (mm_cur s) (fip_cur s) (fip_backend s) (fip_dev_spec s) (plat_toc_flag s) (fip_dev_count s) (enc_backend s) (enc_handle s) (enc_image_spec s) (fip_block_spec s) (fip_dev_handle s) (memmap_dev_handle s) (enc_dev_handle s) (secure_data s).
Definition set_dev_count v s := IoSt (mem s) (regions s) (entity_map s) (entity_pool s) (entity_count s) v (mm_cur s) (fip_cur s) (fip_backend s) (fip_dev_spec s) (plat_toc_flag s) (fip_dev_count s) (enc_backend s) (enc_handle s) (enc_image_spec s) (fip_block_spec s) (fip_dev_handle s) (memmap_dev_handle s) (enc_dev_handle s) (secure_data s).
Definition set_mm v s := IoSt (mem s) (regions s) (entity_map s) (entity_pool s) (entity_count s) (dev_count s) v (fip_cur s) (fip_backend s) (fip_dev_spec s) (plat_toc_flag s) (fip_dev_count s) (enc_backend s) (enc_handle s) (enc_image_spec s) (fip_block_spec s) (fip_dev_handle s) (memmap_dev_handle s) (enc_dev_handle s) (secure_data s).
Definition set_fip v s := IoSt (mem s) (regions s) (entity_map s) (entity_pool s) (entity_count s) (dev_count s) (mm_cur s) v (fip_backend s) (fip_dev_spec s) (plat_toc_flag s) (fip_dev_count s) (enc_backend s) (enc_handle s) (enc_image_spec s) (fip_block_spec s) (fip_dev_handle s) (memmap_dev_handle s) (enc_dev_handle s) (secure_data s).
Definition set_fip_backend v s := IoSt (mem s) (regions s) (entity_map s) (entity_pool s) (entity_count s) (dev_count s) (mm_cur s) (fip_cur s) v (fip_dev_spec s) (plat_toc_flag s) (fip_dev_count s) (enc_backend s) (enc_handle s) (enc_image_spec s) (fip_block_spec s) (fip_dev_handle s) (memmap_dev_handle s) (enc_dev_handle s) (secure_data s).
Definition set_fip_state sp fl c s := IoSt (mem s) (regions s) (entity_map s) (entity_pool s) (entity_count s) (dev_count s) (mm_cur s) (fip_cur s) (fip_backend s) sp fl c (enc_backend s) (enc_handle s) (enc_image_spec s) (fip_block_spec s) (fip_dev_handle s) (memmap_dev_handle s) (enc_dev_handle s) (secure_data s).
Definition set_enc_backend v s := IoSt (mem s) (regions s) (entity_map s) (entity_pool s) (entity_count s) (dev_count s) (mm_cur s) (fip_cur s) (fip_backend s) (fip_dev_spec s) (plat_toc_flag s) (fip_dev_count s) v (enc_handle s) (enc_image_spec s) (fip_block_spec s) (fip_dev_handle s) (memmap_dev_handle s) (enc_dev_handle s) (secure_data s).
Definition set_enc h i s := IoSt (mem s) (regions s) (entity_map s) (entity_pool s) (entity_count s) (dev_count s) (mm_cur s) (fip_cur s) (fip_backend s) (fip_dev_spec s) (plat_toc_flag s) (fip_dev_count s) (enc_backend s) h i (fip_block_spec s) (fip_dev_handle s) (memmap_dev_handle s) (enc_dev_handle s) (secure_data s).
Definition set_block_spec v s := IoSt (mem s) (regions s) (entity_map s) (entity_pool s) (entity_count s) (dev_count s) (mm_cur s) (fip_cur s) (fip_backend s) (fip_dev_spec s) (plat_toc_flag s) (fip_dev_count s) (enc_backend s) (enc_handle s) (enc_image_spec s) v (fip_dev_handle s) (memmap_dev_handle s) (enc_dev_handle s) (secure_data s).
Definition set_handles f m e s := IoSt (mem s) (regions s) (entity_map s) (entity_pool s) (entity_count s) (dev_count s) (mm_cur s) (fip_cur s) (fip_backend s) (fip_dev_spec s) (plat_toc_flag s) (fip_dev_count s) (enc_backend s) (enc_handle s) (enc_image_spec s) (fip_block_spec s) f m e (secure_data s).
Definition set_secure_data v s := IoSt (mem s) (regions s) (entity_map s) (entity_pool s) (entity_count s) (dev_count s) (mm_cur s) (fip_cur s) (fip_backend s) (fip_dev_spec s) (plat_toc_flag s) (fip_dev_count s) (enc_backend s) (enc_handle s) (enc_image_spec s) (fip_block_spec s) (fip_dev_handle s) (memmap_dev_handle s) (enc_dev_handle s) v.

(** Where a read puts its bytes: at an address, or in an object of the caller,
    to which they are answered. *)
Inductive io_buffer := At (addr : Z) | Obj.

(** ** What the layer takes from its surroundings *)

(** The static memory map and the options of the build. *)
Class Board := {
  static_regions : list region;
  TCSUPPORT_OPTEE : bool;
  IMAGE_BL31 : bool;
  disable_auth : bool      (* [dyn_disable_auth] has been called *)
}.

(** GCM of mbedtls: a context, its streaming update and the tag. *)
Class Gcm := {
  gcm_ctx : Type;
  gcm_setkey : list Z -> Z * gcm_ctx;
  gcm_starts : gcm_ctx -> list Z -> Z * gcm_ctx;
  gcm_update : gcm_ctx -> list Z -> Z * list Z * gcm_ctx;
  gcm_finish : gcm_ctx -> Z -> Z * list Z
}.

(** The storage layer as the drivers call it.  A read answers the code, the
    bytes and their number. *)
Class IoOps := {
  call_io_open : option io_dev -> io_spec -> M io_st (Z * option nat);
  call_io_seek : option nat -> Z -> M io_st Z;
  call_io_size : option nat -> M io_st (Z * Z);
  call_io_read : option nat -> io_buffer -> Z -> M io_st (Z * list Z);
  call_io_close : option nat -> M io_st Z;
  call_plat_get_image_source : Z -> M io_st (Z * option io_dev * io_spec)
}.

Section memory.
Context `{Board}.

Definition in_region (rw : bool) (x : Z) (r : region) : bool :=
  (rg_base r <=? x) && (x <? rg_base r + rg_size r) && (rg_rw r || negb rw).

Definition mappedb (rs : list region) (rw : bool) (a n : Z) : bool :=
  forallb (fun x => existsb (in_region rw x) (static_regions ++ rs)) (seqZ a n).

(** [n] bytes from [a]. *)
Definition load_mem (a n : Z) : M io_st (list Z) :=
  let! s := gets id in
  if mappedb (regions s) false a n then ret (ram_bytes (mem s) a n) else undef.

Definition store_mem (a : Z) (bs : list Z) : M io_st unit :=
  let! s := gets id in
  if mappedb (regions s) true a (Z.of_nat (length bs))
  then modify (set_mem (ram_store (mem s) a bs)) else undef.
End memory.

(** ** [io_storage.c] *)

Definition MAX_IO_HANDLES : Z := 3.
Definition MAX_IO_DEVICES : Z := 3.

(** The first index of the map that holds [e]. *)
Fixpoint find_first_entity (m : list (option nat)) (e : option nat) : option nat :=
  match m with
  | [] => None
  | x :: m' => if bool_decide (x = e) then Some O else S <$> find_first_entity m' e
  end.

(** The pool has a free entity whenever the count says so: else the index
    stays 0. *)
Definition allocate_entity : M io_st (Z * nat) := act (fun s =>
  if entity_count s <? MAX_IO_HANDLES then
    let '(result, index) := match find_first_entity (entity_map s) None with Some i => (0, i) | None => (- ENOENT, O) end in
    ((result, index), set_entities (<[index := Some index]> (entity_map s)) (entity_pool s) (u32 (entity_count s + 1)) s)
  else ((- ENOMEM, O), s)).

Definition free_entity (e : nat) : M io_st Z := act (fun s =>
  match find_first_entity (entity_map s) (Some e) with
  | Some index => (0, set_entities (<[index := None]> (entity_map s)) (entity_pool s) (u32 (entity_count s - 1)) s)
  | None => (- ENOENT, s)
  end).

(** [*entity] and stores to it. *)
Definition entity_at (h : option nat) : M io_st io_entity :=
  match h with
  | Some e => let! p := gets entity_pool in checked (p !! e)
  | None => undef
  end.
Definition set_entity (e : nat) (f : io_entity -> io_entity) : M io_st unit :=
  modify (fun s => set_entities (entity_map s) (alter f e (entity_pool s)) (entity_count s) s).
Definition set_info (e : nat) (i : io_info) : M io_st unit := set_entity e (fun x => Entity (dev_handle x) i).

Definition io_register_device : M io_st Z := act (fun s =>
  if dev_count s <? MAX_IO_DEVICES then (0, set_dev_count (u32 (dev_count s + 1)) s) else (- ENOMEM, s)).

(** ** [io_memmap.c] *)

Definition IO_SEEK_SET : Z := 1.

Section memmap.
Context `{Board}.

Definition memmap_block_open (spec : io_spec) (e : nat) : M io_st Z :=
  let! f := gets mm_cur in
  if mm_in_use f =? 0 then
    match spec with
    | BlockSpec =>
        do! modify (fun s => set_mm (MmFile 1 (fst (fip_block_spec s)) 0 (snd (fip_block_spec s))) s) in
        do! set_info e MemmapFile in
        ret 0
    | _ => undef
    end
  else ret (- ENOMEM).

(** [entity->info] as a pointer to the file state. *)
Definition mm_fp (h : option nat) : M io_st mm_file :=
  let! x := entity_at h in
  match info x with MemmapFile => gets mm_cur | _ => undef end.

Definition memmap_block_seek (h : option nat) (mode offset : Z) : M io_st Z :=
  if mode =? IO_SEEK_SET then
    let! fp := mm_fp h in
    do! modify (set_mm (MmFile (mm_in_use fp) (mm_base fp) (u64 offset) (mm_size fp))) in
    ret 0
  else ret (- ENOENT).

Definition memmap_block_len (h : option nat) : M io_st (Z * Z) :=
  let! fp := mm_fp h in
  ret (0, mm_size fp).

(** [memcpy] between overlapping ranges is undefined. *)
Definition disjointb (a n b m : Z) : bool := (a + n <=? b) || (b + m <=? a).

Definition memmap_block_read (h : option nat) (buffer : io_buffer) (length : Z) : M io_st (Z * list Z) :=
  let! fp := mm_fp h in
  let pos_after := u64 (mm_pos fp + length) in
  let src := u64 (mm_base fp + mm_pos fp) in
  let! bs := load_mem src length in
  do! match buffer with
      | At dst => if disjointb dst length src length then store_mem dst bs else undef
      | Obj => ret tt
      end in
  do! modify (set_mm (MmFile (mm_in_use fp) (mm_base fp) pos_after (mm_size fp))) in
  ret (0, bs).

Definition memmap_block_close (e : nat) : M io_st Z :=
  do! set_info e NoInfo in
  do! modify (set_mm mm_none) in
  ret 0.
End memmap.

(** ** [io_fip.c] *)

Definition MAX_FIP_DEVICES : Z := 1.

Definition is_valid_header (name serial_number : Z) : bool :=
  (name =? TOC_HEADER_NAME) && negb (serial_number =? 0).

Definition entry_of_bytes (bs : list Z) : toc_entry :=
  TocEntry (take 16 bs) (le_val (take 8 (drop 16 bs))) (le_val (take 8 (drop 24 bs))) (le_val (take 8 (drop 32 bs))).

Definition find_first_fip_state (s : io_st) (dev_spec : Z) : bool := fip_dev_spec s =? dev_spec.

(** The pool has one device. *)
Definition allocate_dev_info : M io_st Z := act (fun s =>
  if fip_dev_count s <? MAX_FIP_DEVICES then
    ((if find_first_fip_state s 0 then 0 else - ENOENT),
     set_fip_state (fip_dev_spec s) (plat_toc_flag s) (u32 (fip_dev_count s + 1)) s)
  else (- ENOMEM, s)).

Definition free_dev_info : M io_st Z := act (fun s =>
  if find_first_fip_state s (fip_dev_spec s) then (0, set_fip_state 0 0 (u32 (fip_dev_count s - 1)) s)
  else (- ENOENT, s)).

(** Answers the code and [*dev_info]. *)
Definition fip_dev_open (dev_spec : Z) : M io_st (Z * option io_dev) :=
  let! result := allocate_dev_info in
  if negb (result =? 0) then ret (- ENOMEM, None)
  else
    do! modify (fun s => set_fip_state dev_spec (plat_toc_flag s) (fip_dev_count s) s) in
    ret (0, Some FipDev).

Section fip.
Context `{Board} {ops : IoOps} (toc_fuel : nat).

Definition fip_dev_init (image_id : Z) : M io_st Z :=
  let! r := call_plat_get_image_source image_id in
  let '(result, dev, spec) := r in
  if negb (result =? 0) then ret (- ENOENT)
  else
    do! modify (set_fip_backend (dev, spec)) in
    let! o := call_io_open dev spec in
    if negb (fst o =? 0) then ret (- ENOENT)
    else
      let backend_handle := snd o in
      let! rd := call_io_read backend_handle Obj sizeof_toc_header in
      let header := snd rd in
      let! result :=
        (if fst rd =? 0 then
           if negb (is_valid_header (le_val (take 4 header)) (le_val (take 4 (drop 4 header))))
           then ret (- ENOENT)
           else
             do! modify (fun s => set_fip_state (fip_dev_spec s)
                                    (Z.land (Z.shiftr (le_val (take 8 (drop 8 header))) 32) 0xffff)
                                    (fip_dev_count s) s) in
             ret 0
         else ret (fst rd)) in
      do! call_io_close backend_handle in
      ret result.

Definition fip_dev_close : M io_st Z :=
  do! modify (set_fip_backend (None, NoSpec)) in
  free_dev_info.

(** The loop over the table of contents answers the code and [found_file];
    [current_file.entry] is the buffer it reads into. *)
Fixpoint fip_toc_loop (fuel : nat) (backend_handle : option nat) (uuid : list Z) : M io_st (Z * bool) :=
  match fuel with
  | O => out_of_fuel
  | S fuel' =>
      let! rd := call_io_read backend_handle Obj sizeof_toc_entry in
      if fst rd =? 0 then
        let entry := entry_of_bytes (snd rd) in
        do! modify (fun s => set_fip (FipState (ff_pos (fip_cur s)) entry) s) in
        if bool_decide (te_uuid entry = uuid) then ret (0, true)
        else if bool_decide (te_uuid entry = uuid_null) then ret (0, false)
        else fip_toc_loop fuel' backend_handle uuid
      else ret (fst rd, false)
  end.

Definition fip_file_open (spec : io_spec) (e : nat) : M io_st Z :=
  let! f := gets fip_cur in
  if negb (te_offset_address (ff_entry f) =? 0) then ret (- ENOMEM)
  else
    let! backend := gets fip_backend in
    let! o := call_io_open (fst backend) (snd backend) in
    if negb (fst o =? 0) then ret (- ENOENT)
    else
      let backend_handle := snd o in
      let! result :=
        (let! sk := call_io_seek backend_handle sizeof_toc_header in
         if negb (sk =? 0) then ret (- ENOENT)
         else
           match spec with
           | UuidSpec uuid =>
               let! l := fip_toc_loop toc_fuel backend_handle uuid in
               if negb (fst l =? 0) then ret (fst l)
               else if snd l then
                 do! modify (fun s => set_fip (FipState 0 (ff_entry (fip_cur s))) s) in
                 do! set_info e FipFile in
                 ret 0
               else
                 do! modify (fun s => let t := ff_entry (fip_cur s) in
                       set_fip (FipState (ff_pos (fip_cur s)) (TocEntry (te_uuid t) 0 (te_size t) (te_flags t))) s) in
                 ret (- ENOENT)
           | _ => undef
           end) in
      do! call_io_close backend_handle in
      ret result.

Definition fip_fp (h : option nat) : M io_st fip_file :=
  let! x := entity_at h in
  match info x with FipFile => gets fip_cur | _ => undef end.

Definition fip_file_len (h : option nat) : M io_st (Z * Z) :=
  let! fp := fip_fp h in
  ret (0, te_size (ff_entry fp)).

Definition fip_file_read (h : option nat) (buffer : io_buffer) (length : Z) : M io_st (Z * list Z) :=
  let! backend := gets fip_backend in
  let! o := call_io_open (fst backend) (snd backend) in
  if negb (fst o =? 0) then ret (- ENOENT, [])
  else
    let backend_handle := snd o in
    let! fp := fip_fp h in
    let file_offset := u64 (te_offset_address (ff_entry fp) + ff_pos fp) in
    let! sk := call_io_seek backend_handle file_offset in
    let! r :=
      (if negb (sk =? 0) then ret (- ENOENT, [])
       else
         let! rd := call_io_read backend_handle buffer length in
         if negb (fst rd =? 0) then ret (- ENOENT, [])
         else
           do! modify (fun s => let f := fip_cur s in
                 set_fip (FipState (u32 (ff_pos f + Z.of_nat (List.length (snd rd)))) (ff_entry f)) s) in
           ret rd) in
    do! call_io_close backend_handle in
    ret r.

Definition fip_file_close (e : nat) : M io_st Z :=
  let! f := gets fip_cur in
  do! (if negb (te_offset_address (ff_entry f) =? 0) then modify (set_fip fip_none) else ret tt) in
  do! set_info e NoInfo in
  ret 0.

Definition FW_ENCRYPTION : Z := 1.

Definition fip_file_enc (local_image_handle : option nat) : M io_st Z :=
  match local_image_handle with
  | None => ret (- EINVAL)
  | Some _ =>
      let! x := entity_at local_image_handle in
      match info x with
      | NoInfo => ret (- EINVAL)
      | FipFile => let! f := gets fip_cur in ret (Z.land (te_flags (ff_entry f)) FW_ENCRYPTION)
      | MemmapFile => undef
      end
  end.
End fip.

(** Answers the code and the flag. *)
Definition fip_dev_get_plat_toc_flag (dev : option io_dev) : M io_st (Z * Z) :=
  match dev with
  | Some FipDev => let! f := gets plat_toc_flag in ret (0, f)
  | _ => undef
  end.

(** ** The key and the decryption ([ecnt_trusted_boot.c], [mbedtls_crypto.c]) *)

Definition ENC_MODE_AES256 : Z := 1.
Definition KEY_SIZE_256 : Z := 32.
Definition KEY_SIZE_128 : Z := 16.
Definition CRYPTO_ERR_DECRYPTION : Z := 4.
Definition CRYPTO_GCM_DECRYPT : Z := 0.
Definition DEC_OP_BUF_SIZE : nat := 128.

(** Answers the code and the key; [key_len] is the size of the buffer. *)
Definition plat_get_enc_key_info (d : secure_efuse) (key_len : Z) : Z * list Z :=
  let len := if enc_mode d =? ENC_MODE_AES256 then KEY_SIZE_256 else KEY_SIZE_128 in
  if len <=? key_len then (0, take (Z.to_nat len) (ssk d)) else (- EINVAL, []).

Section decrypt.
Context `{Gcm}.

(** The loop over the buffer, [fuel] bounds the number of pieces: the code,
    the bytes decrypted in place, the bytes left as they were. *)
Fixpoint gcm_loop (fuel : nat) (ctx : gcm_ctx) (data : list Z) : Z * gcm_ctx * list Z :=
  match fuel, data with
  | S fuel', _ :: _ =>
      let '(rc, buf, ctx') := gcm_update ctx (take DEC_OP_BUF_SIZE data) in
      if negb (rc =? 0) then (rc, ctx', data)
      else
        let '(rc', ctx'', rest) := gcm_loop fuel' ctx' (drop DEC_OP_BUF_SIZE data) in
        (rc', ctx'', buf ++ rest)
  | _, _ => (0, ctx, data)
  end.

(** The code and what the buffer holds at the end. *)
Definition aes_gcm_decrypt (data key iv tag : list Z) : Z * list Z :=
  let '(rc, ctx) := gcm_setkey key in
  if negb (rc =? 0) then (CRYPTO_ERR_DECRYPTION, data)
  else
    let '(rc, ctx) := gcm_starts ctx iv in
    if negb (rc =? 0) then (CRYPTO_ERR_DECRYPTION, data)
    else
      let '(rc, ctx, out) := gcm_loop (length data) ctx data in
      if negb (rc =? 0) then (CRYPTO_ERR_DECRYPTION, out)
      else
        let '(rc, tag_buf) := gcm_finish ctx 16 in
        if negb (rc =? 0) then (CRYPTO_ERR_DECRYPTION, out)
        else
          let diff := fold_left Z.lor (zip_with Z.lxor tag tag_buf) 0 in
          if negb (diff =? 0) then (CRYPTO_ERR_DECRYPTION, out) else (0, out).

Definition crypto_mod_auth_decrypt (dec_algo : Z) (data key iv tag : list Z) : Z * list Z :=
  if dec_algo =? CRYPTO_GCM_DECRYPT then aes_gcm_decrypt data key iv tag
  else (CRYPTO_ERR_DECRYPTION, data).
End decrypt.

(** ** [io_encrypted.c] *)

Definition ENC_HEADER_MAGIC : Z := 0xAA640001.
Definition sizeof_fw_enc_hdr : Z := 44.
Definition ENC_MAX_IV_SIZE : Z := 16.
Definition ENC_MAX_TAG_SIZE : Z := 16.
Definition ENC_MAX_KEY_SIZE : Z := 32.

Record fw_enc_hdr := EncHdr {
  eh_magic : Z;
  eh_dec_algo : Z;
  eh_flags : Z;
  eh_iv_len : Z;
  eh_tag_len : Z;
  eh_iv : list Z;
  eh_tag : list Z
}.

Definition enc_hdr_of_bytes (bs : list Z) : fw_enc_hdr :=
  EncHdr (le_val (take 4 bs)) (le_val (take 2 (drop 4 bs))) (le_val (take 2 (drop 6 bs)))
         (le_val (take 2 (drop 8 bs))) (le_val (take 2 (drop 10 bs))) (take 16 (drop 12 bs)) (take 16 (drop 28 bs)).

Section enc.
Context `{Board} `{Gcm} {ops : IoOps}.

Definition enc_dev_open : Z * option io_dev := (0, Some EncDev).

Definition enc_dev_init (image_id : Z) : M io_st Z :=
  let! r := call_plat_get_image_source image_id in
  let '(result, dev, spec) := r in
  if negb (result =? 0) then ret (- ENOENT)
  else do! modify (set_enc_backend (dev, spec)) in ret result.

Definition enc_dev_close : M io_st Z :=
  do! modify (set_enc_backend (None, NoSpec)) in ret 0.

Definition enc_file_open (spec : io_spec) : M io_st Z :=
  do! modify (fun s => set_enc (enc_handle s) spec s) in
  let! dev := gets (fun s => fst (enc_backend s)) in
  let! o := call_io_open dev spec in
  if negb (fst o =? 0) then ret (- ENOENT)
  else do! modify (fun s => set_enc (snd o) (enc_image_spec s) s) in ret 0.

Definition enc_file_len : M io_st (Z * Z) :=
  let! h := gets enc_handle in
  let! r := call_io_size h in
  if negb (fst r =? 0) then ret (- ENOENT, snd r)
  else if snd r <? sizeof_fw_enc_hdr then ret (- EIO, snd r)
  else ret (0, snd r - sizeof_fw_enc_hdr).

(** The payload is decrypted where it was read to. *)
Definition enc_file_read (buffer : io_buffer) (length : Z) : M io_st (Z * list Z) :=
  let! h := gets enc_handle in
  let! rd := call_io_read h Obj sizeof_fw_enc_hdr in
  if negb (fst rd =? 0) then ret (- ENOENT, [])
  else
    let header := enc_hdr_of_bytes (snd rd) in
    if negb (eh_magic header =? ENC_HEADER_MAGIC) then ret (- ENOENT, [])
    else if (ENC_MAX_IV_SIZE <? eh_iv_len header) || (ENC_MAX_TAG_SIZE <? eh_tag_len header) then ret (- ENOENT, [])
    else
      let! rd := call_io_read h buffer length in
      if negb (fst rd =? 0) then ret (- ENOENT, [])
      else
        let! d := gets secure_data in
        let '(result, key) := plat_get_enc_key_info d ENC_MAX_KEY_SIZE in
        if negb (result =? 0) then ret (- ENOENT, snd rd)
        else
          let '(result, out) :=
            crypto_mod_auth_decrypt (eh_dec_algo header) (snd rd) key
              (take (Z.to_nat (eh_iv_len header)) (eh_iv header))
              (take (Z.to_nat (eh_tag_len header)) (eh_tag header)) in
          do! match buffer with At dst => store_mem dst out | Obj => ret tt end in
          if negb (result =? 0) then ret (- ENOENT, out) else ret (0, out).

Definition enc_file_close (e : nat) : M io_st Z :=
  let! h := gets enc_handle in
  do! call_io_close h in
  do! modify (fun s => set_enc (enc_handle s) NoSpec s) in
  do! set_info e NoInfo in
  ret 0.
End enc.

(** ** The calls of [io_storage.c] that reach a driver *)

Section storage.
Context `{Board} `{Gcm} {ops : IoOps} (toc_fuel : nat).

Definition io_open (dev : option io_dev) (spec : io_spec) : M io_st (Z * option nat) :=
  let! a := allocate_entity in
  let '(result, e) := a in
  if negb (result =? 0) then ret (result, None)
  else
    let! result :=
      match dev with
      | Some FipDev => fip_file_open toc_fuel spec e
      | Some MemmapDev => memmap_block_open spec e
      | Some EncDev => enc_file_open spec
      | None => undef
      end in
    if result =? 0 then
      do! set_entity e (fun x => Entity dev (info x)) in
      ret (result, Some e)
    else
      do! free_entity e in
      ret (result, None).

Definition io_seek (h : option nat) (mode offset : Z) : M io_st Z :=
  let! x := entity_at h in
  match dev_handle x with
  | Some MemmapDev => memmap_block_seek h mode offset
  | Some _ => ret (- ENODEV)
  | None => undef
  end.

Definition io_size (h : option nat) : M io_st (Z * Z) :=
  let! x := entity_at h in
  match dev_handle x with
  | Some FipDev => fip_file_len h
  | Some MemmapDev => memmap_block_len h
  | Some EncDev => enc_file_len
  | None => undef
  end.

Definition io_read (h : option nat) (buffer : io_buffer) (length : Z) : M io_st (Z * list Z) :=
  let! x := entity_at h in
  match dev_handle x with
  | Some FipDev => fip_file_read h buffer length
  | Some MemmapDev => memmap_block_read h buffer length
  | Some EncDev => enc_file_read buffer length
  | None => undef
  end.

Definition io_close (h : option nat) : M io_st Z :=
  let! x := entity_at h in
  match h with
  | None => undef
  | Some e =>
      let! result :=
        match dev_handle x with
        | Some FipDev => fip_file_close e
        | Some MemmapDev => memmap_block_close e
        | Some EncDev => enc_file_close e
        | None => undef
        end in
      do! free_entity e in
      ret result
  end.

Definition io_dev_init (dev : option io_dev) (init_params : Z) : M io_st Z :=
  match dev with
  | Some FipDev => fip_dev_init init_params
  | Some MemmapDev => ret 0
  | Some EncDev => enc_dev_init init_params
  | None => undef
  end.

Definition io_dev_close (dev : option io_dev) : M io_st Z :=
  match dev with
  | Some FipDev => fip_dev_close
  | Some MemmapDev => ret 0
  | Some EncDev => enc_dev_close
  | None => undef
  end.
End storage.
