(* ===== verification/AtfPlat.v ===== *)
(** Where the platform takes its images from
    ([A/plat/ecnt/en7523/ecnt_io_storage.c]), and the storage layer closed
    over itself.

    [plat_get_image_source] checks the device of an image before it answers it:
    the package device asks for the package, the encryption device for the
    package device.  Three nested calls are enough for every image. *)

From stdpp Require Import base numbers list option.
From Stdlib Require Import ZArith Lia.
From S2P Require Import Prelude Fip AtfIo.

Definition FIP_IMAGE_ID : Z := 0.
Definition BL2_IMAGE_ID : Z := 1.
Definition SCP_BL2_IMAGE_ID : Z := 2.
Definition BL31_IMAGE_ID : Z := 3.
Definition BL32_IMAGE_ID : Z := 4.
Definition BL33_IMAGE_ID : Z := 5.
Definition TRUSTED_BOOT_FW_CERT_ID : Z := 6.
Definition TRUSTED_KEY_CERT_ID : Z := 7.
Definition SCP_FW_KEY_CERT_ID : Z := 8.
Definition SOC_FW_KEY_CERT_ID : Z := 9.
Definition TRUSTED_OS_FW_KEY_CERT_ID : Z := 10.
Definition NON_TRUSTED_FW_KEY_CERT_ID : Z := 11.
Definition SCP_FW_CONTENT_CERT_ID : Z := 12.
Definition SOC_FW_CONTENT_CERT_ID : Z := 13.
Definition TRUSTED_OS_FW_CONTENT_CERT_ID : Z := 14.
Definition NON_TRUSTED_FW_CONTENT_CERT_ID : Z := 15.
Definition BL32_EXTRA1_IMAGE_ID : Z := 21.
Definition BL32_EXTRA2_IMAGE_ID : Z := 22.
Definition HW_CONFIG_ID : Z := 23.
Definition SOC_FW_CONFIG_ID : Z := 25.
Definition TOS_FW_CONFIG_ID : Z := 26.
Definition NT_FW_CONFIG_ID : Z := 27.
Definition ENC_IMAGE_ID : Z := 30.
Definition MAX_NUMBER_IDS : Z := 31.

(** ** The sources of the images *)

Definition bl2_uuid_spec : list Z := [0x5f; 0xf9; 0xec; 0x0b; 0x4d; 0x22; 0x3e; 0x4d; 0xa5; 0x44; 0xc3; 0x9d; 0x81; 0xc7; 0x3f; 0x0a].
Definition bl31_uuid_spec : list Z := [0x47; 0xd4; 0x08; 0x6d; 0x4c; 0xfe; 0x98; 0x46; 0x9b; 0x95; 0x29; 0x50; 0xcb; 0xbd; 0x5a; 0x00].
Definition bl32_uuid_spec : list Z := [0x05; 0xd0; 0xe1; 0x89; 0x53; 0xdc; 0x13; 0x47; 0x8d; 0x2b; 0x50; 0x0a; 0x4b; 0x7a; 0x3e; 0x38].
Definition bl33_uuid_spec : list Z := [0xd6; 0xd0; 0xee; 0xa7; 0xfc; 0xea; 0xd5; 0x4b; 0x97; 0x82; 0x99; 0x34; 0xf2; 0x34; 0xb6; 0xe4].
Definition tb_fw_cert_uuid_spec : list Z := [0xd6; 0xe2; 0x69; 0xea; 0x5d; 0x63; 0xe4; 0x11; 0x8d; 0x8c; 0x9f; 0xba; 0xbe; 0x99; 0x56; 0xa5].
Definition trusted_key_cert_uuid_spec : list Z := [0x82; 0x7e; 0xe8; 0x90; 0xf8; 0x60; 0xe4; 0x11; 0xa1; 0xb4; 0x77; 0x7a; 0x21; 0xb4; 0xf9; 0x4c].
Definition soc_fw_key_cert_uuid_spec : list Z := [0x8a; 0xb8; 0xbe; 0xcc; 0xf9; 0x60; 0xe4; 0x11; 0x9a; 0xd0; 0xeb; 0x48; 0x22; 0xd8; 0xdc; 0xf8].
Definition nt_fw_key_cert_uuid_spec : list Z := [0x8a; 0xd5; 0x83; 0x2a; 0xfb; 0x60; 0xe4; 0x11; 0x8a; 0xaf; 0xdf; 0x30; 0xbb; 0xc4; 0x98; 0x59].
Definition soc_fw_cert_uuid_spec : list Z := [0xe2; 0xb2; 0x0c; 0x20; 0x5e; 0x63; 0xe4; 0x11; 0x9c; 0xe8; 0xab; 0xcc; 0xf9; 0x2b; 0xb6; 0x66].
Definition nt_fw_cert_uuid_spec : list Z := [0x8e; 0xc4; 0xc1; 0xf3; 0x5d; 0x63; 0xe4; 0x11; 0xa7; 0xa9; 0x87; 0xee; 0x40; 0xb2; 0x3f; 0xa7].

Inductive io_check := open_memmap_check | open_fip_check.

(** [struct plat_io_policy]: the device, the specification and the check. *)
Record plat_io_policy := Policy { pol_dev : io_dev; pol_spec : io_spec; pol_check : io_check }.

Section plat.
Context `{Board}.

Definition fip_policy (uuid : list Z) : option plat_io_policy := Some (Policy FipDev (UuidSpec uuid) open_fip_check).

(** [policies]; the entries that are not written are null. *)
Definition policies (image_id : Z) : option plat_io_policy :=
  if image_id =? FIP_IMAGE_ID then Some (Policy MemmapDev BlockSpec open_memmap_check)
  else if image_id =? ENC_IMAGE_ID then Some (Policy FipDev NoSpec open_fip_check)
  else if image_id =? BL2_IMAGE_ID then fip_policy bl2_uuid_spec
  else if image_id =? BL31_IMAGE_ID then fip_policy bl31_uuid_spec
  else if (image_id =? BL32_IMAGE_ID) && TCSUPPORT_OPTEE then fip_policy bl32_uuid_spec
  else if image_id =? BL33_IMAGE_ID then fip_policy bl33_uuid_spec
  else if image_id =? TRUSTED_BOOT_FW_CERT_ID then fip_policy tb_fw_cert_uuid_spec
  else if image_id =? TRUSTED_KEY_CERT_ID then fip_policy trusted_key_cert_uuid_spec
  else if image_id =? SOC_FW_KEY_CERT_ID then fip_policy soc_fw_key_cert_uuid_spec
  else if image_id =? NON_TRUSTED_FW_KEY_CERT_ID then fip_policy nt_fw_key_cert_uuid_spec
  else if image_id =? SOC_FW_CONTENT_CERT_ID then fip_policy soc_fw_cert_uuid_spec
  else if image_id =? NON_TRUSTED_FW_CONTENT_CERT_ID then fip_policy nt_fw_cert_uuid_spec
  else None.

(** The static variable that [pol_dev] is the address of. *)
Definition policy_handle (d : io_dev) (s : io_st) : option io_dev :=
  match d with FipDev => fip_dev_handle s | MemmapDev => memmap_dev_handle s | EncDev => enc_dev_handle s end.

Context `{Gcm} {ops : IoOps} (toc_fuel : nat).

Definition open_fip (spec : io_spec) : M io_st Z :=
  let! dev := gets fip_dev_handle in
  let! result := io_dev_init dev FIP_IMAGE_ID in
  match spec with
  | NoSpec => ret result
  | _ =>
      if negb (result =? 0) then ret result
      else
        let! o := io_open toc_fuel dev spec in
        if negb (fst o =? 0) then ret (fst o)
        else
          let! result := fip_file_enc (snd o) in
          do! io_close (snd o) in
          ret result
  end.

Definition open_enc_fip (spec : io_spec) : M io_st Z :=
  let! dev := gets enc_dev_handle in
  let! result := io_dev_init dev ENC_IMAGE_ID in
  if negb (result =? 0) then ret result
  else
    let! o := io_open toc_fuel dev spec in
    if negb (fst o =? 0) then ret (fst o)
    else do! io_close (snd o) in ret 0.

Definition open_memmap (spec : io_spec) : M io_st Z :=
  let! dev := gets memmap_dev_handle in
  let! result := io_dev_init dev 0 in
  if negb (result =? 0) then ret result
  else
    let! o := io_open toc_fuel dev spec in
    if negb (fst o =? 0) then ret (fst o)
    else do! io_close (snd o) in ret 0.

(** Answers the code, the device and the specification. *)
Definition plat_get_image_source (image_id : Z) : M io_st (Z * option io_dev * io_spec) :=
  let! policy := checked (policies image_id) in
  let! result :=
    match pol_check policy with
    | open_memmap_check => open_memmap (pol_spec policy)
    | open_fip_check => open_fip (pol_spec policy)
    end in
  if result =? 0 then
    let! dev := gets (policy_handle (pol_dev policy)) in
    ret (0, dev, pol_spec policy)
  else if result =? FW_ENCRYPTION then
    let! result := open_enc_fip (pol_spec policy) in
    if result =? 0 then
      let! dev := gets enc_dev_handle in
      ret (0, dev, pol_spec policy)
    else ret (result, None, NoSpec)
  else ret (result, None, NoSpec).
End plat.

(** ** The layer closed over itself *)

Section stack.
Context `{Board} `{Gcm} (toc_fuel : nat).

(** No call is left. *)
Definition io_stuck : IoOps :=
  {| call_io_open := fun _ _ => out_of_fuel;
     call_io_seek := fun _ _ => out_of_fuel;
     call_io_size := fun _ => out_of_fuel;
     call_io_read := fun _ _ _ => out_of_fuel;
     call_io_close := fun _ => out_of_fuel;
     call_plat_get_image_source := fun _ => out_of_fuel |}.

Definition io_level (below : IoOps) : IoOps :=
  {| call_io_open := io_open (ops := below) toc_fuel;
     call_io_seek := fun h => io_seek h IO_SEEK_SET;
     call_io_size := io_size (ops := below);
     call_io_read := io_read (ops := below);
     call_io_close := io_close (ops := below);
     call_plat_get_image_source := plat_get_image_source (ops := below) toc_fuel |}.

Fixpoint io_stack (n : nat) : IoOps :=
  match n with O => io_stuck | S n' => io_level (io_stack n') end.

Definition storage : IoOps := io_stack 3.

(** ** The rest of [ecnt_io_storage.c] *)

Definition set_fip_block_spec (offset length : Z) : M io_st unit := modify (set_block_spec (offset, length)).

(** Registers the three drivers and opens their devices. *)
Definition plat_ecnt_io_setup : M io_st unit :=
  do! io_register_device in
  do! io_register_device in
  let! f := fip_dev_open 0 in
  do! (if fst f =? 0 then modify (fun s => set_handles (snd f) (memmap_dev_handle s) (enc_dev_handle s) s) else ret tt) in
  do! modify (fun s => set_handles (fip_dev_handle s) (Some MemmapDev) (enc_dev_handle s) s) in
  do! io_register_device in
  modify (fun s => set_handles (fip_dev_handle s) (memmap_dev_handle s) (snd enc_dev_open) s).

Definition BYPASS_FWUPGRADE : Z := 1.

Definition plat_check_bypass : M io_st Z :=
  let! dev := gets fip_dev_handle in
  let! result := io_dev_init (ops := storage) dev FIP_IMAGE_ID in
  if result =? 0 then
    let! f := fip_dev_get_plat_toc_flag dev in
    ret (Z.land (snd f) BYPASS_FWUPGRADE)
  else ret result.

Definition plat_check_header (base : Z) : M io_st bool :=
  let! h := load_mem base 8 in
  ret (is_valid_header (le_val (take 4 h)) (le_val (drop 4 h))).
End stack.
