(* ===== verification/AtfIoBase.v ===== *)
(** The memory device seen from the layers above: a session on it opens the
    first free handle, reads and gives the handle back. *)

From stdpp Require Import base numbers list option.
From Stdlib Require Import ZArith Lia.
From S2P Require Import Prelude Fip AtfIo AtfPlat.

(** ** Sequences of calls *)

Section flat.
Context {S : Type}.
Lemma bind_assoc {A B C} (m : M S A) (k : A -> M S B) (k2 : B -> M S C) s :
  bind (bind m k) k2 s = bind m (fun a => bind (k a) k2) s.
Proof. unfold bind. by destruct (m s) as [[a s']| |]. Qed.

Lemma bind_gets {A B} (f : S -> A) (k : A -> M S B) s : bind (gets f) k s = k (f s) s.
Proof. done. Qed.

Lemma bind_modify {B} (f : S -> S) (k : unit -> M S B) s : bind (modify f) k s = k tt (f s).
Proof. done. Qed.

Lemma bind_ret {A B} (a : A) (k : A -> M S B) s : bind (ret a) k s = k a s.
Proof. done. Qed.
End flat.

(** Straight-line code that neither branches nor calls. *)
Ltac flat := repeat first [rewrite bind_assoc | rewrite bind_gets | rewrite bind_modify | rewrite bind_ret]; cbv beta.

(** ** The pool of handles *)

(** The first [i] handles are in use. *)
Definition slots (i : nat) : list (option nat) := (Some <$> seq 0 i) ++ replicate (3 - i) None.
#[local] Arguments slots : simpl never.

Record rest (i : nat) (s : io_st) : Prop := {
  rest_map : entity_map s = slots i;
  rest_count : entity_count s = Z.of_nat i;
  rest_pool : length (entity_pool s) = 3%nat
}.

Definition push (i : nat) (x : io_entity) (s : io_st) : io_st :=
  set_entities (slots (S i)) (<[i := x]> (entity_pool s)) (Z.of_nat (S i)) s.
Definition pop (i : nat) (x : io_entity) (s : io_st) : io_st :=
  set_entities (slots i) (<[i := x]> (entity_pool s)) (Z.of_nat i) s.

Lemma slots_free i : (i < 3)%nat -> find_first_entity (slots i) None = Some i.
Proof. intros H. destruct i as [|[|[|i]]]; [done..|lia]. Qed.

Lemma slots_top i : (i < 3)%nat -> find_first_entity (slots (S i)) (Some i) = Some i.
Proof. intros H. destruct i as [|[|[|i]]]; [done..|lia]. Qed.

Lemma slots_push i : (i < 3)%nat -> <[i := Some i]> (slots i) = slots (S i).
Proof. intros H. destruct i as [|[|[|i]]]; [done..|lia]. Qed.

Lemma slots_pop i : (i < 3)%nat -> <[i := None]> (slots (S i)) = slots i.
Proof. intros H. destruct i as [|[|[|i]]]; [done..|lia]. Qed.

Lemma set_entities_eq s m p c :
  entity_map s = m -> entity_pool s = p -> entity_count s = c -> set_entities m p c s = s.
Proof. destruct s; simpl. by intros -> -> ->. Qed.

(** Only the pool matters. *)
Lemma rest_ext i s s' :
  entity_map s' = entity_map s -> entity_count s' = entity_count s ->
  length (entity_pool s') = length (entity_pool s) -> rest i s -> rest i s'.
Proof. intros E1 E2 E3 [Hm Hc Hp]. split; congruence. Qed.

Lemma rest_push i x s : rest i s -> rest (S i) (push i x s).
Proof. intros [Hm Hc Hp]. split; [done..|]. simpl. by rewrite length_insert. Qed.

Lemma rest_pop i x s : rest (S i) s -> rest i (pop i x s).
Proof. intros [Hm Hc Hp]. split; [done..|]. simpl. by rewrite length_insert. Qed.

Section handles.
Context (i : nat) (Hi : (i < 3)%nat).

Lemma allocate_run s : rest i s ->
  allocate_entity s = Done ((0, i), set_entities (slots (S i)) (entity_pool s) (Z.of_nat (S i)) s).
Proof.
  intros [Hm Hc Hp]. unfold allocate_entity, act. rewrite Hc, Hm, slots_free, slots_push by done.
  unfold MAX_IO_HANDLES. rewrite (proj2 (Z.ltb_lt _ 3)) by lia. unfold u32. rewrite Z.mod_small by lia.
  by rewrite Nat2Z.inj_succ.
Qed.

Lemma free_run s : rest (S i) s ->
  free_entity i s = Done (0, set_entities (slots i) (entity_pool s) (Z.of_nat i) s).
Proof.
  intros [Hm Hc Hp]. unfold free_entity, act. rewrite Hm, Hc, slots_top, slots_pop by done.
  unfold u32. rewrite Z.mod_small by lia. do 2 f_equal. f_equal. lia.
Qed.

Lemma entity_at_run s x : entity_pool s !! i = Some x -> entity_at (Some i) s = Done (x, s).
Proof. intros Hx. unfold entity_at, gets, bind. by rewrite Hx. Qed.
End handles.

(** What an update of the handle's entity leaves. *)
Lemma alter_insert_pool (p : list io_entity) i x f :
  (i < length p)%nat -> alter f i (<[i := x]> p) = <[i := f x]> p.
Proof.
  intros Hi. apply list_eq. intros j. destruct (decide (j = i)) as [->|Hj].
  - rewrite list_lookup_alter_eq, !list_lookup_insert_eq by done. done.
  - by rewrite list_lookup_alter_ne, !list_lookup_insert_ne by done.
Qed.

Lemma alter_as_insert (p : list io_entity) i x f :
  p !! i = Some x -> alter f i p = <[i := f x]> p.
Proof.
  intros Hx. apply list_eq. intros j. destruct (decide (j = i)) as [->|Hj].
  - rewrite list_lookup_alter_eq, list_lookup_insert_eq by by apply lookup_lt_Some in Hx.
    by rewrite Hx.
  - by rewrite list_lookup_alter_ne, list_lookup_insert_ne by done.
Qed.

(** ** Sessions on the memory device *)

Definition set_mm_pos (pos : Z) (s : io_st) : io_st :=
  let f := mm_cur s in set_mm (MmFile (mm_in_use f) (mm_base f) pos (mm_size f)) s.

(** The device opened on handle [i], at position [pos]. *)
Definition mm_opened (i : nat) (pos : Z) (s : io_st) : io_st :=
  set_mm (MmFile 1 (fst (fip_block_spec s)) pos (snd (fip_block_spec s)))
    (push i (Entity (Some MemmapDev) MemmapFile) s).
Definition mm_closed (i : nat) (s : io_st) : io_st :=
  set_mm mm_none (pop i (Entity (Some MemmapDev) NoInfo) s).

Section sessions.
Context `{Board} `{Gcm} {ops : IoOps} (toc_fuel : nat).
Context (i : nat) (Hi : (i < 3)%nat).

Lemma mm_open_run s : rest i s -> mm_in_use (mm_cur s) = 0 ->
  io_open toc_fuel (Some MemmapDev) BlockSpec s = Done ((0, Some i), mm_opened i 0 s).
Proof.
  intros Hr Hmm. unfold io_open. run (by apply allocate_run).
  unfold memmap_block_open, mm_opened, push, bind, gets, modify, set_info, set_entity, ret. simpl.
  rewrite Hmm. simpl. do 2 f_equal. destruct Hr as [_ _ Hp].
  destruct (lookup_lt_is_Some_2 (entity_pool s) i) as [x Hx]; [lia|].
  rewrite (alter_as_insert (entity_pool s) i x _ Hx), alter_insert_pool by lia. done.
Qed.

Lemma mm_opened_at pos s : rest i s ->
  entity_pool (mm_opened i pos s) !! i = Some (Entity (Some MemmapDev) MemmapFile).
Proof. intros [_ _ Hp]. simpl. rewrite list_lookup_insert_eq by lia. done. Qed.

Lemma mm_fp_run pos s : rest i s ->
  mm_fp (Some i) (mm_opened i pos s) = Done (mm_cur (mm_opened i pos s), mm_opened i pos s).
Proof. intros Hr. unfold mm_fp. run (by apply entity_at_run, mm_opened_at). done. Qed.

Lemma mm_seek_run pos off s : rest i s ->
  io_seek (Some i) IO_SEEK_SET off (mm_opened i pos s) = Done (0, mm_opened i (u64 off) s).
Proof.
  intros Hr. unfold io_seek. run (by apply entity_at_run, mm_opened_at). cbn [dev_handle].
  unfold memmap_block_seek. rewrite Z.eqb_refl. run (by apply mm_fp_run). done.
Qed.

(** The bytes a read at [pos] delivers, and where it finds them. *)
Definition mm_src (s : io_st) (pos : Z) : Z := u64 (fst (fip_block_spec s) + pos).

Definition mm_data (s : io_st) (pos n : Z) : list Z := ram_bytes (mem s) (mm_src s pos) n.

Definition mm_readable (s : io_st) (pos n : Z) : bool := mappedb (regions s) false (mm_src s pos) n.

Lemma mm_read_obj pos n s : rest i s ->
  io_read (Some i) Obj n (mm_opened i pos s) =
  if mm_readable s pos n then Done ((0, mm_data s pos n), mm_opened i (u64 (pos + n)) s) else Undef.
Proof.
  intros Hr. unfold io_read. run (by apply entity_at_run, mm_opened_at). cbn [dev_handle].
  unfold memmap_block_read. run (by apply mm_fp_run).
  unfold load_mem, bind, gets, mm_readable, mm_data. simpl. by destruct (mappedb _ _ _ _).
Qed.

(** A read to memory also needs a writable destination beside the source. *)
Definition mm_movable (s : io_st) (pos dst n : Z) : bool :=
  mm_readable s pos n && disjointb dst n (mm_src s pos) n && mappedb (regions s) true dst (Z.of_nat (Z.to_nat n)).

Lemma mm_data_length s pos n : length (mm_data s pos n) = Z.to_nat n.
Proof. unfold mm_data, ram_bytes. by rewrite length_fmap, length_seqZ. Qed.

Lemma mm_read_at pos dst n s : rest i s ->
  io_read (Some i) (At dst) n (mm_opened i pos s) =
  if mm_movable s pos dst n
  then Done ((0, mm_data s pos n), mm_opened i (u64 (pos + n)) (set_mem (ram_store (mem s) dst (mm_data s pos n)) s))
  else Undef.
Proof.
  intros Hr. unfold io_read. run (by apply entity_at_run, mm_opened_at). cbn [dev_handle].
  unfold memmap_block_read. run (by apply mm_fp_run).
  unfold mm_movable, load_mem, store_mem, bind, gets, modify, mm_readable. simpl.
  fold (mm_src s pos). destruct (mappedb (regions s) false _ _); [|done]. simpl.
  fold (mm_data s pos n). rewrite mm_data_length.
  destruct (disjointb _ _ _ _); [|done]. simpl. by destruct (mappedb _ _ _ _).
Qed.

Lemma mm_close_run pos s : rest i s ->
  io_close (Some i) (mm_opened i pos s) = Done (0, mm_closed i s).
Proof.
  intros Hr. unfold io_close. run (by apply entity_at_run, mm_opened_at). cbn [dev_handle].
  assert (memmap_block_close i (mm_opened i pos s)
          = Done (0, set_mm mm_none (push i (Entity (Some MemmapDev) NoInfo) s))) as Hm.
  { unfold memmap_block_close, set_info, set_entity, bind, modify, ret, mm_opened, push, set_entities, set_mm.
    cbn -[slots alter]. destruct Hr as [_ _ Hp]. rewrite alter_insert_pool by lia. done. }
  run (apply Hm). run (by apply free_run, (rest_ext _ (push i (Entity (Some MemmapDev) NoInfo) s)), rest_push). done.
Qed.

Lemma rest_mm_closed s : rest i s -> rest i (mm_closed i s).
Proof. intros [Hm Hc Hp]. split; simpl; [done..|]. by rewrite length_insert. Qed.

(** The check of the memory device is an empty session. *)
Lemma open_memmap_run s : rest i s -> mm_in_use (mm_cur s) = 0 -> memmap_dev_handle s = Some MemmapDev ->
  open_memmap toc_fuel BlockSpec s = Done (0, mm_closed i s).
Proof.
  intros Hr Hmm Hd. unfold open_memmap. unfold bind at 1, gets. rewrite Hd.
  unfold bind at 1. cbn [io_dev_init ret]. cbn [negb Z.eqb].
  run (by apply mm_open_run). cbn [fst snd Z.eqb negb]. run (by apply mm_close_run). done.
Qed.

Lemma source_of_package s : rest i s -> mm_in_use (mm_cur s) = 0 -> memmap_dev_handle s = Some MemmapDev ->
  plat_get_image_source toc_fuel FIP_IMAGE_ID s = Done ((0, Some MemmapDev, BlockSpec), mm_closed i s).
Proof.
  intros Hr Hmm Hd. unfold plat_get_image_source. cbn [policies]. unfold bind at 1. cbn [checked policies Z.eqb FIP_IMAGE_ID ret pol_check pol_spec].
  run (by apply open_memmap_run). cbn [Z.eqb]. unfold bind, gets. cbn [policy_handle pol_dev]. simpl. by rewrite Hd.
Qed.
End sessions.
