(* ===== verification/AtfIoFip.v ===== *)
(** The package device seen from the layers above: finding an entry, reading
    it, and the check of an image's source. *)

From stdpp Require Import base numbers list option.
From Stdlib Require Import ZArith Lia.
From S2P Require Import Prelude Fip AtfIo AtfPlat AtfIoBase.

(** ** The table of contents *)

(** The walk of [fip_file_open] as a function of the memory: the entry it
    stops at, whether it is the one asked for, and the position behind it. *)
Section scan.
Context `{Board} (rs : list region) (r : ram_t) (base : Z) (uuid : list Z).

Fixpoint toc_scan (fuel : nat) (pos : Z) : outcome (toc_entry * bool * Z) :=
  match fuel with
  | O => OutOfFuel
  | S fuel' =>
      if mappedb rs false (u64 (base + pos)) sizeof_toc_entry then
        let e := entry_of_bytes (ram_bytes r (u64 (base + pos)) sizeof_toc_entry) in
        let pos' := u64 (pos + sizeof_toc_entry) in
        if bool_decide (te_uuid e = uuid) then Done (e, true, pos')
        else if bool_decide (te_uuid e = uuid_null) then Done (e, false, pos')
        else toc_scan fuel' pos'
      else Undef
  end.
End scan.

Definition scan_of `{Board} (fuel : nat) (s : io_st) (uuid : list Z) : outcome (toc_entry * bool * Z) :=
  toc_scan (regions s) (mem s) (fst (fip_block_spec s)) uuid fuel sizeof_toc_header.

(** The header in memory. *)
Definition header_valid (s : io_st) : bool :=
  let h := mm_data s 0 sizeof_toc_header in
  is_valid_header (le_val (take 4 h)) (le_val (take 4 (drop 4 h))).

Definition header_flag (s : io_st) : Z :=
  Z.land (Z.shiftr (le_val (take 8 (drop 8 (mm_data s 0 sizeof_toc_header)))) 32) 0xffff.

(** ** States between the calls *)

(** A session on the memory device has used handle [i]. *)
Definition scratched (i : nat) (s : io_st) : io_st :=
  set_mm mm_none (set_entities (entity_map s) (<[i := Entity (Some MemmapDev) NoInfo]> (entity_pool s)) (entity_count s) s).

(** The file [f] of the package is open on handle [j]. *)
Definition fip_session (j : nat) (f : fip_file) (s : io_st) : io_st :=
  set_fip f (push j (Entity (Some FipDev) FipFile) (scratched (S j) s)).

Definition closed_file (f : fip_file) : fip_file :=
  if te_offset_address (ff_entry f) =? 0 then f else fip_none.

Definition fip_closed (j : nat) (f : fip_file) (s : io_st) : io_st :=
  set_fip (closed_file f) (pop j (Entity (Some FipDev) NoInfo) (scratched (S j) s)).

Definition missed (e : toc_entry) : toc_entry := TocEntry (te_uuid e) 0 (te_size e) (te_flags e).

(** The package device has looked at the header. *)
Definition fip_inited (s : io_st) : io_st :=
  let s := set_fip_backend (Some MemmapDev, BlockSpec) s in
  if header_valid s then set_fip_state (fip_dev_spec s) (header_flag s) (fip_dev_count s) s else s.

(** Equal states of the pool: three handles, so every case computes. *)
Ltac pool_eq Hr j :=
  let Hm := fresh in let Hc := fresh in let Hp := fresh in
  destruct Hr as [Hm Hc Hp];
  match type of Hm with entity_map ?s = _ => destruct s as [? ? mp [|? [|? [|? [|??]]]] cn]; try discriminate Hp end;
  simpl in Hm, Hc; subst; destruct j as [|[|[|j]]]; [reflexivity| |exfalso; lia..]; first [reflexivity|exfalso; lia].

Lemma mm_closed_scratched i s : rest i s -> (i < 3)%nat -> mm_closed i s = scratched i s.
Proof.
  intros [Hm Hc Hp] Hi. unfold mm_closed, pop, scratched. by rewrite Hm, Hc.
Qed.

Lemma rest_scratched i k s : rest i s -> rest i (scratched k s).
Proof. intros Hr. eapply rest_ext; [..|exact Hr]; simpl; [done..|]. by rewrite length_insert. Qed.

Section fip_level.
Context `{Board} `{Gcm} (below : IoOps) (toc_fuel : nat).

(** The drivers call the level below. *)
#[local] Instance level : IoOps := io_level toc_fuel below.

Lemma scratched_idem i s : scratched i (scratched i s) = scratched i s.
Proof. unfold scratched. simpl. by rewrite list_insert_insert_eq. Qed.

Lemma fip_dev_init_run i s :
  (i < 3)%nat -> rest i s -> mm_in_use (mm_cur s) = 0 -> memmap_dev_handle s = Some MemmapDev ->
  fip_dev_init FIP_IMAGE_ID s =
  if mm_readable s 0 sizeof_toc_header
  then Done (if header_valid s then 0 else - ENOENT, scratched i (fip_inited s))
  else Undef.
Proof.
  intros Hi Hr Hmm Hd. unfold fip_dev_init. cbn [level io_level call_plat_get_image_source].
  run (by apply source_of_package). cbn [Z.eqb negb]. rewrite mm_closed_scratched by done.
  unfold bind at 1, modify. set (s1 := set_fip_backend _ _).
  assert (rest i s1) as Hr1 by (eapply rest_ext; [..|apply (rest_scratched i i), Hr]; done).
  cbn [call_io_open level io_level]. run (by apply (mm_open_run _ i Hi s1)). cbn [fst snd Z.eqb negb call_io_read level io_level].
  unfold bind at 1. rewrite (mm_read_obj (ops:=below) i Hi 0 _ s1 Hr1).
  change (mm_readable s1 0 sizeof_toc_header) with (mm_readable s 0 sizeof_toc_header).
  destruct (mm_readable s 0 sizeof_toc_header); [|done].
  change (mm_data s1 0 sizeof_toc_header) with (mm_data s 0 sizeof_toc_header). cbn [fst snd Z.eqb].
  fold (header_valid s). unfold fip_inited. change (header_valid (set_fip_backend _ s)) with (header_valid s).
  destruct (header_valid s) eqn:Hv; cbn [negb].
  - unfold bind at 1. unfold bind at 1, modify. cbn [ret call_io_close level io_level].
    match goal with |- context [set_fip_state ?a ?b ?c ?x] => change (set_fip_state a b c x) with (mm_opened i (u64 (0 + sizeof_toc_header)) (set_fip_state (fip_dev_spec s) (header_flag s) (fip_dev_count s) s1)) end.
    set (s2 := set_fip_state _ _ _ s1).
    assert (rest i s2) as Hr2 by (eapply rest_ext; [..|exact Hr1]; done).
    run (by apply mm_close_run). rewrite mm_closed_scratched by done. cbn [ret]. unfold ret. do 2 f_equal.
    change s2 with (scratched i (set_fip_state (fip_dev_spec s) (header_flag s) (fip_dev_count s) (set_fip_backend (Some MemmapDev, BlockSpec) s))).
    apply scratched_idem.
  - unfold bind at 1. cbn [ret call_io_close level io_level]. unfold ret at 1.
    run (by apply mm_close_run). rewrite mm_closed_scratched by done. unfold ret. do 2 f_equal.
    change s1 with (scratched i (set_fip_backend (Some MemmapDev, BlockSpec) s)). apply scratched_idem.
Qed.

Lemma fip_toc_loop_run i uuid fuel : (i < 3)%nat -> forall pos s, rest i s ->
  fip_toc_loop fuel (Some i) uuid (mm_opened i pos s) =
  match toc_scan (regions s) (mem s) (fst (fip_block_spec s)) uuid fuel pos with
  | Done (e, b, pos') => Done ((0, b), mm_opened i pos' (set_fip (FipState (ff_pos (fip_cur s)) e) s))
  | Undef => Undef
  | OutOfFuel => OutOfFuel
  end.
Proof.
  intros Hi. induction fuel as [|fuel IH]; intros pos s Hr; [done|].
  cbn [fip_toc_loop toc_scan call_io_read level io_level]. unfold bind at 1. rewrite (mm_read_obj (ops:=below)) by done.
  unfold mm_readable, mm_data, mm_src. destruct (mappedb _ _ _ _); [|done]. cbn [fst snd Z.eqb].
  set (e := entry_of_bytes _). unfold bind at 1, modify.
  change (set_fip _ (mm_opened i ?p s)) with (mm_opened i p (set_fip (FipState (ff_pos (fip_cur s)) e) s)).
  destruct (bool_decide (te_uuid e = uuid)); [done|]. destruct (bool_decide (te_uuid e = uuid_null)); [done|].
  rewrite IH by (eapply rest_ext; [..|exact Hr]; done). cbn [regions mem fip_block_spec set_fip].
  by destruct (toc_scan _ _ _ _ _ _) as [[[e' b] pos']| |].
Qed.

(** [entity->info] of another handle, set during a session on handle [i]. *)
Lemma set_info_session j i x pos s : j <> i ->
  set_info j x (mm_opened i pos s) =
  Done (tt, mm_opened i pos (set_entities (entity_map s) (alter (fun y => Entity (dev_handle y) x) j (entity_pool s)) (entity_count s) s)).
Proof.
  intros Hj. unfold set_info, set_entity, modify. do 2 f_equal. unfold mm_opened, push, set_mm, set_entities; simpl. f_equal.
  apply list_eq. intros k. destruct (decide (k = j)) as [->|Hk].
  - rewrite list_lookup_alter_eq, !list_lookup_insert_ne, list_lookup_alter_eq by done. done.
  - rewrite list_lookup_alter_ne by done. destruct (decide (k = i)) as [->|Hk'].
    + destruct (decide (i < length (entity_pool s))%nat).
      * rewrite !list_lookup_insert_eq by (rewrite ?length_alter; done). done.
      * rewrite !list_insert_ge by (rewrite ?length_alter; lia). by rewrite list_lookup_alter_ne.
    + rewrite !list_lookup_insert_ne, list_lookup_alter_ne by done. done.
Qed.

(** Opening a file of the package is the walk over its table. *)
Lemma fip_open_run j uuid s :
  (S j < 3)%nat -> rest j s -> mm_in_use (mm_cur s) = 0 ->
  te_offset_address (ff_entry (fip_cur s)) = 0 -> fip_backend s = (Some MemmapDev, BlockSpec) ->
  io_open toc_fuel (Some FipDev) (UuidSpec uuid) s =
  match scan_of toc_fuel s uuid with
  | Done (e, true, _) => Done ((0, Some j), fip_session j (FipState 0 e) s)
  | Done (e, false, _) =>
      Done ((- ENOENT, None), set_fip (FipState (ff_pos (fip_cur s)) (missed e)) (scratched (S j) s))
  | Undef => Undef
  | OutOfFuel => OutOfFuel
  end.
Proof.
  intros Hj Hr Hmm Hoff Hb. unfold io_open. run (by apply (allocate_run j); [lia|]).
  cbn [Z.eqb negb]. set (s1 := set_entities _ _ _ s).
  assert (rest (S j) s1) as Hr1 by (destruct Hr; done).
  unfold fip_file_open. flat. change (fip_cur s1) with (fip_cur s). rewrite Hoff. cbn [Z.eqb negb].
  flat. change (fip_backend s1) with (fip_backend s). rewrite Hb.
  cbn [fst snd call_io_open level io_level]. flat. run (by apply (mm_open_run _ (S j))).
  cbn [fst snd Z.eqb negb call_io_seek level io_level]. flat. run (by apply mm_seek_run). cbn [Z.eqb negb].
  flat. unfold bind at 1. rewrite fip_toc_loop_run by done. unfold scan_of.
  change (regions s1) with (regions s). change (mem s1) with (mem s). change (fip_block_spec s1) with (fip_block_spec s).
  change (u64 sizeof_toc_header) with sizeof_toc_header. change (fip_cur s1) with (fip_cur s).
  destruct (toc_scan _ _ _ _ _ _) as [[[e b] pos']| |]; [|done..]. cbn [fst snd Z.eqb negb]. destruct b.
  - flat. change (set_fip ?f (mm_opened ?i ?p ?x)) with (mm_opened i p (set_fip f x)).
    run (apply (set_info_session j (S j)); lia). flat. cbn [call_io_close level io_level].
    run (apply mm_close_run; [done|eapply rest_ext; [..|exact Hr1]; simpl; rewrite ?length_alter; done]). cbn [Z.eqb].
    unfold bind, set_entity, modify, ret. do 2 f_equal. pool_eq Hr j.
  - flat. change (set_fip ?f (mm_opened ?i ?p ?x)) with (mm_opened i p (set_fip f x)). cbn [call_io_close level io_level].
    run (apply mm_close_run; [done|eapply rest_ext; [..|exact Hr1]; done]). flat. change (- ENOENT =? 0) with false. cbv iota.
    run (apply free_run; [lia|]; eapply rest_ext; [..|exact Hr1]; simpl; rewrite ?length_insert; done).
    unfold ret. do 2 f_equal. pool_eq Hr j.
Qed.

(** ** An open file of the package *)

(** A session on the memory device inside the session on the file. *)
Lemma session_scratched j f s : (S j < 3)%nat -> rest j s -> mm_closed (S j) (fip_session j f s) = fip_session j f s.
Proof. intros Hj Hr. pool_eq Hr j. Qed.

Section session.
Context (j : nat) (Hj : (S j < 3)%nat).
Implicit Types (f : fip_file) (s : io_st).

Lemma session_at f s : rest j s -> entity_pool (fip_session j f s) !! j = Some (Entity (Some FipDev) FipFile).
Proof. intros [_ _ Hp]. simpl. rewrite list_lookup_insert_eq; [done|]. rewrite length_insert. lia. Qed.

Lemma rest_session f s : rest j s -> rest (S j) (fip_session j f s).
Proof. intros Hr. eapply rest_ext; [..|apply (rest_push _ (Entity (Some FipDev) FipFile)), (rest_scratched _ (S j)), Hr]; done. Qed.

Lemma fip_enc_run f s : rest j s ->
  fip_file_enc (Some j) (fip_session j f s) = Done (Z.land (te_flags (ff_entry f)) FW_ENCRYPTION, fip_session j f s).
Proof. intros Hr. unfold fip_file_enc. run (by apply entity_at_run, session_at). done. Qed.

Lemma fip_size_run f s : rest j s ->
  io_size (Some j) (fip_session j f s) = Done ((0, te_size (ff_entry f)), fip_session j f s).
Proof.
  intros Hr. unfold io_size. run (by apply entity_at_run, session_at). cbn [dev_handle].
  unfold fip_file_len, fip_fp. flat. run (by apply entity_at_run, session_at). done.
Qed.

(** Where the file goes on. *)
Definition file_offset f : Z := u64 (te_offset_address (ff_entry f) + ff_pos f).
Definition advanced f (n : nat) : fip_file := FipState (u32 (ff_pos f + Z.of_nat n)) (ff_entry f).

Lemma u64_u64 z : u64 (u64 z) = u64 z.
Proof. unfold u64. by rewrite Z.mod_mod. Qed.

(** A read of the file is a read of the memory device at the file's place. *)
Lemma fip_read_through b f n s (o : option (list Z * Z * io_st)) :
  rest j s -> mm_in_use (mm_cur s) = 0 -> fip_backend s = (Some MemmapDev, BlockSpec) ->
  io_read (ops := below) (Some (S j)) b n (mm_opened (S j) (file_offset f) (fip_session j f s)) =
    match o with
    | Some (bs, p, s') => Done ((0, bs), mm_opened (S j) p (fip_session j f s'))
    | None => Undef
    end ->
  (forall bs p s', o = Some (bs, p, s') -> rest j s') ->
  io_read (Some j) b n (fip_session j f s) =
    match o with
    | Some (bs, p, s') => Done ((0, bs), fip_session j (advanced f (length bs)) s')
    | None => Undef
    end.
Proof.
  intros Hr Hmm Hb Hrd Ho. unfold io_read. run (by apply entity_at_run, session_at). cbn [dev_handle].
  unfold fip_file_read. flat. change (fip_backend (fip_session j f s)) with (fip_backend s). rewrite Hb.
  cbn [fst snd call_io_open level io_level].
  pose proof (rest_session f s Hr) as Hr1.
  run (by apply (mm_open_run _ (S j))). cbn [fst snd Z.eqb negb]. flat.
  unfold fip_fp. flat. run (apply entity_at_run; simpl; rewrite list_lookup_insert_ne by lia; by apply (session_at f)). cbn [info]. flat.
  cbn [call_io_seek level io_level]. run (by apply (mm_seek_run (S j))). cbn [Z.eqb negb]. flat.
  change (fip_cur (mm_opened _ _ (fip_session j f s))) with f. fold (file_offset f).
  assert (u64 (file_offset f) = file_offset f) as -> by apply u64_u64.
  cbn [call_io_read level io_level]. unfold bind at 1. rewrite Hrd.
  destruct o as [[[bs p] s']|]; [|done]. cbn [fst snd Z.eqb negb]. flat.
  cbn [call_io_close level io_level].
  change (set_fip _ (mm_opened _ _ _)) with (mm_opened (S j) p (fip_session j (advanced f (length bs)) s')).
  specialize (Ho _ _ _ eq_refl).
  run (by apply mm_close_run; [|apply rest_session]). unfold ret. do 2 f_equal. by apply session_scratched.
Qed.

Lemma fip_read_obj f n s : rest j s -> mm_in_use (mm_cur s) = 0 -> fip_backend s = (Some MemmapDev, BlockSpec) ->
  io_read (Some j) Obj n (fip_session j f s) =
  if mm_readable s (file_offset f) n
  then Done ((0, mm_data s (file_offset f) n), fip_session j (advanced f (Z.to_nat n)) s)
  else Undef.
Proof.
  intros Hr Hmm Hb.
  rewrite (fip_read_through _ _ _ _ (if mm_readable s (file_offset f) n then Some (mm_data s (file_offset f) n, u64 (file_offset f + n), s) else None)); try done.
  - destruct (mm_readable _ _ _); [|done]. by rewrite mm_data_length.
  - rewrite mm_read_obj by (done || by apply rest_session). change (mm_readable (fip_session j f s)) with (mm_readable s). by destruct (mm_readable _ _ _).
  - destruct (mm_readable _ _ _); [|done]. by intros ? ? ? [= _ _ <-].
Qed.

Lemma fip_read_at f dst n s : rest j s -> mm_in_use (mm_cur s) = 0 -> fip_backend s = (Some MemmapDev, BlockSpec) ->
  io_read (Some j) (At dst) n (fip_session j f s) =
  if mm_movable s (file_offset f) dst n
  then Done ((0, mm_data s (file_offset f) n),
             fip_session j (advanced f (Z.to_nat n)) (set_mem (ram_store (mem s) dst (mm_data s (file_offset f) n)) s))
  else Undef.
Proof.
  intros Hr Hmm Hb.
  rewrite (fip_read_through _ _ _ _ (if mm_movable s (file_offset f) dst n
    then Some (mm_data s (file_offset f) n, u64 (file_offset f + n), set_mem (ram_store (mem s) dst (mm_data s (file_offset f) n)) s) else None)); try done.
  - destruct (mm_movable _ _ _ _); [|done]. by rewrite mm_data_length.
  - rewrite mm_read_at by (done || by apply rest_session). change (mm_movable (fip_session j f s)) with (mm_movable s). by destruct (mm_movable _ _ _ _).
  - destruct (mm_movable _ _ _ _); [|done]. intros ? ? ? [= _ _ <-]. by destruct Hr.
Qed.

Lemma rest_closed f s : rest j s -> rest j (fip_closed j f s).
Proof. intros [Hm Hc Hp]. split; [done..|]. simpl. by rewrite !length_insert. Qed.

Lemma fip_close_run f s : rest j s -> io_close (Some j) (fip_session j f s) = Done (0, fip_closed j f s).
Proof.
  intros Hr. unfold io_close. run (by apply entity_at_run, session_at). cbn [dev_handle].
  unfold fip_file_close. flat. change (fip_cur (fip_session j f s)) with f.
  set (s1 := set_fip (closed_file f) (push j (Entity (Some FipDev) NoInfo) (scratched (S j) s))).
  assert (set_info j NoInfo (set_fip (closed_file f) (fip_session j f s)) = Done (tt, s1)) as Hs.
  { unfold set_info, set_entity, modify. do 2 f_equal. destruct Hr as [_ _ Hp]. unfold s1, fip_session, push, set_fip, set_entities; simpl.
    rewrite alter_insert_pool by (rewrite length_insert; lia). done. }
  assert (rest (S j) s1) as Hr1.
  { eapply rest_ext; [..|apply (rest_push _ (Entity (Some FipDev) NoInfo)), (rest_scratched _ (S j)), Hr]; done. }
  assert ((if negb (te_offset_address (ff_entry f) =? 0) then modify (set_fip fip_none) else ret tt) (fip_session j f s)
          = Done (tt, set_fip (closed_file f) (fip_session j f s))) as Hc.
  { unfold closed_file. by destruct (_ =? 0). }
  run (apply Hc). flat. run (apply Hs). flat. run (by apply free_run; [lia|exact Hr1]). done.
Qed.
End session.
End fip_level.
