(* ===== verification/AtfLoad.v ===== *)
(** Loading an image ([A/common/bl_common.c], [load_image]). *)

From stdpp Require Import base numbers list option.
From Stdlib Require Import ZArith Lia.
From S2P Require Import Prelude Fip AtfIo AtfPlat.

Definition PAGE_SIZE : Z := 0x1000.
Definition TZRAM2_BASE : Z := 0x80030000.
Definition TZRAM2_SIZE : Z := 0x10000.

(** [page_align(value, UP)] and [page_align(value, DOWN)]: the mask is an [unsigned int]. *)
Definition page_align (value : Z) (up : bool) : Z :=
  if negb (Z.land value (PAGE_SIZE - 1) =? 0) then
    let value := Z.land value (u32 (Z.lnot (PAGE_SIZE - 1))) in
    if up then u64 (value + PAGE_SIZE) else value
  else value.

(** [image_info_t]: [image_size] and [image_max_size] have 32 bits. *)
Record image_info := ImageInfo { image_base : Z; image_size : Z; image_max_size : Z }.

Definition set_image_size (v : Z) (i : image_info) : image_info := ImageInfo (image_base i) v (image_max_size i).

Section load.
Context `{Board} `{Gcm} (toc_fuel : nat).

#[local] Instance top : IoOps := storage toc_fuel.

(** The images the runtime firmware verifies by a digest it is handed. *)
Definition by_digest (image_id : Z) (image_data : image_info) : bool :=
  IMAGE_BL31 && ((image_id =? BL2_IMAGE_ID) || (image_id =? BL33_IMAGE_ID)) && ((image_base image_data =? TZRAM2_BASE) || disable_auth).

(** The part of [load_image] behind [plat_get_image_source].  Answers the code
    and [*image_data]. *)
Definition load_from (dev_handle : option io_dev) (image_spec : io_spec) (image_data : image_info) : M io_st (Z * image_info) :=
  let! o := call_io_open dev_handle image_spec in
  if negb (fst o =? 0) then ret (fst o, image_data)
  else
    let image_handle := snd o in
    let! r :=
      (let! sz := call_io_size image_handle in
       let '(io_result, image_size) := sz in
       if negb (io_result =? 0) || (image_size =? 0) then ret (io_result, image_data)
       else if image_max_size image_data <? image_size then ret (- EFBIG, image_data)
       else
         let image_data := set_image_size (u32 image_size) image_data in
         let! rd := call_io_read image_handle (At (image_base image_data)) image_size in
         ret (fst rd, image_data)) in
    do! call_io_close image_handle in
    do! io_dev_close dev_handle in
    ret r.

Definition load_image (image_id : Z) (image_data : image_info) : M io_st (Z * image_info) :=
  if by_digest image_id image_data then ret (0, set_image_size 0 image_data)
  else
    let! src := call_plat_get_image_source image_id in
    let '(io_result, dev_handle, image_spec) := src in
    if negb (io_result =? 0) then ret (io_result, image_data)
    else load_from dev_handle image_spec image_data.
End load.
