(* ===== verification/AtfLoadProps.v ===== *)
(** Loading an image refines one walk over the package in memory: the handles
    and the drivers' state are as before, the bytes of the entry are at the
    destination, and every error is accounted for. *)

From stdpp Require Import base numbers list option.
From Stdlib Require Import ZArith Lia.
From S2P Require Import Prelude Fip AtfIo AtfPlat AtfIoBase AtfIoFip AtfLoad.

(** ** Between two loads *)

Record ready (s : io_st) : Prop := {
  ready_fip : fip_dev_handle s = Some FipDev;
  ready_memmap : memmap_dev_handle s = Some MemmapDev;
  ready_enc : enc_dev_handle s = Some EncDev
}.

(** No handle is open and no driver has a file open. *)
Record idle (s : io_st) : Prop := {
  idle_rest : rest 0 s;
  idle_mm : mm_in_use (mm_cur s) = 0;
  idle_fip : te_offset_address (ff_entry (fip_cur s)) = 0
}.

(** What a load does not touch. *)
Record same (s s' : io_st) : Prop := {
  same_regions : regions s' = regions s;
  same_block : fip_block_spec s' = fip_block_spec s;
  same_fip : fip_dev_handle s' = fip_dev_handle s;
  same_memmap : memmap_dev_handle s' = memmap_dev_handle s;
  same_enc : enc_dev_handle s' = enc_dev_handle s;
  same_fuses : secure_data s' = secure_data s
}.

#[export] Instance same_preorder : PreOrder same.
Proof. split; [by intros s|]. intros s1 s2 s3 [] []. split; congruence. Qed.

Lemma same_ready s s' : same s s' -> ready s -> ready s'.
Proof. intros [] []. split; congruence. Qed.

(** The outcome [x] of a run from [s] is what the specification [o] says: it
    faults and runs out of fuel when [o] does, otherwise answers and leaves
    memory as [o] says, idle and with the same surroundings. *)
Definition meets {A} (s : io_st) (o : outcome (A * ram_t)) (x : outcome (A * io_st)) : Prop :=
  match o with
  | Done (a, r) => exists s', x = Done (a, s') /\ idle s' /\ same s s' /\ mem s' = r
  | Undef => x = Undef
  | OutOfFuel => x = OutOfFuel
  end.

Definition refines {A} (m : M io_st A) (s : io_st) (o : outcome (A * ram_t)) : Prop := meets s o (m s).

(** ** The specification *)

Section spec.
Context `{Board} `{Gcm} (toc_fuel : nat).
Implicit Types (s : io_st).

(** The entry of an image; [None] when the package is no package or does not
    list it. *)
Definition find_entry (s : io_st) (uuid : list Z) : outcome (option toc_entry) :=
  if mm_readable s 0 sizeof_toc_header then
    if header_valid s then
      match scan_of toc_fuel s uuid with
      | Done (e, b, _) => Done (if b then Some e else None)
      | Undef => Undef
      | OutOfFuel => OutOfFuel
      end
    else Done None
  else Undef.

Definition encrypted (e : toc_entry) : bool := Z.land (te_flags e) FW_ENCRYPTION =? FW_ENCRYPTION.

(** The limits on the size of an image: [Some] when nothing is read. *)
Definition size_check (i : image_info) (size : Z) : option (Z * image_info) :=
  if size =? 0 then Some (0, i)
  else if image_max_size i <? size then Some (- EFBIG, i)
  else None.

(** An image that lies in the package as it is. *)
Definition load_plain (s : io_st) (i : image_info) (e : toc_entry) : outcome (Z * image_info * ram_t) :=
  match size_check i (te_size e) with
  | Some r => Done (r, mem s)
  | None =>
      let off := u64 (te_offset_address e) in
      if mm_movable s off (image_base i) (te_size e)
      then Done ((0, set_image_size (u32 (te_size e)) i), ram_store (mem s) (image_base i) (mm_data s off (te_size e)))
      else Undef
  end.

(** What follows the header of an encrypted image, decrypted in place. *)
Definition load_payload (s : io_st) (i i' : image_info) (e : toc_entry) (h : fw_enc_hdr) (n : Z) : outcome (Z * image_info * ram_t) :=
  let off := u64 (te_offset_address e + sizeof_fw_enc_hdr) in
  if mm_movable s off (image_base i) n then
    let '(rc, out) := crypto_mod_auth_decrypt (eh_dec_algo h) (mm_data s off n)
                        (snd (plat_get_enc_key_info (secure_data s) ENC_MAX_KEY_SIZE))
                        (take (Z.to_nat (eh_iv_len h)) (eh_iv h)) (take (Z.to_nat (eh_tag_len h)) (eh_tag h)) in
    if mappedb (regions s) true (image_base i) (Z.of_nat (length out))
    then Done ((if rc =? 0 then 0 else - ENOENT, i'),
               ram_store (ram_store (mem s) (image_base i) (mm_data s off n)) (image_base i) out)
    else Undef
  else Undef.

Definition load_encrypted (s : io_st) (i : image_info) (e : toc_entry) : outcome (Z * image_info * ram_t) :=
  let off := u64 (te_offset_address e) in
  if te_size e <? sizeof_fw_enc_hdr then Done ((- EIO, i), mem s)
  else
    let n := te_size e - sizeof_fw_enc_hdr in
    match size_check i n with
    | Some r => Done (r, mem s)
    | None =>
        let i' := set_image_size (u32 n) i in
        if mm_readable s off sizeof_fw_enc_hdr then
          let h := enc_hdr_of_bytes (mm_data s off sizeof_fw_enc_hdr) in
          if negb (eh_magic h =? ENC_HEADER_MAGIC) || (ENC_MAX_IV_SIZE <? eh_iv_len h) || (ENC_MAX_TAG_SIZE <? eh_tag_len h)
          then Done ((- ENOENT, i'), mem s)
          else load_payload s i i' e h n
        else Undef
    end.

Definition load_spec (s : io_st) (uuid : list Z) (i : image_info) : outcome (Z * image_info * ram_t) :=
  match find_entry s uuid with
  | Done None => Done ((- ENOENT, i), mem s)
  | Done (Some e) => if encrypted e then load_encrypted s i e else load_plain s i e
  | Undef => Undef
  | OutOfFuel => OutOfFuel
  end.
End spec.

Ltac pool_eq0 Hr :=
  let Hm := fresh in let Hc := fresh in let Hp := fresh in
  destruct Hr as [Hm Hc Hp];
  match type of Hm with entity_map ?s = _ => destruct s as [? ? mp [|? [|? [|? [|??]]]] cn]; try discriminate Hp end;
  simpl in Hm, Hc; subst; reflexivity.

Ltac rest_tac := eapply rest_ext; [..|eassumption]; simpl; rewrite ?length_insert, ?length_alter; done.

(** ** The check of the source *)

Section check.
Context `{Board} `{Gcm} (below : IoOps) (toc_fuel : nat).
Implicit Types (s : io_st).

#[local] Notation here := (level below toc_fuel).

(** A file of the package is closed again. *)
Lemma session_over s f : idle s -> idle (fip_closed 0 f s).
Proof.
  intros [Hr Hmm Hf]. split; [by apply rest_closed|done|].
  simpl. unfold closed_file. destruct (te_offset_address (ff_entry f) =? 0) eqn:E; [lia|done].
Qed.

(** The states the package device is initialised in. *)
Lemma inited_facts s : idle s -> ready s ->
  let s1 := scratched 0 (fip_inited s) in
  idle s1 /\ same s s1 /\ mem s1 = mem s /\ fip_backend s1 = (Some MemmapDev, BlockSpec).
Proof.
  intros [Hr Hmm Hf] Hrd s1.
  assert (rest 0 s1) as Hr1.
  { apply rest_scratched. eapply rest_ext; [..|exact Hr]; unfold fip_inited; by destruct (header_valid _). }
  unfold s1, fip_inited in *. destruct (header_valid _); (split; [split; [done|done|exact Hf]|done]).
Qed.

Lemma scan_of_ext fuel s s' uuid :
  regions s' = regions s -> mem s' = mem s -> fip_block_spec s' = fip_block_spec s ->
  scan_of fuel s' uuid = scan_of fuel s uuid.
Proof. unfold scan_of. by intros -> -> ->. Qed.

Lemma open_fip_run s uuid : idle s -> ready s ->
  match find_entry toc_fuel s uuid with
  | Done o => exists s', open_fip (ops := here) toc_fuel (UuidSpec uuid) s =
        Done (match o with Some e => Z.land (te_flags e) FW_ENCRYPTION | None => - ENOENT end, s') /\
        idle s' /\ same s s' /\ mem s' = mem s /\ fip_backend s' = (Some MemmapDev, BlockSpec)
  | Undef => open_fip (ops := here) toc_fuel (UuidSpec uuid) s = Undef
  | OutOfFuel => open_fip (ops := here) toc_fuel (UuidSpec uuid) s = OutOfFuel
  end.
Proof.
  intros Hid Hrd. pose proof (inited_facts s Hid Hrd) as (Hid1 & Hsame & Hmem & Hb).
  destruct Hid as [Hr Hmm Hf]. unfold find_entry, open_fip. flat. rewrite (ready_fip s Hrd). cbn [io_dev_init].
  pose proof (fip_dev_init_run below toc_fuel 0 s ltac:(lia) Hr Hmm (ready_memmap s Hrd)) as Hi.
  set (s1 := scratched 0 (fip_inited s)) in *.
  destruct (mm_readable _ _ _); [|unfold bind at 1; by rewrite Hi].
  destruct (header_valid s); cycle 1.
  { run (apply Hi). eexists. split; [done|]. done. }
  run (apply Hi). cbn [Z.eqb negb]. destruct Hid1 as [Hr1 Hmm1 Hf1].
  pose proof (fip_open_run below toc_fuel 0 uuid s1 ltac:(lia) Hr1 Hmm1 Hf1 Hb) as Ho.
  rewrite (scan_of_ext _ s s1) in Ho by (done || apply Hsame).
  destruct (scan_of toc_fuel s uuid) as [[[e [|]] p]| |]; [..|unfold bind at 1; by rewrite Ho|unfold bind at 1; by rewrite Ho].
  - run (apply Ho). cbn [fst snd Z.eqb negb]. run (by apply fip_enc_run; [lia|]). cbn [ff_entry].
    run (by apply (fip_close_run below toc_fuel 0 ltac:(lia))). eexists. split; [done|].
    split; [by apply session_over|]. split; [|done]. etrans; [exact Hsame|done].
  - run (apply Ho). change (- ENOENT =? 0) with false. cbn [fst snd negb]. eexists. split; [done|].
    split; [|split; [etrans; [exact Hsame|done]|done]].
    split; [rest_tac|done|done].
Qed.
End check.

(** ** An image that is not encrypted *)

Section plain.
Context `{Board} `{Gcm} (below : IoOps) (toc_fuel : nat).
Implicit Types (s : io_st).

#[local] Notation here := (level below toc_fuel).

Lemma dev_close_settled s f dev : idle s -> dev = Some FipDev \/ dev = Some EncDev ->
  exists rc s', io_dev_close dev (fip_closed 0 f s) = Done (rc, s') /\ idle s' /\ same s s' /\ mem s' = mem s.
Proof.
  intros Hid Hd. destruct (session_over s f Hid) as [Hr Hmm Hf].
  destruct Hd as [->| ->]; unfold io_dev_close.
  - unfold fip_dev_close, free_dev_info, act, bind, modify, find_first_fip_state. simpl. rewrite Z.eqb_refl.
    do 2 eexists. split; [done|]. split; [|done]. split; [rest_tac|done|exact Hf].
  - unfold enc_dev_close, bind, modify, ret. do 2 eexists. split; [done|]. split; [|done]. split; [rest_tac|done|exact Hf].
Qed.

(** Whatever was read, the file is closed and the device with it. *)
Lemma load_ends {A} (r : A) f s s1 dev : idle s -> same s1 s -> dev = Some FipDev \/ dev = Some EncDev ->
  exists s', (do! io_close (ops := here) (Some 0%nat) in do! io_dev_close dev in ret r) (fip_session 0 f s) = Done (r, s') /\
    idle s' /\ same s1 s' /\ mem s' = mem s.
Proof.
  intros Hid Hs Hd. run (by apply (fip_close_run below toc_fuel 0 ltac:(lia)), Hid).
  destruct (dev_close_settled s f dev Hid Hd) as (rc & s' & Hc & Hid' & Hsame & Hm).
  run (apply Hc). exists s'. split; [done|]. split; [done|]. split; [by etrans|done].
Qed.
End plain.

(** ** An encrypted image *)

Section enc.
Context `{Board} `{Gcm} (below : IoOps) (toc_fuel : nat).
Implicit Types (s : io_st) (f : fip_file).

#[local] Notation here := (level (level below toc_fuel) toc_fuel).

Definition info0 s : io_info := match entity_pool s !! 0%nat with Some y => info y | None => NoInfo end.

(** The encryption device holds handle 0 and reads the file [f] of the package
    on handle 1. *)
Definition enc_base (uuid : list Z) s : io_st :=
  set_enc (Some 1%nat) (UuidSpec uuid) (push 0 (Entity (Some EncDev) (info0 s)) s).
Definition enc_session (uuid : list Z) f s : io_st := fip_session 1 f (enc_base uuid s).

Lemma rest_enc_base uuid s : rest 0 s -> rest 1 (enc_base uuid s).
Proof. intros Hr. eapply rest_ext; [..|apply (rest_push _ (Entity (Some EncDev) NoInfo)), Hr]; simpl; rewrite ?length_insert; done. Qed.

Lemma enc_at uuid f s : rest 0 s -> entity_pool (enc_session uuid f s) !! 0%nat = Some (Entity (Some EncDev) (info0 s)).
Proof. intros [_ _ Hp]. simpl. rewrite !list_lookup_insert_ne, list_lookup_insert_eq by lia. done. Qed.

Lemma enc_open_run uuid e p s :
  idle s -> fip_backend s = (Some MemmapDev, BlockSpec) -> fst (enc_backend s) = Some FipDev ->
  scan_of toc_fuel s uuid = Done (e, true, p) ->
  io_open (ops := here) toc_fuel (Some EncDev) (UuidSpec uuid) s = Done ((0, Some 0%nat), enc_session uuid (FipState 0 e) s).
Proof.
  intros [Hr Hmm Hf] Hb He Hscan. unfold io_open. run (by apply (allocate_run 0); [lia|]). cbn [Z.eqb negb].
  set (s1 := set_entities _ _ _ s). unfold enc_file_open. flat.
  change (enc_backend (set_enc _ _ s1)) with (enc_backend s). rewrite He. set (s2 := set_enc _ _ s1).
  assert (rest 1 s2) as Hr2 by (destruct Hr; done).
  pose proof (fip_open_run below toc_fuel 1 uuid s2 ltac:(lia) Hr2 Hmm Hf Hb) as Ho.
  rewrite (scan_of_ext toc_fuel s s2), Hscan in Ho by done.
  cbn [call_io_open level io_level]. flat. run (apply Ho). cbn [fst snd Z.eqb negb]. flat. cbn [Z.eqb].
  unfold bind, set_entity, modify, ret. do 2 f_equal. clear Ho Hr2. subst s2 s1. clear Hmm Hf Hb He Hscan. pool_eq0 Hr.
Qed.

Lemma enc_size_run uuid f s : rest 0 s ->
  io_size (ops := here) (Some 0%nat) (enc_session uuid f s) =
  Done ((if te_size (ff_entry f) <? sizeof_fw_enc_hdr then (- EIO, te_size (ff_entry f))
         else (0, te_size (ff_entry f) - sizeof_fw_enc_hdr)), enc_session uuid f s).
Proof.
  intros Hr. unfold io_size. run (by apply entity_at_run, enc_at). cbn [dev_handle]. unfold enc_file_len. flat.
  change (enc_handle (enc_session uuid f s)) with (Some 1%nat). cbn [call_io_size level io_level].
  run (apply (fip_size_run below toc_fuel 1 ltac:(lia)); by apply rest_enc_base). cbn [fst snd Z.eqb negb].
  by destruct (_ <? _).
Qed.

Lemma enc_close_settled uuid f s : idle s ->
  exists s', io_close (ops := here) (Some 0%nat) (enc_session uuid f s) = Done (0, s') /\ idle s' /\ same s s' /\ mem s' = mem s /\
    fip_backend s' = fip_backend s /\ enc_backend s' = enc_backend s.
Proof.
  intros [Hr Hmm Hf]. unfold io_close. run (by apply entity_at_run, enc_at). cbn [dev_handle]. unfold enc_file_close. flat.
  change (enc_handle (enc_session uuid f s)) with (Some 1%nat). cbn [call_io_close level io_level].
  pose proof (rest_enc_base uuid s Hr) as Hr1.
  run (by apply (fip_close_run below toc_fuel 1 ltac:(lia))). flat.
  unfold set_info, set_entity. flat. cbn [Z.eqb].
  match goal with |- exists s', bind (free_entity 0) _ ?x = _ /\ _ => set (s1 := x) end.
  assert (rest 1 s1) as Hrs by (apply (rest_closed 1 f) in Hr1; eapply rest_ext; [..|exact Hr1]; simpl; rewrite ?length_alter; done).
  run (by apply free_run; [lia|exact Hrs]). eexists. split; [done|]. split; [|done].
  split; [split; [done|done|apply Hrs]|done|].
  simpl. unfold closed_file. destruct (te_offset_address (ff_entry f) =? 0) eqn:E; [simpl; lia|done].
Qed.

Lemma enc_key_ok (d : secure_efuse) : fst (plat_get_enc_key_info d ENC_MAX_KEY_SIZE) = 0.
Proof. unfold plat_get_enc_key_info. by destruct (enc_mode d =? ENC_MODE_AES256). Qed.

Definition bad_header (h : fw_enc_hdr) : bool :=
  negb (eh_magic h =? ENC_HEADER_MAGIC) || (ENC_MAX_IV_SIZE <? eh_iv_len h) || (ENC_MAX_TAG_SIZE <? eh_tag_len h).

Definition decrypted s (h : fw_enc_hdr) (data : list Z) : Z * list Z :=
  crypto_mod_auth_decrypt (eh_dec_algo h) data (snd (plat_get_enc_key_info (secure_data s) ENC_MAX_KEY_SIZE))
    (take (Z.to_nat (eh_iv_len h)) (eh_iv h)) (take (Z.to_nat (eh_tag_len h)) (eh_tag h)).

(** The read of the header and of the payload behind it. *)
Lemma enc_read_run uuid e dst n s :
  rest 0 s -> mm_in_use (mm_cur s) = 0 -> fip_backend s = (Some MemmapDev, BlockSpec) ->
  let off := u64 (te_offset_address e) in
  let off2 := u64 (te_offset_address e + sizeof_fw_enc_hdr) in
  let h := enc_hdr_of_bytes (mm_data s off sizeof_fw_enc_hdr) in
  let data := mm_data s off2 n in
  let r := decrypted s h data in
  let m := ram_store (ram_store (mem s) dst data) dst (snd r) in
  let rd := io_read (ops := here) (Some 0%nat) (At dst) n (enc_session uuid (FipState 0 e) s) in
  if mm_readable s off sizeof_fw_enc_hdr then
    if bad_header h then exists f, rd = Done ((- ENOENT, []), enc_session uuid f s)
    else if mm_movable s off2 dst n && mappedb (regions s) true dst (Z.of_nat (length (snd r)))
    then exists f, rd = Done ((if fst r =? 0 then 0 else - ENOENT, snd r), enc_session uuid f (set_mem m s))
    else rd = Undef
  else rd = Undef.
Proof.
  intros Hr Hmm Hb off off2 h data r m rd. subst rd. pose proof (rest_enc_base uuid s Hr) as Hr1.
  pose proof (fip_read_obj below toc_fuel 1 ltac:(lia) (FipState 0 e) sizeof_fw_enc_hdr (enc_base uuid s) Hr1 Hmm Hb) as Hh.
  unfold file_offset in Hh. cbn [ff_entry ff_pos] in Hh. rewrite Z.add_0_r in Hh. fold off in Hh.
  change (mm_readable (enc_base uuid s)) with (mm_readable s) in Hh. change (mm_data (enc_base uuid s)) with (mm_data s) in Hh.
  set (f1 := advanced _ _) in Hh.
  pose proof (fip_read_at below toc_fuel 1 ltac:(lia) f1 dst n (enc_base uuid s) Hr1 Hmm Hb) as Hp.
  change (file_offset f1) with off2 in Hp.
  change (mm_movable (enc_base uuid s)) with (mm_movable s) in Hp. change (mm_data (enc_base uuid s)) with (mm_data s) in Hp.
  fold data in Hp. change (mem (enc_base uuid s)) with (mem s) in Hp.
  assert (io_read (ops := here) (Some 0%nat) (At dst) n (enc_session uuid (FipState 0 e) s)
    = enc_file_read (ops := here) (At dst) n (enc_session uuid (FipState 0 e) s)) as ->.
  { unfold io_read. run (by apply entity_at_run, enc_at). done. }
  unfold enc_file_read. rewrite bind_gets. change (enc_handle (enc_session _ _ s)) with (Some 1%nat).
  cbn [call_io_read level io_level]. change (io_level toc_fuel below) with (level below toc_fuel).
  unfold enc_session in *. destruct (mm_readable _ _ _); cycle 1.
  { unfold bind at 1. by rewrite Hh. }
  unfold bad_header. 
  destruct (negb (eh_magic h =? ENC_HEADER_MAGIC)) eqn:Em.
  { eexists. run (apply Hh). cbn [fst snd Z.eqb negb]. fold h. rewrite Em. done. }
  cbn [orb]. destruct ((_ <? _) || (_ <? _)) eqn:El.
  { eexists. run (apply Hh). cbn [fst snd Z.eqb negb]. fold h. rewrite Em, El. done. }
  destruct (mm_movable _ _ _ _); cbn [andb]; cycle 1.
  { run (apply Hh). cbn [fst snd Z.eqb negb]. fold h. rewrite Em, El. unfold bind at 1. by rewrite Hp. }
  assert (forall k : Z -> list Z -> M io_st (Z * list Z), 
    (let '(result, key) := plat_get_enc_key_info (secure_data s) ENC_MAX_KEY_SIZE in k result key) = k 0 (snd (plat_get_enc_key_info (secure_data s) ENC_MAX_KEY_SIZE))) as Hk.
  { intros k. pose proof (enc_key_ok (secure_data s)). destruct (plat_get_enc_key_info _ _). simpl in *. by subst. }
  destruct (mappedb _ _ _ _) eqn:Ew.
  - eexists. run (apply Hh). cbn [fst snd Z.eqb negb]. fold h. rewrite Em, El. run (apply Hp). cbn [fst snd Z.eqb negb]. flat.
    change (secure_data (fip_session _ _ _)) with (secure_data s). rewrite Hk. cbn [Z.eqb negb].
    fold (decrypted s h data). fold r. destruct r as [rc out] eqn:Hrr. cbn [fst snd] in *.
    unfold store_mem. flat. change (regions (id _)) with (regions s). rewrite Ew. flat.
    destruct (rc =? 0); done.
  - run (apply Hh). cbn [fst snd Z.eqb negb]. fold h. rewrite Em, El. run (apply Hp). cbn [fst snd Z.eqb negb]. flat.
    change (secure_data (fip_session _ _ _)) with (secure_data s). rewrite Hk. cbn [Z.eqb negb].
    fold (decrypted s h data). fold r. destruct r as [rc out] eqn:Hrr. cbn [fst snd] in *.
    unfold store_mem. flat. change (regions (id _)) with (regions s). rewrite Ew. done.
Qed.
End enc.

Lemma size_check_cases i n :
  match size_check i n with
  | Some r => ((n =? 0) = true /\ r = (0, i)) \/ ((n =? 0) = false /\ (image_max_size i <? n) = true /\ r = (- EFBIG, i))
  | None => (n =? 0) = false /\ (image_max_size i <? n) = false
  end.
Proof. unfold size_check. destruct (n =? 0); [by left|]. destruct (image_max_size i <? n); [by right|done]. Qed.

Section load.
Context `{Board} `{Gcm} (toc_fuel : nat).
Implicit Types (s : io_st) (i : image_info).

(** What the checks of the source leave alone. *)
Definition kept s s' : Prop := idle s' /\ same s s' /\ mem s' = mem s.

Lemma kept_trans s1 s2 s3 : kept s1 s2 -> kept s2 s3 -> kept s1 s3.
Proof. intros (_ & H1 & H2) (Hi & H3 & H4). split; [done|]. split; [by etrans|congruence]. Qed.

Lemma header_valid_ext s s' : kept s s' -> header_valid s' = header_valid s /\ (forall pos n, mm_readable s' pos n = mm_readable s pos n).
Proof. intros (_ & [? ? _ _ _ _] & Hm). unfold header_valid, mm_readable, mm_data, mm_src. split; congruence. Qed.

Lemma find_entry_found s uuid e : find_entry toc_fuel s uuid = Done (Some e) ->
  mm_readable s 0 sizeof_toc_header = true /\ header_valid s = true /\ exists p, scan_of toc_fuel s uuid = Done (e, true, p).
Proof.
  unfold find_entry. destruct (mm_readable _ _ _), (header_valid s); try done.
  destruct (scan_of _ _ _) as [[[e' [|]] p]| |]; try done. intros [= ->]. eauto.
Qed.

(** The device of encrypted images is the package device. *)
Lemma enc_init_run below s :
  idle s -> ready s -> mm_readable s 0 sizeof_toc_header = true -> header_valid s = true ->
  exists s', enc_dev_init (ops := level (level below toc_fuel) toc_fuel) ENC_IMAGE_ID s = Done (0, s') /\ kept s s' /\
    fip_backend s' = (Some MemmapDev, BlockSpec) /\ fst (enc_backend s') = Some FipDev.
Proof.
  intros Hid Hrd Hread Hv. pose proof (inited_facts s Hid Hrd) as (Hid1 & Hsame & Hmem & Hb).
  pose proof Hid as [Hr Hmm Hf].
  pose proof (fip_dev_init_run below toc_fuel 0 s ltac:(lia) Hr Hmm (ready_memmap s Hrd)) as Hi. rewrite Hread, Hv in Hi.
  set (s1 := scratched 0 (fip_inited s)) in *.
  assert (plat_get_image_source (ops := level below toc_fuel) toc_fuel ENC_IMAGE_ID s = Done ((0, Some FipDev, NoSpec), s1)) as Hsrc.
  { unfold plat_get_image_source. change (checked (policies ENC_IMAGE_ID)) with (ret (S:=io_st) (Policy FipDev NoSpec open_fip_check)). flat. cbn [pol_check pol_spec pol_dev].
    unfold open_fip. flat. rewrite (ready_fip s Hrd). cbn [io_dev_init]. run (apply Hi). flat. cbn [Z.eqb].
    rewrite bind_gets. cbn [policy_handle]. by rewrite (same_fip s s1 Hsame), (ready_fip s Hrd). }
  unfold enc_dev_init. cbn [call_plat_get_image_source level io_level]. change (io_level toc_fuel below) with (level below toc_fuel).
  run (apply Hsrc). cbn [Z.eqb negb]. eexists. split; [done|]. destruct Hid1 as [Hr1 Hmm1 Hf1]. split; [|done].
  split; [split; [by eapply (rest_ext 0 s1); [..|exact Hr1]|exact Hmm1|exact Hf1]|].
  split; [destruct Hsame; by split|exact Hmem].
Qed.

Lemma land_1 z : Z.land z 1 = 0 \/ Z.land z 1 = 1.
Proof. pose proof (Z.land_ones z 1 ltac:(lia)) as E. change (Z.ones 1) with 1 in E. rewrite E. pose proof (Z.mod_pos_bound z (2 ^ 1)). lia. Qed.

Definition source_dev (e : toc_entry) : io_dev := if encrypted e then EncDev else FipDev.

Lemma source_run s image_id uuid : idle s -> ready s -> policies image_id = fip_policy uuid ->
  match find_entry toc_fuel s uuid with
  | Done None => exists s', plat_get_image_source (ops := io_stack toc_fuel 2) toc_fuel image_id s = Done ((- ENOENT, None, NoSpec), s') /\ kept s s'
  | Done (Some e) => exists s', plat_get_image_source (ops := io_stack toc_fuel 2) toc_fuel image_id s =
        Done ((0, Some (source_dev e), UuidSpec uuid), s') /\ kept s s' /\
        fip_backend s' = (Some MemmapDev, BlockSpec) /\ (encrypted e = true -> fst (enc_backend s') = Some FipDev)
  | Undef => plat_get_image_source (ops := io_stack toc_fuel 2) toc_fuel image_id s = Undef
  | OutOfFuel => plat_get_image_source (ops := io_stack toc_fuel 2) toc_fuel image_id s = OutOfFuel
  end.
Proof.
  intros Hid Hrd Hpol. change (io_stack toc_fuel 2) with (level (io_stack toc_fuel 1) toc_fuel).
  pose proof (open_fip_run (io_stack toc_fuel 1) toc_fuel s uuid Hid Hrd) as Ho.
  unfold plat_get_image_source. rewrite Hpol. unfold fip_policy, checked. flat. cbn [pol_check pol_spec pol_dev].
  destruct (find_entry toc_fuel s uuid) as [[e|]| |] eqn:Hfind; [..|unfold bind at 1; by rewrite Ho|unfold bind at 1; by rewrite Ho].
  - destruct Ho as (s1 & Ho & Hid1 & Hsame & Hm & Hb). assert (kept s s1) as Hk by done. unfold source_dev, encrypted.
    destruct (land_1 (te_flags e)) as [E|E]; unfold FW_ENCRYPTION in *; rewrite E in *.
    + run (apply Ho). cbn [Z.eqb Pos.eqb]. rewrite bind_gets. cbn [policy_handle]. rewrite (same_fip s s1 Hsame), (ready_fip s Hrd).
      eexists. split; [done|]. split; [done|]. split; [done|]. done.
    + run (apply Ho). cbn [Z.eqb Pos.eqb]. unfold open_enc_fip. flat. rewrite (same_enc s s1 Hsame), (ready_enc s Hrd). cbn [io_dev_init]. flat.
      apply find_entry_found in Hfind as (Hread & Hv & p & Hscan). destruct (header_valid_ext s s1 Hk) as [Hv1 Hread1].
      destruct (enc_init_run (io_stack toc_fuel 0) s1 Hid1 (same_ready s s1 Hsame Hrd)) as (s2 & Hi & Hk2 & Hb2 & He2); [by rewrite Hread1|by rewrite Hv1|].
      run (apply Hi). cbn [Z.eqb negb]. flat. destruct Hk2 as (Hid2 & Hsame2 & Hm2).
      assert (scan_of toc_fuel s2 uuid = Done (e, true, p)) as Hscan2.
      { rewrite <- Hscan. apply scan_of_ext; [rewrite (same_regions s1 s2 Hsame2); apply Hsame|congruence|rewrite (same_block s1 s2 Hsame2); apply Hsame]. }
      run (by apply (enc_open_run (io_stack toc_fuel 0) toc_fuel uuid e p)). cbn [fst snd Z.eqb negb]. flat.
      destruct (enc_close_settled (io_stack toc_fuel 0) toc_fuel uuid (FipState 0 e) s2 Hid2) as (s3 & Hc & Hid3 & Hsame3 & Hm3 & Hb3 & He3).
      run (apply Hc). flat. cbn [Z.eqb]. rewrite bind_gets.
      rewrite (same_enc s2 s3 Hsame3), (same_enc s1 s2 Hsame2), (same_enc s s1 Hsame), (ready_enc s Hrd).
      eexists. split; [done|]. split; [|split; [congruence|intros _; congruence]].
      eapply kept_trans; [exact Hk|]. apply (kept_trans s1 s2); (split; [done|by split]).
  - destruct Ho as (s1 & Ho & Hid1 & Hsame & Hm & Hb). run (apply Ho).
    change (- ENOENT =? 0) with false. change (- ENOENT =? FW_ENCRYPTION) with false. cbv iota. eexists. split; [done|]. split; [done|by split].
Qed.

(** [load_from] behind the open and the size. *)
Definition load_end {A} (dev : option io_dev) (r : A) : M io_st A :=
  do! io_close (ops := io_stack toc_fuel 2) (Some 0%nat) in
  do! io_dev_close dev in
  ret r.

Lemma load_from_run dev spec i s t rc n :
  io_open (ops := io_stack toc_fuel 2) toc_fuel dev spec s = Done ((0, Some 0%nat), t) ->
  io_size (ops := io_stack toc_fuel 2) (Some 0%nat) t = Done ((rc, n), t) ->
  load_from toc_fuel dev spec i s =
  if negb (rc =? 0) then load_end dev (rc, i) t
  else
    match size_check i n with
    | Some r => load_end dev r t
    | None => bind (io_read (ops := io_stack toc_fuel 2) (Some 0%nat) (At (image_base i)) n)
                (fun rd => load_end dev (fst rd, set_image_size (u32 n) i)) t
    end.
Proof.
  intros Ho Hs. unfold load_from, top, storage. cbn [call_io_open call_io_size call_io_read call_io_close io_stack io_level].
  change (io_level toc_fuel (io_level toc_fuel io_stuck)) with (io_stack toc_fuel 2).
  run (apply Ho). cbn [fst snd Z.eqb negb]. flat. run (apply Hs). destruct (rc =? 0) eqn:E; cbn [negb orb]; [|done]. apply Z.eqb_eq in E as ->. unfold size_check.
  destruct (n =? 0); [done|]. destruct (_ <? _); [done|]. by rewrite bind_assoc.
Qed.

Lemma load_from_plain s uuid e p i :
  idle s -> fip_backend s = (Some MemmapDev, BlockSpec) -> scan_of toc_fuel s uuid = Done (e, true, p) ->
  refines (load_from toc_fuel (Some FipDev) (UuidSpec uuid) i) s (load_plain s i e).
Proof.
  intros Hid Hb Hscan. pose proof Hid as [Hr Hmm Hf]. unfold load_plain.
  pose proof (fip_open_run (io_stack toc_fuel 1) toc_fuel 0 uuid s ltac:(lia) Hr Hmm Hf Hb) as Ho. rewrite Hscan in Ho.
  unfold refines. rewrite (load_from_run _ _ _ _ _ _ _ Ho (fip_size_run (io_stack toc_fuel 1) toc_fuel 0 ltac:(lia) (FipState 0 e) s Hr)). cbn [ff_entry Z.eqb negb].
  destruct (size_check i (te_size e)) as [r|]; [by apply load_ends; [..|left]|].
  pose proof (fip_read_at (io_stack toc_fuel 1) toc_fuel 0 ltac:(lia) (FipState 0 e) (image_base i) (te_size e) s Hr Hmm Hb) as Hrd.
  unfold file_offset in Hrd. cbn [ff_entry ff_pos] in Hrd. rewrite Z.add_0_r in Hrd.
  change (io_stack toc_fuel 2) with (level (io_stack toc_fuel 1) toc_fuel).
  destruct (mm_movable _ _ _ _); [|unfold bind; by rewrite Hrd].
  run (apply Hrd). cbn [fst]. by apply load_ends; [destruct Hid; split; [destruct Hr|..]| |left].
Qed.

(** The end of an encrypted load. *)
Lemma enc_load_ends {A} (r : A) uuid f s s1 : idle s -> same s1 s ->
  exists s', (do! io_close (ops := io_stack toc_fuel 2) (Some 0%nat) in do! io_dev_close (Some EncDev) in ret r) (enc_session uuid f s) = Done (r, s') /\
    idle s' /\ same s1 s' /\ mem s' = mem s.
Proof.
  intros Hid Hs. destruct (enc_close_settled (io_stack toc_fuel 0) toc_fuel uuid f s Hid) as (s3 & Hc & Hid3 & Hsame3 & Hm3 & _).
  run (apply Hc). unfold io_dev_close, enc_dev_close, bind, modify, ret. eexists. split; [done|].
  destruct Hid3 as [Hr3 Hmm3 Hf3]. split; [split; [rest_tac|exact Hmm3|exact Hf3]|]. split; [|exact Hm3].
  etrans; [exact Hs|]. destruct Hsame3. by split.
Qed.

Lemma load_from_encrypted s uuid e p i :
  idle s -> fip_backend s = (Some MemmapDev, BlockSpec) -> fst (enc_backend s) = Some FipDev ->
  scan_of toc_fuel s uuid = Done (e, true, p) ->
  refines (load_from toc_fuel (Some EncDev) (UuidSpec uuid) i) s (load_encrypted s i e).
Proof.
  intros Hid Hb He Hscan. pose proof Hid as [Hr Hmm Hf].
  pose proof (enc_open_run (io_stack toc_fuel 0) toc_fuel uuid e p s Hid Hb He Hscan) as Ho.
  pose proof (enc_size_run (io_stack toc_fuel 0) toc_fuel uuid (FipState 0 e) s Hr) as Hs. cbn [ff_entry] in Hs.
  unfold load_encrypted. set (n := te_size e - sizeof_fw_enc_hdr) in *.
  pose proof (enc_read_run (io_stack toc_fuel 0) toc_fuel uuid e (image_base i) n s Hr Hmm Hb) as Hrd. cbv zeta in Hrd.
  assert (forall (r : Z * image_info) f s', idle s' -> same s s' -> meets s (Done (r, mem s')) (load_end (Some EncDev) r (enc_session uuid f s'))) as Hend
    by (intros r f s' Hid' Hs'; by apply enc_load_ends).
  unfold refines. destruct (te_size e <? sizeof_fw_enc_hdr).
  { rewrite (load_from_run _ _ _ _ _ _ _ Ho Hs). by apply Hend. }
  rewrite (load_from_run _ _ _ _ _ _ _ Ho Hs). cbn [Z.eqb negb].
  destruct (size_check i n) as [r|]; [by apply Hend|].
  change (io_stack toc_fuel 2) with (level (level (io_stack toc_fuel 0) toc_fuel) toc_fuel). unfold bind at 1. fold (bad_header (enc_hdr_of_bytes (mm_data s (u64 (te_offset_address e)) sizeof_fw_enc_hdr))).
  destruct (mm_readable _ _ _); [|by rewrite Hrd].
  destruct (bad_header _); [destruct Hrd as [f Hrd]; rewrite Hrd; by apply Hend|].
  unfold load_payload. destruct (mm_movable _ _ _ _); cbn [andb] in Hrd; [|by rewrite Hrd].
  fold (decrypted s (enc_hdr_of_bytes (mm_data s (u64 (te_offset_address e)) sizeof_fw_enc_hdr)) (mm_data s (u64 (te_offset_address e + sizeof_fw_enc_hdr)) n)).
  destruct (decrypted _ _ _) as [rc out]; cbn [fst snd] in Hrd.
  destruct (mappedb _ _ _ _); [|by rewrite Hrd]. destruct Hrd as [f Hrd]. rewrite Hrd. cbn [fst].
  apply (Hend _ f (set_mem _ s)); [destruct Hid; split; [destruct Hr|..]; done|done].
Qed.

Lemma load_ext s s1 i e : same s s1 -> mem s1 = mem s ->
  load_encrypted s1 i e = load_encrypted s i e /\ load_plain s1 i e = load_plain s i e.
Proof. intros []. destruct s, s1. simpl in *. by intros ->; subst. Qed.

(** Loading an image is the walk over the package that [load_spec] describes. *)
Theorem load_image_refines s image_id uuid i :
  idle s -> ready s -> policies image_id = fip_policy uuid -> by_digest image_id i = false ->
  refines (load_image toc_fuel image_id i) s (load_spec toc_fuel s uuid i).
Proof.
  intros Hid Hrd Hpol Hdig. pose proof (source_run s image_id uuid Hid Hrd Hpol) as Hsrc.
  unfold refines, load_image, load_spec. rewrite Hdig.
  unfold top, storage. cbn [call_plat_get_image_source]. change (io_stack toc_fuel 3) with (io_level toc_fuel (io_stack toc_fuel 2)).
  cbn [call_plat_get_image_source io_level].
  destruct (find_entry toc_fuel s uuid) as [[e|]| |] eqn:Hfind; [..|unfold bind at 1; by rewrite Hsrc|unfold bind at 1; by rewrite Hsrc].
  - destruct Hsrc as (s1 & Hsrc & (Hid1 & Hsame & Hm) & Hb & He). run (apply Hsrc). cbn [Z.eqb negb].
    apply find_entry_found in Hfind as (_ & _ & p & Hscan).
    assert (scan_of toc_fuel s1 uuid = Done (e, true, p)) as Hscan1 by (rewrite <- Hscan; apply scan_of_ext; [apply Hsame|done|apply Hsame]).
    assert (forall o x, meets s1 o x -> meets (A:=Z * image_info) s o x) as Hmeets.
    { intros [[a r]| |] x; [|done..]. intros (s' & ? & ? & Hs' & ?). exists s'. split; [done|]. split; [done|]. split; [by etrans|done]. }
    apply Hmeets. unfold source_dev. destruct (load_ext s s1 i e Hsame Hm) as [<- <-].
    destruct (encrypted e); [apply load_from_encrypted with p; by eauto|by apply load_from_plain with p].
  - destruct Hsrc as (s1 & Hsrc & Hid1 & Hsame & Hm). run (apply Hsrc). change (- ENOENT =? 0) with false. cbn [negb].
    exists s1. by split.
Qed.
End load.
