(* ===== verification/AtfCert.v ===== *)
(** X.509 certificates as the trusted firmware parses them
    ([A/drivers/auth/mbedtls/mbedtls_x509_parser.c]), with the part of the
    ASN.1 decoder it calls ([mbedtls-2.18.0/library/asn1parse.c], [oid.c]).

    A certificate is the list of its bytes, a pointer into it the offset; a
    read outside the list is [Undef].  The functions of the decoder take the
    pointer and the length by reference: they answer the code and what both
    are afterwards, on errors too, since [get_ext] goes on after an error. *)

From stdpp Require Import base numbers list option strings pretty.
From Stdlib Require Import ZArith Lia.
From S2P Require Import Prelude.

(** ** Runs without a state *)

Definition obind {A B} (m : outcome A) (k : A -> outcome B) : outcome B :=
  match m with Done a => k a | Undef => Undef | OutOfFuel => OutOfFuel end.

Notation "'ask!' x ':=' m 'in' k" := (obind m (fun x => k))
  (at level 10, x binder, m at level 100, k at level 200,
   format "'[v' 'ask!'  x  ':='  m  'in' '/' k ']'") : ecnt_scope.

Definition of_option {A} (o : option A) : outcome A := match o with Some a => Done a | None => Undef end.

(** ** [asn1parse.c] *)

Definition ERR_OUT_OF_DATA : Z := -0x60.
Definition ERR_UNEXPECTED_TAG : Z := -0x62.
Definition ERR_INVALID_LENGTH : Z := -0x64.
Definition ERR_LENGTH_MISMATCH : Z := -0x66.
Definition ERR_INVALID_DATA : Z := -0x68.

Definition ASN1_BOOLEAN : Z := 0x01.
Definition ASN1_INTEGER : Z := 0x02.
Definition ASN1_BIT_STRING : Z := 0x03.
Definition ASN1_OCTET_STRING : Z := 0x04.
Definition ASN1_OID : Z := 0x06.
Definition ASN1_SEQUENCE : Z := 0x30.     (* constructed *)
Definition ASN1_CONTEXT (n : Z) : Z := Z.lor 0xA0 n.

(** [mbedtls_asn1_buf] *)
Record asn1_buf := Buf { ab_tag : Z; ab_p : Z; ab_len : Z }.
Definition no_buf : asn1_buf := Buf 0 0 0.

Section asn1.
Context (b : list Z).

Definition byte_at (p : Z) : outcome Z := of_option (znth b p).

(** The code, [*p] and [*len]. *)
Definition asn1_result : Type := Z * Z * Z.

Definition asn1_len_check (p en len : Z) : asn1_result :=
  if en - p <? len then (ERR_OUT_OF_DATA, p, len) else (0, p, len).

(** [k] bytes of length behind the first one. *)
Fixpoint asn1_len_bytes (k : nat) (p acc : Z) : outcome Z :=
  match k with
  | O => Done acc
  | S k' => ask! c := byte_at p in asn1_len_bytes k' (p + 1) (Z.lor (Z.shiftl acc 8) c)
  end.

Definition mbedtls_asn1_get_len (p en len : Z) : outcome asn1_result :=
  if en - p <? 1 then Done (ERR_OUT_OF_DATA, p, len)
  else
    ask! c := byte_at p in
    if Z.land c 0x80 =? 0 then Done (asn1_len_check (p + 1) en c)
    else
      let k := Z.land c 0x7F in
      if (1 <=? k) && (k <=? 4) then
        if en - p <? k + 1 then Done (ERR_OUT_OF_DATA, p, len)
        else
          ask! len := asn1_len_bytes (Z.to_nat k) (p + 1) 0 in
          Done (asn1_len_check (p + k + 1) en len)
      else Done (ERR_INVALID_LENGTH, p, len).

Definition mbedtls_asn1_get_tag (p en len tag : Z) : outcome asn1_result :=
  if en - p <? 1 then Done (ERR_OUT_OF_DATA, p, len)
  else
    ask! c := byte_at p in
    if negb (c =? tag) then Done (ERR_UNEXPECTED_TAG, p, len)
    else mbedtls_asn1_get_len (p + 1) en len.

(** The code and [*p]; the value is not used. *)
Definition mbedtls_asn1_get_bool (p en : Z) : outcome (Z * Z) :=
  ask! r := mbedtls_asn1_get_tag p en 0 ASN1_BOOLEAN in
  let '(ret, p, len) := r in
  if negb (ret =? 0) then Done (ret, p)
  else if negb (len =? 1) then Done (ERR_INVALID_LENGTH, p)
  else ask! _ := byte_at p in Done (0, p + 1).

(** The code, [*p], [*alg] and [*params]. *)
Definition mbedtls_asn1_get_alg (p en : Z) (alg params : asn1_buf) : outcome (Z * Z * asn1_buf * asn1_buf) :=
  ask! r := mbedtls_asn1_get_tag p en 0 ASN1_SEQUENCE in
  let '(ret, p, len) := r in
  if negb (ret =? 0) then Done (ret, p, alg, params)
  else if en - p <? 1 then Done (ERR_OUT_OF_DATA, p, alg, params)
  else
    ask! t := byte_at p in
    let en := p + len in
    ask! r := mbedtls_asn1_get_tag p en (ab_len alg) ASN1_OID in
    let '(ret, p, len) := r in
    if negb (ret =? 0) then Done (ret, p, Buf t (ab_p alg) len, params)
    else
      let alg := Buf t p len in
      let p := p + len in
      if p =? en then Done (0, p, alg, no_buf)
      else
        ask! t := byte_at p in
        ask! r := mbedtls_asn1_get_len (p + 1) en (ab_len params) in
        let '(ret, p, len) := r in
        if negb (ret =? 0) then Done (ret, p, alg, Buf t (ab_p params) len)
        else
          let params := Buf t p len in
          let p := p + len in
          Done (if negb (p =? en) then ERR_LENGTH_MISMATCH else 0, p, alg, params).

(** The code, [*p] and [*len]. *)
Definition mbedtls_asn1_get_bitstring_null (p en : Z) : outcome asn1_result :=
  ask! r := mbedtls_asn1_get_tag p en 0 ASN1_BIT_STRING in
  let '(ret, p, len) := r in
  if negb (ret =? 0) then Done (ret, p, len)
  else if len <? 2 then Done (ERR_INVALID_DATA, p, len - 1)
  else
    ask! c := byte_at p in
    Done (if negb (c =? 0) then ERR_INVALID_DATA else 0, p + 1, len - 1).

(** ** [oid.c] *)

Definition ERR_OID_BUF_TOO_SMALL : Z := -0xB.

(** [mbedtls_snprintf(p, n, "...")] of the text [t] to the end of [out]: [None]
    when the buffer of [size] bytes is too small. *)
Definition oid_append (size : Z) (out t : string) : option string :=
  if size - Z.of_nat (String.length out) <=? Z.of_nat (String.length t) then None else Some (out +:+ t)%string.

(** "%d" of an [unsigned int]. *)
Definition show_int (v : Z) : string := pretty (s32 v).

Fixpoint oid_arcs (n : nat) (p value size : Z) (out : string) : outcome (option string) :=
  match n with
  | O => Done (Some out)
  | S n' =>
      if negb (Z.shiftr (u32 (Z.shiftl value 7)) 7 =? value) then Done None
      else
        ask! c := byte_at p in
        let value := u32 (u32 (Z.shiftl value 7) + Z.land c 0x7F) in
        if Z.land c 0x80 =? 0 then
          match oid_append size out ("." +:+ show_int value)%string with
          | Some out => oid_arcs n' (p + 1) 0 size out
          | None => Done None
          end
        else oid_arcs n' (p + 1) value size out
  end.

(** The code and what [buf] holds; [buf] is what it held before, [None] when it
    was never written.  An identifier of no bytes writes nothing, and an
    identifier that does not fit leaves what nobody reads. *)
Definition mbedtls_oid_get_numeric_string (buf : option string) (size : Z) (oid : asn1_buf) : outcome (Z * option string) :=
  if 0 <? ab_len oid then
    ask! c := byte_at (ab_p oid) in
    match oid_append size "" (show_int (c / 40) +:+ "." +:+ show_int (c mod 40))%string with
    | None => Done (ERR_OID_BUF_TOO_SMALL, None)
    | Some out =>
        ask! r := oid_arcs (Z.to_nat (ab_len oid - 1)) (ab_p oid + 1) 0 size out in
        Done (match r with Some out => (Z.of_nat (String.length out), Some out) | None => (ERR_OID_BUF_TOO_SMALL, None) end)
    end
  else Done (0, buf).
End asn1.

(** ** [mbedtls_x509_parser.c] *)

Definition IMG_PARSER_OK : Z := 0.
Definition IMG_PARSER_ERR : Z := 1.
Definition IMG_PARSER_ERR_FORMAT : Z := 2.
Definition IMG_PARSER_ERR_NOT_FOUND : Z := 3.
Definition MAX_OID_STR_LEN : Z := 64.

(** The static variables. *)
Record crt := Crt { tbs : asn1_buf; v3_ext : asn1_buf; pk : asn1_buf; sig_alg : asn1_buf; signature : asn1_buf }.
Definition no_crt : crt := Crt no_buf no_buf no_buf no_buf no_buf.

Definition set_tbs v c := Crt v (v3_ext c) (pk c) (sig_alg c) (signature c).
Definition set_v3_ext v c := Crt (tbs c) v (pk c) (sig_alg c) (signature c).
Definition set_pk v c := Crt (tbs c) (v3_ext c) v (sig_alg c) (signature c).
Definition set_sig_alg v c := Crt (tbs c) (v3_ext c) (pk c) v (signature c).
Definition set_signature v c := Crt (tbs c) (v3_ext c) (pk c) (sig_alg c) v.

(** A step of [cert_parse]; [None]: the function returns
    [IMG_PARSER_ERR_FORMAT]. *)
Definition parse (A : Type) : Type := M crt (option A).
Definition try_bind {A B} (m : parse A) (k : A -> parse B) : parse B :=
  let! o := m in match o with Some a => k a | None => ret None end.
Notation "'try!' x ':=' m 'in' k" := (try_bind m (fun x => k))
  (at level 10, x binder, m at level 100, k at level 200,
   format "'[v' 'try!'  x  ':='  m  'in' '/' k ']'") : ecnt_scope.
Definition format_error {A} : parse A := ret None.
Definition go_on {A} (a : A) : parse A := ret (Some a).
Definition lift_outcome {S A} (o : outcome A) : M S A := fun s =>
  match o with Done a => Done (a, s) | Undef => Undef | OutOfFuel => OutOfFuel end.
Definition set_static (f : crt -> crt) : parse unit := do! modify f in go_on tt.

Section x509.
Context (b : list Z).

(** An element with the tag [tag]: where its contents start, and their length. *)
Definition element (p en tag : Z) : parse (Z * Z) :=
  let! r := lift_outcome (mbedtls_asn1_get_tag b p en 0 tag) in
  let '(ret, p, len) := r in
  if negb (ret =? 0) then format_error else go_on (p, len).

(** The same for an element that may be missing: the pointer behind it. *)
Definition optional_element (p en tag : Z) : parse Z :=
  let! r := lift_outcome (mbedtls_asn1_get_tag b p en 0 tag) in
  let '(ret, p, len) := r in
  if negb (ret =? 0) then if negb (ret =? ERR_UNEXPECTED_TAG) then format_error else go_on p
  else go_on (p + len).

(** The check of the extensions; [p] at the end. *)
Fixpoint check_extensions (fuel : nat) (p en : Z) : parse Z :=
  if negb (p <? en) then go_on p
  else
  match fuel with
  | O => out_of_fuel
  | S fuel' =>
      try! x := element p en ASN1_SEQUENCE in
      try! x := element (fst x) en ASN1_OID in
      let p := fst x + snd x in
      let! r := lift_outcome (mbedtls_asn1_get_bool b p en) in
      let '(r, p) := r in
      if negb (r =? 0) && negb (r =? ERR_UNEXPECTED_TAG) then format_error
      else
        try! x := element p en ASN1_OCTET_STRING in
        check_extensions fuel' (fst x + snd x) en
  end.

(** [n] bytes from [p], all of them in the object. *)
Definition bytes_at (p n : Z) : outcome (list Z) :=
  if (0 <=? p) && (0 <=? n) && (p + n <=? Z.of_nat (length b)) then Done (take (Z.to_nat n) (drop (Z.to_nat p) b)) else Undef.

(** The fields of [tbsCertificate] up to the extensions: the first signature
    algorithm, the pointer behind the last field and the end. *)
Definition parse_fields (p en : Z) : parse (asn1_buf * Z) :=
  try! x := element p en (ASN1_CONTEXT 0) in        (* version *)
  try! x := element (fst x + snd x) en ASN1_INTEGER in
  let sig_alg1_p := fst x + snd x in
  try! x := element sig_alg1_p en ASN1_SEQUENCE in
  if en - fst x <? 1 then format_error
  else
    let p := fst x + snd x in
    let sig_alg1 := Buf 0 sig_alg1_p (p - sig_alg1_p) in
    try! x := element p en ASN1_SEQUENCE in          (* issuer *)
    try! x := element (fst x + snd x) en ASN1_SEQUENCE in   (* validity *)
    try! x := element (fst x + snd x) en ASN1_SEQUENCE in   (* subject *)
    let pk_p := fst x + snd x in
    try! x := element pk_p en ASN1_SEQUENCE in
    let p := fst x + snd x in
    try! _ := set_static (set_pk (Buf 0 pk_p (p - pk_p))) in
    try! p := optional_element p en (ASN1_CONTEXT 1) in
    try! p := optional_element p en (ASN1_CONTEXT 2) in
    go_on (sig_alg1, p).

(** What follows [tbsCertificate] at [p], up to the end of the certificate. *)
Definition parse_signature (sig_alg1 : asn1_buf) (p en : Z) : parse unit :=
  let sig_alg2_p := p in
  try! x := element p en ASN1_SEQUENCE in
  if en - fst x <? 1 then format_error
  else
    let p := fst x + snd x in
    if negb (ab_len sig_alg1 =? p - sig_alg2_p) then format_error
    else
      let! x := lift_outcome (bytes_at (ab_p sig_alg1) (ab_len sig_alg1)) in
      let! y := lift_outcome (bytes_at sig_alg2_p (ab_len sig_alg1)) in
      if negb (bool_decide (x = y)) then format_error
      else
        try! _ := set_static (set_sig_alg sig_alg1) in
        let signature_p := p in
        try! x := element p en ASN1_BIT_STRING in
        let p := fst x + snd x in
        try! _ := set_static (set_signature (Buf 0 signature_p (p - signature_p))) in
        if negb (p =? en) then format_error else go_on tt.

Definition cert_parse : M crt Z :=
  let len := Z.of_nat (length b) in
  let! r :=
    (try! x := element 0 len ASN1_SEQUENCE in
     let crt_end := fst x + snd x in
     let tbs_p := fst x in
     try! x := element tbs_p len ASN1_SEQUENCE in
     let p := fst x in
     let en := p + snd x in
     try! _ := set_static (set_tbs (Buf 0 tbs_p (en - tbs_p))) in
     try! f := parse_fields p en in
     let '(sig_alg1, p) := f in
     try! x := element p en (ASN1_CONTEXT 3) in
     let v3_ext_p := fst x in
     try! x := element v3_ext_p en ASN1_SEQUENCE in
     let p := fst x in
     try! _ := set_static (set_v3_ext (Buf 0 v3_ext_p (p + snd x - v3_ext_p))) in
     try! p := check_extensions (length b) p en in
     if negb (p =? en) then format_error else parse_signature sig_alg1 p crt_end) in
  ret (match r with Some _ => IMG_PARSER_OK | None => IMG_PARSER_ERR_FORMAT end).

(** Clears the variables on errors. *)
Definition check_integrity : M crt Z :=
  let! rc := cert_parse in
  do! (if negb (rc =? IMG_PARSER_OK) then modify (fun _ => no_crt) else ret tt) in
  ret rc.

(** The search for an extension: every error is ignored, and [len] and
    [oid_str] keep what they were. *)
Fixpoint get_ext_loop (fuel : nat) (oid : string) (oid_str : option string) (p en len : Z) : outcome (Z * Z * Z) :=
  if negb (p <? en) then Done (IMG_PARSER_ERR_NOT_FOUND, 0, 0)
  else
  match fuel with
  | O => OutOfFuel
  | S fuel' =>
      ask! r := mbedtls_asn1_get_tag b p en len ASN1_SEQUENCE in
      let '(_, p, len) := r in
      let end_ext_data := p + len in
      ask! tag := byte_at b p in
      ask! r := mbedtls_asn1_get_tag b p en 0 ASN1_OID in
      let '(_, p, oid_len) := r in
      let extn_oid := Buf tag p oid_len in
      let p := p + oid_len in
      ask! r := mbedtls_asn1_get_bool b p end_ext_data in
      let p := snd r in
      ask! r := mbedtls_asn1_get_tag b p end_ext_data len ASN1_OCTET_STRING in
      let '(_, p, len) := r in
      let end_ext_octet := p + len in
      ask! r := mbedtls_oid_get_numeric_string b oid_str MAX_OID_STR_LEN extn_oid in
      let '(oid_len, oid_str) := r in
      if oid_len =? ERR_OID_BUF_TOO_SMALL then Done (IMG_PARSER_ERR, 0, 0)
      else
        ask! str := of_option oid_str in
        if (oid_len =? Z.of_nat (String.length str)) && bool_decide (oid = str) then Done (IMG_PARSER_OK, p, u32 len)
        else get_ext_loop fuel' oid oid_str end_ext_octet en len
  end.

(** The code, [*ext] and [*ext_len]. *)
Definition get_ext (c : crt) (oid : string) : outcome (Z * Z * Z) :=
  let p := ab_p (v3_ext c) in
  let en := p + ab_len (v3_ext c) in
  ask! r := mbedtls_asn1_get_tag b p en 0 ASN1_SEQUENCE in
  let '(_, p, len) := r in
  get_ext_loop (length b) oid None p en len.
End x509.

(** ** What a certificate is asked for *)

Inductive auth_param_type :=
| AUTH_PARAM_NONE
| AUTH_PARAM_RAW_DATA
| AUTH_PARAM_SIG
| AUTH_PARAM_SIG_ALG
| AUTH_PARAM_HASH
| AUTH_PARAM_PUB_KEY
| AUTH_PARAM_NV_CTR.

#[export] Instance auth_param_type_eq_dec : EqDecision auth_param_type.
Proof. solve_decision. Defined.

(** [cookie] is the address of an object identifier, or null. *)
Record auth_param_type_desc := TypeDesc { pd_type : auth_param_type; pd_cookie : option string }.

#[export] Instance auth_param_type_desc_eq_dec : EqDecision auth_param_type_desc.
Proof. solve_decision. Defined.

(** The code, and the parameter as a pointer into the certificate. *)
Definition get_auth_param (b : list Z) (c : crt) (type_desc : auth_param_type_desc) : outcome (Z * Z * Z) :=
  let buf (x : asn1_buf) := Done (IMG_PARSER_OK, ab_p x, u32 (ab_len x)) in
  let ext := match pd_cookie type_desc with Some oid => get_ext b c oid | None => Undef end in
  match pd_type type_desc with
  | AUTH_PARAM_RAW_DATA => buf (tbs c)
  | AUTH_PARAM_HASH | AUTH_PARAM_NV_CTR => ext
  | AUTH_PARAM_PUB_KEY => match pd_cookie type_desc with Some oid => get_ext b c oid | None => buf (pk c) end
  | AUTH_PARAM_SIG_ALG => buf (sig_alg c)
  | AUTH_PARAM_SIG => buf (signature c)
  | AUTH_PARAM_NONE => Done (IMG_PARSER_ERR_NOT_FOUND, 0, 0)
  end.
