(* ===== verification/AtfCertProps.v ===== *)
(** The certificate parser on bytes nobody has checked yet: it always ends,
    reads only inside the certificate, and what it remembers lies inside. *)

From stdpp Require Import base numbers list option strings.
From Stdlib Require Import ZArith Lia.
From S2P Require Import Prelude AtfCert.

Section asn1.
Context (b : list Z) (Hb : bytes b).
Notation size := (Z.of_nat (length b)).

Lemma byte_at_in p : 0 <= p < size -> exists c, byte_at b p = Done c /\ is_u8 c.
Proof.
  intros Hp. destruct (znth_Some b p Hp) as [c Hc]. exists c. unfold byte_at. rewrite Hc. split; [done|].
  unfold bytes in Hb. rewrite Forall_forall in Hb. apply Hb. rewrite znth_lookup in Hc by lia. by apply list_elem_of_lookup_2 in Hc.
Qed.

Lemma asn1_len_bytes_in k p acc :
  0 <= p -> p + Z.of_nat k <= size -> 0 <= acc -> exists len, asn1_len_bytes b k p acc = Done len /\ 0 <= len.
Proof.
  revert p acc. induction k as [|k IH]; intros p acc Hp Hk Ha; cbn [asn1_len_bytes]; [eauto|].
  destruct (byte_at_in p) as (c & -> & Hc); [lia|]. cbn [obind]. unfold is_u8 in Hc.
  apply IH; [lia..|]. apply Z.lor_nonneg. split; [apply Z.shiftl_nonneg|]; lia.
Qed.

(** The decoder stays between the pointer and the end; on success the contents
    lie before the end too. *)
Definition decoded (p en : Z) (r : asn1_result) : Prop :=
  let '(ret, p', len) := r in
  p <= p' <= Z.max p en /\ (ret = 0 -> p < p' /\ 0 <= len /\ p' + len <= en).

Lemma asn1_len_check_ok p q en len :
  p < q <= en -> 0 <= len -> decoded p en (asn1_len_check q en len).
Proof.
  intros Hq Hl. unfold asn1_len_check, decoded. destruct (Z.ltb_spec (en - q) len); (split; [lia|]); [done|]. lia.
Qed.

Lemma get_len_in p en len : 0 <= p -> en <= size -> exists r, mbedtls_asn1_get_len b p en len = Done r /\ decoded p en r.
Proof.
  intros Hp Hen. unfold mbedtls_asn1_get_len.
  destruct (Z.ltb_spec (en - p) 1) as [?|?]; [eexists; split; [done|]; simpl; split; [lia|done]|].
  destruct (byte_at_in p) as (c & -> & Hc); [lia|]. cbn [obind]. unfold is_u8 in Hc.
  destruct (Z.land c 0x80 =? 0).
  { eexists. split; [done|]. apply asn1_len_check_ok; lia. }
  destruct ((1 <=? Z.land c 0x7F) && (Z.land c 0x7F <=? 4)) eqn:Ek; cycle 1.
  { eexists. split; [done|]. simpl. split; [lia|done]. }
  set (k := Z.land c 0x7F) in *. apply andb_prop in Ek as [?%Z.leb_le ?%Z.leb_le].
  destruct (Z.ltb_spec (en - p) (k + 1)) as [?|?]; [eexists; split; [done|]; simpl; split; [lia|done]|].
  destruct (asn1_len_bytes_in (Z.to_nat k) (p + 1) 0) as (l & -> & Hl); [lia..|]. cbn [obind].
  eexists. split; [done|]. apply asn1_len_check_ok; lia.
Qed.

Lemma get_tag_in p en len tag : 0 <= p -> en <= size -> exists r, mbedtls_asn1_get_tag b p en len tag = Done r /\ decoded p en r.
Proof.
  intros Hp Hen. unfold mbedtls_asn1_get_tag.
  destruct (Z.ltb_spec (en - p) 1) as [?|?]; [eexists; split; [done|]; simpl; split; [lia|done]|].
  destruct (byte_at_in p) as (c & -> & Hc); [lia|]. cbn [obind].
  destruct (negb (c =? tag)); [eexists; split; [done|]; simpl; split; [lia|done]|].
  destruct (get_len_in (p + 1) en len) as ([[ret p'] l] & -> & Hd); [lia..|]. eexists. split; [done|].
  simpl in Hd |- *. split; [lia|]. intros Hr. destruct Hd as [_ Hd]. specialize (Hd Hr). lia.
Qed.

Lemma get_bool_in p en : 0 <= p -> en <= size ->
  exists ret p', mbedtls_asn1_get_bool b p en = Done (ret, p') /\ p <= p' <= Z.max p en.
Proof.
  intros Hp Hen. unfold mbedtls_asn1_get_bool.
  destruct (get_tag_in p en 0 ASN1_BOOLEAN) as ([[ret p'] l] & -> & Hd); [lia..|]. cbn [obind]. simpl in Hd.
  destruct (Z.eqb_spec ret 0) as [->|?]; cbn [negb]; [|do 2 eexists; split; [done|]; lia].
  destruct Hd as [? Hd]. specialize (Hd eq_refl).
  destruct (Z.eqb_spec l 1) as [->|?]; cbn [negb]; [|do 2 eexists; split; [done|]; lia].
  destruct (byte_at_in p') as (c & -> & _); [lia|]. do 2 eexists. split; [done|]. lia.
Qed.
End asn1.

(** ** Rules for the steps of the parser *)

Lemma wp_try {A B} (m : parse A) (k : A -> parse B) Q c :
  wp m (fun o c' => match o with Some a => wp (k a) Q c' | None => Q None c' end) c -> wp (try_bind m k) Q c.
Proof.
  intros H. apply wp_bind. eapply wp_mono; [exact H|]. intros [a|] c' Ha; [done|]. by apply wp_ret.
Qed.

(** The same, by a specification of the step. *)
Lemma wp_step_by {A B} (m : parse A) (k : A -> parse B) (P : A -> crt -> Prop) Q c :
  wp m (fun o c' => match o with Some a => P a c' | None => True end) c ->
  (forall c', Q None c') -> (forall a c', P a c' -> wp (k a) Q c') -> wp (try_bind m k) Q c.
Proof.
  intros H Hn Hs. apply wp_try. eapply wp_mono; [exact H|]. intros [a|] c' Ha; [by apply Hs|done].
Qed.

Section parser.
Context (b : list Z) (Hb : bytes b).
Notation size := (Z.of_nat (length b)).
Implicit Types (c : crt).

Definition in_cert (x : asn1_buf) : Prop := 0 <= ab_p x /\ 0 <= ab_len x /\ ab_p x + ab_len x <= size.

(** Everything the parser remembers lies inside the certificate. *)
Record crt_ok c : Prop := {
  ok_tbs : in_cert (tbs c);
  ok_v3_ext : in_cert (v3_ext c);
  ok_pk : in_cert (pk c) /\ 0 < ab_len (pk c);
  ok_sig_alg : in_cert (sig_alg c);
  ok_signature : in_cert (signature c)
}.

Lemma wp_element p en tag c : 0 <= p -> en <= size ->
  wp (element b p en tag) (fun o c' => match o with
    | Some x => c' = c /\ p < fst x /\ 0 <= snd x /\ fst x + snd x <= en
    | None => True end) c.
Proof.
  intros Hp Hen. unfold element. apply wp_bind. unfold wp, lift_outcome.
  destruct (get_tag_in b Hb p en 0 tag Hp Hen) as ([[ret p'] l] & -> & Hd).
  destruct (Z.eqb_spec ret 0) as [->|?]; cbn; [|done]. split; [done|]. destruct Hd as [_ Hd]. specialize (Hd eq_refl). lia.
Qed.

(** A step [element], and what the rest may rely on. *)
Lemma wp_el {B} p en tag (k : Z * Z -> parse B) Q c : 0 <= p -> en <= size ->
  (forall c', Q None c') -> (forall q len, p < q -> 0 <= len -> q + len <= en -> wp (k (q, len)) Q c) ->
  wp (try_bind (element b p en tag) k) Q c.
Proof.
  intros Hp Hen Hn Hs. apply wp_try. eapply wp_mono; [by apply wp_element|].
  intros [[q len]|] c'; [|done]. intros (-> & ? & ? & ?). by apply Hs.
Qed.

Lemma wp_optional p en tag c : 0 <= p <= en -> en <= size ->
  wp (optional_element b p en tag) (fun o c' => match o with Some p' => c' = c /\ p <= p' <= en | None => True end) c.
Proof.
  intros Hp Hen. unfold optional_element. apply wp_bind. unfold wp, lift_outcome.
  destruct (get_tag_in b Hb p en 0 tag ltac:(lia) Hen) as ([[ret p'] l] & -> & Hd). destruct Hd as [Hd1 Hd2].
  destruct (Z.eqb_spec ret 0) as [->|?]; cbn; [specialize (Hd2 eq_refl); split; [done|]; lia|].
  destruct (negb _); cbn; [done|]. split; [done|]. lia.
Qed.

Lemma wp_static f c (Q : unit -> crt -> Prop) : Q tt (f c) ->
  wp (set_static f) (fun o c' => match o with Some a => Q a c' | None => True end) c.
Proof. done. Qed.

Lemma wp_check_extensions fuel p en c : 0 <= p <= en -> en <= size -> en - p <= Z.of_nat fuel ->
  wp (check_extensions b fuel p en) (fun o c' => match o with Some p' => c' = c /\ p <= p' <= en | None => True end) c.
Proof.
  revert p. induction fuel as [|fuel IH]; intros p Hp Hen Hf; cbn [check_extensions];
    (destruct (Z.ltb_spec p en); cbn [negb]; [|apply wp_ret; split; [done|lia]]); [lia|].
  apply wp_el; [lia..|done|]. intros q len ???. cbn [fst snd].
  apply wp_el; [lia..|done|]. intros q2 len2 ???. cbn [fst snd].
  apply wp_bind. unfold wp at 1, lift_outcome.
  destruct (get_bool_in b Hb (q2 + len2) en ltac:(lia) Hen) as (ret & p' & -> & Hp').
  destruct (_ && _); [by apply wp_ret|].
  apply wp_el; [lia..|done|]. intros q3 len3 ???. cbn [fst snd].
  eapply wp_mono; [apply IH; lia|]. intros [p2|] c'; [|done]. intros [-> ?]. split; [done|lia].
Qed.

Lemma bytes_at_in p n : 0 <= p -> 0 <= n -> p + n <= size -> exists l, bytes_at b p n = Done l.
Proof.
  intros. unfold bytes_at. rewrite (proj2 (Z.leb_le 0 p)), (proj2 (Z.leb_le 0 n)), (proj2 (Z.leb_le _ size)) by lia. eauto.
Qed.
End parser.

(** One element more. *)
Ltac el Hb := apply (wp_el _ Hb); [lia|lia|done|]; intros ?q ?len ???; cbn [fst snd].

Section certificate.
Context (b : list Z) (Hb : bytes b).
Notation size := (Z.of_nat (length b)).

Lemma wp_parse_fields p en c : 0 <= p -> en <= size ->
  wp (parse_fields b p en) (fun o c' => match o with
    | Some (alg, p') => exists x, c' = set_pk x c /\ in_cert b x /\ 0 < ab_len x /\ in_cert b alg /\ p < p' <= en
    | None => True end) c.
Proof.
  intros Hp Hen. unfold parse_fields. do 3 el Hb.
  destruct (_ <? 1); [by apply wp_ret|]. do 4 el Hb.
  apply wp_try. apply wp_static. apply wp_try.
  eapply wp_mono; [apply (wp_optional b Hb); lia|]. intros [p1|] c1; [|done]. intros [-> ?]. apply wp_try.
  eapply wp_mono; [apply (wp_optional b Hb); lia|]. intros [p2|] c2; [|done]. intros [-> ?]. apply wp_ret.
  eexists. split; [done|]. unfold in_cert; simpl. lia.
Qed.

Lemma wp_parse_signature alg p en c : 0 <= p -> en <= size -> in_cert b alg ->
  wp (parse_signature b alg p en) (fun o c' => match o with
    | Some _ => exists y, c' = set_signature y (set_sig_alg alg c) /\ in_cert b y
    | None => True end) c.
Proof.
  intros Hp Hen Halg. unfold parse_signature. el Hb. destruct (_ <? 1); [by apply wp_ret|].
  destruct (Z.eqb_spec (ab_len alg) (q + len - p)) as [E|?]; cbn [negb]; [|by apply wp_ret].
  unfold in_cert in Halg.
  destruct (bytes_at_in b (ab_p alg) (ab_len alg)) as [x Hx]; [lia..|].
  destruct (bytes_at_in b p (ab_len alg)) as [y Hy]; [lia..|].
  apply wp_bind. unfold wp at 1, lift_outcome at 1. rewrite Hx. apply wp_bind. unfold wp at 1, lift_outcome at 1. rewrite Hy.
  destruct (negb _); [by apply wp_ret|]. apply wp_try, wp_static. el Hb. apply wp_try, wp_static.
  destruct (negb _); apply wp_ret; [done|]. eexists. split; [done|]. unfold in_cert; simpl. lia.
Qed.

(** [cert_parse] ends, reads inside the certificate, and a certificate it
    accepts has all its parts inside. *)
Lemma cert_parse_in c :
  wp (cert_parse b) (fun rc c' => (rc = IMG_PARSER_OK /\ crt_ok b c') \/ rc = IMG_PARSER_ERR_FORMAT) c.
Proof.
  unfold cert_parse. apply wp_bind.
  match goal with |- wp ?m _ _ => assert (wp m (fun o c' => match o with Some _ => crt_ok b c' | None => True end) c) as H end; cycle 1.
  { eapply wp_mono; [exact H|]. intros [?|] c' ?; apply wp_ret; auto. }
  do 2 el Hb. apply wp_try, wp_static, wp_try.
  eapply wp_mono; [apply wp_parse_fields; lia|].
  intros [[alg p]|] c'; [|done]. intros (x & -> & Hx & Hlen & Halg & ?). do 2 el Hb. apply wp_try, wp_static, wp_try.
  eapply wp_mono; [apply (wp_check_extensions b Hb); lia|]. intros [p2|] c2; [|done]. intros [-> ?].
  destruct (negb _); [by apply wp_ret|]. eapply wp_mono; [apply wp_parse_signature; [lia..|done]|].
  intros [[]|] c2; [|done]. intros (y & -> & Hy). split; [| |done|done|done]; unfold in_cert; simpl; lia.
Qed.

Lemma check_integrity_in c :
  wp (check_integrity b) (fun rc c' => (rc = IMG_PARSER_OK /\ crt_ok b c') \/ (rc = IMG_PARSER_ERR_FORMAT /\ c' = no_crt)) c.
Proof.
  unfold check_integrity. apply wp_bind. eapply wp_mono; [by apply cert_parse_in|].
  intros rc c' [[-> Hc']| ->]; apply wp_bind; [by apply wp_ret, wp_ret; auto|].
  apply wp_modify, wp_ret. by right.
Qed.
End certificate.

(** ** What the parser remembers *)

(** The parts of a certificate that are not extensions. *)
Definition own_part (t : auth_param_type) : bool :=
  match t with AUTH_PARAM_RAW_DATA | AUTH_PARAM_SIG | AUTH_PARAM_SIG_ALG | AUTH_PARAM_PUB_KEY => true | _ => false end.

Lemma own_part_bytes b c t : crt_ok b c -> Z.of_nat (length b) < 2 ^ 32 -> own_part t = true ->
  exists p len l, get_auth_param b c (TypeDesc t None) = Done (IMG_PARSER_OK, p, len) /\ bytes_at b p len = Done l /\
    (t = AUTH_PARAM_PUB_KEY -> l <> []).
Proof.
  intros Hc Hlen Ht. destruct Hc as [H1 H2 [H3 H3'] H4 H5].
  assert (forall x : asn1_buf, in_cert b x -> exists p len l,
    Done (IMG_PARSER_OK, ab_p x, u32 (ab_len x)) = Done (IMG_PARSER_OK, p, len) /\ bytes_at b p len = Done l /\ (0 < ab_len x -> l <> [])) as H.
  { intros x (? & ? & ?). assert (u32 (ab_len x) = ab_len x) as E by (unfold u32; apply Z.mod_small; lia). rewrite E.
    destruct (bytes_at_in b (ab_p x) (ab_len x)) as [l Hl]; [lia..|]. exists (ab_p x), (ab_len x), l. split; [done|]. split; [done|].
    intros Hpos ->. unfold bytes_at in Hl. case_match; [|done]. injection Hl as Hl. apply (f_equal length) in Hl.
    rewrite length_take, length_drop in Hl. simpl in Hl. lia. }
  destruct t; try done; cbn [get_auth_param pd_type pd_cookie].
  - destruct (H _ H1) as (p & len & l & ? & ? & _). by exists p, len, l.
  - destruct (H _ H5) as (p & len & l & ? & ? & _). by exists p, len, l.
  - destruct (H _ H4) as (p & len & l & ? & ? & _). by exists p, len, l.
  - destruct (H _ H3) as (p & len & l & ? & ? & Hn). exists p, len, l. split; [done|]. split; [done|]. intros _. by apply Hn.
Qed.

(** C12: the parser is safe on bytes nobody has checked: for every list of
    bytes it ends, reads only inside it, and answers 0 or a format error.  On an
    error it forgets everything; on success the pointers it keeps are well
    formed, that is, the signed data, the signature, its algorithm and the
    public key lie inside the certificate, and the key is not empty. *)
Theorem check_integrity_safe b c :
  bytes b -> Z.of_nat (length b) < 2 ^ 32 ->
  exists rc c', check_integrity b c = Done (rc, c') /\
    ((rc = IMG_PARSER_ERR_FORMAT /\ c' = no_crt) \/
     (rc = IMG_PARSER_OK /\ crt_ok b c' /\
      forall t, own_part t = true -> exists p len l,
        get_auth_param b c' (TypeDesc t None) = Done (IMG_PARSER_OK, p, len) /\ bytes_at b p len = Done l /\
        (t = AUTH_PARAM_PUB_KEY -> l <> []))).
Proof.
  intros Hb Hlen. destruct (wp_done _ _ _ (check_integrity_in b Hb c)) as (rc & c' & Hrun & [[-> Hc]|[-> ->]]).
  - exists IMG_PARSER_OK, c'. split; [done|]. right. split; [done|]. split; [done|]. intros t Ht. by apply own_part_bytes.
  - exists IMG_PARSER_ERR_FORMAT, no_crt. split; [done|]. by left.
Qed.

(** A certificate with the fields the parser asks for, and two bytes each for
    key and signature. *)
Definition small_cert : list Z :=
  [0x30; 45; 0x30; 32; 0xA0; 0; 0x02; 0; 0x30; 4; 0x06; 2; 0x2A; 0x03; 0x30; 0; 0x30; 0; 0x30; 0; 0x30; 2; 0x11; 0x22;
   0xA3; 10; 0x30; 8; 0x30; 6; 0x06; 2; 0x2A; 0x04; 0x04; 0] ++ [0x30; 4; 0x06; 2; 0x2A; 0x03; 0x03; 3; 0x00; 0x33; 0x44].

Lemma check_integrity_safe_witness :
  exists c, check_integrity small_cert no_crt = Done (IMG_PARSER_OK, c) /\ exists p len,
    get_auth_param small_cert c (TypeDesc AUTH_PARAM_PUB_KEY None) = Done (IMG_PARSER_OK, p, len) /\
    bytes_at small_cert p len = Done [0x30; 2; 0x11; 0x22].
Proof.
  destruct (check_integrity_safe small_cert no_crt) as (rc & c & Hrun & [[-> ->]|(-> & _ & Hpart)]);
    [unfold bytes, is_u8, small_cert; repeat (constructor; [lia|]); constructor|by vm_compute|vm_compute in Hrun; discriminate Hrun|].
  exists c. split; [exact Hrun|]. destruct (Hpart AUTH_PARAM_PUB_KEY eq_refl) as (p & len & l & Hp & Hl & _).
  exists p, len. split; [exact Hp|]. vm_compute in Hrun. injection Hrun as <-. vm_compute in Hp. injection Hp as <- <-. by vm_compute.
Defined.
