(* ===== verification/AtfCot.v ===== *)
(** The chain of trust ([A/drivers/auth/tbbr/tbbr_cot.c]): which certificate
    holds what, by what it is authenticated, and where what it vouches for is
    kept.

    [IMAGE_BL31] selects the table of the runtime firmware, otherwise it is
    the table of the second stage.  A descriptor holds its parent, as the C
    structure points to it. *)

From stdpp Require Import base numbers list option strings.
From Stdlib Require Import ZArith Lia.
From S2P Require Import Prelude AtfIo AtfPlat AtfCert.

(** ** Parameters *)

Definition TRUSTED_FW_NVCOUNTER_OID : string := "1.3.6.1.4.1.4128.2100.1".
Definition NON_TRUSTED_FW_NVCOUNTER_OID : string := "1.3.6.1.4.1.4128.2100.2".
Definition TRUSTED_BOOT_FW_HASH_OID : string := "1.3.6.1.4.1.4128.2100.201".
Definition TRUSTED_BOOT_FW_CONFIG_HASH_OID : string := "1.3.6.1.4.1.4128.2100.202".
Definition HW_CONFIG_HASH_OID : string := "1.3.6.1.4.1.4128.2100.203".
Definition TRUSTED_WORLD_PK_OID : string := "1.3.6.1.4.1.4128.2100.302".
Definition NON_TRUSTED_WORLD_PK_OID : string := "1.3.6.1.4.1.4128.2100.303".
Definition SOC_FW_CONTENT_CERT_PK_OID : string := "1.3.6.1.4.1.4128.2100.501".
Definition SOC_AP_FW_HASH_OID : string := "1.3.6.1.4.1.4128.2100.603".
Definition SOC_FW_CONFIG_HASH_OID : string := "1.3.6.1.4.1.4128.2100.604".
Definition SCP_FW_CONTENT_CERT_PK_OID : string := "1.3.6.1.4.1.4128.2100.701".
Definition SCP_FW_HASH_OID : string := "1.3.6.1.4.1.4128.2100.801".
Definition TRUSTED_OS_FW_CONTENT_CERT_PK_OID : string := "1.3.6.1.4.1.4128.2100.901".
Definition TRUSTED_OS_FW_HASH_OID : string := "1.3.6.1.4.1.4128.2100.1001".
Definition TRUSTED_OS_FW_EXTRA1_HASH_OID : string := "1.3.6.1.4.1.4128.2100.1002".
Definition TRUSTED_OS_FW_EXTRA2_HASH_OID : string := "1.3.6.1.4.1.4128.2100.1003".
Definition TRUSTED_OS_FW_CONFIG_HASH_OID : string := "1.3.6.1.4.1.4128.2100.1004".
Definition NON_TRUSTED_FW_CONTENT_CERT_PK_OID : string := "1.3.6.1.4.1.4128.2100.1101".
Definition NON_TRUSTED_WORLD_BOOTLOADER_HASH_OID : string := "1.3.6.1.4.1.4128.2100.1201".
Definition NON_TRUSTED_FW_CONFIG_HASH_OID : string := "1.3.6.1.4.1.4128.2100.1202".

Definition trusted_nv_ctr := TypeDesc AUTH_PARAM_NV_CTR (Some TRUSTED_FW_NVCOUNTER_OID).
Definition subject_pk := TypeDesc AUTH_PARAM_PUB_KEY None.
Definition sig := TypeDesc AUTH_PARAM_SIG None.
Definition sig_alg_desc := TypeDesc AUTH_PARAM_SIG_ALG None.
Definition raw_data := TypeDesc AUTH_PARAM_RAW_DATA None.
Definition tb_fw_hash := TypeDesc AUTH_PARAM_HASH (Some TRUSTED_BOOT_FW_HASH_OID).
Definition tb_fw_config_hash := TypeDesc AUTH_PARAM_HASH (Some TRUSTED_BOOT_FW_CONFIG_HASH_OID).
Definition hw_config_hash := TypeDesc AUTH_PARAM_HASH (Some HW_CONFIG_HASH_OID).
Definition non_trusted_nv_ctr := TypeDesc AUTH_PARAM_NV_CTR (Some NON_TRUSTED_FW_NVCOUNTER_OID).
Definition trusted_world_pk := TypeDesc AUTH_PARAM_PUB_KEY (Some TRUSTED_WORLD_PK_OID).
Definition non_trusted_world_pk := TypeDesc AUTH_PARAM_PUB_KEY (Some NON_TRUSTED_WORLD_PK_OID).
Definition scp_fw_content_pk := TypeDesc AUTH_PARAM_PUB_KEY (Some SCP_FW_CONTENT_CERT_PK_OID).
Definition soc_fw_content_pk := TypeDesc AUTH_PARAM_PUB_KEY (Some SOC_FW_CONTENT_CERT_PK_OID).
Definition tos_fw_content_pk := TypeDesc AUTH_PARAM_PUB_KEY (Some TRUSTED_OS_FW_CONTENT_CERT_PK_OID).
Definition nt_fw_content_pk := TypeDesc AUTH_PARAM_PUB_KEY (Some NON_TRUSTED_FW_CONTENT_CERT_PK_OID).
Definition scp_fw_hash := TypeDesc AUTH_PARAM_HASH (Some SCP_FW_HASH_OID).
Definition soc_fw_hash := TypeDesc AUTH_PARAM_HASH (Some SOC_AP_FW_HASH_OID).
Definition soc_fw_config_hash := TypeDesc AUTH_PARAM_HASH (Some SOC_FW_CONFIG_HASH_OID).
Definition tos_fw_hash := TypeDesc AUTH_PARAM_HASH (Some TRUSTED_OS_FW_HASH_OID).
Definition tos_fw_config_hash := TypeDesc AUTH_PARAM_HASH (Some TRUSTED_OS_FW_CONFIG_HASH_OID).
Definition tos_fw_extra1_hash := TypeDesc AUTH_PARAM_HASH (Some TRUSTED_OS_FW_EXTRA1_HASH_OID).
Definition tos_fw_extra2_hash := TypeDesc AUTH_PARAM_HASH (Some TRUSTED_OS_FW_EXTRA2_HASH_OID).
Definition nt_world_bl_hash := TypeDesc AUTH_PARAM_HASH (Some NON_TRUSTED_WORLD_BOOTLOADER_HASH_OID).
Definition nt_fw_config_hash := TypeDesc AUTH_PARAM_HASH (Some NON_TRUSTED_FW_CONFIG_HASH_OID).

(** The static buffers for what certificates vouch for. *)
Inductive auth_buf :=
| tb_fw_hash_buf | tb_fw_config_hash_buf | hw_config_hash_buf | scp_fw_hash_buf | nt_world_bl_hash_buf
| soc_fw_hash_buf | tos_fw_hash_buf | tos_fw_extra1_hash_buf | tos_fw_extra2_hash_buf
| trusted_world_pk_buf | non_trusted_world_pk_buf | content_pk_buf
| soc_fw_config_hash_buf | tos_fw_config_hash_buf | nt_fw_config_hash_buf.

#[export] Instance auth_buf_eq_dec : EqDecision auth_buf.
Proof. solve_decision. Defined.

(** ** Descriptors *)

Inductive img_type := IMG_RAW | IMG_PLAT | IMG_CERT.

Inductive auth_method :=
| METHOD_HASH (data hash : auth_param_type_desc)
| METHOD_SIG (pk sig alg data : auth_param_type_desc)
| METHOD_NV_CTR (cert_nv_ctr plat_nv_ctr : auth_param_type_desc).

Record auth_param_desc := ParamDesc { ap_type : auth_param_type_desc; ap_ptr : auth_buf; ap_len : Z }.

(** The methods, then [AUTH_METHOD_NONE]; the parameters, then null. *)
Inductive auth_img_desc := ImgDesc {
  img_id : Z;
  id_type : img_type;
  id_parent : option auth_img_desc;
  img_auth_methods : list auth_method;
  authenticated_data : option (list auth_param_desc)
}.

(** The sizes of keys and hashes, fixed by the build. *)
Class CotSizes := { PK_DER_LEN : Z; HASH_DER_LEN : Z }.

Section cot.
Context `{Board} `{CotSizes}.

Definition by_signature (key ctr : auth_param_type_desc) : list auth_method :=
  [METHOD_SIG key sig sig_alg_desc raw_data; METHOD_NV_CTR ctr ctr].
Definition by_hash (hash : auth_param_type_desc) : list auth_method := [METHOD_HASH raw_data hash].
Definition a_hash (t : auth_param_type_desc) (buf : auth_buf) : auth_param_desc := ParamDesc t buf HASH_DER_LEN.
Definition a_key (t : auth_param_type_desc) (buf : auth_buf) : auth_param_desc := ParamDesc t buf PK_DER_LEN.

Definition raw_image (id : Z) (parent : auth_img_desc) (hash : auth_param_type_desc) : auth_img_desc :=
  ImgDesc id IMG_RAW (Some parent) (by_hash hash) None.

Definition trusted_boot_fw_cert : auth_img_desc :=
  ImgDesc TRUSTED_BOOT_FW_CERT_ID IMG_CERT None (by_signature subject_pk trusted_nv_ctr)
    (Some [a_hash tb_fw_hash tb_fw_hash_buf; a_hash tb_fw_config_hash tb_fw_config_hash_buf; a_hash hw_config_hash hw_config_hash_buf]).
Definition hw_config : auth_img_desc := raw_image HW_CONFIG_ID trusted_boot_fw_cert hw_config_hash.
Definition bl2_image : auth_img_desc := raw_image BL2_IMAGE_ID trusted_boot_fw_cert tb_fw_hash.

Definition trusted_key_cert : auth_img_desc :=
  ImgDesc TRUSTED_KEY_CERT_ID IMG_CERT None (by_signature subject_pk trusted_nv_ctr)
    (Some [a_key trusted_world_pk trusted_world_pk_buf; a_key non_trusted_world_pk non_trusted_world_pk_buf]).

Definition scp_fw_key_cert : auth_img_desc :=
  ImgDesc SCP_FW_KEY_CERT_ID IMG_CERT (Some trusted_key_cert) (by_signature trusted_world_pk trusted_nv_ctr)
    (Some [a_key scp_fw_content_pk content_pk_buf]).
Definition scp_fw_content_cert : auth_img_desc :=
  ImgDesc SCP_FW_CONTENT_CERT_ID IMG_CERT (Some scp_fw_key_cert) (by_signature scp_fw_content_pk trusted_nv_ctr)
    (Some [a_hash scp_fw_hash scp_fw_hash_buf]).
Definition scp_bl2_image : auth_img_desc := raw_image SCP_BL2_IMAGE_ID scp_fw_content_cert scp_fw_hash.

Definition soc_fw_key_cert : auth_img_desc :=
  ImgDesc SOC_FW_KEY_CERT_ID IMG_CERT (Some trusted_key_cert) (by_signature trusted_world_pk trusted_nv_ctr)
    (Some [a_key soc_fw_content_pk content_pk_buf]).
Definition soc_fw_content_cert : auth_img_desc :=
  ImgDesc SOC_FW_CONTENT_CERT_ID IMG_CERT (Some soc_fw_key_cert) (by_signature soc_fw_content_pk trusted_nv_ctr)
    (Some [a_hash soc_fw_hash soc_fw_hash_buf; a_hash soc_fw_config_hash soc_fw_config_hash_buf]).
Definition bl31_image : auth_img_desc := raw_image BL31_IMAGE_ID soc_fw_content_cert soc_fw_hash.
Definition soc_fw_config : auth_img_desc := raw_image SOC_FW_CONFIG_ID soc_fw_content_cert soc_fw_config_hash.

Definition trusted_os_fw_key_cert : auth_img_desc :=
  ImgDesc TRUSTED_OS_FW_KEY_CERT_ID IMG_CERT (Some trusted_key_cert) (by_signature trusted_world_pk trusted_nv_ctr)
    (Some [a_key tos_fw_content_pk content_pk_buf]).
Definition trusted_os_fw_content_cert : auth_img_desc :=
  ImgDesc TRUSTED_OS_FW_CONTENT_CERT_ID IMG_CERT (Some trusted_os_fw_key_cert) (by_signature tos_fw_content_pk trusted_nv_ctr)
    (Some [a_hash tos_fw_hash tos_fw_hash_buf; a_hash tos_fw_extra1_hash tos_fw_extra1_hash_buf;
           a_hash tos_fw_extra2_hash tos_fw_extra2_hash_buf; a_hash tos_fw_config_hash tos_fw_config_hash_buf]).
Definition bl32_image : auth_img_desc := raw_image BL32_IMAGE_ID trusted_os_fw_content_cert tos_fw_hash.
Definition bl32_extra1_image : auth_img_desc := raw_image BL32_EXTRA1_IMAGE_ID trusted_os_fw_content_cert tos_fw_extra1_hash.
Definition bl32_extra2_image : auth_img_desc := raw_image BL32_EXTRA2_IMAGE_ID trusted_os_fw_content_cert tos_fw_extra2_hash.
Definition tos_fw_config : auth_img_desc := raw_image TOS_FW_CONFIG_ID trusted_os_fw_content_cert tos_fw_config_hash.

Definition non_trusted_fw_key_cert : auth_img_desc :=
  ImgDesc NON_TRUSTED_FW_KEY_CERT_ID IMG_CERT (Some trusted_key_cert) (by_signature non_trusted_world_pk non_trusted_nv_ctr)
    (Some [a_key nt_fw_content_pk content_pk_buf]).
Definition non_trusted_fw_content_cert : auth_img_desc :=
  ImgDesc NON_TRUSTED_FW_CONTENT_CERT_ID IMG_CERT (Some non_trusted_fw_key_cert) (by_signature nt_fw_content_pk non_trusted_nv_ctr)
    (Some [a_hash nt_world_bl_hash nt_world_bl_hash_buf; a_hash nt_fw_config_hash nt_fw_config_hash_buf]).
Definition bl33_image : auth_img_desc := raw_image BL33_IMAGE_ID non_trusted_fw_content_cert nt_world_bl_hash.
Definition nt_fw_config : auth_img_desc := raw_image NT_FW_CONFIG_ID non_trusted_fw_content_cert nt_fw_config_hash.

(** [cot_desc]; [None] for a null entry and past the end. *)
Definition cot_desc (id : Z) : option auth_img_desc :=
  if id =? TRUSTED_BOOT_FW_CERT_ID then Some trusted_boot_fw_cert
  else if (id =? BL2_IMAGE_ID) && IMAGE_BL31 then Some bl2_image
  else if id =? HW_CONFIG_ID then Some hw_config
  else if id =? TRUSTED_KEY_CERT_ID then Some trusted_key_cert
  else if id =? SCP_FW_KEY_CERT_ID then Some scp_fw_key_cert
  else if id =? SCP_FW_CONTENT_CERT_ID then Some scp_fw_content_cert
  else if id =? SCP_BL2_IMAGE_ID then Some scp_bl2_image
  else if id =? SOC_FW_KEY_CERT_ID then Some soc_fw_key_cert
  else if id =? SOC_FW_CONTENT_CERT_ID then Some soc_fw_content_cert
  else if id =? BL31_IMAGE_ID then Some bl31_image
  else if id =? SOC_FW_CONFIG_ID then Some soc_fw_config
  else if id =? TRUSTED_OS_FW_KEY_CERT_ID then Some trusted_os_fw_key_cert
  else if id =? TRUSTED_OS_FW_CONTENT_CERT_ID then Some trusted_os_fw_content_cert
  else if id =? BL32_IMAGE_ID then Some bl32_image
  else if id =? BL32_EXTRA1_IMAGE_ID then Some bl32_extra1_image
  else if id =? BL32_EXTRA2_IMAGE_ID then Some bl32_extra2_image
  else if id =? TOS_FW_CONFIG_ID then Some tos_fw_config
  else if id =? NON_TRUSTED_FW_KEY_CERT_ID then Some non_trusted_fw_key_cert
  else if id =? NON_TRUSTED_FW_CONTENT_CERT_ID then Some non_trusted_fw_content_cert
  else if id =? BL33_IMAGE_ID then Some bl33_image
  else if id =? NT_FW_CONFIG_ID then Some nt_fw_config
  else None.
End cot.
