(* ===== verification/AtfAuth.v ===== *)
(** The authentication module ([A/drivers/auth/auth_mod.c], [img_parser_mod.c],
    [crypto_mod.c], the hash and signature checks of
    [mbedtls/mbedtls_crypto.c]) and the root of trust of the platform
    ([A/plat/ecnt/en7523/ecnt_trusted_boot.c]).

    The algorithms of mbedtls are the class [Crypto].  An image is handed over
    as the list of its bytes. *)

From stdpp Require Import base numbers list option strings.
From Stdlib Require Import ZArith Lia.
From S2P Require Import Prelude Fip AtfIo AtfPlat AtfCert AtfCot.

Definition CRYPTO_SUCCESS : Z := 0.
Definition CRYPTO_ERR_HASH : Z := 2.
Definition CRYPTO_ERR_SIGNATURE : Z := 3.

(** mbedtls: digests by number, and the verification of a signature. *)
Class Crypto := {
  md_of_oid : list Z -> option Z;                    (* [mbedtls_oid_get_md_alg], [md_info_from_type] *)
  md_size : Z -> Z;
  md_hash : Z -> list Z -> option (list Z);
  pk_ctx : Type;
  pk_opts : Type;
  get_sig_alg : list Z -> list Z -> option (Z * Z * pk_opts);   (* digest, key type, options *)
  parse_subpubkey : list Z -> option pk_ctx;
  md_known : Z -> bool;
  pk_verify_ext : Z -> pk_opts -> pk_ctx -> Z -> list Z -> list Z -> Z
}.

(** ** Checks on bytes ([mbedtls_crypto.c]) *)

Section crypto.
Context `{Crypto}.

Definition verify_signature (data sig sig_alg pk : list Z) : outcome Z :=
  ask! r := mbedtls_asn1_get_alg sig_alg 0 (Z.of_nat (length sig_alg)) no_buf no_buf in
  let '(rc, _, oid, params) := r in
  if negb (rc =? 0) then Done CRYPTO_ERR_SIGNATURE
  else
    ask! oid := bytes_at sig_alg (ab_p oid) (ab_len oid) in
    ask! params := bytes_at sig_alg (ab_p params) (ab_len params) in
    match get_sig_alg oid params with
    | None => Done CRYPTO_ERR_SIGNATURE
    | Some (md_alg, pk_alg, opts) =>
        match parse_subpubkey pk with
        | None => Done CRYPTO_ERR_SIGNATURE
        | Some ctx =>
            ask! r := mbedtls_asn1_get_bitstring_null sig 0 (Z.of_nat (length sig)) in
            let '(rc, p, len) := r in
            if negb (rc =? 0) then Done CRYPTO_ERR_SIGNATURE
            else if negb (md_known md_alg) then Done CRYPTO_ERR_SIGNATURE
            else
              match md_hash md_alg data with
              | None => Done CRYPTO_ERR_SIGNATURE
              | Some hash =>
                  ask! signature := bytes_at sig p len in
                  Done (if pk_verify_ext pk_alg opts ctx md_alg hash signature =? 0 then CRYPTO_SUCCESS else CRYPTO_ERR_SIGNATURE)
              end
        end
    end.

(** The algorithm and the digest that a [DigestInfo] holds; [None]: the
    function returns [CRYPTO_ERR_HASH]. *)
Definition digest_info (di : list Z) : outcome (option (Z * list Z)) :=
  let en := Z.of_nat (length di) in
  ask! r := mbedtls_asn1_get_tag di 0 en 0 ASN1_SEQUENCE in
  let '(rc, p, _) := r in
  if negb (rc =? 0) then Done None
  else
    ask! r := mbedtls_asn1_get_alg di p en no_buf no_buf in
    let '(rc, p, oid, _) := r in
    if negb (rc =? 0) then Done None
    else
      ask! oid := bytes_at di (ab_p oid) (ab_len oid) in
      match md_of_oid oid with
      | None => Done None
      | Some md_alg =>
          ask! r := mbedtls_asn1_get_tag di p en 0 ASN1_OCTET_STRING in
          let '(rc, p, len) := r in
          if negb (rc =? 0) then Done None
          else if negb (len =? md_size md_alg) then Done None
          else ask! hash := bytes_at di p len in Done (Some (md_alg, hash))
      end.
End crypto.

(** ** State *)

Record auth_st := AuthSt {
  a_io : io_st;
  bufs : auth_buf -> list Z;
  auth_img_flags : Z -> Z;
  a_crt : crt;
  ecnt_rotpk_hash : list Z;
  image_hash_base : Z
}.

Definition set_io v a := AuthSt v (bufs a) (auth_img_flags a) (a_crt a) (ecnt_rotpk_hash a) (image_hash_base a).
Definition set_buf k v a := AuthSt (a_io a) (fun x => if decide (x = k) then v else bufs a x) (auth_img_flags a) (a_crt a) (ecnt_rotpk_hash a) (image_hash_base a).
Definition set_flag id v a := AuthSt (a_io a) (bufs a) (fun x => if x =? id then v else auth_img_flags a x) (a_crt a) (ecnt_rotpk_hash a) (image_hash_base a).
Definition set_crt v a := AuthSt (a_io a) (bufs a) (auth_img_flags a) v (ecnt_rotpk_hash a) (image_hash_base a).
Definition set_rotpk v a := AuthSt (a_io a) (bufs a) (auth_img_flags a) (a_crt a) v (image_hash_base a).
Definition set_hash_base v a := AuthSt (a_io a) (bufs a) (auth_img_flags a) (a_crt a) (ecnt_rotpk_hash a) v.

Definition on_io {A} (m : M io_st A) : M auth_st A := lift a_io set_io m.
Definition on_crt {A} (m : M crt A) : M auth_st A := lift a_crt set_crt m.

Definition IMG_FLAG_AUTHENTICATED : Z := 1.
Definition COT_MAX_VERIFIED_PARAMS : nat := 4.

(** ** The root of trust *)

Definition ROTPK_IS_HASH : Z := 1.
Definition ROTPK_NOT_DEPLOYED : Z := 2.
Definition ROTPK_HEADER_LEN : nat := 19.
Definition FILE_SIZE_SHA256 : nat := 32.
Definition FILE_SIZE_SHA512 : nat := 64.
Definition HASH_MODE_SHA512 : Z := 1.
Definition SHA256_DER : list Z := [0x30; 0x31; 0x30; 0x0D; 0x06; 0x09; 0x60; 0x86; 0x48; 0x01; 0x65; 0x03; 0x04; 0x02; 0x01; 0x05; 0x00; 0x04; 0x20].
Definition SHA512_DER : list Z := [0x30; 0x51; 0x30; 0x0D; 0x06; 0x09; 0x60; 0x86; 0x48; 0x01; 0x65; 0x03; 0x04; 0x02; 0x03; 0x05; 0x00; 0x04; 0x40].

(** Answers the key (here: the hash of it) and the flags. *)
Definition plat_get_rotpk_info : M auth_st (list Z * Z) := act (fun a =>
  let d := secure_data (a_io a) in
  let sha512 := hash_mode d =? HASH_MODE_SHA512 in
  let buf := if sha512 then splice (ecnt_rotpk_hash a) 0 SHA512_DER else ecnt_rotpk_hash a in
  let key_len := if sha512 then FILE_SIZE_SHA512 else FILE_SIZE_SHA256 in
  let buf := splice buf (Z.of_nat ROTPK_HEADER_LEN) (take key_len (rotpk d)) in
  ((take (key_len + ROTPK_HEADER_LEN) buf, ROTPK_IS_HASH), set_rotpk buf a)).

(** The counters of the platform: always 0, and never raised. *)
Definition plat_get_nv_ctr : Z * Z := (0, 0).
Definition plat_set_nv_ctr (nv_ctr : Z) : Z := 1.
Definition plat_set_nv_ctr2 (nv_ctr : Z) : Z := plat_set_nv_ctr nv_ctr.

Definition get_hash_mode_by_efuse (d : secure_efuse) : Z := hash_mode d.

(** [secure_data] is filled piece by piece; [None]: [plat_error_handler], which
    does not return. *)
Definition fill_secure_data (d : secure_efuse) (p_data : list Z) (offset : Z) : option secure_efuse :=
  if offset + Z.of_nat (length p_data) <=? 160 then Some (splice d offset p_data) else None.

(** ** [img_parser_mod.c] *)

Section auth.
Context `{Board} `{CotSizes} `{Crypto}.

Definition img_parser_check_integrity (t : img_type) (img : list Z) : M auth_st Z :=
  match t with
  | IMG_RAW => ret IMG_PARSER_OK
  | IMG_CERT => on_crt (check_integrity img)
  | IMG_PLAT => undef
  end.

(** The code, and the parameter as a pointer into the image. *)
Definition img_parser_get_auth_param (t : img_type) (type_desc : auth_param_type_desc) (img : list Z) : M auth_st (Z * Z * Z) :=
  match t with
  | IMG_RAW => ret (IMG_PARSER_OK, 0, Z.of_nat (length img))
  | IMG_CERT => let! c := gets a_crt in lift_outcome (get_auth_param img c type_desc)
  | IMG_PLAT => undef
  end.

(** The same with the bytes instead of the pointer; [inr] is an error. *)
Definition auth_param_bytes (t : img_type) (type_desc : auth_param_type_desc) (img : list Z) : M auth_st (list Z + Z) :=
  let! r := img_parser_get_auth_param t type_desc img in
  let '(rc, p, len) := r in
  if negb (rc =? 0) then ret (inr rc)
  else let! x := lift_outcome (bytes_at img p len) in ret (inl x).

(** ** [crypto_mod.c] *)

(** The digest of no data is the one at [image_hash_base], in the runtime
    firmware. *)
Definition crypto_mod_verify_hash (data di : list Z) : M auth_st Z :=
  let! o := lift_outcome (digest_info di) in
  match o with
  | None => ret CRYPTO_ERR_HASH
  | Some (md_alg, hash) =>
      if IMAGE_BL31 && (Z.of_nat (length data) =? 0) then
        let! a := gets image_hash_base in
        let! given := on_io (load_mem a (md_size md_alg)) in
        ret (if bool_decide (given = hash) then CRYPTO_SUCCESS else CRYPTO_ERR_HASH)
      else
        match md_hash md_alg data with
        | None => ret CRYPTO_ERR_HASH
        | Some data_hash => ret (if bool_decide (data_hash = hash) then CRYPTO_SUCCESS else CRYPTO_ERR_HASH)
        end
  end.

Definition crypto_mod_verify_signature (data sig sig_alg pk : list Z) : M auth_st Z :=
  lift_outcome (verify_signature data sig sig_alg pk).

(** ** [auth_mod.c] *)

(** The parameter of an authenticated parent; [None]: the code is 1.  The search
    reads the null descriptor behind the last one. *)
Fixpoint find_param (t : auth_param_type_desc) (n : nat) (l : list auth_param_desc) : outcome (option auth_buf) :=
  match n, l with
  | O, _ => Done None
  | S _, [] => Undef
  | S n', d :: l' => if bool_decide (t = ap_type d) then Done (Some (ap_ptr d)) else find_param t n' l'
  end.

Definition auth_get_param (t : auth_param_type_desc) (img_desc : auth_img_desc) : M auth_st (option (list Z)) :=
  match authenticated_data img_desc with
  | None => ret None
  | Some l =>
      let! k := lift_outcome (find_param t COT_MAX_VERIFIED_PARAMS l) in
      match k with
      | Some k => let! b := gets (fun a => bufs a k) in ret (Some b)
      | None => ret None
      end
  end.

Definition auth_hash (data hash : auth_param_type_desc) (img_desc : auth_img_desc) (img : list Z) : M auth_st Z :=
  match id_parent img_desc with
  | None => undef
  | Some parent =>
      let! h := auth_get_param hash parent in
      match h with
      | None => ret 1
      | Some hash_der =>
          let! d := auth_param_bytes (id_type img_desc) data img in
          match d with
          | inr rc => ret rc
          | inl data => crypto_mod_verify_hash data hash_der
          end
      end
  end.

(** The key to verify with, and the flags; [None]: the code is 1. *)
Definition signature_key (pk : auth_param_type_desc) (img_desc : auth_img_desc) : M auth_st (option (list Z * Z)) :=
  match id_parent img_desc with
  | Some parent =>
      let! k := auth_get_param pk parent in
      ret (match k with Some k => Some (k, 0) | None => None end)
  | None => let! k := plat_get_rotpk_info in ret (Some k)
  end.

Definition auth_signature (pk sig alg data : auth_param_type_desc) (img_desc : auth_img_desc) (img : list Z) : M auth_st Z :=
  let t := id_type img_desc in
  let! d := auth_param_bytes t data img in
  match d with inr rc => ret rc | inl data =>
  let! s := auth_param_bytes t sig img in
  match s with inr rc => ret rc | inl sig =>
  let! g := auth_param_bytes t alg img in
  match g with inr rc => ret rc | inl sig_alg =>
  let! k := signature_key pk img_desc in
  match k with None => ret 1 | Some (key, flags) =>
  if negb (Z.land flags (Z.lor ROTPK_IS_HASH ROTPK_NOT_DEPLOYED) =? 0) then
    let! k := auth_param_bytes t pk img in
    match k with inr rc => ret rc | inl pk =>
    let! rc := crypto_mod_verify_signature data sig sig_alg pk in
    if negb (rc =? 0) then ret rc
    else if negb (Z.land flags ROTPK_NOT_DEPLOYED =? 0) then ret rc
    else crypto_mod_verify_hash pk key
    end
  else crypto_mod_verify_signature data sig sig_alg key
  end end end end.

(** [len] bytes, the most significant one first. *)
Fixpoint ctr_value (b : list Z) (n : nat) (p acc : Z) : outcome Z :=
  match n with
  | O => Done acc
  | S n' => ask! c := byte_at b p in ctr_value b n' (p + 1) (u32 (Z.lor (u32 (Z.shiftl acc 8)) c))
  end.

(** The counter at [p]; [None]: it is not a counter. *)
Definition nv_ctr_at (b : list Z) (p : Z) : outcome (option Z) :=
  ask! c := byte_at b p in
  if negb (c =? ASN1_INTEGER) then Done None
  else
    ask! c := byte_at b (p + 1) in
    let len := Z.land c 0x7f in
    if negb (Z.land c 0x80 =? 0) || (4 <? len) then Done None
    else
      ask! c := byte_at b (p + 2) in
      if negb (Z.land c 0x80 =? 0) then Done None
      else ask! v := ctr_value b (Z.to_nat len) (p + 2) 0 in Done (Some v).

Definition auth_nvctr (cert_nv_ctr : auth_param_type_desc) (img_desc : auth_img_desc) (img : list Z) : M auth_st Z :=
  let! r := img_parser_get_auth_param (id_type img_desc) cert_nv_ctr img in
  let '(rc, p, _) := r in
  if negb (rc =? 0) then ret rc
  else
    let! v := lift_outcome (nv_ctr_at img p) in
    match v with
    | None => ret 1
    | Some cert_ctr =>
        let '(rc, plat_ctr) := plat_get_nv_ctr in
        if negb (rc =? 0) then ret rc
        else if cert_ctr <? plat_ctr then ret 1
        else if plat_ctr <? cert_ctr then
          let rc := plat_set_nv_ctr2 cert_ctr in
          if negb (rc =? 0) then ret rc else ret 0
        else ret 0
    end.

(** The code and the parent; 1: the image has no parent, or an authenticated
    one. *)
Definition auth_mod_get_parent_id (id : Z) : M auth_st (Z * Z) :=
  let! d := checked (cot_desc id) in
  match id_parent d with
  | None => ret (1, 0)
  | Some parent =>
      let! fl := gets auth_img_flags in
      if negb (Z.land (fl (img_id parent)) IMG_FLAG_AUTHENTICATED =? 0) then ret (1, 0)
      else ret (0, img_id parent)
  end.

Definition auth_by (m : auth_method) (img_desc : auth_img_desc) (img : list Z) : M auth_st Z :=
  match m with
  | METHOD_HASH data hash => auth_hash data hash img_desc img
  | METHOD_SIG pk sig alg data => auth_signature pk sig alg data img_desc img
  | METHOD_NV_CTR cert_nv_ctr _ => auth_nvctr cert_nv_ctr img_desc img
  end.

Fixpoint auth_methods (l : list auth_method) (img_desc : auth_img_desc) (img : list Z) : M auth_st Z :=
  match l with
  | [] => ret 0
  | m :: l' => let! rc := auth_by m img_desc img in if negb (rc =? 0) then ret rc else auth_methods l' img_desc img
  end.

(** Extracts what the certificate vouches for. *)
Fixpoint keep_params (l : list auth_param_desc) (img_desc : auth_img_desc) (img : list Z) : M auth_st Z :=
  match l with
  | [] => ret 0
  | d :: l' =>
      let! r := img_parser_get_auth_param (id_type img_desc) (ap_type d) img in
      let '(rc, p, len) := r in
      if negb (rc =? 0) then ret rc
      else if ap_len d <? len then ret 1
      else
        let! x := lift_outcome (bytes_at img p len) in
        do! modify (fun a => set_buf (ap_ptr d) (splice (bufs a (ap_ptr d)) 0 x) a) in
        keep_params l' img_desc img
  end.

Definition auth_mod_verify_img (id : Z) (img : list Z) : M auth_st Z :=
  let! d := checked (cot_desc id) in
  let! rc := img_parser_check_integrity (id_type d) img in
  if negb (rc =? 0) then ret rc
  else
    let! rc := auth_methods (img_auth_methods d) d img in
    if negb (rc =? 0) then ret rc
    else
      let! rc := match authenticated_data d with Some l => keep_params l d img | None => ret 0 end in
      if negb (rc =? 0) then ret rc
      else
        do! modify (fun a => set_flag (img_id d) (Z.lor (auth_img_flags a (img_id d)) IMG_FLAG_AUTHENTICATED) a) in
        ret 0.
End auth.
