(* ===== verification/AtfSip.v ===== *)
(** Authenticated loading ([A/common/bl_common.c]) and the secure service that
    offers it to the normal world ([A/plat/ecnt/common/ecnt_sip_svc.c],
    [ecnt_plat_common.c]), with the mapping of the caller's memory
    ([A/lib/xlat_tables_v2/xlat_tables_core.c]). *)

From stdpp Require Import base numbers list option strings.
From Stdlib Require Import ZArith Lia.
From S2P Require Import Prelude Fip AtfIo AtfPlat AtfLoad AtfCert AtfCot AtfAuth.

(** ** [bl_common.c] *)

Section load.
Context `{Board} `{Gcm} `{CotSizes} `{Crypto} (toc_fuel : nat).

(** [load_image] in the state of the authentication. *)
Definition auth_load_image (image_id : Z) (image_data : image_info) : M auth_st (Z * image_info) :=
  on_io (load_image toc_fuel image_id image_data).

(** Cache maintenance is not modelled. *)
Definition load_image_flush (image_id : Z) (image_data : image_info) : M auth_st (Z * image_info) :=
  auth_load_image image_id image_data.

(** [zero_normalmem] *)
Definition zero_image (image_data : image_info) : M auth_st unit :=
  on_io (store_mem (image_base image_data) (memset 0 (image_size image_data))).

(** Loads one image and authenticates it. *)
Definition load_and_verify (image_id : Z) (image_data : image_info) : M auth_st (Z * image_info) :=
  let! r := auth_load_image image_id image_data in
  let '(rc, image_data) := r in
  if negb (rc =? 0) then ret (rc, image_data)
  else
    let! img := on_io (load_mem (image_base image_data) (image_size image_data)) in
    let! rc := auth_mod_verify_img image_id img in
    do! (if IMAGE_BL31
         then modify (fun a => set_flag image_id (Z.land (auth_img_flags a image_id) (Z.lnot IMG_FLAG_AUTHENTICATED)) a)
         else ret tt) in
    if IMAGE_BL31 && (image_size image_data =? 0) then
      ret (if negb (rc =? 0) then - EAUTH else 0, image_data)
    else if negb (rc =? 0) then
      do! zero_image image_data in
      ret (- EAUTH, image_data)
    else ret (0, image_data).

(** The parents first; the chain of parents is at most [depth] long. *)
Fixpoint load_auth_image_recursive (depth : nat) (image_id : Z) (image_data : image_info) : M auth_st (Z * image_info) :=
  match depth with
  | O => out_of_fuel
  | S depth' =>
      let! p := auth_mod_get_parent_id image_id in
      let! r :=
        (if fst p =? 0 then load_auth_image_recursive depth' (snd p) image_data else ret (0, image_data)) in
      let '(rc, image_data) := r in
      if negb (rc =? 0) then ret (rc, image_data)
      else load_and_verify image_id image_data
  end.

(** An image, its content certificate, the key certificate and the certificate
    of the root. *)
Definition MAX_CHAIN : nat := 4.

Definition load_auth_image_internal (image_id : Z) (image_data : image_info) : M auth_st (Z * image_info) :=
  if negb disable_auth then load_auth_image_recursive MAX_CHAIN image_id image_data
  else load_image_flush image_id image_data.

(** There is no next boot source to try. *)
Definition plat_try_next_boot_source : Z := 0.
Definition load_auth_image (image_id : Z) (image_data : image_info) : M auth_st (Z * image_info) :=
  load_auth_image_internal image_id image_data.
End load.

(** ** Mapping memory of the caller *)

Definition EPERM : Z := 1.
Definition ERANGE : Z := 34.

(** The space left in the list of regions, the limit of addresses, and whether
    the translation tables suffice. *)
Class Xlat := {
  mmap_num : nat;
  va_max_address : Z;
  tables_suffice : list region -> region -> bool
}.

Section xlat.
Context `{Board} `{Xlat}.

Definition is_page_aligned (z : Z) : bool := Z.land z (PAGE_SIZE - 1) =? 0.

Definition region_end (r : region) : Z := u64 (rg_base r + rg_size r - 1).

Definition overlapping (r r' : region) : bool :=
  negb ((region_end r <? rg_base r') || (region_end r' <? rg_base r)).

(** For a region that is mapped at its own address and can be removed. *)
Definition mmap_add_region_check (rs : list region) (r : region) : Z :=
  if negb (is_page_aligned (rg_base r)) || negb (is_page_aligned (rg_size r)) then - EINVAL
  else if region_end r <? rg_base r then - ERANGE
  else if va_max_address <? region_end r then - ERANGE
  else if (mmap_num <=? length (static_regions ++ rs))%nat then - ENOMEM
  else if existsb (overlapping r) (static_regions ++ rs) then - EPERM
  else 0.

Definition mmap_add_dynamic_region (r : region) : M io_st Z := act (fun s =>
  if rg_size r =? 0 then (0, s)
  else
    let rc := mmap_add_region_check (regions s) r in
    if negb (rc =? 0) then (rc, s)
    else if tables_suffice (regions s) r then (0, set_regions (r :: regions s) s)
    else (- ENOMEM, s)).

(** Removes the first region with this base and size. *)
Fixpoint remove_region (base size : Z) (rs : list region) : option (list region) :=
  match rs with
  | [] => None
  | r :: rs' =>
      if (rg_base r =? base) && (rg_size r =? size) then Some rs'
      else (r ::.) <$> remove_region base size rs'
  end.

Definition mmap_remove_dynamic_region (base size : Z) : M io_st Z := act (fun s =>
  if existsb (fun r => (rg_base r =? base) && (rg_size r =? size)) static_regions then (- EPERM, s)
  else
    match remove_region base size (regions s) with
    | Some rs => (0, set_regions rs s)
    | None => (- EINVAL, s)
    end).
End xlat.

(** ** The service *)

Definition ECNT_SIP_E_SUCCESS : Z := 0.
Definition ECNT_SIP_E_INVALID_PARAM : Z := -1.
Definition ECNT_SIP_E_NOT_SUPPORTED : Z := -2.
Definition SMC_UNK : Z := -1.
Definition SMC_AARCH64_BIT : Z := 0x40000000.
Definition SMC32_PARAM_MASK : Z := 0xFFFFFFFF.
Definition SIP_SVC_CALL_COUNT : Z := 0x8200ff00.
Definition SIP_SVC_UID : Z := 0x8200ff01.
Definition SIP_SVC_VERSION : Z := 0x8200ff03.
Definition ECNT_SIP_EFUSE_HANDLE : Z := 0x82000001.
Definition ECNT_SIP_TEST_HANDLE : Z := 0x82000002.
Definition ECNT_SIP_GET_ALG_HANDLE : Z := 0x82000003.
Definition ECNT_SIP_VERIFY_BL2_HANDLE : Z := 0x82000201.
Definition ECNT_SIP_VERIFY_BL33_HANDLE : Z := 0x82000205.
Definition ECNT_SIP_DCRYPT_VERIFY_BL2_HANDLE : Z := 0x82000211.
Definition ECNT_SIP_DCRYPT_VERIFY_BL33_HANDLE : Z := 0x82000215.
Definition ECNT_SIP_AVS_HANDLE : Z := 0x82000301.

(** [bl_mem_params_node_t]: what the service uses of it. *)
Record bl_mem_params_node := Node { node_id : Z; node_info : image_info }.

Definition bl31_mem_params_descs : list bl_mem_params_node :=
  [Node BL2_IMAGE_ID (ImageInfo TZRAM2_BASE 0 TZRAM2_SIZE); Node BL33_IMAGE_ID (ImageInfo TZRAM2_BASE 0 TZRAM2_SIZE)].

(** [struct kernel_info] *)
Record kernel_info := KInfo { k_pc : Z; k_r0 : Z; k_r1 : Z; k_r2 : Z; k32_64 : Z }.

(** A call of [fill_secure_data]: the bytes and the offset. *)
Definition fill : Type := list Z * Z.

(** The fuses, the clock of the cores and the context of the normal world:
    chip registers and assembly, outside of this model.  A status is the C
    [int].  The fuse driver burns the fuses of the chip ([hw]); the copy of
    the fuses that the firmware works with is a variable of
    ecnt_trusted_boot.c, which the driver reaches through [fill_secure_data]
    only: it answers the calls it makes. *)
Class SipHost := {
  hw : Type;
  efuse_write_pkgid : Z -> Z -> hw -> Z * list fill * hw;
  efuse_write_secure_key : list Z -> hw -> Z * list fill * hw;      (* 32 bytes *)
  efuse_test : Z -> Z -> hw -> Z * list fill * hw;
  efuse_check_secure_key : Z -> hw -> Z * list fill * hw;
  read_iddq : hw -> Z;
  curr_armpll_clk_get : hw -> Z;
  cpu_freq_enum_get : Z -> Z;
  en7523_armpll_set : Z -> hw -> Z * hw;
  bl31_prepare_kernel_entry : kernel_info -> hw -> hw
}.

Record sip_st `{SipHost} := SipSt {
  s_auth : auth_st;
  bl_mem_params : list bl_mem_params_node;
  oriarmpll : Z;
  kernel_boot_once_flag : Z;
  k_info : kernel_info;
  s_hw : hw
}.

Section state.
Context `{SipHost}.
Definition set_auth v x := SipSt _ v (bl_mem_params x) (oriarmpll x) (kernel_boot_once_flag x) (k_info x) (s_hw x).
Definition set_params v x := SipSt _ (s_auth x) v (oriarmpll x) (kernel_boot_once_flag x) (k_info x) (s_hw x).
Definition set_oriarmpll v x := SipSt _ (s_auth x) (bl_mem_params x) v (kernel_boot_once_flag x) (k_info x) (s_hw x).
Definition set_kernel f k x := SipSt _ (s_auth x) (bl_mem_params x) (oriarmpll x) f k (s_hw x).
Definition set_hw v x := SipSt _ (s_auth x) (bl_mem_params x) (oriarmpll x) (kernel_boot_once_flag x) (k_info x) v.

Definition on_auth {A} (m : M auth_st A) : M sip_st A := lift s_auth set_auth m.
Definition on_map {A} (m : M io_st A) : M sip_st A := on_auth (on_io m).
(** The driver's calls of [fill_secure_data], in order. *)
Fixpoint run_fills (l : list fill) (d : secure_efuse) : option secure_efuse :=
  match l with
  | [] => Some d
  | (p_data, offset) :: l' => fill_secure_data d p_data offset ≫= run_fills l'
  end.

(** A function of the fuse driver.  An overflow of the copy ends in
    [plat_error_handler], which waits for ever. *)
Definition on_fuses (f : hw -> Z * list fill * hw) : M sip_st Z := fun x =>
  let '(r, l, h) := f (s_hw x) in
  match run_fills l (secure_data (a_io (s_auth x))) with
  | Some d => Done (r, set_hw h (set_auth (set_io (set_secure_data d (a_io (s_auth x))) (s_auth x)) x))
  | None => OutOfFuel
  end.

Definition on_hw {A} (f : hw -> A * hw) : M sip_st A := act (fun x => let '(r, h) := f (s_hw x) in (r, set_hw h x)).
End state.

Section sip.
Context `{Board} `{Gcm} `{CotSizes} `{Crypto} `{Xlat} `{SipHost} (toc_fuel : nat).

(** The index in the array. *)
Fixpoint get_bl_params_node_index (id : Z) (l : list bl_mem_params_node) : option nat :=
  match l with
  | [] => None
  | n :: l' => if node_id n =? id then Some O else S <$> get_bl_params_node_index id l'
  end.

Definition get_bl_mem_params_node (id : Z) : M sip_st (option nat) :=
  let! l := gets bl_mem_params in ret (get_bl_params_node_index id l).

Definition set_node_info (k : nat) (i : image_info) : M sip_st unit :=
  modify (fun x => set_params (alter (fun n => Node (node_id n) i) k (bl_mem_params x)) x).

(** [load_auth_image] on the image information of a node. *)
Definition load_node (k : nat) : M sip_st Z :=
  let! l := gets bl_mem_params in
  let! n := checked (l !! k) in
  let! r := on_auth (load_auth_image toc_fuel (node_id n) (node_info n)) in
  do! set_node_info k (snd r) in
  ret (fst r).

(** Verifies the package at [r2], of size [r3], by the digest at [r1]. *)
Definition ecnt_verify_handler (id r1 r2 r3 : Z) : M sip_st Z :=
  let! k := get_bl_mem_params_node id in
  match k with
  | None => ret ECNT_SIP_E_INVALID_PARAM
  | Some k =>
      if (r1 =? 0) || (r2 =? 0) then ret ECNT_SIP_E_INVALID_PARAM
      else
        let base := page_align r2 false in
        let size := u64 (page_align (u32 (r2 + r3)) true - base) in
        let! err := on_map (mmap_add_dynamic_region (Region base size false)) in
        let! err :=
          (if err =? 0 then
             do! on_map (set_fip_block_spec r2 r3) in
             let hash_base := page_align r1 false in
             let hash_size := u64 (page_align (u32 (r1 + PAGE_SIZE)) true - hash_base) in
             let! err := on_map (mmap_add_dynamic_region (Region hash_base hash_size false)) in
             let! err :=
               (if err =? 0 then
                  do! on_auth (modify (set_hash_base r1)) in
                  let! err := load_node k in
                  do! on_map (mmap_remove_dynamic_region hash_base hash_size) in
                  ret err
                else ret err) in
             do! on_map (set_fip_block_spec 0 0) in
             do! on_map (mmap_remove_dynamic_region base size) in
             ret err
           else ret err) in
        ret (if negb (err =? 0) then ECNT_SIP_E_INVALID_PARAM else ECNT_SIP_E_SUCCESS)
  end.

(** Decrypts and verifies the image of size [r1] of the package at [r2], into
    the memory at [r3].  When a mapping fails, [plat_error_handler] waits for
    ever: the run has no end. *)
Definition ecnt_decrypt_handler (id r1 r2 r3 : Z) : M sip_st Z :=
  let! k := get_bl_mem_params_node id in
  match k with
  | None => ret ECNT_SIP_E_INVALID_PARAM
  | Some k =>
      if (r1 =? 0) || (r2 =? 0) then ret ECNT_SIP_E_INVALID_PARAM
      else
        let base := page_align r2 false in
        let size := u64 (page_align (u32 (0x2000 + r2 + r1)) true - base) in
        let! err := on_map (mmap_add_dynamic_region (Region base size false)) in
        if negb (err =? 0) then out_of_fuel
        else
          let img_base := page_align r3 false in
          let img_size := u64 (page_align (u32 (r1 + r3)) true - img_base) in
          let! err := on_map (mmap_add_dynamic_region (Region img_base img_size true)) in
          if negb (err =? 0) then out_of_fuel
          else
            do! set_node_info k (ImageInfo r3 r1 0x10000000) in
            do! on_map (set_fip_block_spec r2 0x2000) in
            let! err := load_node k in
            do! on_map (set_fip_block_spec 0 0) in
            do! set_node_info k (ImageInfo TZRAM2_BASE 0 TZRAM2_SIZE) in
            do! on_map (mmap_remove_dynamic_region img_base img_size) in
            do! on_map (mmap_remove_dynamic_region base size) in
            ret (if negb (err =? 0) then ECNT_SIP_E_INVALID_PARAM else ECNT_SIP_E_SUCCESS)
  end.

(** The upper halves of the parameters of a 32-bit call count for nothing. *)
Definition clean_top_32b_of_param (smc_fid x : Z) : Z :=
  if Z.land smc_fid SMC_AARCH64_BIT =? 0 then Z.land x SMC32_PARAM_MASK else x.

(** [SMC_RET1]: the result as the caller's register holds it. *)
Definition smc_ret (r : Z) : Z := u64 r.

(** ** The other services *)

Definition EFUSE_PKID : Z := 0x44494B50.
Definition EFUSE_SKEY : Z := 0x59454B53.
Definition EFUSE_TEST : Z := 0x54534554.
Definition EFUSE_CKEY : Z := 0x59454B43.

(** The answer is the [int] of the fuse driver, in 64 bits. *)
Definition ecnt_efuse_handler (r1 r2 r3 : Z) : M sip_st Z :=
  if r1 =? EFUSE_PKID then on_fuses (efuse_write_pkgid (u8 r2) (u8 r3))
  else if r1 =? EFUSE_SKEY then
    let size := u32 (r3 + (PAGE_SIZE - r3 mod PAGE_SIZE)) in
    let! status := on_map (mmap_add_dynamic_region (Region r2 size false)) in
    if status =? 0 then
      let! key := on_map (load_mem r2 32) in
      let! status := on_fuses (efuse_write_secure_key key) in
      do! on_map (mmap_remove_dynamic_region r2 size) in
      ret status
    else ret status
  else if r1 =? EFUSE_TEST then on_fuses (efuse_test (u8 r2) (u8 r3))
  else if r1 =? EFUSE_CKEY then on_fuses (efuse_check_secure_key (u8 r2))
  else ret ECNT_SIP_E_NOT_SUPPORTED.

Definition AVS_OP_FREQ_DOWN : Z := 0.
Definition AVS_OP_FREQ_RECOVER : Z := 1.
Definition AVS_OP_FREQ_DYN_ADJ : Z := 0xddddddd1.
Definition AVS_OP_GET_FREQ : Z := 0xddddddd2.
Definition cpu_freq_500M : Z := 0.

(** The frequency of the cores, set and restored. *)
Definition ecnt_avs_handler (r1 r2 r3 : Z) : M sip_st Z :=
  let! iddq := gets (fun x => Z.land 0xff (read_iddq (s_hw x))) in
  if r1 =? AVS_OP_FREQ_DOWN then
    do! modify (fun x => set_oriarmpll (u32 (curr_armpll_clk_get (s_hw x))) x) in
    let! r := on_hw (en7523_armpll_set cpu_freq_500M) in
    ret (Z.lor iddq (u64 r))
  else if r1 =? AVS_OP_FREQ_RECOVER then
    let! o := gets oriarmpll in
    if o =? 0 then ret ECNT_SIP_E_NOT_SUPPORTED
    else
      let! r := on_hw (en7523_armpll_set (cpu_freq_enum_get o)) in
      ret (Z.lor iddq (u64 r))
  else if r1 =? AVS_OP_FREQ_DYN_ADJ then
    do! on_hw (en7523_armpll_set r3) in
    ret ECNT_SIP_E_NOT_SUPPORTED
  else if r1 =? AVS_OP_GET_FREQ then
    do! modify (fun x => set_oriarmpll (u32 (curr_armpll_clk_get (s_hw x))) x) in
    gets oriarmpll
  else ret ECNT_SIP_E_NOT_SUPPORTED.

(** The table of tests is compiled out. *)
Definition ecnt_test_handler (r1 r2 r3 : Z) : Z := ECNT_SIP_E_INVALID_PARAM.

Definition LINUX_KERNEL_32 : Z := 0.

Definition save_kernel_info (pc r0 r1 mode : Z) (k : kernel_info) : kernel_info :=
  if mode =? LINUX_KERNEL_32 then KInfo pc 0 r0 r1 mode else KInfo pc r0 (k_r1 k) (k_r2 k) mode.

(** Once, and only once. *)
Definition boot_to_kernel (x1 x2 x3 x4 : Z) : M sip_st unit :=
  let! f := gets kernel_boot_once_flag in
  if f =? 0 then
    do! modify (fun x => set_kernel 1 (save_kernel_info x1 x2 x3 x4 (k_info x)) x) in
    modify (fun x => set_hw (bl31_prepare_kernel_entry (k_info x) (s_hw x)) x)
  else ret tt.

Definition ECNT_SIP_KERNEL_BOOT_AARCH32 : Z := 0x82000200.
Definition ECNT_SIP_KERNEL_BOOT_AARCH64 : Z := 0xC2000200.

(** ** The dispatch: the words of the answer, none for [SMC_RET0]. *)
Definition ecnt_sip_handler (smc_fid x1 x2 x3 x4 : Z) (non_secure : bool) : M sip_st (list Z) :=
  let x1 := clean_top_32b_of_param smc_fid x1 in
  let x2 := clean_top_32b_of_param smc_fid x2 in
  let x3 := clean_top_32b_of_param smc_fid x3 in
  let x4 := clean_top_32b_of_param smc_fid x4 in
  let r1 := u32 x1 in
  let r2 := u32 x2 in
  let r3 := u32 x3 in
  let answer (m : M sip_st Z) := let! r := m in ret [smc_ret r] in
  if negb non_secure then ret [smc_ret SMC_UNK]
  else if smc_fid =? ECNT_SIP_EFUSE_HANDLE then answer (ecnt_efuse_handler r1 r2 r3)
  else if smc_fid =? ECNT_SIP_TEST_HANDLE then ret [smc_ret (ecnt_test_handler r1 r2 r3)]
  else if smc_fid =? ECNT_SIP_GET_ALG_HANDLE then
    answer (gets (fun x => get_hash_mode_by_efuse (secure_data (a_io (s_auth x)))))
  else if (smc_fid =? ECNT_SIP_VERIFY_BL2_HANDLE) || (smc_fid =? ECNT_SIP_VERIFY_BL33_HANDLE) then
    answer (ecnt_verify_handler (Z.land smc_fid 0xF) r1 r2 r3)
  else if (smc_fid =? ECNT_SIP_DCRYPT_VERIFY_BL2_HANDLE) || (smc_fid =? ECNT_SIP_DCRYPT_VERIFY_BL33_HANDLE) then
    answer (ecnt_decrypt_handler (Z.land smc_fid 0xF) r1 r2 r3)
  else if smc_fid =? ECNT_SIP_AVS_HANDLE then answer (ecnt_avs_handler r1 r2 r3)
  else if (smc_fid =? ECNT_SIP_KERNEL_BOOT_AARCH32) || (smc_fid =? ECNT_SIP_KERNEL_BOOT_AARCH64) then
    do! boot_to_kernel x1 x2 x3 x4 in ret []
  else ret [smc_ret SMC_UNK].

(** The identifier of the service as four words. *)
Definition ecnt_sip_svc_uid : list Z := [0xcfa3def6; 0x52403319; 0x189377a1; 0x205920c3].

Definition sip_smc_handler (smc_fid x1 x2 x3 x4 : Z) (non_secure : bool) : M sip_st (list Z) :=
  if smc_fid =? SIP_SVC_CALL_COUNT then ret [14]
  else if smc_fid =? SIP_SVC_UID then ret ecnt_sip_svc_uid
  else if smc_fid =? SIP_SVC_VERSION then ret [0; 1]
  else ecnt_sip_handler smc_fid x1 x2 x3 x4 non_secure.
End sip.
