(* ===== verification/AtfProps.v ===== *)
(** What the storage layer of the trusted firmware promises: loading an image
    is one walk over the package in memory, the walk ends, and it finds what the
    boot loader finds in the same package. *)

From stdpp Require Import base numbers list option.
From Stdlib Require Import ZArith Lia.
From S2P Require Import Prelude Fip Ram AtfIo AtfPlat AtfIoBase AtfIoFip AtfLoad AtfLoadProps.

Section props.
Context `{Board} `{Gcm}.
Implicit Types (s : io_st) (i : image_info).

(** ** Every image *)

(** The identifier in the package of what is an image. *)
Definition image_uuid (image_id : Z) : option (list Z) :=
  match policies image_id with
  | Some (Policy FipDev (UuidSpec uuid) open_fip_check) => Some uuid
  | _ => None
  end.

Definition is_image (image_id : Z) : bool := negb ((image_id =? FIP_IMAGE_ID) || (image_id =? ENC_IMAGE_ID)).

Lemma policies_cases image_id : is_image image_id = true ->
  policies image_id = match image_uuid image_id with Some uuid => fip_policy uuid | None => None end.
Proof.
  unfold is_image, image_uuid, policies. destruct (image_id =? FIP_IMAGE_ID), (image_id =? ENC_IMAGE_ID); try done.
  intros _. repeat match goal with |- context [if ?b then _ else _] => destruct b end; done.
Qed.

(** What [load_image] is to do; an identifier without a source makes the code
    call a null pointer. *)
Definition load_outcome (toc_fuel : nat) s (image_id : Z) i : outcome (Z * image_info * ram_t) :=
  if by_digest image_id i then Done ((0, set_image_size 0 i), mem s)
  else
    match image_uuid image_id with
    | Some uuid => load_spec toc_fuel s uuid i
    | None => Undef
    end.

Lemma load_image_meets toc_fuel s image_id i :
  idle s -> ready s -> is_image image_id = true ->
  refines (load_image toc_fuel image_id i) s (load_outcome toc_fuel s image_id i).
Proof.
  intros Hid Hrd Him. unfold load_outcome. destruct (by_digest image_id i) eqn:Hd.
  { unfold refines, load_image. rewrite Hd. by exists s. }
  pose proof (policies_cases image_id Him) as Hpol. destruct (image_uuid image_id) as [uuid|].
  { by apply load_image_refines. }
  unfold refines, meets, load_image. rewrite Hd. unfold bind at 1, top, storage. cbn [io_stack io_level call_plat_get_image_source].
  unfold plat_get_image_source. by rewrite Hpol.
Qed.

(** ** The walk ends *)

Definition mapped_at s (a : Z) : bool := existsb (in_region false a) (static_regions ++ regions s).

Lemma mappedb_false rs rw a n x : a <= x < a + n -> existsb (in_region rw x) (static_regions ++ rs) = false -> mappedb rs rw a n = false.
Proof.
  intros Hx Hf. apply not_true_is_false. intros Ht. unfold mappedb in Ht. rewrite forallb_forall in Ht.
  specialize (Ht x). rewrite Hf in Ht. discriminate Ht. apply list_elem_of_In, elem_of_seqZ. lia.
Qed.

Lemma toc_scan_ends rs r base uuid a fuel : forall pos,
  existsb (in_region false a) (static_regions ++ rs) = false ->
  0 <= base -> 0 <= pos -> base + pos <= a < 2 ^ 64 -> a - (base + pos) < Z.of_nat fuel * sizeof_toc_entry ->
  toc_scan rs r base uuid fuel pos <> OutOfFuel.
Proof.
  induction fuel as [|fuel IH]; intros pos Ha Hb Hp Hr Hf; [lia|]. cbn [toc_scan].
  assert (u64 (base + pos) = base + pos) as E by (unfold u64; apply Z.mod_small; lia). rewrite E.
  destruct (mappedb _ _ _ _) eqn:Hm; [|done].
  assert (base + pos + sizeof_toc_entry <= a).
  { destruct (Z.le_gt_cases (base + pos + sizeof_toc_entry) a); [done|].
    rewrite (mappedb_false rs false (base + pos) sizeof_toc_entry a) in Hm; [done|lia|done]. }
  unfold sizeof_toc_entry in *. do 2 (case_bool_decide; [done|]).
  assert (u64 (pos + 40) = pos + 40) as -> by (unfold u64; apply Z.mod_small; lia). apply IH; [done|lia..].
Qed.

Lemma load_outcome_ends toc_fuel s image_id i a :
  mapped_at s a = false -> 0 <= fst (fip_block_spec s) ->
  fst (fip_block_spec s) + sizeof_toc_header <= a < 2 ^ 64 ->
  a - (fst (fip_block_spec s) + sizeof_toc_header) < Z.of_nat toc_fuel * sizeof_toc_entry ->
  load_outcome toc_fuel s image_id i <> OutOfFuel.
Proof.
  intros Ha Hb Hr Hf. unfold load_outcome. destruct (by_digest _ _); [done|]. destruct (image_uuid _) as [uuid|]; [|done].
  unfold load_spec, find_entry, scan_of.
  pose proof (toc_scan_ends (regions s) (mem s) (fst (fip_block_spec s)) uuid a toc_fuel sizeof_toc_header Ha Hb ltac:(done) Hr Hf) as Hs.
  destruct (mm_readable s _ _), (header_valid s); [|done..]. destruct (toc_scan _ _ _ _ _ _) as [[[e [|]] p]| |]; [|done..].
  assert (forall b : bool, (if b then load_encrypted s i e else load_plain s i e) <> OutOfFuel) as Hb2; [|apply Hb2].
  unfold load_encrypted, load_plain, load_payload. intros []; repeat (case_match; try done).
Qed.
End props.

(** ** The boot loader walks over the same table *)

Section views.
Context `{Board}.
Implicit Types (s : io_st).

Lemma entry_fields r a : let e := entry_of_bytes (ram_bytes r a sizeof_toc_entry) in
  te_uuid e = ram_bytes r a 16 /\ te_offset_address e = ram_le r (a + 16) 8 /\
  te_size e = ram_le r (a + 24) 8 /\ te_flags e = ram_le r (a + 32) 8.
Proof.
  unfold entry_of_bytes, ram_le, sizeof_toc_entry. cbn [te_uuid te_offset_address te_size te_flags].
  pose proof (ram_bytes_slice r a 40 0 16) as E. rewrite Z.add_0_r in E. split; [by apply E|].
  split_and!; f_equal; [by apply (ram_bytes_slice r a 40 16 8)|by apply (ram_bytes_slice r a 40 24 8)|by apply (ram_bytes_slice r a 40 32 8)].
Qed.

(** An entry the firmware stops at is the one the boot loader stops at; some
    address behind the window is not mapped. *)
Lemma walks_agree rs r base tcboot bufend a e p' fuel : forall pos wfuel f,
  existsb (in_region false a) (static_regions ++ rs) = false ->
  toc_scan rs r base (img_uuid tcboot) fuel pos = Done (e, true, p') ->
  0 <= base -> 0 <= pos -> base + pos <= a < 2 ^ 64 -> base + p' <= bufend ->
  bufend - (base + pos) < Z.of_nat wfuel * sizeof_toc_entry + sizeof_toc_entry ->
  pos < p' /\ exists f', toc_walk wfuel r tcboot (base + pos) bufend f = Done f' /\
    fip_smc f' = img_smc tcboot /\ fip_buf f' = fip_buf f /\ fip_off f' = u32 (te_offset_address e) /\
    fip_size f' = u32 (te_size e) /\ (te_flags e <> 0 -> fip_flag f' = u32 (te_flags e)).
Proof.
  induction fuel as [|fuel IH]; intros pos wfuel f Ha Hscan Hb Hp Hr Hend Hf; [done|]. cbn [toc_scan] in Hscan.
  assert (u64 (base + pos) = base + pos) as E by (unfold u64; apply Z.mod_small; lia). rewrite E in Hscan.
  destruct (mappedb _ _ _ _) eqn:Hm; [|done].
  assert (base + pos + sizeof_toc_entry <= a).
  { destruct (Z.le_gt_cases (base + pos + sizeof_toc_entry) a); [done|].
    rewrite (mappedb_false rs false (base + pos) sizeof_toc_entry a) in Hm; [done|lia|done]. }
  assert (u64 (pos + sizeof_toc_entry) = pos + sizeof_toc_entry) as E2 by (unfold u64, sizeof_toc_entry in *; apply Z.mod_small; lia).
  rewrite E2 in Hscan. destruct (entry_fields r (base + pos)) as (Hu & Ho & Hs & Hfl). cbv zeta in *.
  set (e0 := entry_of_bytes _) in *.
  case_bool_decide as Hu1.
  - injection Hscan as <- <-. split; [unfold sizeof_toc_entry; lia|].
    unfold sizeof_toc_entry in *. destruct wfuel as [|wfuel]; [lia|]. cbn [toc_walk]. unfold sizeof_toc_entry.
    rewrite (proj2 (Z.ltb_lt _ bufend)) by lia. cbn [negb]. rewrite <- Hu, bool_decide_eq_true_2 by done.
    eexists. split; [done|]. cbn [fip_smc fip_buf fip_off fip_size fip_flag]. rewrite Ho, Hs, Hfl.
    split_and!; [done..|]. intros Hnz. by rewrite (proj2 (Z.eqb_neq _ 0)).
  - case_bool_decide as Hu2; [done|].
    replace (base + (pos + sizeof_toc_entry)) with (base + pos + sizeof_toc_entry) in * by lia.
    assert (exists w, wfuel = S w) as [w ->].
    { destruct wfuel as [|w]; [|by exists w]. exfalso.
      destruct (IH (pos + sizeof_toc_entry) 0%nat f Ha Hscan Hb) as [Hlt _]; unfold sizeof_toc_entry in *; lia. }
    destruct (IH (pos + sizeof_toc_entry) w f Ha Hscan Hb) as (Hlt & f' & Hw & Hrest); [unfold sizeof_toc_entry in *; lia..|].
    split; [unfold sizeof_toc_entry in *; lia|]. exists f'. split; [|done]. cbn [toc_walk].
    rewrite (proj2 (Z.ltb_lt _ bufend)) by (unfold sizeof_toc_entry in *; lia). cbn [negb].
    rewrite <- Hu, bool_decide_eq_false_2 by done. rewrite <- Hw. f_equal. lia.
Qed.
End views.

(** ** After the start *)

(** The globals before [plat_ecnt_io_setup]. *)
Definition io_zero (m : ram_t) (spec : Z * Z) (fuses : secure_efuse) : io_st :=
  IoSt m [] (replicate 3 None) (replicate 3 no_entity) 0 0 mm_none fip_none (None, NoSpec) 0 0 0
       (None, NoSpec) None NoSpec spec None None None fuses.

Definition io_start (m : ram_t) (spec : Z * Z) (fuses : secure_efuse) : io_st :=
  match plat_ecnt_io_setup (io_zero m spec fuses) with Done (_, s) => s | _ => io_zero m spec fuses end.

Lemma io_start_ready m spec fuses : idle (io_start m spec fuses) /\ ready (io_start m spec fuses).
Proof. split; [split; [by split|done|done]|by split]. Qed.

(** ** Properties *)

Section theorems.
Context `{Board} `{Gcm}.
Implicit Types (s : io_st) (i : image_info).

(** C7: [load_image] through the three drivers of the storage layer does
    what one walk over the package in memory says, for every image and every
    package: the entry with the image's identifier is found, the limit on its
    size is checked, its bytes are copied to the destination, and an encrypted
    image is decrypted there.  Each error has the code of the specification, a
    read or write of memory that is not mapped is a fault, and in every other
    case all handles are closed again, the drivers are idle and nothing else
    has changed. *)
Theorem load_image_correct toc_fuel s image_id i :
  idle s -> ready s -> is_image image_id = true ->
  refines (load_image toc_fuel image_id i) s (load_outcome toc_fuel s image_id i).
Proof. apply load_image_meets. Qed.

(** C15: [load_image] ends, whatever the package holds: the walk over the table
    of contents leaves the mapped memory at the latest, after as many entries
    as fit between the header and the first address that is not mapped. *)
Theorem load_image_terminates toc_fuel s image_id i a :
  idle s -> ready s -> is_image image_id = true ->
  mapped_at s a = false -> 0 <= fst (fip_block_spec s) ->
  fst (fip_block_spec s) + sizeof_toc_header <= a < 2 ^ 64 ->
  a - (fst (fip_block_spec s) + sizeof_toc_header) < Z.of_nat toc_fuel * sizeof_toc_entry ->
  load_image toc_fuel image_id i s <> OutOfFuel.
Proof.
  intros Hid Hrd Him Ha Hb Hr Hf. pose proof (load_image_meets toc_fuel s image_id i Hid Hrd Him) as Hm.
  pose proof (load_outcome_ends toc_fuel s image_id i a Ha Hb Hr Hf) as He.
  unfold refines, meets in Hm. destruct (load_outcome _ _ _ _) as [[r m]| |]; [..|done].
  - destruct Hm as (s' & -> & _). done.
  - by rewrite Hm.
Qed.

(** C14: boot loader and firmware agree on a package: the entry that the
    firmware's walk stops at, when it lies in the window the boot loader
    searches, is the entry [parse_fip] answers, with the same place, size and
    flags. *)
Theorem boot_loader_finds_same_entry toc_fuel fuel s buf buf_size off size flag fo e p a :
  let r := mem s in
  let tcboot := negb (ram_le r buf 4 =? TOC_HEADER_NAME) in
  let base := if tcboot then buf + MV_DATA_OFFSET else buf in
  let window := if tcboot then BOOT_FIP_MAX_SIZE else buf_size in
  fst (fip_block_spec s) = base -> header_valid s = true ->
  scan_of toc_fuel s (img_uuid tcboot) = Done (e, true, p) -> p <= window ->
  mapped_at s a = false -> 0 <= base -> base + sizeof_toc_header <= a < 2 ^ 64 ->
  window < Z.of_nat fuel * sizeof_toc_entry ->
  exists f', parse_fip fuel r buf buf_size off size flag fo = Done f' /\
    fip_smc f' = img_smc tcboot /\ fip_buf f' = base /\ fip_off f' = u32 (te_offset_address e) /\
    fip_size f' = u32 (te_size e) /\ (te_flags e <> 0 -> fip_flag f' = u32 (te_flags e)).
Proof.
  intros r tcboot base window Hspec Hv Hscan Hp Ha Hb Hr Hf. unfold scan_of in Hscan. rewrite Hspec in Hscan.
  assert (ram_le r base 4 =? TOC_HEADER_NAME = true) as Hname.
  { unfold header_valid, mm_data, mm_src in Hv. rewrite Hspec, Z.add_0_r in Hv. fold r in Hv.
    assert (u64 base = base) as E by (unfold u64, sizeof_toc_header in *; apply Z.mod_small; lia). rewrite E in Hv.
    apply andb_prop in Hv as [Hv _]. pose proof (ram_bytes_slice r base 16 0 4) as Es. rewrite Z.add_0_r in Es.
    unfold ram_le. rewrite <- Es by done. exact Hv. }
  pose proof (walks_agree (regions s) r base tcboot (base + window) a e p toc_fuel sizeof_toc_header fuel
    (Fip 0 base (if tcboot then BOOT_FIP_MAX_SIZE else buf_size) off size flag fo) Ha Hscan Hb) as Hw.
  destruct Hw as (_ & f' & Hw & Hsmc & Hbuf & Hrest); [done|done|lia|unfold sizeof_toc_header, sizeof_toc_entry in *; lia|].
  exists f'. split; [|done]. rewrite <- Hw. unfold parse_fip, base, window, tcboot in *.
  destruct (ram_le r buf 4 =? TOC_HEADER_NAME); cbn [negb] in *; [done|]. rewrite Hname. done.
Qed.
End theorems.

(** ** A package with an encrypted image *)

Definition demo_board : Board := {| static_regions := [Region 0x1000 0x2000 true]; TCSUPPORT_OPTEE := false; IMAGE_BL31 := true; disable_auth := false |}.

(** A cipher that adds a byte of the key. *)
Definition demo_gcm : Gcm :=
  {| gcm_ctx := Z; gcm_setkey key := (0, hd 0 key); gcm_starts k _ := (0, k);
     gcm_update k l := (0, (fun x => u8 (x + k)) <$> l, k); gcm_finish k n := (0, replicate (Z.to_nat n) 7) |}.

Definition le64 (z : Z) : list Z := (fun k => Z.land (Z.shiftr z (8 * Z.of_nat k)) 255) <$> seq 0 8.

Definition demo_entry (uuid : list Z) (offset size flags : Z) : list Z := uuid ++ le64 offset ++ le64 size ++ le64 flags.

Definition demo_package : list Z :=
  [0x01; 0x00; 0x64; 0xAA; 0x78; 0x56; 0x34; 0x12] ++ replicate 8 0 ++
  demo_entry bl31_uuid_spec 0x88 4 0 ++ demo_entry bl33_uuid_spec 0x90 48 1 ++ demo_entry uuid_null 0 0 0 ++
  [1; 2; 3; 4] ++ replicate 4 0 ++
  [0x01; 0x00; 0x64; 0xAA; 0; 0; 0; 0; 12; 0; 16; 0] ++ replicate 16 0 ++ replicate 16 7 ++ [10; 20; 30; 40].

Definition demo_ram : ram_t := ram_store (fun _ => 0) 0x1000 demo_package.
Definition demo_start : io_st := io_start demo_ram (0x1000, 0xC0) (replicate 80 0 ++ [5] ++ replicate 79 0).

Lemma load_image_correct_witness :
  let i := ImageInfo 0x2000 0 0x100 in
  refines (load_image (H := demo_board) (H0 := demo_gcm) 4 BL33_IMAGE_ID i) demo_start (load_outcome (H := demo_board) (H0 := demo_gcm) 4 demo_start BL33_IMAGE_ID i) /\
  match load_outcome (H := demo_board) (H0 := demo_gcm) 4 demo_start BL33_IMAGE_ID i with
  | Done (r, m) => r = (0, ImageInfo 0x2000 4 0x100) /\ ram_bytes m 0x2000 4 = [15; 25; 35; 45]
  | _ => False
  end.
Proof.
  split; [|by vm_compute].
  apply (load_image_correct (H := demo_board)); [apply io_start_ready|apply io_start_ready|reflexivity].
Defined.

Lemma load_image_terminates_witness :
  load_image (H := demo_board) (H0 := demo_gcm) 205 BL31_IMAGE_ID (ImageInfo 0x2000 0 0x100) demo_start <> OutOfFuel.
Proof.
  apply (load_image_terminates (H := demo_board) 205 demo_start BL31_IMAGE_ID _ 0x3000);
    [apply io_start_ready|apply io_start_ready|by vm_compute|by vm_compute|by vm_compute|split; by vm_compute|by vm_compute].
Defined.

Lemma boot_loader_finds_same_entry_witness :
  exists f', parse_fip 5 demo_ram 0x1000 0xC0 0 0 0 0 = Done f' /\ fip_off f' = 0x90 /\ fip_size f' = 48 /\ fip_flag f' = 1.
Proof.
  destruct (boot_loader_finds_same_entry (H := demo_board) 4 5 demo_start 0x1000 0xC0 0 0 0 0
    (TocEntry bl33_uuid_spec 0x90 48 1) 96 0x3000) as (f' & Hf & _ & _ & Ho & Hs & Hfl);
    [by vm_compute..|split; by vm_compute|by vm_compute|].
  exists f'. split; [exact Hf|]. split; [exact Ho|]. split; [exact Hs|]. by apply Hfl.
Defined.
