(* ===== verification/AtfChain.v ===== *)
(** The chain of trust: what it means that a certificate is to be trusted, and
    that the authentication module accepts no other. *)

From stdpp Require Import base numbers list option strings.
From Stdlib Require Import ZArith Lia.
From S2P Require Import Prelude Fip AtfIo AtfPlat AtfCert AtfCertProps AtfCot AtfAuth.

(** ** What a computation leaves alone *)

Section leaves.
Context {S : Type} (R : S -> S -> Prop) `{!PreOrder R}.

Definition leaves {A} (m : M S A) : Prop := forall s a s', m s = Done (a, s') -> R s s'.

Lemma leaves_ret {A} (a : A) : leaves (ret a).
Proof. by intros s x s' [= _ <-]. Qed.

Lemma leaves_gets {A} (f : S -> A) : leaves (gets f).
Proof. by intros s x s' [= _ <-]. Qed.

Lemma leaves_bind {A B} (m : M S A) (k : A -> M S B) : leaves m -> (forall a, leaves (k a)) -> leaves (bind m k).
Proof. intros Hm Hk s b s' (a & s1 & H1 & H2)%bind_inv. etrans; [by eapply Hm|by eapply Hk]. Qed.

Lemma leaves_undef {A} : leaves (undef (A := A)).
Proof. done. Qed.

Lemma leaves_out_of_fuel {A} : leaves (out_of_fuel (A := A)).
Proof. done. Qed.

Lemma leaves_outcome {A} (o : outcome A) : leaves (lift_outcome o).
Proof. intros s a s'. unfold lift_outcome. by destruct o; [intros [= _ <-]|..]. Qed.

Lemma leaves_checked {A} (o : option A) : leaves (checked o).
Proof. by intros s a s' ->%checked_state. Qed.

Lemma leaves_modify (f : S -> S) : (forall s, R s (f s)) -> leaves (modify f).
Proof. by intros Hf s a s' [= _ <-]. Qed.

Lemma leaves_act {A} (f : S -> A * S) : (forall s, R s (snd (f s))) -> leaves (act f).
Proof. intros Hf s a s'. unfold act. intros [= E]. specialize (Hf s). by rewrite E in Hf. Qed.

Lemma leaves_lift {T A} (get : S -> T) put (m : M T A) : (forall s a t, m (get s) = Done (a, t) -> R s (put t s)) -> leaves (lift get put m).
Proof.
  intros H s a s'. unfold lift. destruct (m (get s)) as [[x t]| |] eqn:E; [|done..]. intros [= _ <-]. by eapply H.
Qed.
End leaves.

Lemma lift_inv {S T A} (get : S -> T) put (m : M T A) s a s' :
  lift get put m s = Done (a, s') -> exists t, m (get s) = Done (a, t) /\ s' = put t s.
Proof. unfold lift. destruct (m (get s)) as [[x t]| |]; [|done..]. intros [= <- <-]. eauto. Qed.

Lemma outcome_inv {S A} (o : outcome A) (s s' : S) a : lift_outcome o s = Done (a, s') -> o = Done a /\ s' = s.
Proof. unfold lift_outcome. destruct o; [|done..]. by intros [= <- <-]. Qed.

(** Straight-line code by its branches; the calls are in the database. *)
Create HintDb leaves.
Ltac leaves := repeat first
  [ solve [trivial with leaves nocore] | apply leaves_bind; [exact _| |intros ?; cbv beta zeta]
  | apply leaves_ret; exact _ | apply leaves_gets; exact _ | apply leaves_undef | apply leaves_out_of_fuel
  | apply leaves_outcome; exact _ | apply leaves_checked; exact _
  | match goal with |- leaves _ (match ?x with _ => _ end) => destruct x end ].

(** The first part of a run that has completed. *)
Ltac inv_bind H r t E := apply bind_inv in H as (r & t & E & H).

Section auth.
Context `{Board} `{CotSizes} `{Crypto}.
Implicit Types (a : auth_st) (b : list Z) (c : crt) (d : auth_img_desc).

(** ** Trust *)

(** The encoding of the digest of the root key, by the fuses. *)
Definition root_der (fuses : secure_efuse) : list Z :=
  if hash_mode fuses =? HASH_MODE_SHA512 then SHA512_DER ++ rotpk fuses
  else SHA256_DER ++ take FILE_SIZE_SHA256 (rotpk fuses).

(** [der] encodes the digest of [data]. *)
Definition digest_of (data der : list Z) : Prop :=
  exists md_alg h, digest_info der = Done (Some (md_alg, h)) /\ md_hash md_alg data = Some h.

Definition parsed b c : Prop := exists c0, check_integrity b c0 = Done (IMG_PARSER_OK, c).

(** The part [t] of a certificate. *)
Definition param_of b c (t : auth_param_type_desc) (x : list Z) : Prop :=
  exists p len, get_auth_param b c t = Done (IMG_PARSER_OK, p, len) /\ bytes_at b p len = Done x.

(** [alg] is the encoding of an algorithm for signatures. *)
Definition names_algorithm (alg : list Z) (md_alg pk_alg : Z) (opts : pk_opts) : Prop :=
  exists p oid params o x, mbedtls_asn1_get_alg alg 0 (Z.of_nat (length alg)) no_buf no_buf = Done (0, p, oid, params) /\
    bytes_at alg (ab_p oid) (ab_len oid) = Done o /\ bytes_at alg (ab_p params) (ab_len params) = Done x /\
    get_sig_alg o x = Some (md_alg, pk_alg, opts).

(** [sg] is the encoding of the bits [x]. *)
Definition bit_string (sg x : list Z) : Prop :=
  exists p len, mbedtls_asn1_get_bitstring_null sg 0 (Z.of_nat (length sg)) = Done (0, p, len) /\ bytes_at sg p len = Done x.

(** The signature fits the digest of [data] and the key. *)
Definition valid_signature (data sg alg key : list Z) : Prop :=
  exists md_alg pk_alg opts ctx h x, names_algorithm alg md_alg pk_alg opts /\ parse_subpubkey key = Some ctx /\
    bit_string sg x /\ md_hash md_alg data = Some h /\ pk_verify_ext pk_alg opts ctx md_alg h x = 0.

Definition signed b c (key : list Z) : Prop :=
  exists data sg alg, param_of b c raw_data data /\ param_of b c sig sg /\ param_of b c sig_alg_desc alg /\
    valid_signature data sg alg key.

(** A buffer that the part [t] has been copied to; a shorter part leaves the
    end of what was there before. *)
Definition vouches b c (t : auth_param_type_desc) (buf : list Z) : Prop :=
  exists v old, param_of b c t v /\ buf = splice old 0 v.

(** Signed by a key whose digest the fuses hold. *)
Definition root_signed (fuses : secure_efuse) b c : Prop :=
  exists pk, param_of b c subject_pk pk /\ signed b c pk /\ digest_of pk (root_der fuses).

(** The descriptors of the chain, by kind. *)
Record cert_desc d (pk ctr : auth_param_type_desc) (params : list auth_param_desc) : Prop := {
  cd_type : id_type d = IMG_CERT;
  cd_methods : img_auth_methods d = by_signature pk ctr;
  cd_params : authenticated_data d = Some params;
  cd_distinct : NoDup (ap_ptr <$> params);
  cd_root : id_parent d = None -> pk = subject_pk
}.

(** A certificate that is signed, by the root key or by a key that a trusted
    certificate vouches for. *)
Inductive trusted (fuses : secure_efuse) : auth_img_desc -> list Z -> crt -> Prop :=
| trusted_root d pk ctr params b c :
    id_parent d = None -> cert_desc d pk ctr params -> parsed b c -> root_signed fuses b c -> trusted fuses d b c
| trusted_child d p pk ctr params key bp cp b c :
    id_parent d = Some p -> cert_desc d pk ctr params ->
    trusted fuses p bp cp -> vouches bp cp pk key ->
    parsed b c -> signed b c key -> trusted fuses d b c.

(** ** The frame of the authentication *)

(** The buffer for the digest of the root key holds the encoding. *)
Definition rotpk_ok a : Prop :=
  length (ecnt_rotpk_hash a) = 83%nat /\ length (secure_data (a_io a)) = 160%nat /\
  (hash_mode (secure_data (a_io a)) <> HASH_MODE_SHA512 -> take ROTPK_HEADER_LEN (ecnt_rotpk_hash a) = SHA256_DER).

Record frame a a' : Prop := {
  fr_io : a_io a' = a_io a;
  fr_base : image_hash_base a' = image_hash_base a;
  fr_flags : forall x, auth_img_flags a' x = auth_img_flags a x;
  fr_rotpk : rotpk_ok a -> rotpk_ok a'
}.

#[export] Instance frame_preorder : PreOrder frame.
Proof. split; [by split|]. intros a1 a2 a3 [] []. split; [congruence..| |]; naive_solver congruence. Qed.

Lemma take_splice_start {A} (l x : list A) n : (length x = n) -> take n (splice l 0 x) = x.
Proof. intros <-. unfold splice. simpl. by rewrite take_app_length. Qed.

Lemma splice_tail {A} (l x : list A) n m : (n <= length l)%nat -> length x = m -> take (m + n) (splice l (Z.of_nat n) x) = take n l ++ x.
Proof. intros Hn <-. unfold splice. rewrite Nat2Z.id, app_assoc. apply take_app_length'. rewrite length_app, length_take. lia. Qed.

Lemma take_splice {A} (l x : list A) n : (n <= length l)%nat -> take n (splice l (Z.of_nat n) x) = take n l.
Proof. intros Hn. unfold splice. rewrite Nat2Z.id. apply take_app_length'. rewrite length_take. lia. Qed.

Lemma rotpk_run a : rotpk_ok a -> exists buf,
  plat_get_rotpk_info a = Done ((root_der (secure_data (a_io a)), ROTPK_IS_HASH), set_rotpk buf a) /\ rotpk_ok (set_rotpk buf a).
Proof.
  intros (Hl & Hd & Hp). unfold rotpk_ok. cbn [ecnt_rotpk_hash set_rotpk a_io].
  assert (length (rotpk (secure_data (a_io a))) = 64%nat) as Hr by (unfold rotpk; rewrite length_take, length_drop; lia).
  unfold plat_get_rotpk_info, act, root_der.
  destruct (Z.eqb_spec (hash_mode (secure_data (a_io a))) HASH_MODE_SHA512) as [E|E].
  - assert (length (splice (ecnt_rotpk_hash a) 0 SHA512_DER) = 83%nat) as Hs by (rewrite splice_length; [done|lia|rewrite Hl; simpl; lia]).
    rewrite (take_ge (rotpk _)) by (unfold FILE_SIZE_SHA512; lia).
    rewrite splice_tail, take_splice_start by (rewrite ?Hs; done || (unfold ROTPK_HEADER_LEN; lia)).
    eexists. split; [done|]. rewrite splice_length; [done|lia|rewrite Hs, Hr; done].
  - assert (length (take FILE_SIZE_SHA256 (rotpk (secure_data (a_io a)))) = 32%nat) as Hr2 by (rewrite length_take, Hr; done).
    rewrite splice_tail, Hp by (rewrite ?Hl; done || (unfold ROTPK_HEADER_LEN; lia)).
    eexists. split; [done|]. rewrite splice_length; [|lia|rewrite Hr2, Hl; unfold ROTPK_HEADER_LEN; lia].
    split; [done|]. split; [done|]. intros _. rewrite take_splice by (rewrite Hl; unfold ROTPK_HEADER_LEN; lia). by apply Hp.
Qed.

Lemma load_mem_same p n s r s' : load_mem p n s = Done (r, s') -> s' = s /\ r = ram_bytes (mem s) p n.
Proof. unfold load_mem, bind, gets. cbn [id]. destruct (mappedb _ _ _ _); [|done]. by intros [= <- <-]. Qed.

Lemma load_mem_frame p n : leaves frame (on_io (load_mem p n)).
Proof. apply leaves_lift. intros a r t (-> & _)%load_mem_same. by destruct a. Qed.
#[local] Hint Resolve load_mem_frame : leaves.

Lemma crt_frame {A} (m : M crt A) : leaves frame (on_crt m).
Proof. apply leaves_lift. intros a r t _. by split. Qed.
#[local] Hint Resolve crt_frame : leaves.

Lemma rotpk_frame : leaves frame plat_get_rotpk_info.
Proof.
  intros a r a' Hrun. assert (rotpk_ok a -> rotpk_ok a') as Hok.
  { intros (buf & Hr & Hok)%rotpk_run. rewrite Hr in Hrun. by injection Hrun as _ <-. }
  unfold plat_get_rotpk_info, act in Hrun. injection Hrun as _ <-. by split.
Qed.
#[local] Hint Resolve rotpk_frame : leaves.

Lemma param_frame t ty b : leaves frame (auth_param_bytes t ty b).
Proof. unfold auth_param_bytes, img_parser_get_auth_param. leaves. Qed.
#[local] Hint Resolve param_frame : leaves.

Lemma hash_frame data der : leaves frame (crypto_mod_verify_hash data der).
Proof. unfold crypto_mod_verify_hash. leaves. Qed.
#[local] Hint Resolve hash_frame : leaves.

Lemma signature_frame data sg alg key : leaves frame (crypto_mod_verify_signature data sg alg key).
Proof. unfold crypto_mod_verify_signature. leaves. Qed.
#[local] Hint Resolve signature_frame : leaves.

Lemma get_param_frame t d : leaves frame (auth_get_param t d).
Proof. unfold auth_get_param. leaves. Qed.
#[local] Hint Resolve get_param_frame : leaves.

Lemma auth_by_frame m d b : leaves frame (auth_by m d b).
Proof.
  destruct m; cbn [auth_by]; [unfold auth_hash|unfold auth_signature, signature_key|unfold auth_nvctr, img_parser_get_auth_param]; leaves.
Qed.
#[local] Hint Resolve auth_by_frame : leaves.

Lemma auth_methods_frame l d b : leaves frame (auth_methods l d b).
Proof. induction l; cbn [auth_methods]; leaves. Qed.

Lemma keep_params_frame l d b : leaves frame (keep_params l d b).
Proof.
  induction l; cbn [keep_params]; unfold img_parser_get_auth_param; leaves; apply leaves_modify; by split.
Qed.

Lemma integrity_frame t b : leaves frame (img_parser_check_integrity t b).
Proof. unfold img_parser_check_integrity. leaves. Qed.
#[local] Hint Resolve auth_methods_frame keep_params_frame integrity_frame : leaves.

(** ** What an accepted certificate has passed *)

Lemma get_param_inv t b a r p len a' :
  img_parser_get_auth_param IMG_CERT t b a = Done ((r, p, len), a') -> a' = a /\ get_auth_param b (a_crt a) t = Done (r, p, len).
Proof. cbn [img_parser_get_auth_param]. unfold bind, gets. by intros [-> ->]%outcome_inv. Qed.

Lemma param_inv t b a r a' :
  auth_param_bytes IMG_CERT t b a = Done (r, a') -> a' = a /\ match r with inl x => param_of b (a_crt a) t x | inr rc => rc <> 0 end.
Proof.
  unfold auth_param_bytes. intros Hrun. inv_bind Hrun q a1 E. destruct q as [[rc p] len].
  apply get_param_inv in E as [-> E]. cbv beta iota in Hrun. destruct (Z.eqb_spec rc 0) as [->|]; cbn [negb] in Hrun.
  - inv_bind Hrun x a1 Ex. apply outcome_inv in Ex as [Ex ->]. injection Hrun as <- <-. split; [done|]. by exists p, len.
  - injection Hrun as <- <-. by split.
Qed.

Lemma raw_inv t b a r a' : auth_param_bytes IMG_RAW t b a = Done (r, a') -> a' = a /\ r = inl b.
Proof.
  unfold auth_param_bytes, img_parser_get_auth_param, bind, ret. cbn [Z.eqb negb IMG_PARSER_OK]. change (IMG_PARSER_OK =? 0) with true. cbn [negb].
  unfold lift_outcome, bytes_at. rewrite (proj2 (Z.leb_le 0 0)), (proj2 (Z.leb_le 0 (Z.of_nat _))), Z.leb_refl by lia. cbn [andb].
  intros [= <- <-]. split; [done|]. by rewrite Nat2Z.id, drop_0, firstn_all.
Qed.

(** The digest that [crypto_mod_verify_hash] compares. *)
Definition hash_ok a (data der : list Z) : Prop :=
  exists md_alg h, digest_info der = Done (Some (md_alg, h)) /\
    if IMAGE_BL31 && (Z.of_nat (length data) =? 0)
    then ram_bytes (mem (a_io a)) (image_hash_base a) (md_size md_alg) = h
    else md_hash md_alg data = Some h.

Lemma hash_inv data der a a' : crypto_mod_verify_hash data der a = Done (0, a') -> a' = a /\ hash_ok a data der.
Proof.
  unfold crypto_mod_verify_hash, hash_ok. intros Hrun. inv_bind Hrun o a1 E. apply outcome_inv in E as [E ->].
  destruct o as [[alg h]|]; [|discriminate Hrun].
  destruct (IMAGE_BL31 && _).
  - unfold bind at 1, gets at 1 in Hrun. inv_bind Hrun g a1 Eg. apply lift_inv in Eg as (t & (-> & ->)%load_mem_same & ->).
    injection Hrun as Hrun <-. split; [by destruct a|]. exists alg, h. split; [done|]. by case_bool_decide.
  - destruct (md_hash alg data) as [dh|] eqn:Em; [|discriminate Hrun]. injection Hrun as Hrun <-. split; [done|]. exists alg, h.
    split; [done|]. case_bool_decide; [congruence|discriminate Hrun].
Qed.

Lemma find_param_in t n l k : find_param t n l = Done (Some k) -> exists x, x ∈ l /\ ap_type x = t /\ ap_ptr x = k.
Proof.
  revert n. induction l as [|x l IH]; intros [|n]; cbn [find_param]; [done..|]. case_bool_decide as E.
  - intros [= <-]. exists x. split; [left|by subst].
  - intros (y & Hy & ?)%IH. exists y. split; [by right|done].
Qed.

(** [x] is one of the parameters that the certificate [d] hands on. *)
Definition hands_on d (x : auth_param_desc) : Prop := exists l, authenticated_data d = Some l /\ x ∈ l.

(** The buffers hold what the certificate vouches for. *)
Definition holds d b c a : Prop := forall x, hands_on d x -> vouches b c (ap_type x) (bufs a (ap_ptr x)).

(** [v] is in the buffer for the parameter [t] of [p]. *)
Definition kept_param p (t : auth_param_type_desc) a (v : list Z) : Prop :=
  exists x, hands_on p x /\ ap_type x = t /\ v = bufs a (ap_ptr x).

Lemma kept_holds p t b c a v : holds p b c a -> kept_param p t a v -> vouches b c t v.
Proof. intros Hh (x & Hx & <- & ->). by apply Hh. Qed.

Lemma parent_param_inv t p a r a' : auth_get_param t p a = Done (r, a') ->
  a' = a /\ forall v, r = Some v -> kept_param p t a v.
Proof.
  unfold auth_get_param. destruct (authenticated_data p) as [l|] eqn:El; [|by intros [= <- <-]].
  intros Hrun. inv_bind Hrun k a1 E. apply outcome_inv in E as [E ->]. destruct k as [k|]; [|by injection Hrun as <- <-].
  unfold bind, gets, ret in Hrun. injection Hrun as <- <-. split; [done|]. intros v [= <-].
  apply find_param_in in E as (x & Hx & <- & <-). exists x. split; [by exists l|done].
Qed.

(** A part of a parsed certificate that is a key is not empty. *)
Lemma subject_pk_some b c pk : parsed b c -> param_of b c subject_pk pk -> bytes b -> Z.of_nat (length b) < 2 ^ 32 -> pk <> [].
Proof.
  intros [c0 Hp] (p & len & Hg & Hl) Hb Hlen.
  destruct (wp_done _ _ _ (check_integrity_in b Hb c0)) as (rc & c' & Hrun & Hcase). rewrite Hp in Hrun. injection Hrun as <- <-.
  destruct Hcase as [[_ Hc]|[? _]]; [|done].
  destruct (own_part_bytes b c AUTH_PARAM_PUB_KEY Hc Hlen eq_refl) as (p2 & len2 & l & Hg2 & Hl2 & Hn).
  change (TypeDesc AUTH_PARAM_PUB_KEY None) with subject_pk in Hg2. rewrite Hg2 in Hg. injection Hg as <- <-.
  rewrite Hl2 in Hl. injection Hl as ->. by apply Hn.
Qed.

Lemma root_digest a b c pk der : parsed b c -> param_of b c subject_pk pk -> hash_ok a pk der ->
  bytes b -> Z.of_nat (length b) < 2 ^ 32 -> digest_of pk der.
Proof.
  intros Hc Hpk (alg & h & Hdi & Hh) Hb Hlen. exists alg, h. split; [done|].
  pose proof (subject_pk_some b c pk Hc Hpk Hb Hlen) as Hn. destruct pk as [|x pk]; [done|].
  replace (Z.of_nat (length (x :: pk)) =? 0) with false in Hh by (symmetry; apply Z.eqb_neq; simpl; lia).
  by rewrite andb_false_r in Hh.
Qed.

(** A step of [verify_signature]. *)
Lemma obind_inv {A B} (m : outcome A) (f : A -> outcome B) r : obind m f = Done r -> exists x, m = Done x /\ f x = Done r.
Proof. destruct m as [x| |]; [|done..]. intros Hf. by exists x. Qed.

Lemma signature_valid data sg alg key : verify_signature data sg alg key = Done CRYPTO_SUCCESS -> valid_signature data sg alg key.
Proof.
  unfold verify_signature. intros ([[[rc p] oid] params] & Ha & Hrun)%obind_inv.
  destruct (Z.eqb_spec rc 0) as [->|_]; cbn [negb] in Hrun; [|discriminate Hrun].
  apply obind_inv in Hrun as (o & Ho & Hrun). apply obind_inv in Hrun as (x & Hx & Hrun).
  destruct (get_sig_alg o x) as [[[md_alg pk_alg] opts]|] eqn:Eg; [|discriminate Hrun].
  destruct (parse_subpubkey key) as [ctx|] eqn:Ek; [|discriminate Hrun].
  apply obind_inv in Hrun as ([[rc p2] len] & Hb & Hrun). destruct (Z.eqb_spec rc 0) as [->|_]; cbn [negb] in Hrun; [|discriminate Hrun].
  destruct (negb (md_known md_alg)); [discriminate Hrun|]. destruct (md_hash md_alg data) as [h|] eqn:Eh; [|discriminate Hrun].
  apply obind_inv in Hrun as (s & Hs & Hrun). injection Hrun as Hv.
  destruct (Z.eqb_spec (pk_verify_ext pk_alg opts ctx md_alg h s) 0) as [Hz|_]; [|discriminate Hv].
  exists md_alg, pk_alg, opts, ctx, h, s. split; [by exists p, oid, params, o, x|]. split; [done|]. split; [by exists p2, len|]. done.
Qed.

(** What the certificate is signed with. *)
Definition key_of d (pk : auth_param_type_desc) a b c : Prop :=
  match id_parent d with
  | None => root_signed (secure_data (a_io a)) b c
  | Some p => exists key, kept_param p pk a key /\ signed b c key
  end.

Lemma signature_key_inv pk d a r a' : rotpk_ok a -> signature_key pk d a = Done (r, a') ->
  a_crt a' = a_crt a /\ bufs a' = bufs a /\
  match id_parent d with
  | None => r = Some (root_der (secure_data (a_io a)), ROTPK_IS_HASH)
  | Some p => forall k, r = Some k -> snd k = 0 /\ kept_param p pk a (fst k)
  end.
Proof.
  intros Hok. unfold signature_key. destruct (id_parent d) as [p|].
  - intros Hrun. inv_bind Hrun k a1 E. injection Hrun as <- <-. apply parent_param_inv in E as [-> E].
    split; [done|]. split; [done|]. intros k0 Hk. destruct k; [|done]. injection Hk as <-. split; [done|]. by apply E.
  - intros Hrun. inv_bind Hrun k a1 E. injection Hrun as <- <-.
    destruct (rotpk_run a Hok) as (buf & Hr & _). rewrite Hr in E. by injection E as <- <-.
Qed.

(** The next part of the certificate is there: else the answer is not 0. *)
Ltac next_param H x a1 Hx :=
  let E := fresh in inv_bind H x a1 E; apply param_inv in E as [-> Hx]; destruct x as [x|?]; [|injection H as -> _; by destruct Hx].

Lemma signature_inv d pk ctr params b a a' :
  cert_desc d pk ctr params -> rotpk_ok a -> parsed b (a_crt a) -> bytes b -> Z.of_nat (length b) < 2 ^ 32 ->
  auth_signature pk sig sig_alg_desc raw_data d b a = Done (0, a') ->
  a_crt a' = a_crt a /\ bufs a' = bufs a /\ key_of d pk a b (a_crt a).
Proof.
  intros Hd Hok Hp Hb Hlen. unfold auth_signature. rewrite (cd_type _ _ _ _ Hd). intros Hrun.
  next_param Hrun data a1 Hdata. next_param Hrun sg a1 Hsg. next_param Hrun alg a1 Halg.
  inv_bind Hrun k a2 E. apply (signature_key_inv pk d a k a2 Hok) in E as (Hcrt & Hbufs & Hk). unfold key_of.
  assert (forall key, verify_signature data sg alg key = Done CRYPTO_SUCCESS -> signed b (a_crt a) key) as Hsigned
    by (intros key Hv; exists data, sg, alg; by pose proof (signature_valid data sg alg key Hv)).
  destruct (id_parent d) as [p|] eqn:Epar.
  - destruct k as [[key fl]|]; [|discriminate Hrun].
    destruct (Hk _ eq_refl) as [Hfl Hvk]. cbn [fst snd] in Hfl, Hvk. subst fl.
    change (negb (Z.land 0 (Z.lor ROTPK_IS_HASH ROTPK_NOT_DEPLOYED) =? 0)) with false in Hrun. cbv iota in Hrun.
    apply outcome_inv in Hrun as [Hv ->]. split; [done|]. split; [done|]. exists key.
    split; [exact Hvk|by apply Hsigned].
  - subst k. change (negb (Z.land ROTPK_IS_HASH (Z.lor ROTPK_IS_HASH ROTPK_NOT_DEPLOYED) =? 0)) with true in Hrun. cbv iota in Hrun.
    rewrite (cd_root _ _ _ _ Hd Epar) in Hrun. next_param Hrun key a3 Hkey. rewrite Hcrt in Hkey.
    inv_bind Hrun rc a3 E. apply outcome_inv in E as [Hv ->]. destruct (Z.eqb_spec rc 0) as [->|Hn]; cbn [negb] in Hrun; [|by injection Hrun as ->].
    change (negb (Z.land ROTPK_IS_HASH ROTPK_NOT_DEPLOYED =? 0)) with false in Hrun. cbv iota in Hrun.
    apply hash_inv in Hrun as [-> Hh]. split; [done|]. split; [done|].
    exists key. split; [done|]. split; [by apply Hsigned|]. by apply (root_digest a2 b (a_crt a)).
Qed.

(** What a buffer holds after the copying: what it held, or what the
    certificate vouches for. *)
Definition renewed d b c a a' : Prop := forall k,
  bufs a' k = bufs a k \/ exists x, hands_on d x /\ ap_ptr x = k /\ vouches b c (ap_type x) (bufs a' k).

(** [keep_params] copies parameters, and all of them when it answers 0. *)
Lemma keep_params_inv l d b : id_type d = IMG_CERT -> NoDup (ap_ptr <$> l) -> forall a rc a',
  keep_params l d b a = Done (rc, a') ->
  a_crt a' = a_crt a /\
  (forall k, bufs a' k = bufs a k \/ exists x, x ∈ l /\ ap_ptr x = k /\ vouches b (a_crt a) (ap_type x) (bufs a' k)) /\
  (rc = 0 -> forall x, x ∈ l -> vouches b (a_crt a) (ap_type x) (bufs a' (ap_ptr x))).
Proof.
  intros Ht. induction l as [|x l IH]; intros Hnd a rc0 a' Hrun; cbn [keep_params] in Hrun.
  { injection Hrun as <- <-. split; [done|]. split; [by left|]. intros _ x []%not_elem_of_nil. }
  cbn [fmap list_fmap] in Hnd. apply NoDup_cons in Hnd as [Hx Hnd]. rewrite Ht in Hrun.
  inv_bind Hrun r a1 E. destruct r as [[rc p] len]. apply get_param_inv in E as [-> E].
  destruct (Z.eqb_spec rc 0) as [->|Hn]; cbn [negb] in Hrun; [|injection Hrun as <- <-; by split; [|split; [by left|]]].
  destruct (ap_len x <? len); [injection Hrun as <- <-; by split; [|split; [by left|]]|].
  inv_bind Hrun v a1 Ev. apply outcome_inv in Ev as [Ev ->].
  unfold bind at 1, modify at 1 in Hrun. apply (IH Hnd) in Hrun as (Hcrt & Hor & Hnew). cbn [a_crt set_buf] in Hor, Hnew.
  assert (vouches b (a_crt a) (ap_type x) (splice (bufs a (ap_ptr x)) 0 v)) as Hv.
  { exists v, (bufs a (ap_ptr x)). split; [|done]. by exists p, len. }
  split; [done|]. split.
  - intros k. destruct (Hor k) as [E2|(y & Hy & Hk & Hvy)]; [|right; exists y; by split; [right|]].
    cbn [bufs set_buf] in E2. destruct (decide (k = ap_ptr x)) as [->|]; [|by left].
    right. exists x. split; [by left|]. split; [done|]. by rewrite E2.
  - intros Hrc y [->|Hy]%elem_of_cons; [|by apply Hnew]. destruct (Hor (ap_ptr x)) as [E2|(y & Hy & Hk & _)].
    + cbn [bufs set_buf] in E2. rewrite decide_True in E2 by done. by rewrite E2.
    + destruct Hx. rewrite <- Hk. by apply list_elem_of_fmap_2.
Qed.

(** The methods leave the buffers alone. *)
Definition same_bufs a a' : Prop := bufs a' = bufs a.

#[export] Instance same_bufs_preorder : PreOrder same_bufs.
Proof. split; [done|]. intros a1 a2 a3. unfold same_bufs. congruence. Qed.

Lemma lift_bufs {A} (m : M io_st A) : leaves same_bufs (on_io m).
Proof. by apply leaves_lift. Qed.

Lemma rotpk_bufs : leaves same_bufs plat_get_rotpk_info.
Proof. intros a r a' Hrun. unfold plat_get_rotpk_info, act in Hrun. by injection Hrun as _ <-. Qed.

#[local] Hint Resolve lift_bufs rotpk_bufs : leaves.

Lemma auth_by_bufs m d b : leaves same_bufs (auth_by m d b).
Proof.
  destruct m; cbn [auth_by]; [unfold auth_hash|unfold auth_signature, signature_key|unfold auth_nvctr];
    unfold auth_param_bytes, auth_get_param, img_parser_get_auth_param, crypto_mod_verify_hash, crypto_mod_verify_signature; leaves.
Qed.
#[local] Hint Resolve auth_by_bufs : leaves.

Lemma auth_methods_bufs l d b : leaves same_bufs (auth_methods l d b).
Proof. induction l; cbn [auth_methods]; leaves. Qed.

(** ** [auth_mod_verify_img] *)

(** The flags of the other images stay, and all of them on an error. *)
Record verify_frame (id : Z) (rc : Z) a a' : Prop := {
  vf_io : a_io a' = a_io a;
  vf_base : image_hash_base a' = image_hash_base a;
  vf_flags : forall x, x <> id \/ rc <> 0 -> auth_img_flags a' x = auth_img_flags a x;
  vf_rotpk : rotpk_ok a -> rotpk_ok a'
}.

Lemma frame_verify id rc a a' : frame a a' -> verify_frame id rc a a'.
Proof. intros []. by split. Qed.

Lemma verify_img_frame id d b a rc a' : cot_desc id = Some d -> img_id d = id ->
  auth_mod_verify_img id b a = Done (rc, a') -> verify_frame id rc a a'.
Proof.
  intros Hd Hid. unfold auth_mod_verify_img. rewrite Hd. cbn [checked]. unfold bind at 1, ret at 1.
  intros Hrun. inv_bind Hrun rc1 a1 E1. apply integrity_frame in E1.
  destruct (negb (rc1 =? 0)); [injection Hrun as <- <-; by apply frame_verify|].
  inv_bind Hrun rc2 a2 E2. apply auth_methods_frame in E2. assert (frame a a2) as Ha2 by by etrans.
  destruct (negb (rc2 =? 0)); [injection Hrun as <- <-; by apply frame_verify|].
  inv_bind Hrun rc3 a3 E3. assert (frame a a3) as Ha3.
  { etrans; [exact Ha2|]. destruct (authenticated_data d); [by apply keep_params_frame in E3|by injection E3 as _ <-]. }
  destruct (negb (rc3 =? 0)); [injection Hrun as <- <-; by apply frame_verify|].
  unfold bind, modify, ret in Hrun. injection Hrun as <- <-. destruct Ha3 as [Hio Hb Hf Hr].
  split; [done..| |done]. intros x [Hx|]; [|done]. cbn [auth_img_flags set_flag]. rewrite Hid, (proj2 (Z.eqb_neq x id)) by done. apply Hf.
Qed.

Lemma nvctr_same ctr d b a r a' : id_type d = IMG_CERT -> auth_nvctr ctr d b a = Done (r, a') -> a' = a.
Proof.
  intros Ht. unfold auth_nvctr. rewrite Ht. intros Hrun. inv_bind Hrun q a1 E. destruct q as [[rc p] len]. apply get_param_inv in E as [-> _].
  destruct (negb (rc =? 0)); [by injection Hrun as _ <-|]. inv_bind Hrun v a1 E. apply outcome_inv in E as [_ ->].
  destruct v as [v|]; [|by injection Hrun as _ <-]. cbn [plat_get_nv_ctr] in Hrun.
  repeat case_match; by injection Hrun as _ <-.
Qed.

Lemma holds_ext d b c a a' : bufs a' = bufs a -> holds d b c a -> holds d b c a'.
Proof. unfold holds. by intros ->. Qed.

(** What becomes of a certificate: nothing is kept of it, or its signature is
    right. *)
Lemma verify_cert_inv id d pk ctr params b a rc a' : cot_desc id = Some d -> cert_desc d pk ctr params -> rotpk_ok a ->
  bytes b -> Z.of_nat (length b) < 2 ^ 32 ->
  auth_mod_verify_img id b a = Done (rc, a') ->
  (rc <> 0 /\ bufs a' = bufs a) \/
  exists c, parsed b c /\ key_of d pk a b c /\ renewed d b c a a' /\ (rc = 0 -> holds d b c a').
Proof.
  intros Hd Hdesc Hok Hb Hlen. unfold auth_mod_verify_img. rewrite Hd. cbn [checked]. unfold bind at 1, ret at 1.
  rewrite (cd_type _ _ _ _ Hdesc), (cd_methods _ _ _ _ Hdesc), (cd_params _ _ _ _ Hdesc).
  intros Hrun. inv_bind Hrun rc0 a1 E. cbn [img_parser_check_integrity] in E. apply lift_inv in E as (c & Hint & ->).
  destruct (Z.eqb_spec rc0 0) as [->|Hn]; cbn [negb] in Hrun; [|injection Hrun as <- <-; by left].
  assert (parsed b c) as Hp by by eexists. set (a1 := set_crt c a) in *.
  inv_bind Hrun rc1 a2 E. pose proof (auth_methods_bufs _ _ _ _ _ _ E) as Hbufs. unfold same_bufs in Hbufs.
  destruct (Z.eqb_spec rc1 0) as [->|Hn]; cbn [negb] in Hrun; [|injection Hrun as <- <-; by left].
  unfold by_signature in E. cbn [auth_methods auth_by] in E. inv_bind E rc2 a3 Es.
  destruct (Z.eqb_spec rc2 0) as [->|Hn]; cbn [negb] in E; [|destruct Hn; by injection E].
  apply (signature_inv d pk ctr params b a1 a3 Hdesc Hok Hp Hb Hlen) in Es as (Hcrt & _ & Hkey).
  inv_bind E rc4 a4 En. apply nvctr_same in En as ->; [|by apply Hdesc].
  destruct (Z.eqb_spec rc4 0) as [Hz|Hn]; cbn [negb] in E; [clear Hz|destruct Hn; by injection E]. injection E as <-.
  right. exists c. split; [exact Hp|]. split; [exact Hkey|].
  inv_bind Hrun rc5 a4 Ek. apply keep_params_inv in Ek as (_ & Hor & Hnew); [|by apply Hdesc..]. rewrite Hcrt in Hor, Hnew.
  assert (bufs a' = bufs a4 /\ (rc = 0 -> rc5 = 0)) as [Hb' Hrc].
  { destruct (Z.eqb_spec rc5 0) as [->|Hn]; cbn [negb] in Hrun; unfold bind, modify, ret in Hrun; by injection Hrun as <- <-. }
  split.
  - intros k. rewrite Hb'. destruct (Hor k) as [->|(x & Hx & Hk & Hv)]; [left; by rewrite Hbufs|]. right. exists x.
    split; [exists params; by split; [apply Hdesc|]|done].
  - intros Hz x (l & Hl & Hx). rewrite (cd_params _ _ _ _ Hdesc) in Hl. injection Hl as <-. rewrite Hb'. by apply Hnew; [apply Hrc|].
Qed.

(** An accepted certificate is trusted when its parent is. *)
Lemma verify_cert id d pk ctr params b a a' : cot_desc id = Some d -> cert_desc d pk ctr params -> rotpk_ok a ->
  bytes b -> Z.of_nat (length b) < 2 ^ 32 ->
  (forall p, id_parent d = Some p -> exists bp cp, trusted (secure_data (a_io a)) p bp cp /\ holds p bp cp a) ->
  auth_mod_verify_img id b a = Done (0, a') ->
  exists c, trusted (secure_data (a_io a)) d b c /\ holds d b c a'.
Proof.
  intros Hd Hdesc Hok Hb Hlen Hpar Hrun.
  destruct (verify_cert_inv id d pk ctr params b a 0 a' Hd Hdesc Hok Hb Hlen Hrun) as [[? _]|(c & Hp & Hkey & _ & Hh)]; [done|].
  exists c. split; [|by apply Hh]. unfold key_of in Hkey. destruct (id_parent d) as [p|] eqn:Ep; [|by eapply trusted_root].
  destruct (Hpar p eq_refl) as (bp & cp & Htr & Hhp). destruct Hkey as (key & Hv & Hs).
  eapply trusted_child; [done..| |done|done]. exact (kept_holds p pk bp cp a key Hhp Hv).
Qed.

(** A plain image: the content certificate vouches for its digest. *)
Record image_desc d (p : auth_img_desc) (h : auth_param_type_desc) : Prop := {
  im_type : id_type d = IMG_RAW;
  im_parent : id_parent d = Some p;
  im_methods : img_auth_methods d = by_hash h;
  im_params : authenticated_data d = None
}.

Lemma verify_raw id d p h b a a' : cot_desc id = Some d -> image_desc d p h ->
  auth_mod_verify_img id b a = Done (0, a') -> exists der, kept_param p h a der /\ hash_ok a b der.
Proof.
  intros Hd Hdesc. unfold auth_mod_verify_img. rewrite Hd. cbn [checked]. unfold bind at 1, ret at 1.
  rewrite (im_type _ _ _ Hdesc), (im_methods _ _ _ Hdesc), (im_params _ _ _ Hdesc). cbn [img_parser_check_integrity].
  unfold bind at 1, ret at 1. change (IMG_PARSER_OK =? 0) with true. cbn [negb]. unfold by_hash. cbn [auth_methods auth_by].
  intros Hrun. inv_bind Hrun rc a1 E. destruct (Z.eqb_spec rc 0) as [->|Hn]; cbn [negb] in Hrun; [|by injection Hrun as ->].
  inv_bind E rc a2 E2. destruct (Z.eqb_spec rc 0) as [->|Hn]; cbn [negb] in E; [|destruct Hn; by injection E]. clear E Hrun.
  unfold auth_hash in E2. rewrite (im_parent _ _ _ Hdesc), (im_type _ _ _ Hdesc) in E2. inv_bind E2 q a3 Eqp.
  apply parent_param_inv in Eqp as [-> Hv]. destruct q as [der|]; [|discriminate E2].
  exists der. split; [by apply Hv|]. inv_bind E2 x a3 Ex. apply raw_inv in Ex as [-> ->]. by apply hash_inv in E2 as [_ E2].
Qed.

Lemma verify_raw_bufs id d p h b a rc a' : cot_desc id = Some d -> image_desc d p h ->
  auth_mod_verify_img id b a = Done (rc, a') -> bufs a' = bufs a.
Proof.
  intros Hd Hdesc. unfold auth_mod_verify_img. rewrite Hd. cbn [checked]. unfold bind at 1, ret at 1.
  rewrite (im_type _ _ _ Hdesc), (im_params _ _ _ Hdesc). cbn [img_parser_check_integrity].
  unfold bind at 1, ret at 1. change (IMG_PARSER_OK =? 0) with true. cbn [negb].
  intros Hrun. inv_bind Hrun rc1 a1 E. apply auth_methods_bufs in E. unfold same_bufs in E. rewrite <- E.
  destruct (negb (rc1 =? 0)); [by injection Hrun as _ <-|]. unfold bind, ret, modify in Hrun. by injection Hrun as _ <-.
Qed.

(** ** The table *)

Ltac describe :=
  first [do 3 eexists; split; [reflexivity|reflexivity|reflexivity|refine (bool_decide_unpack _ _); vm_compute; exact I|
           intros E; first [discriminate E|reflexivity]]
        |do 2 eexists; split; reflexivity].

Lemma cot_shape id d : cot_desc id = Some d -> img_id d = id /\
  ((exists pk ctr params, cert_desc d pk ctr params) \/ (exists p h, image_desc d p h)) /\
  forall p, id_parent d = Some p -> cot_desc (img_id p) = Some p /\ exists pk ctr params, cert_desc p pk ctr params.
Proof.
  unfold cot_desc.
  repeat match goal with |- (if ?x =? ?y then _ else _) = _ -> _ => destruct (Z.eqb_spec x y) as [->|_] end; try done.
  all: try (destruct (_ && _) eqn:Eb; [apply andb_prop in Eb as [->%Z.eqb_eq _]|]).
  all: repeat match goal with |- (if ?x =? ?y then _ else _) = _ -> _ => destruct (Z.eqb_spec x y) as [->|_] end; try done.
  all: intros [= <-]; split; [reflexivity|]; split; [first [left; by describe | right; by describe]|].
  all: intros p Hp; first [discriminate Hp|injection Hp as <-; split; [reflexivity|by describe]].
Qed.
End auth.
