(* ===== verification/AtfTrust.v ===== *)
(** Authenticated loading: an image that [load_auth_image] accepts is vouched
    for by a chain of certificates that ends at the key of the fuses. *)

From stdpp Require Import base numbers list option strings.
From Stdlib Require Import ZArith Lia.
From S2P Require Import Prelude Fip Ram AtfIo AtfPlat AtfIoBase AtfIoFip AtfLoad AtfLoadProps AtfProps AtfCert AtfCot AtfAuth AtfChain AtfSip.

Section trust.
Context `{Board} `{Gcm} `{CotSizes} `{Crypto} (toc_fuel : nat).
Implicit Types (a : auth_st) (i : image_info) (d : auth_img_desc).

(** GCM makes bytes of bytes, as many of them. *)
Definition gcm_bytes : Prop := forall (ctx : gcm_ctx) l, bytes l ->
  bytes (snd (fst (gcm_update ctx l))) /\ length (snd (fst (gcm_update ctx l))) = length l.
Context (Hgcm : gcm_bytes).

Definition ram_ok (s : io_st) : Prop := forall x, is_u8 (mem s x).

(** ** What a load keeps *)

(** The size may change, to another one of 32 bits. *)
Record sized i i' : Prop := {
  sz_base : image_base i' = image_base i;
  sz_max : image_max_size i' = image_max_size i;
  sz_size : is_u32 (image_size i) -> is_u32 (image_size i')
}.

#[export] Instance sized_preorder : PreOrder sized.
Proof. split; [by split|]. intros i1 i2 i3 [] []. split; [congruence..|naive_solver]. Qed.

Lemma sized_set i v : is_u32 v -> sized i (set_image_size v i).
Proof. by split. Qed.

Definition as_many (l out : list Z) : Prop := bytes out /\ length out = length l.

Lemma gcm_loop_bytes fuel : forall ctx l, bytes l -> as_many l (snd (gcm_loop fuel ctx l)).
Proof.
  induction fuel as [|fuel IH]; intros ctx [|x l] Hl; cbn [gcm_loop]; try by split.
  pose proof (Hgcm ctx (take DEC_OP_BUF_SIZE (x :: l))) as Hg. destruct (gcm_update _ _) as [[rc out] ctx'].
  destruct (negb _); [by split|]. specialize (IH ctx' (drop DEC_OP_BUF_SIZE (x :: l))).
  destruct (gcm_loop _ _ _) as [[rc' ctx''] rest]. destruct Hg as [Hg Hgl]; [by apply Forall_take|]. destruct IH as [Hr Hrl]; [by apply Forall_drop|].
  split; [by apply Forall_app|]. cbn [fst snd] in *. rewrite length_app, Hgl, Hrl, length_take, length_drop. lia.
Qed.

Lemma decrypt_bytes algo l key iv tag : bytes l -> as_many l (snd (crypto_mod_auth_decrypt algo l key iv tag)).
Proof.
  intros Hl. unfold crypto_mod_auth_decrypt, aes_gcm_decrypt. destruct (_ =? _); [|by split].
  destruct (gcm_setkey key) as [rc ctx]. destruct (negb _); [by split|]. destruct (gcm_starts ctx iv) as [rc2 ctx2]. destruct (negb _); [by split|].
  pose proof (gcm_loop_bytes (length l) ctx2 l Hl) as Hb. destruct (gcm_loop _ _ _) as [[rc3 ctx3] out]. destruct (negb _); [done|].
  destruct (gcm_finish _ _) as [rc4 tg]. by repeat destruct (negb _).
Qed.

(** The memory outside of the place for an image is the same. *)
Definition outside i (m m' : ram_t) : Prop := forall x, x < image_base i \/ image_base i + image_max_size i <= x -> m' x = m x.

Lemma outside_store i m m' l : outside i m m' -> Z.of_nat (length l) <= image_max_size i -> outside i m (ram_store m' (image_base i) l).
Proof. intros Hm Hl x Hx. rewrite ram_store_outside by lia. by apply Hm. Qed.

(** What fits into the place. *)
Definition fits i : Prop := 0 <= image_max_size i /\ image_size i <= image_max_size i.

(** What one load leaves of the size and the memory. *)
Record loaded (s : io_st) (id : Z) i i' (m : ram_t) : Prop := {
  ld_sized : sized i i';
  ld_ram : ram_ok s -> forall x, is_u8 (m x);
  ld_positive : ram_ok s -> by_digest id i = false -> is_u32 (image_max_size i) -> 0 < image_size i -> 0 < image_size i';
  ld_digest : by_digest id i = true -> image_size i' = 0;
  ld_fits : ram_ok s -> fits i -> fits i';
  ld_outside : ram_ok s -> outside i (mem s) m
}.

Lemma loaded_same s id i : by_digest id i = false -> loaded s id i i (mem s).
Proof. intros Hd. split; [done..|by rewrite Hd|done|done]. Qed.

Lemma loaded_new s id i n m : by_digest id i = false -> (ram_ok s -> forall x, is_u8 (m x)) ->
  (ram_ok s -> 0 <= n) -> (n =? 0) = false -> (image_max_size i <? n) = false -> (ram_ok s -> outside i (mem s) m) ->
  loaded s id i (set_image_size (u32 n) i) m.
Proof.
  intros Hd Hm Hn H0n Hmax Hout. apply Z.eqb_neq in H0n. apply Z.ltb_ge in Hmax.
  split; [by apply sized_set, u32_is|done| |by rewrite Hd| |done].
  - intros Hok _ Hu _. specialize (Hn Hok). unfold is_u32 in Hu. simpl. unfold u32. rewrite Z.mod_small by lia. lia.
  - intros Hok [Hz _]. specialize (Hn Hok). split; [done|]. simpl. unfold u32. pose proof (Z.mod_le n (2 ^ 32)). lia.
Qed.

(** The fields of an entry are numbers of 64 bits. *)
Lemma entry_size_nonneg fuel rs r base uuid : (forall x, is_u8 (r x)) -> forall pos e b p,
  toc_scan rs r base uuid fuel pos = Done (e, b, p) -> 0 <= te_size e.
Proof.
  intros Hr. induction fuel as [|fuel IH]; intros pos e b p; cbn [toc_scan]; [done|]. destruct (mappedb _ _ _ _); [|done].
  assert (0 <= te_size (entry_of_bytes (ram_bytes r (u64 (base + pos)) sizeof_toc_entry))).
  { unfold entry_of_bytes. cbn [te_size]. apply le_val_bound. apply Forall_take, Forall_drop, ram_bytes_bytes. done. }
  do 2 (case_bool_decide; [by intros [= <- <- <-]|]). apply IH.
Qed.

Lemma find_entry_size s uuid e : ram_ok s -> find_entry toc_fuel s uuid = Done (Some e) -> 0 <= te_size e.
Proof. intros Hr (_ & _ & p & Hs)%find_entry_found. by eapply entry_size_nonneg. Qed.

Lemma load_outcome_loaded s id i rc i' m : load_outcome toc_fuel s id i = Done ((rc, i'), m) -> loaded s id i i' m.
Proof.
  unfold load_outcome. destruct (by_digest id i) eqn:Hd.
  { intros [= _ <- <-]. split; [by apply sized_set|done|by rewrite Hd|done|by intros _ []|done]. }
  destruct (image_uuid id) as [uuid|]; [|done]. unfold load_spec.
  destruct (find_entry toc_fuel s uuid) as [[e|]| |] eqn:Ef; [|intros [= _ <- <-]; by apply loaded_same|done..].
  pose proof (fun H => find_entry_size s uuid e H Ef) as Hsize.
  assert (forall p n, ram_ok s -> bytes (mm_data s p n)) as Hdata by (intros; by apply ram_bytes_bytes).
  destruct (encrypted e).
  - unfold load_encrypted, load_payload. destruct (Z.ltb_spec (te_size e) sizeof_fw_enc_hdr); [intros [= _ <- <-]; by apply loaded_same|].
    pose proof (size_check_cases i (te_size e - sizeof_fw_enc_hdr)) as Hsz.
    assert (forall m, (ram_ok s -> forall x, is_u8 (m x)) -> size_check i (te_size e - sizeof_fw_enc_hdr) = None -> (ram_ok s -> outside i (mem s) m) ->
      loaded s id i (set_image_size (u32 (te_size e - sizeof_fw_enc_hdr)) i) m) as Hnew.
    { intros m' Hm' Hnone Hout. rewrite Hnone in Hsz. apply loaded_new; [done|done|lia|apply Hsz..|done]. }
    destruct (size_check _ _) as [r|]; [intros [= -> <-]; destruct Hsz as [[_ [= _ ->]]|(_ & _ & [= _ ->])]; by apply loaded_same|].
    destruct (mm_readable _ _ _); [|done]. destruct (_ || _); [intros [= _ <- <-]; by apply Hnew|].
    destruct (mm_movable _ _ _ _); [|done].
    match goal with |- context [crypto_mod_auth_decrypt ?al ?l ?k ?iv ?t] => pose proof (decrypt_bytes al l k iv t) as Hb; destruct (crypto_mod_auth_decrypt al l k iv t) as [rc0 out] end.
    destruct (mappedb _ _ _ _); [|done]. intros [= _ <- <-]. destruct Hsz as [_ Hmax%Z.ltb_ge].
    assert (ram_ok s -> as_many (mm_data s (u64 (te_offset_address e + sizeof_fw_enc_hdr)) (te_size e - sizeof_fw_enc_hdr)) out) as Hout by (intros Hok; by apply Hb, Hdata).
    apply Hnew; [|done|].
    + intros Hok. apply ram_store_bytes; [by apply ram_store_bytes; [|apply Hdata]|by apply Hout].
    + intros Hok. destruct (Hout Hok) as [_ Hlen]. repeat apply outside_store; [done|..]; rewrite ?Hlen; unfold mm_data; rewrite ram_bytes_len; lia.
  - unfold load_plain. pose proof (size_check_cases i (te_size e)) as Hsz.
    destruct (size_check _ _) as [r|]; [intros [= -> <-]; destruct Hsz as [[_ [= _ ->]]|(_ & _ & [= _ ->])]; by apply loaded_same|].
    destruct (mm_movable _ _ _ _); [|done]. intros [= _ <- <-]. apply loaded_new; [done| |done|apply Hsz..|].
    + intros Hok. by apply ram_store_bytes; [|apply Hdata].
    + intros Hok. destruct Hsz as [_ Hmax%Z.ltb_ge]. specialize (Hsize Hok). apply outside_store; [done|]. unfold mm_data. rewrite ram_bytes_len. lia.
Qed.

Lemma load_image_kept s id i rc i' s' :
  idle s -> ready s -> is_image id = true -> load_image toc_fuel id i s = Done ((rc, i'), s') ->
  idle s' /\ same s s' /\ loaded s id i i' (mem s').
Proof.
  intros Hid Hrd Him Hrun. pose proof (load_image_meets toc_fuel s id i Hid Hrd Him) as Hm. unfold refines, meets in Hm. rewrite Hrun in Hm.
  destruct (load_outcome toc_fuel s id i) as [[[rc0 i0] m]| |] eqn:Eo; [|done..].
  destruct Hm as (s1 & [= <- <- <-] & ? & ? & ->). split; [done|]. split; [done|]. by eapply load_outcome_loaded.
Qed.

Lemma cot_is_image id d : cot_desc id = Some d -> is_image id = true.
Proof.
  intros Hd. unfold is_image. destruct (Z.eqb_spec id FIP_IMAGE_ID) as [->|_]; [done|].
  by destruct (Z.eqb_spec id ENC_IMAGE_ID) as [->|_].
Qed.

(** ** States between the calls *)

Record settled a : Prop := {
  st_idle : idle (a_io a);
  st_ready : ready (a_io a);
  st_rotpk : rotpk_ok a;
  st_ram : ram_ok (a_io a)
}.

(** No image is marked as authenticated. *)
Definition clear a : Prop := forall x, Z.land (auth_img_flags a x) IMG_FLAG_AUTHENTICATED = 0.

Record moved a a' : Prop := {
  mv_settled : settled a';
  mv_same : same (a_io a) (a_io a');
  mv_base : image_hash_base a' = image_hash_base a;
  mv_clear : IMAGE_BL31 = true -> clear a -> clear a'
}.

Lemma moved_refl a : settled a -> moved a a.
Proof. by split. Qed.

Lemma moved_trans a1 a2 a3 : moved a1 a2 -> moved a2 a3 -> moved a1 a3.
Proof. intros [] []. split; [done|by etrans|congruence|naive_solver]. Qed.

(** The size after the load of one image. *)
Record resized (id : Z) i i' : Prop := {
  rs_sized : sized i i';
  rs_positive : by_digest id i = false -> is_u32 (image_max_size i) -> 0 < image_size i -> 0 < image_size i';
  rs_digest : by_digest id i = true -> image_size i' = 0
}.

(** The image is in its place, and nothing else in memory has changed. *)
Record placed i i' (m m' : ram_t) : Prop := {
  pl_fits : fits i -> fits i';
  pl_outside : fits i -> outside i m m'
}.

Lemma placed_refl i m : placed i i m m.
Proof. by split. Qed.

Lemma placed_trans i1 i2 i3 m1 m2 m3 : sized i1 i2 -> placed i1 i2 m1 m2 -> placed i2 i3 m2 m3 -> placed i1 i3 m1 m3.
Proof.
  intros Hs [Hf1 Ho1] [Hf2 Ho2]. split; [by intros Hf; apply Hf2, Hf1|]. intros Hf x Hx. rewrite (Ho2 (Hf1 Hf)); [by apply Ho1|].
  by rewrite (sz_base _ _ Hs), (sz_max _ _ Hs).
Qed.

Lemma auth_load_inv id d i a rc i' a' : cot_desc id = Some d -> settled a ->
  auth_load_image toc_fuel id i a = Done ((rc, i'), a') ->
  moved a a' /\ resized id i i' /\ placed i i' (mem (a_io a)) (mem (a_io a')) /\ bufs a' = bufs a /\ auth_img_flags a' = auth_img_flags a.
Proof.
  intros Hd [Hid Hrd Hok Hram] (s & Hrun & ->)%lift_inv.
  destruct (load_image_kept _ _ _ _ _ _ Hid Hrd (cot_is_image id d Hd) Hrun) as (Hid' & Hs & [Hsz Hr Hp Hdig Hfits Hout]).
  split; [|split; [by split; [|apply Hp|]|split; [by split; [apply Hfits|intros _; apply Hout]|done]]]. split; [|done|done|done]. split; [done|by eapply same_ready| |exact (Hr Hram)].
  destruct Hok as (Hl1 & Hl2 & Hl3). unfold rotpk_ok. cbn [a_io ecnt_rotpk_hash set_io]. by rewrite (same_fuses _ _ Hs).
Qed.

Lemma land_clear x : Z.land (Z.land x (Z.lnot IMG_FLAG_AUTHENTICATED)) IMG_FLAG_AUTHENTICATED = 0.
Proof. rewrite <- Z.land_assoc. change (Z.land (Z.lnot IMG_FLAG_AUTHENTICATED) IMG_FLAG_AUTHENTICATED) with 0. apply Z.land_0_r. Qed.

(** The flag of the image is cleared again in the runtime firmware. *)
Definition unmarked (id : Z) a : auth_st :=
  if IMAGE_BL31 then set_flag id (Z.land (auth_img_flags a id) (Z.lnot IMG_FLAG_AUTHENTICATED)) a else a.

Lemma unmarked_same id a : a_io (unmarked id a) = a_io a /\ bufs (unmarked id a) = bufs a /\ image_hash_base (unmarked id a) = image_hash_base a.
Proof. unfold unmarked. by destruct IMAGE_BL31. Qed.

Lemma verify_moved id d b a rc a' : cot_desc id = Some d -> settled a -> auth_mod_verify_img id b a = Done (rc, a') ->
  moved a (unmarked id a').
Proof.
  intros Hd [Hid Hrd Hok Hram] Hrun. destruct (cot_shape id d Hd) as [Himg _].
  destruct (verify_img_frame id d b a rc a' Hd Himg Hrun) as [Hio Hb Hf Hr].
  assert (rotpk_ok (unmarked id a')) as Hok' by (unfold unmarked; destruct IMAGE_BL31; by apply Hr).
  assert (a_io (unmarked id a') = a_io a) as Hio' by (unfold unmarked; by destruct IMAGE_BL31).
  assert (image_hash_base (unmarked id a') = image_hash_base a) as Hb' by (unfold unmarked; by destruct IMAGE_BL31).
  split; [|by rewrite Hio'|done|].
  - split; [by rewrite Hio'|by rewrite Hio'|done|by rewrite Hio'].
  - intros Hbl Hc x. unfold unmarked. rewrite Hbl. cbn [auth_img_flags set_flag]. destruct (Z.eqb_spec x id) as [->|Hx]; [apply land_clear|].
    rewrite Hf by by left. apply Hc.
Qed.

Lemma store_mem_inv p l (s s' : io_st) u : store_mem p l s = Done (u, s') -> s' = set_mem (ram_store (mem s) p l) s.
Proof. unfold store_mem, bind, gets. cbn [id]. destruct (mappedb _ _ _ _); [|done]. by intros [= _ <-]. Qed.

Lemma store_moved p l a a' u : settled a -> bytes l -> on_io (store_mem p l) a = Done (u, a') -> moved a a'.
Proof.
  intros [Hid Hrd Hok Hram] Hl (s & Hrun & ->)%lift_inv. unfold store_mem, bind, gets in Hrun. cbn [id] in Hrun.
  destruct (mappedb _ _ _ _); [|done]. injection Hrun as _ <-. split; [|done|done|done].
  destruct Hid as [Hr Hm Hf], Hrd. split; [split; [by destruct Hr|done|done]|by split|done|exact (ram_store_bytes _ _ _ Hram Hl)].
Qed.

(** ** One image *)

(** The image in memory that was verified. *)
Definition image_bytes a i : list Z := ram_bytes (mem (a_io a)) (image_base i) (image_size i).

Lemma unmark_run id a u a' :
  (if IMAGE_BL31 then modify (fun a => set_flag id (Z.land (auth_img_flags a id) (Z.lnot IMG_FLAG_AUTHENTICATED)) a) else ret tt) a = Done (u, a') ->
  a' = unmarked id a.
Proof. unfold unmarked. destruct IMAGE_BL31; by intros [= _ <-]. Qed.

(** Buffers and flags are the same. *)
Definition alike a a' : Prop := bufs a' = bufs a /\ auth_img_flags a' = auth_img_flags a.

(** The image was not loaded, or it was verified with the answer [rc']. *)
Lemma load_and_verify_inv id d i a rc i' a' : cot_desc id = Some d -> settled a ->
  load_and_verify toc_fuel id i a = Done ((rc, i'), a') ->
  moved a a' /\ resized id i i' /\ placed i i' (mem (a_io a)) (mem (a_io a')) /\
  ((rc <> 0 /\ alike a a') \/
   exists a1 a2 rc', moved a a1 /\ alike a a1 /\ auth_mod_verify_img id (image_bytes a1 i') a1 = Done (rc', a2) /\
     alike (unmarked id a2) a' /\ (rc = 0 -> rc' = 0 /\ a' = unmarked id a2)).
Proof.
  intros Hd Hst. unfold load_and_verify. intros Hrun. inv_bind Hrun r a1 E. destruct r as [rc1 i1].
  destruct (auth_load_inv id d i a rc1 i1 a1 Hd Hst E) as (Hm1 & Hsz & Hpl & Halike).
  destruct (Z.eqb_spec rc1 0) as [->|Hn]; cbn [negb] in Hrun.
  2: { injection Hrun as <- <- <-. split; [done|]. split; [done|]. split; [done|]. by left. }
  inv_bind Hrun img a2 E2. apply lift_inv in E2 as (t & (-> & ->)%load_mem_same & ->).
  replace (set_io (a_io a1) a1) with a1 in Hrun by by destruct a1.
  inv_bind Hrun rc2 a2 Ev. pose proof (verify_moved id d _ a1 rc2 a2 Hd (mv_settled _ _ Hm1) Ev) as Hm2.
  inv_bind Hrun u a3 Eu. apply unmark_run in Eu as ->. pose proof (moved_trans _ _ _ Hm1 Hm2) as Hm.
  destruct (cot_shape id d Hd) as [Himg _]. pose proof (vf_io _ _ _ _ (verify_img_frame id d _ a1 rc2 a2 Hd Himg Ev)) as Hio.
  destruct (unmarked_same id a2) as (Hio2 & _ & _). assert (mem (a_io (unmarked id a2)) = mem (a_io a1)) as Hmem by by rewrite Hio2, Hio.
  assert (i' = i1 -> alike (unmarked id a2) a' -> (rc = 0 -> rc2 = 0 /\ a' = unmarked id a2) ->
    (rc <> 0 /\ alike a a') \/ exists a1 a2 rc', moved a a1 /\ alike a a1 /\ auth_mod_verify_img id (image_bytes a1 i') a1 = Done (rc', a2) /\
      alike (unmarked id a2) a' /\ (rc = 0 -> rc' = 0 /\ a' = unmarked id a2)) as Hok.
  { intros -> Ha' Hrc. right. by exists a1, a2, rc2. }
  destruct (IMAGE_BL31 && _); [|destruct (Z.eqb_spec rc2 0) as [->|Hn]; cbn [negb] in Hrun].
  - injection Hrun as Hrc <- <-. split; [done|]. split; [done|]. split; [by rewrite Hmem|]. apply Hok; [done..|]. intros ->. split; [|done].
    by destruct (Z.eqb_spec rc2 0).
  - injection Hrun as <- <- <-. split; [done|]. split; [done|]. split; [by rewrite Hmem|]. by apply Hok.
  - inv_bind Hrun u2 a4 Ez. injection Hrun as <- <- <-. pose proof Ez as Ez'. apply lift_inv in Ez' as (t & Et & ->).
    apply store_moved in Ez; [|by apply Hm2|by apply Forall_replicate].
    split; [by eapply moved_trans|]. split; [done|]. split; [|by apply Hok].
    apply store_mem_inv in Et as ->. cbn [a_io set_io mem set_mem]. rewrite Hmem. destruct Hpl as [Hf Ho]. split; [done|].
    intros Hfi. pose proof (Hf Hfi) as [Hmax Hle]. intros x Hx. rewrite ram_store_outside; [by apply Ho|].
    unfold memset. rewrite length_replicate, (sz_base _ _ (rs_sized _ _ _ Hsz)). rewrite (sz_max _ _ (rs_sized _ _ _ Hsz)) in Hmax, Hle. lia.
Qed.

(** ** The chain *)

Lemma parent_id_run id d a : cot_desc id = Some d -> clear a ->
  auth_mod_get_parent_id id a = Done (match id_parent d with Some p => (0, img_id p) | None => (1, 0) end, a).
Proof.
  intros Hd Hc. unfold auth_mod_get_parent_id. rewrite Hd. cbn [checked]. unfold bind, ret, gets.
  destruct (id_parent d) as [p|]; [|done]. by rewrite Hc.
Qed.

(** Only plain images are verified by a digest. *)
Lemma by_digest_ext id i i' : sized i i' -> by_digest id i' = by_digest id i.
Proof. intros []. unfold by_digest. congruence. Qed.

Lemma cert_not_by_digest id d pk ctr params i : cot_desc id = Some d -> cert_desc d pk ctr params -> by_digest id i = false.
Proof.
  intros Hd [Ht _ _ _ _]. unfold by_digest, cot_desc in *. destruct IMAGE_BL31; [|done]. cbn [andb].
  destruct (Z.eqb_spec id BL2_IMAGE_ID) as [->|_]; [by injection Hd as <-|].
  destruct (Z.eqb_spec id BL33_IMAGE_ID) as [->|_]; [by injection Hd as <-|done].
Qed.

Lemma resized_trans id p i1 i2 i3 : by_digest p i1 = false -> resized p i1 i2 -> resized id i2 i3 -> resized id i1 i3.
Proof.
  intros Hp [Hs Hpos _] [Hs' Hpos' Hdig]. pose proof (by_digest_ext id i1 i2 Hs) as E. split; [by etrans| |rewrite <- E; done].
  rewrite <- E. intros Hb Hm Hz. apply Hpos'; [done|by rewrite (sz_max _ _ Hs)|by apply Hpos].
Qed.

(** Whatever it answers, the storage layer is idle again. *)
Lemma recursive_moved depth : forall id d i a rc i' a', cot_desc id = Some d -> settled a ->
  load_auth_image_recursive toc_fuel depth id i a = Done ((rc, i'), a') ->
  moved a a' /\ sized i i' /\ (rc = 0 -> resized id i i') /\ placed i i' (mem (a_io a)) (mem (a_io a')).
Proof.
  induction depth as [|depth IH]; intros id d i a rc i' a' Hd Hst Hrun; [done|]. cbn [load_auth_image_recursive] in Hrun.
  inv_bind Hrun p a1 Ep. inv_bind Hrun r a2 Er. destruct r as [rc1 i1].
  assert (a1 = a /\ forall q, p = (0, q) -> exists d', cot_desc q = Some d' /\ by_digest q i = false) as [-> Hq].
  { unfold auth_mod_get_parent_id in Ep. rewrite Hd in Ep. cbn [checked] in Ep. unfold bind at 1, ret at 1 in Ep.
    destruct (cot_shape id d Hd) as (_ & _ & Hpar). destruct (id_parent d) as [pd|]; [|by injection Ep as <- <-].
    unfold bind, gets in Ep. destruct (negb _); injection Ep as <- <-; [done|]. split; [done|]. intros q [= <-].
    exists pd. destruct (Hpar pd eq_refl) as (Hp & pk & ctr & params & Hc). split; [done|by eapply cert_not_by_digest]. }
  assert (moved a a2 /\ sized i i1 /\ placed i i1 (mem (a_io a)) (mem (a_io a2)) /\
    forall j, rc1 = 0 -> resized id i1 j -> resized id i j) as (Hm & Hsz & Hpl & Hrs).
  { destruct (Z.eqb_spec (fst p) 0) as [E0|_].
    - destruct (Hq (snd p)) as (d' & Hd' & Hdig); [destruct p; by simpl in *; subst|].
      destruct (IH _ _ _ _ _ _ _ Hd' Hst Er) as (Hm & Hs & Hr & Hpl). split; [done|]. split; [done|]. split; [done|].
      intros j H0c. apply resized_trans with (p := snd p); [done|by apply Hr].
    - injection Er as <- <- <-. split; [by apply moved_refl|]. split; [done|]. split; [apply placed_refl|done]. }
  destruct (Z.eqb_spec rc1 0) as [->|Hn]; cbn [negb] in Hrun; [|by injection Hrun as <- <- <-].
  destruct (load_and_verify_inv id d i1 a2 rc i' a' Hd (mv_settled _ _ Hm) Hrun) as (Hm2 & Hr2 & Hpl2 & _).
  split; [by eapply moved_trans|]. split; [etrans; [done|apply Hr2]|]. split; [intros _; by apply Hrs|by eapply placed_trans].
Qed.

Lemma moved_fuses a a' : moved a a' -> secure_data (a_io a') = secure_data (a_io a).
Proof. intros []. by apply same_fuses. Qed.

(** What the state [a] after a successful load proves of the image [d] at
    [i]. *)
Definition cert_accepted (fuses : secure_efuse) a d : Prop :=
  exists b c, trusted fuses d b c /\ holds d b c a.
Definition image_accepted (fuses : secure_efuse) a i (p : auth_img_desc) (h : auth_param_type_desc) : Prop :=
  exists b c der, trusted fuses p b c /\ vouches b c h der /\ hash_ok a (image_bytes a i) der.

Lemma image_bytes_ok a i : ram_ok (a_io a) -> is_u32 (image_size i) ->
  bytes (image_bytes a i) /\ Z.of_nat (length (image_bytes a i)) < 2 ^ 32.
Proof.
  intros Hr Hi. unfold is_u32 in Hi. split; [by apply ram_bytes_bytes|]. unfold image_bytes. rewrite ram_bytes_len. lia.
Qed.

Lemma chain depth : forall id d i a i' a', cot_desc id = Some d -> settled a -> clear a -> is_u32 (image_size i) ->
  load_auth_image_recursive toc_fuel depth id i a = Done ((0, i'), a') ->
  (forall pk ctr params, cert_desc d pk ctr params -> cert_accepted (secure_data (a_io a)) a' d) /\
  (forall p h, image_desc d p h -> image_accepted (secure_data (a_io a)) a' i' p h).
Proof.
  induction depth as [|depth IH]; intros id d i a i' a' Hd Hst Hcl Hi Hrun; [done|]. cbn [load_auth_image_recursive] in Hrun.
  rewrite (bind_run _ _ _ _ _ (parent_id_run id d a Hd Hcl)) in Hrun.
  inv_bind Hrun r a2 Er. destruct r as [rc1 i1].
  destruct (Z.eqb_spec rc1 0) as [->|Hn]; cbn [negb] in Hrun; [|injection Hrun as -> _ _; done].
  assert (moved a a2 /\ sized i i1 /\ forall p, id_parent d = Some p -> cert_accepted (secure_data (a_io a)) a2 p) as (Hm & Hsz & Hpar).
  { destruct (cot_shape id d Hd) as (_ & _ & Hshape). destruct (id_parent d) as [p|].
    - destruct (Hshape p eq_refl) as (Hdp & pk & ctr & params & Hp). cbn [fst snd Z.eqb] in Er.
      destruct (IH _ p _ _ _ _ Hdp Hst Hcl Hi Er) as [Hc _]. destruct (recursive_moved depth (img_id p) p i a 0 i1 a2 Hdp Hst Er) as (Hm & Hsz & _).
      split; [done|]. split; [done|]. intros q [= <-]. by eapply Hc.
    - injection Er as <- <-. split; [by apply moved_refl|done]. }
  destruct (load_and_verify_inv id d i1 a2 0 i' a' Hd (mv_settled _ _ Hm) Hrun) as (_ & Hrs & _ & [[? _]|(a3 & a4 & rc' & Hm3 & [Hbufs _] & Hver & _ & Hok)]); [done|].
  destruct (Hok eq_refl) as [-> ->]. clear Hok Hrun Er.
  pose proof (moved_fuses _ _ (moved_trans _ _ _ Hm Hm3)) as Hfuses.
  assert (forall p, id_parent d = Some p -> cert_accepted (secure_data (a_io a3)) a3 p) as Hpar3.
  { intros p Hp. destruct (Hpar p Hp) as (b & c & Ht & Hh). exists b, c. rewrite Hfuses. split; [done|by eapply holds_ext]. }
  destruct (cot_shape id d Hd) as (Himg & _). destruct (verify_img_frame id d _ a3 0 a4 Hd Himg Hver) as [Hio Hbase _ _].
  destruct (unmarked_same id a4) as (Hio5 & Hbufs5 & Hbase5). rewrite <- Hfuses.
  destruct (image_bytes_ok a3 i' (st_ram _ (mv_settled _ _ Hm3)) (sz_size _ _ (rs_sized _ _ _ Hrs) (sz_size _ _ Hsz Hi))) as [Hb Hlen]. split.
  - intros pk ctr params Hdesc. destruct (verify_cert id d pk ctr params _ a3 a4 Hd Hdesc (st_rotpk _ (mv_settled _ _ Hm3)) Hb Hlen Hpar3 Hver) as (c & Ht & Hh).
    eexists _, c. split; [exact Ht|by eapply holds_ext].
  - intros p h Hdesc. destruct (Hpar3 p (im_parent _ _ _ Hdesc)) as (b & c & Ht & Hh).
    destruct (verify_raw id d p h _ a3 a4 Hd Hdesc Hver) as (der & Hv & Hhash). exists b, c, der. split; [done|]. split; [by eapply kept_holds|].
    unfold hash_ok, image_bytes in *. by rewrite Hio5, Hbase5, Hio, Hbase.
Qed.

(** [load_auth_image] keeps the layers below idle, whatever it answers. *)
Lemma load_auth_moved id d i a rc i' a' : disable_auth = false -> cot_desc id = Some d -> settled a ->
  load_auth_image toc_fuel id i a = Done ((rc, i'), a') ->
  moved a a' /\ sized i i' /\ (rc = 0 -> resized id i i') /\ placed i i' (mem (a_io a)) (mem (a_io a')).
Proof. intros Hdis Hd Hst. unfold load_auth_image, load_auth_image_internal. rewrite Hdis. by eapply recursive_moved. Qed.

Lemma load_auth_accepted id d i a i' a' : disable_auth = false -> cot_desc id = Some d -> settled a -> clear a -> is_u32 (image_size i) ->
  load_auth_image toc_fuel id i a = Done ((0, i'), a') ->
  (forall pk ctr params, cert_desc d pk ctr params -> cert_accepted (secure_data (a_io a)) a' d) /\
  (forall p h, image_desc d p h -> image_accepted (secure_data (a_io a)) a' i' p h).
Proof. intros Hdis Hd Hst Hc Hi. unfold load_auth_image, load_auth_image_internal. rewrite Hdis. by eapply chain. Qed.

(** ** The depth of the recursion *)

(** The number of images from [d] up to the root. *)
Fixpoint chain_length d : nat := match id_parent d with Some p => S (chain_length p) | None => 1 end.

Lemma chain_length_max id d : cot_desc id = Some d -> (chain_length d <= MAX_CHAIN)%nat.
Proof.
  unfold cot_desc. repeat case_match; try done; intros [= <-]; vm_compute; lia.
Qed.

(** More fuel than the length of the chain changes nothing. *)
Lemma recursive_fuel depth : forall depth' id d i a, cot_desc id = Some d ->
  (chain_length d <= depth)%nat -> (chain_length d <= depth')%nat ->
  load_auth_image_recursive toc_fuel depth id i a = load_auth_image_recursive toc_fuel depth' id i a.
Proof.
  induction depth as [|depth IH]; intros [|depth'] id d i a Hd Hl Hl'; try (destruct d as [? ? [|]]; simpl in *; lia).
  destruct (cot_shape id d Hd) as (_ & _ & Hpar). cbn [load_auth_image_recursive]. unfold bind at 1 3.
  assert (auth_mod_get_parent_id id a = Done (match id_parent d with
    | Some p => if negb (Z.land (auth_img_flags a (img_id p)) IMG_FLAG_AUTHENTICATED =? 0) then (1, 0) else (0, img_id p)
    | None => (1, 0) end, a)) as ->.
  { unfold auth_mod_get_parent_id. rewrite Hd. cbn [checked]. unfold bind, ret, gets. destruct (id_parent d); [|done]. by destruct (negb _). }
  destruct (id_parent d) as [p|] eqn:Ep; [|done]. destruct (negb (Z.land _ _ =? 0)); [done|]. cbn [fst snd Z.eqb].
  destruct (Hpar p eq_refl) as [Hp _]. unfold bind at 1 2.
  rewrite (IH depth' (img_id p) p i a Hp); [done|..]; destruct d; simpl in *; subst; lia.
Qed.
End trust.
