(* ===== verification/AtfBoot.v ===== *)
(** A boot stage that loads several images: an image is marked as
    authenticated once and its parents are not loaded again, so the buffers
    that certificates are copied to must still hold what a trusted certificate
    vouches for. *)

From stdpp Require Import base numbers list option strings.
From Stdlib Require Import ZArith Lia.
From S2P Require Import Prelude Fip Ram AtfIo AtfPlat AtfLoad AtfLoadProps AtfProps AtfCert AtfCot AtfAuth AtfChain AtfSip AtfTrust.

Section boot.
Context `{Board} `{Gcm} `{CotSizes} `{Crypto} (toc_fuel : nat).
Context (Hgcm : gcm_bytes).
Implicit Types (a : auth_st) (i : image_info) (d p q : auth_img_desc) (k : auth_buf) (y : auth_param_desc).

(** ** Trust over shared buffers *)

Definition in_cot d : Prop := cot_desc (img_id d) = Some d.

(** Like [trusted]; the key of a certificate is found in the buffer that its parent's
    key is copied to.  The key certificates share one such buffer, so it may
    hold the key that another one of them vouches for. *)
Inductive rooted (fuses : secure_efuse) : auth_img_desc -> list Z -> crt -> Prop :=
| rooted_root d pk ctr params b c :
    in_cot d -> id_parent d = None -> cert_desc d pk ctr params -> parsed b c -> root_signed fuses b c -> rooted fuses d b c
| rooted_child d p x q y pk ctr params key bq cq b c :
    in_cot d -> id_parent d = Some p -> cert_desc d pk ctr params ->
    hands_on p x -> ap_type x = pk -> hands_on q y -> ap_ptr y = ap_ptr x ->
    rooted fuses q bq cq -> vouches bq cq (ap_type y) key ->
    parsed b c -> signed b c key -> rooted fuses d b c.

Lemma rooted_in_cot fuses d b c : rooted fuses d b c -> in_cot d.
Proof. by intros []. Qed.

(** A certificate vouches for what the buffer holds. *)
Definition backed (fuses : secure_efuse) k (v : list Z) : Prop :=
  exists q y bq cq, rooted fuses q bq cq /\ hands_on q y /\ ap_ptr y = k /\ vouches bq cq (ap_type y) v.

Definition fuses_of a : secure_efuse := secure_data (a_io a).

Definition stocked (fuses : secure_efuse) a d : Prop := forall x, hands_on d x -> backed fuses (ap_ptr x) (bufs a (ap_ptr x)).

Definition marked a (id : Z) : Prop := Z.land (auth_img_flags a id) IMG_FLAG_AUTHENTICATED <> 0.

(** What authenticated certificates have handed on is still there. *)
Definition sound (fuses : secure_efuse) a : Prop := forall d, in_cot d -> marked a (img_id d) -> stocked fuses a d.

Lemma clear_sound fuses a : clear a -> sound fuses a.
Proof. intros Hc d _ []. apply Hc. Qed.

(** Every buffer that is backed stays so. *)
Definition no_worse (fuses : secure_efuse) a a' : Prop := forall k, backed fuses k (bufs a k) -> backed fuses k (bufs a' k).

#[export] Instance no_worse_preorder fuses : PreOrder (no_worse fuses).
Proof. split; [by intros a k|]. intros a1 a2 a3 H12 H23 k Hk. by apply H23, H12. Qed.

Lemma no_worse_same fuses a a' : bufs a' = bufs a -> no_worse fuses a a'.
Proof. by intros E k; rewrite E. Qed.

Lemma stocked_no_worse fuses a a' d : no_worse fuses a a' -> stocked fuses a d -> stocked fuses a' d.
Proof. intros Hw Hs x Hx. by apply Hw, Hs. Qed.

Lemma sound_step fuses a a' : no_worse fuses a a' ->
  (forall d, in_cot d -> marked a' (img_id d) -> marked a (img_id d) \/ stocked fuses a' d) -> sound fuses a -> sound fuses a'.
Proof. intros Hw Hm Hs d Hd Hmk. destruct (Hm d Hd Hmk); [|done]. eapply stocked_no_worse; [done|]. by apply Hs. Qed.

(** ** One image *)

Lemma unmarked_marked id a x : marked (unmarked id a) x -> marked a x.
Proof.
  unfold marked, unmarked. destruct IMAGE_BL31; [|done]. cbn [auth_img_flags set_flag]. destruct (Z.eqb_spec x id); [|done].
  by rewrite land_clear.
Qed.

Lemma key_backed fuses d pk p a key : id_parent d = Some p -> stocked fuses a p -> kept_param p pk a key ->
  exists x q y bq cq, hands_on p x /\ ap_type x = pk /\ hands_on q y /\ ap_ptr y = ap_ptr x /\ rooted fuses q bq cq /\ vouches bq cq (ap_type y) key.
Proof.
  intros Hp Hs (x & Hx & Ht & ->). destruct (Hs x Hx) as (q & y & bq & cq & Hr & Hy & Hptr & Hv). by exists x, q, y, bq, cq.
Qed.

(** Whatever the answer is, nothing is copied that is not vouched for. *)
Lemma verify_img_sound id d b a rc a' : cot_desc id = Some d -> settled a -> bytes b -> Z.of_nat (length b) < 2 ^ 32 ->
  (forall p, id_parent d = Some p -> stocked (fuses_of a) a p) ->
  auth_mod_verify_img id b a = Done (rc, a') ->
  no_worse (fuses_of a) a a' /\ (rc = 0 -> stocked (fuses_of a) a' d).
Proof.
  intros Hd Hst Hb Hlen Hpar Hrun. destruct (cot_shape id d Hd) as (Hid & [(pk & ctr & params & Hdesc)|(p & h & Hdesc)] & _).
  - destruct (verify_cert_inv id d pk ctr params b a rc a' Hd Hdesc (st_rotpk _ Hst) Hb Hlen Hrun) as [[Hrc Hbufs]|(c & Hp & Hkey & Hnew & Hh)].
    { split; [by apply no_worse_same|done]. }
    assert (rooted (fuses_of a) d b c) as Hroot.
    { unfold key_of in Hkey. assert (in_cot d) by (unfold in_cot; by rewrite Hid).
      destruct (id_parent d) as [p|] eqn:Ep; [|by eapply rooted_root]. destruct Hkey as (key & Hk & Hs).
      destruct (key_backed _ d pk p a key Ep (Hpar p eq_refl) Hk) as (x & q & y & bq & cq & ? & ? & ? & ? & ? & ?). by eapply rooted_child. }
    split.
    + intros k Hk. destruct (Hnew k) as [->|(x & Hx & Hptr & Hv)]; [done|]. by exists d, x, b, c.
    + intros Hrc x Hx. exists d, x, b, c. split; [done|]. split; [done|]. split; [done|]. by apply Hh.
  - split; [apply no_worse_same; by eapply verify_raw_bufs|]. intros _ x (l & Hl & _). by rewrite (im_params _ _ _ Hdesc) in Hl.
Qed.

(** What a call does to a state that is sound. *)
Record keeps_sound a a' : Prop := {
  ks_moved : moved a a';
  ks_better : no_worse (fuses_of a) a a';
  ks_sound : sound (fuses_of a) a -> sound (fuses_of a') a'
}.

Lemma moved_fuses_of a a' : moved a a' -> fuses_of a' = fuses_of a.
Proof. apply moved_fuses. Qed.

Lemma keeps_sound_refl a : settled a -> keeps_sound a a.
Proof. intros Hst. split; [by apply moved_refl|done|done]. Qed.

Lemma keeps_sound_trans a1 a2 a3 : keeps_sound a1 a2 -> keeps_sound a2 a3 -> keeps_sound a1 a3.
Proof.
  intros [Hm1 Hb1 Hs1] [Hm2 Hb2 Hs2]. split; [by eapply moved_trans| |naive_solver]. etrans; [done|]. by rewrite <- (moved_fuses_of _ _ Hm1).
Qed.

Lemma load_and_verify_sound id d i a rc i' a' : cot_desc id = Some d -> settled a -> is_u32 (image_size i) ->
  (forall p, id_parent d = Some p -> stocked (fuses_of a) a p) ->
  load_and_verify toc_fuel id i a = Done ((rc, i'), a') ->
  keeps_sound a a' /\ (rc = 0 -> stocked (fuses_of a) a' d /\
    forall p h, image_desc d p h -> exists x, hands_on p x /\ ap_type x = h /\ hash_ok a' (image_bytes a' i') (bufs a' (ap_ptr x))).
Proof.
  intros Hd Hst Hi Hpar Hrun. destruct (cot_shape id d Hd) as (Hid & _).
  destruct (load_and_verify_inv toc_fuel Hgcm id d i a rc i' a' Hd Hst Hrun) as (Hm & Hrs & _ & [[Hrc [Hb Hf]]|(a1 & a2 & rc' & Hm1 & [Hb1 Hf1] & Hver & [Hb2 Hf2] & Hok)]).
  { split; [|done]. split; [done|by apply no_worse_same|]. rewrite (moved_fuses_of _ _ Hm).
    apply sound_step; [by apply no_worse_same|]. intros d' _ Hmk. left. unfold marked in *. by rewrite Hf in Hmk. }
  pose proof (moved_fuses_of _ _ Hm1) as Hfu. destruct (unmarked_same id a2) as (Hio & Hbu & Hba). rewrite Hbu in Hb2.
  destruct (image_bytes_ok a1 i' (st_ram _ (mv_settled _ _ Hm1)) (sz_size _ _ (rs_sized _ _ _ Hrs) Hi)) as [Hby Hlen].
  destruct (verify_img_sound id d _ a1 rc' a2 Hd (mv_settled _ _ Hm1) Hby Hlen) as [Hw Hs]; [|exact Hver|].
  { intros p Hp. rewrite Hfu. apply (stocked_no_worse _ a); [by apply no_worse_same|by apply Hpar]. }
  rewrite Hfu in Hw, Hs. destruct (verify_img_frame id d _ a1 rc' a2 Hd Hid Hver) as [Hvio Hvba Hvf _].
  assert (no_worse (fuses_of a) a a') as Hworse.
  { etrans; [by apply (no_worse_same _ a a1)|]. etrans; [exact Hw|]. by apply no_worse_same. }
  split.
  - split; [done|done|]. rewrite (moved_fuses_of _ _ Hm). apply sound_step; [done|]. intros d' Hd' Hmk.
    assert (marked a2 (img_id d')) as Hmk2 by (apply (unmarked_marked id); unfold marked in *; by rewrite Hf2 in Hmk).
    destruct (decide (img_id d' = id /\ rc' = 0)) as [[E Erc]|Hn].
    + right. unfold in_cot in Hd'. rewrite E, Hd in Hd'. injection Hd' as <-.
      apply (stocked_no_worse _ a2); [by apply no_worse_same|by apply Hs].
    + left. unfold marked in *. rewrite Hvf, Hf1 in Hmk2; [done|]. destruct (decide (img_id d' = id)); [right; naive_solver|by left].
  - intros Hrc. destruct (Hok Hrc) as [-> ->]. split.
    + apply (stocked_no_worse _ a2); [by apply no_worse_same|by apply Hs].
    + intros p h Hdesc. destruct (verify_raw id d p h _ a1 a2 Hd Hdesc Hver) as (der & (x & Hx & Ht & ->) & Hh).
      exists x. split; [done|]. split; [done|]. pose proof (verify_raw_bufs id d p h _ _ _ _ Hd Hdesc Hver) as Hvb.
      unfold hash_ok, image_bytes in *. by rewrite Hio, Hbu, Hba, Hvio, Hvba, Hvb.
Qed.

(** ** The recursion over the parents *)

(** What the state after a load proves of the image [d] at [i]. *)
Definition image_rooted (fuses : secure_efuse) a i d : Prop :=
  forall p h, image_desc d p h -> exists x, hands_on p x /\ ap_type x = h /\
    backed fuses (ap_ptr x) (bufs a (ap_ptr x)) /\ hash_ok a (image_bytes a i) (bufs a (ap_ptr x)).

Lemma recursive_sound depth : forall id d i a rc i' a', cot_desc id = Some d -> settled a -> is_u32 (image_size i) ->
  sound (fuses_of a) a ->
  load_auth_image_recursive toc_fuel depth id i a = Done ((rc, i'), a') ->
  keeps_sound a a' /\ (rc = 0 -> stocked (fuses_of a) a' d /\ image_rooted (fuses_of a) a' i' d).
Proof.
  induction depth as [|depth IH]; intros id d i a rc i' a' Hd Hst Hi Hsound Hrun; [done|]. cbn [load_auth_image_recursive] in Hrun.
  inv_bind Hrun r a1 Ep. inv_bind Hrun r2 a2 Er. destruct r2 as [rc1 i1].
  assert (keeps_sound a a2 /\ is_u32 (image_size i1) /\
    (rc1 = 0 -> forall p, id_parent d = Some p -> stocked (fuses_of a) a2 p)) as (Hk & Hi1 & Hpar).
  { unfold auth_mod_get_parent_id in Ep. rewrite Hd in Ep. cbn [checked] in Ep. unfold bind at 1, ret at 1 in Ep.
    destruct (cot_shape id d Hd) as (_ & _ & Hshape). destruct (id_parent d) as [p|].
    2: { injection Ep as <- <-. injection Er as <- <- <-. split; [by apply keeps_sound_refl|done]. }
    destruct (Hshape p eq_refl) as [Hp _]. unfold bind, gets in Ep.
    destruct (Z.eqb_spec (Z.land (auth_img_flags a (img_id p)) IMG_FLAG_AUTHENTICATED) 0) as [Hz|Hz]; injection Ep as <- <-; cbn [fst snd Z.eqb] in Er.
    - destruct (IH _ _ _ _ _ _ _ Hp Hst Hi Hsound Er) as [Hk Hstock]. destruct (recursive_moved toc_fuel Hgcm depth _ _ _ _ _ _ _ Hp Hst Er) as (_ & Hs & _).
      split; [done|]. split; [by apply Hs|]. intros Hrc q [= <-]. by apply Hstock.
    - injection Er as <- <- <-. split; [by apply keeps_sound_refl|]. split; [done|]. intros _ q [= <-]. by apply Hsound. }
  destruct (Z.eqb_spec rc1 0) as [->|Hn]; cbn [negb] in Hrun; [|injection Hrun as <- <- <-; by split].
  pose proof (ks_moved _ _ Hk) as Hm. pose proof (moved_fuses_of _ _ Hm) as Hfu.
  destruct (load_and_verify_sound id d i1 a2 rc i' a' Hd (mv_settled _ _ Hm) Hi1) as [Hk2 Hacc]; [by rewrite Hfu; apply Hpar|exact Hrun|].
  split; [by eapply keeps_sound_trans|]. intros Hrc. destruct (Hacc Hrc) as [Hs Himg]. rewrite Hfu in Hs. split; [exact Hs|].
  intros p h Hdesc. destruct (Himg p h Hdesc) as (x & Hx & Ht & Hh). exists x. split; [done|]. split; [done|]. split; [|done].
  pose proof (Hpar eq_refl p (im_parent _ _ _ Hdesc)) as Hstock. rewrite <- Hfu in Hstock |- *.
  by apply (stocked_no_worse _ _ _ _ (ks_better _ _ Hk2) Hstock).
Qed.

(** ** Whose buffer it is *)

(** Every buffer but the one for content keys belongs to one certificate. *)
Definition owner k : option (auth_img_desc * auth_param_desc) :=
  let own d t f := Some (d, f t k) in
  match k with
  | tb_fw_hash_buf => own trusted_boot_fw_cert tb_fw_hash a_hash
  | tb_fw_config_hash_buf => own trusted_boot_fw_cert tb_fw_config_hash a_hash
  | hw_config_hash_buf => own trusted_boot_fw_cert hw_config_hash a_hash
  | scp_fw_hash_buf => own scp_fw_content_cert scp_fw_hash a_hash
  | nt_world_bl_hash_buf => own non_trusted_fw_content_cert nt_world_bl_hash a_hash
  | nt_fw_config_hash_buf => own non_trusted_fw_content_cert nt_fw_config_hash a_hash
  | soc_fw_hash_buf => own soc_fw_content_cert soc_fw_hash a_hash
  | soc_fw_config_hash_buf => own soc_fw_content_cert soc_fw_config_hash a_hash
  | tos_fw_hash_buf => own trusted_os_fw_content_cert tos_fw_hash a_hash
  | tos_fw_extra1_hash_buf => own trusted_os_fw_content_cert tos_fw_extra1_hash a_hash
  | tos_fw_extra2_hash_buf => own trusted_os_fw_content_cert tos_fw_extra2_hash a_hash
  | tos_fw_config_hash_buf => own trusted_os_fw_content_cert tos_fw_config_hash a_hash
  | trusted_world_pk_buf => own trusted_key_cert trusted_world_pk a_key
  | non_trusted_world_pk_buf => own trusted_key_cert non_trusted_world_pk a_key
  | content_pk_buf => None
  end.

Lemma buffer_owner d x : in_cot d -> hands_on d x -> ap_ptr x <> content_pk_buf -> owner (ap_ptr x) = Some (d, x).
Proof.
  unfold in_cot. generalize (img_id d); intros id. unfold cot_desc.
  repeat (case_match; [intros [= <-] (l & [= <-] & Hx) Hptr;
    repeat (apply elem_of_cons in Hx as [->|Hx]; [first [reflexivity|by destruct Hptr]|]); by apply elem_of_nil in Hx|]).
  done.
Qed.

(** The digest of an image is in a buffer of its own. *)
Lemma digest_buffer id d p h x : cot_desc id = Some d -> image_desc d p h -> hands_on p x -> ap_type x = h ->
  in_cot p /\ ap_ptr x <> content_pk_buf.
Proof.
  intros Hd Hdesc Hx Ht. destruct (cot_shape id d Hd) as (_ & _ & Hpar).
  split; [by apply Hpar, Hdesc|]. intros Hptr. destruct Hdesc as [Hty Hp Hmeth _].
  revert Hd Hty Hp Hmeth. unfold cot_desc.
  repeat (case_match; [intros [= <-] Hty [= <-] [= <-]; destruct Hx as (l & [= <-] & Hx);
    repeat (apply elem_of_cons in Hx as [->|Hx]; [first [discriminate Hptr|discriminate Ht]|]); by apply elem_of_nil in Hx|]).
  done.
Qed.

(** ** A sequence of loads *)

(** Loads one image after the other, whatever the answers are. *)
Fixpoint load_all (l : list (Z * image_info)) : M auth_st (list (Z * image_info)) :=
  match l with
  | [] => ret []
  | (id, i) :: l' =>
      let! r := load_auth_image toc_fuel id i in
      let! rs := load_all l' in ret (r :: rs)
  end.

Context (Hdis : disable_auth = false).

Lemma in_table id i a r a' : load_auth_image toc_fuel id i a = Done (r, a') -> exists d, cot_desc id = Some d.
Proof.
  unfold load_auth_image, load_auth_image_internal. rewrite Hdis. cbn [negb MAX_CHAIN load_auth_image_recursive].
  intros Hrun. inv_bind Hrun p a1 E. unfold auth_mod_get_parent_id in E. inv_bind E d a2 E2.
  destruct (cot_desc id) as [d'|]; [by exists d'|done].
Qed.

Lemma load_auth_sound id d i a rc i' a' : cot_desc id = Some d -> settled a -> is_u32 (image_size i) -> sound (fuses_of a) a ->
  load_auth_image toc_fuel id i a = Done ((rc, i'), a') ->
  keeps_sound a a' /\ (rc = 0 -> image_rooted (fuses_of a) a' i' d).
Proof.
  intros Hd Hst Hi Hs. unfold load_auth_image, load_auth_image_internal. rewrite Hdis. intros Hrun.
  destruct (recursive_sound MAX_CHAIN id d i a rc i' a' Hd Hst Hi Hs Hrun) as [Hk Hacc]. split; [done|]. intros Hrc. by apply Hacc.
Qed.

Lemma load_all_sound l : forall a rs a', Forall (fun x => is_u32 (image_size (snd x))) l -> settled a -> sound (fuses_of a) a ->
  load_all l a = Done (rs, a') -> keeps_sound a a'.
Proof.
  induction l as [|[id i] l IH]; intros a rs a' Hl Hst Hs Hrun; cbn [load_all] in Hrun.
  { injection Hrun as _ <-. by apply keeps_sound_refl. }
  apply Forall_cons in Hl as [Hi Hl]. inv_bind Hrun r a1 E. inv_bind Hrun rs' a2 E2. injection Hrun as _ <-. destruct r as [rc i'].
  destruct (in_table _ _ _ _ _ E) as [d Hd]. destruct (load_auth_sound id d i a rc i' a1 Hd Hst Hi Hs E) as [Hk _].
  eapply keeps_sound_trans; [exact Hk|]. eapply IH; [done|apply (ks_moved _ _ Hk)|by apply (ks_sound _ _ Hk)|exact E2].
Qed.

(** The certificate of the image itself vouches for its digest. *)
Lemma image_rooted_cert id d p h fuses a i : cot_desc id = Some d -> image_desc d p h -> image_rooted fuses a i d ->
  exists b c der, rooted fuses p b c /\ vouches b c h der /\ hash_ok a (image_bytes a i) der.
Proof.
  intros Hd Hdesc Hr. destruct (Hr p h Hdesc) as (x & Hx & Ht & (q & y & b & c & Hroot & Hy & Hptr & Hv) & Hh).
  destruct (digest_buffer id d p h x Hd Hdesc Hx Ht) as [Hp Hne].
  pose proof (buffer_owner p x Hp Hx Hne) as E1. pose proof (buffer_owner q y (rooted_in_cot _ _ _ _ Hroot) Hy) as E2.
  rewrite Hptr in E2. rewrite (E2 Hne) in E1. injection E1 as -> ->. exists b, c, (bufs a (ap_ptr x)). by rewrite <- Ht.
Qed.
End boot.
