(* ===== verification/AtfSipProps.v ===== *)
(** The secure service: no call leaves a mapping behind, and an image is
    declared good only when the chain of trust vouches for it. *)

From stdpp Require Import base numbers list option strings.
From Stdlib Require Import ZArith Lia.
From S2P Require Import Prelude Fip Ram AtfIo AtfPlat AtfLoad AtfLoadProps AtfProps AtfCert AtfCot AtfAuth AtfChain AtfSip AtfTrust.

Lemma alter_twice {A} (f g : A -> A) (l : list A) k : alter f k (alter g k l) = alter (fun a => f (g a)) k l.
Proof. revert k. induction l as [|y l IH]; intros [|k]; [done..|]. cbn. f_equal. apply IH. Qed.

(** ** Mapping and unmapping *)

Section map.
Context `{Board} `{Xlat}.
Implicit Types (s : io_st) (r : region).

Definition is_region (base size : Z) r : bool := (rg_base r =? base) && (rg_size r =? size).

(** [r] is on the list, unless it is empty. *)
Definition with_region r (rs : list region) : list region := if rg_size r =? 0 then rs else r :: rs.

Lemma add_region_inv r s rc s' : mmap_add_dynamic_region r s = Done (rc, s') ->
  if rc =? 0 then s' = set_regions (with_region r (regions s)) s /\ (rg_size r <> 0 -> existsb (is_region (rg_base r) (rg_size r)) static_regions = false)
  else s' = s.
Proof.
  unfold mmap_add_dynamic_region, act, with_region. destruct (Z.eqb_spec (rg_size r) 0) as [E|Hn].
  { intros [= <- <-]. split; [by destruct s|done]. }
  destruct (Z.eqb_spec (mmap_add_region_check (regions s) r) 0) as [Hc|Hc]; cbn [negb].
  2: { intros [= <- <-]. by rewrite (proj2 (Z.eqb_neq _ 0)). }
  destruct (tables_suffice _ _); [|by intros [= <- <-]]. intros [= <- <-]. split; [done|]. intros _.
  apply not_true_is_false. intros (r' & Hr' & Heq)%existsb_exists. unfold mmap_add_region_check in Hc.
  destruct (negb _ || negb _); [done|]. destruct (Z.ltb_spec (region_end r) (rg_base r)) as [?|Hge]; [done|].
  destruct (_ <? _); [done|]. destruct (_ <=? _)%nat; [done|].
  destruct (existsb (overlapping r) _) eqn:Eo; [done|]. apply andb_prop in Heq as [Hb%Z.eqb_eq Hs%Z.eqb_eq].
  assert (existsb (overlapping r) (static_regions ++ regions s) = true) as Ht; [|congruence].
  apply existsb_exists. exists r'. split; [apply in_app_iff; by left|]. unfold overlapping. unfold region_end in *. rewrite Hb, Hs.
  rewrite (proj2 (Z.ltb_ge _ _)) by lia. done.
Qed.

(** Removing what was added last restores the list. *)
Lemma remove_region_run r rs s rc s' :
  regions s = with_region r rs -> (rg_size r <> 0 -> existsb (is_region (rg_base r) (rg_size r)) static_regions = false) ->
  Forall (fun x => rg_size x <> 0) rs ->
  mmap_remove_dynamic_region (rg_base r) (rg_size r) s = Done (rc, s') -> s' = set_regions rs s.
Proof.
  intros Hs Hst Hrs. unfold mmap_remove_dynamic_region, act, with_region in *. fold (is_region (rg_base r) (rg_size r)).
  destruct (Z.eqb_spec (rg_size r) 0) as [E|Hn].
  - assert (remove_region (rg_base r) (rg_size r) rs = None) as Hnone.
    { clear Hs. induction Hrs as [|x rs Hx _ IH]; [done|]. cbn [remove_region]. rewrite (proj2 (Z.eqb_neq _ (rg_size r))), andb_false_r, IH by lia. done. }
    rewrite Hs, Hnone. destruct (existsb _ _); intros [= _ <-]; destruct s; simpl in *; by subst.
  - rewrite (Hst Hn), Hs. cbn [remove_region]. rewrite !Z.eqb_refl. cbn [andb]. by intros [= _ <-].
Qed.
End map.

(** ** The state of the service *)

Section sip.
Context `{Board} `{Gcm} `{CotSizes} `{Crypto} `{Xlat} `{SipHost} (toc_fuel : nat).
Implicit Types (x : sip_st) (n : bl_mem_params_node).

Definition io_of x : io_st := a_io (s_auth x).
Definition upd_io (f : io_st -> io_st) x : sip_st := set_auth (set_io (f (io_of x)) (s_auth x)) x.

(** The nodes describe the secure memory that certificates are loaded to. *)
Definition node_size (v : Z) : Prop := 0 <= v <= TZRAM2_SIZE.

Definition nodes_ok (l : list bl_mem_params_node) : Prop :=
  exists v2 v33, node_size v2 /\ node_size v33 /\
    l = [Node BL2_IMAGE_ID (ImageInfo TZRAM2_BASE v2 TZRAM2_SIZE); Node BL33_IMAGE_ID (ImageInfo TZRAM2_BASE v33 TZRAM2_SIZE)].

Record sip_ok x : Prop := {
  so_settled : settled (s_auth x);
  so_clear : clear (s_auth x);
  so_nodes : nodes_ok (bl_mem_params x);
  so_regions : Forall (fun r => rg_size r <> 0) (regions (io_of x))
}.

(** The mappings, the fuses and the state of the kernel. *)
Record fixed x x' : Prop := {
  fx_regions : regions (io_of x') = regions (io_of x);
  fx_fuses : secure_data (io_of x') = secure_data (io_of x);
  fx_kernel : kernel_boot_once_flag x' = kernel_boot_once_flag x /\ k_info x' = k_info x
}.

#[export] Instance fixed_preorder : PreOrder fixed.
Proof. split; [by intros x|]. intros x1 x2 x3 [? ? []] [? ? []]. repeat split; congruence. Qed.

Lemma bl31_nodes : nodes_ok bl31_mem_params_descs.
Proof. by exists 0, 0. Qed.

(** ** Runs of the parts *)

Lemma on_map_inv {A} (m : M io_st A) x r x' : on_map m x = Done (r, x') ->
  exists s, m (io_of x) = Done (r, s) /\ x' = upd_io (fun _ => s) x.
Proof. intros (a & (s & Hs & ->)%lift_inv & ->)%lift_inv. by exists s. Qed.

Lemma add_inv r x rc x' : on_map (mmap_add_dynamic_region r) x = Done (rc, x') ->
  if rc =? 0 then x' = upd_io (set_regions (with_region r (regions (io_of x)))) x /\
    (rg_size r <> 0 -> existsb (is_region (rg_base r) (rg_size r)) static_regions = false)
  else x' = x.
Proof.
  intros (s & Hs & ->)%on_map_inv. apply add_region_inv in Hs. destruct (rc =? 0); [by destruct Hs as [-> ?]|].
  subst s. by destruct x as [[]].
Qed.

Lemma remove_inv r rs x rc x' :
  regions (io_of x) = with_region r rs -> (rg_size r <> 0 -> existsb (is_region (rg_base r) (rg_size r)) static_regions = false) ->
  Forall (fun r => rg_size r <> 0) rs ->
  on_map (mmap_remove_dynamic_region (rg_base r) (rg_size r)) x = Done (rc, x') -> x' = upd_io (set_regions rs) x.
Proof. intros Hr Hst Hrs (s & Hs & ->)%on_map_inv. by rewrite (remove_region_run _ _ _ _ _ Hr Hst Hrs Hs). Qed.

Lemma with_region_sized r rs : Forall (fun r => rg_size r <> 0) rs -> Forall (fun r => rg_size r <> 0) (with_region r rs).
Proof. intros Hrs. unfold with_region. destruct (Z.eqb_spec (rg_size r) 0); [done|by constructor]. Qed.

Lemma settled_regions rs a : settled a -> settled (set_io (set_regions rs (a_io a)) a).
Proof. intros [[[] ? ?] [] ? ?]. by split; [split; [split|..]|split|..]. Qed.

Lemma settled_spec v a : settled a -> settled (set_io (set_block_spec v (a_io a)) a).
Proof. intros [[[] ? ?] [] ? ?]. by split; [split; [split|..]|split|..]. Qed.

Lemma settled_hash_base v a : settled a -> settled (set_hash_base v a).
Proof. intros [[[] ? ?] [] ? ?]. by split; [split; [split|..]|split|..]. Qed.

Lemma load_node_inv k n x rc x' : bl_mem_params x !! k = Some n -> load_node toc_fuel k x = Done (rc, x') ->
  exists i' a', load_auth_image toc_fuel (node_id n) (node_info n) (s_auth x) = Done ((rc, i'), a') /\
    x' = set_params (alter (fun n => Node (node_id n) i') k (bl_mem_params x)) (set_auth a' x).
Proof.
  intros Hk. unfold load_node. unfold bind at 1, gets at 1. rewrite Hk. cbn [checked]. unfold bind at 1, ret at 1.
  intros Hrun. inv_bind Hrun r x1 E. apply lift_inv in E as (a' & E & ->). destruct r as [rc0 i']. injection Hrun as <- <-. by exists i', a'.
Qed.

(** The node of an image, and its place in the chain of trust. *)
Lemma node_found id l k : nodes_ok l -> get_bl_params_node_index id l = Some k -> IMAGE_BL31 = true ->
  exists v d p h, l !! k = Some (Node id (ImageInfo TZRAM2_BASE v TZRAM2_SIZE)) /\ node_size v /\
    cot_desc id = Some d /\ image_desc d p h /\ forall v', node_size v' ->
    nodes_ok (alter (fun n => Node (node_id n) (ImageInfo TZRAM2_BASE v' TZRAM2_SIZE)) k l).
Proof.
  intros (v2 & v33 & H2v & H33 & ->) Hk Hbl. cbn [get_bl_params_node_index node_id] in Hk.
  destruct (Z.eqb_spec BL2_IMAGE_ID id) as [<-|_].
  - injection Hk as <-. exists v2, bl2_image, trusted_boot_fw_cert, tb_fw_hash. split; [done|]. split; [done|].
    split; [unfold cot_desc; by rewrite Hbl|]. split; [by split|]. intros v' Hv. by exists v', v33.
  - destruct (Z.eqb_spec BL33_IMAGE_ID id) as [<-|_]; [|done]. injection Hk as <-.
    exists v33, bl33_image, non_trusted_fw_content_cert, nt_world_bl_hash. split; [done|]. split; [done|].
    split; [done|]. split; [by split|]. intros v' Hv. by exists v2, v'.
Qed.

(** ** Loading an image of the table *)

Context (Hbl : IMAGE_BL31 = true) (Hdis : disable_auth = false) (Hgcm : gcm_bytes).

(** The certificates vouch for the digest of the image. *)
Definition authentic (fuses : secure_efuse) (id md_alg : Z) (digest : list Z) : Prop :=
  exists d p h b c der, cot_desc id = Some d /\ image_desc d p h /\ trusted fuses p b c /\ vouches b c h der /\
    digest_info der = Done (Some (md_alg, digest)).

(** What was compared with it: the digest handed over, or the one of the image. *)
Definition compared (a : auth_st) (id : Z) (i i' : image_info) (md_alg : Z) (digest : list Z) : Prop :=
  if by_digest id i then ram_bytes (mem (a_io a)) (image_hash_base a) (md_size md_alg) = digest
  else is_u32 (image_max_size i) -> 0 < image_size i ->
    0 < image_size i' /\ md_hash md_alg (ram_bytes (mem (a_io a)) (image_base i) (image_size i')) = Some digest.

Lemma load_node_checked k id i x rc x' d p h :
  bl_mem_params x !! k = Some (Node id i) -> cot_desc id = Some d -> image_desc d p h ->
  settled (s_auth x) -> clear (s_auth x) -> is_u32 (image_size i) ->
  load_node toc_fuel k x = Done (rc, x') ->
  exists i' a', x' = set_params (alter (fun n => Node (node_id n) i') k (bl_mem_params x)) (set_auth a' x) /\
    moved (s_auth x) a' /\ sized i i' /\ placed i i' (mem (io_of x)) (mem (a_io a')) /\
    (rc = 0 -> exists md_alg digest, authentic (secure_data (io_of x)) id md_alg digest /\ compared a' id i i' md_alg digest).
Proof.
  intros Hk Hd Hdesc Hst Hcl Hi Hrun. destruct (load_node_inv _ _ _ _ _ Hk Hrun) as (i' & a' & Hl & ->). cbn [node_id node_info] in Hl.
  destruct (load_auth_moved toc_fuel Hgcm id d i _ _ _ _ Hdis Hd Hst Hl) as (Hm & Hs & Hr & Hpl).
  exists i', a'. split; [done|]. split; [done|]. split; [done|]. split; [done|]. intros ->. specialize (Hr eq_refl).
  destruct (load_auth_accepted toc_fuel Hgcm id d i _ _ _ Hdis Hd Hst Hcl Hi Hl) as [_ Hacc].
  destruct (Hacc p h Hdesc) as (b & c & der & Htr & Hv & alg & digest & Hdi & Hok). exists alg, digest.
  split; [by exists d, p, h, b, c, der|]. unfold compared, image_bytes in *. rewrite Hbl in Hok. cbn [andb] in Hok.
  rewrite ram_bytes_len in Hok. destruct (by_digest id i) eqn:Ed.
  - rewrite (rs_digest _ _ _ Hr Ed) in Hok. done.
  - intros Hmax Hpos. pose proof (rs_positive _ _ _ Hr Ed Hmax Hpos) as Hp. split; [done|].
    rewrite (proj2 (Z.eqb_neq _ 0)) in Hok by lia. by rewrite <- (sz_base _ _ Hs).
Qed.

(** ** The handlers *)

(** What holds of the authentication between the calls. *)
Definition quiet (fuses : secure_efuse) a : Prop := settled a /\ clear a /\ secure_data (a_io a) = fuses.

Lemma quiet_regions fuses rs a : quiet fuses a -> quiet fuses (set_io (set_regions rs (a_io a)) a).
Proof. intros (Hst & Hcl & Hf). split; [by apply settled_regions|done]. Qed.

Lemma quiet_spec fuses v a : quiet fuses a -> quiet fuses (set_io (set_block_spec v (a_io a)) a).
Proof. intros (Hst & Hcl & Hf). split; [by apply settled_spec|done]. Qed.

Lemma quiet_hash_base fuses v a : quiet fuses a -> quiet fuses (set_hash_base v a).
Proof. intros (Hst & Hcl & Hf). split; [by apply settled_hash_base|done]. Qed.

Lemma quiet_moved fuses a a' : moved a a' -> quiet fuses a -> quiet fuses a'.
Proof. intros Hm (Hst & Hcl & <-). split; [apply Hm|]. split; [by apply (mv_clear _ _ Hm)|apply (same_fuses _ _ (mv_same _ _ Hm))]. Qed.

Lemma handler_done x x' (P : Prop) : sip_ok x -> quiet (secure_data (io_of x)) (s_auth x') -> nodes_ok (bl_mem_params x') ->
  regions (io_of x') = regions (io_of x) -> kernel_boot_once_flag x' = kernel_boot_once_flag x /\ k_info x' = k_info x ->
  P -> sip_ok x' /\ fixed x x' /\ P.
Proof. intros [] (? & ? & ?) ? Hr ??. split; [|split; [|done]]; split; try done. by rewrite Hr. Qed.

(** Memory outside of the firmware's own is the same. *)
Definition firmware_only (m m' : ram_t) : Prop := forall p, p < TZRAM2_BASE \/ TZRAM2_BASE + TZRAM2_SIZE <= p -> m' p = m p.

Lemma handler_refused x (P : Prop) : sip_ok x -> sip_ok x /\ fixed x x /\ (ECNT_SIP_E_INVALID_PARAM = ECNT_SIP_E_SUCCESS -> P).
Proof. intros Hok. split; [done|]. split; [done|]. discriminate. Qed.

Lemma verify_refused x (P : Prop) : sip_ok x ->
  sip_ok x /\ fixed x x /\ firmware_only (mem (io_of x)) (mem (io_of x)) /\ (ECNT_SIP_E_INVALID_PARAM = ECNT_SIP_E_SUCCESS -> P).
Proof. intros Hok. split; [done|]. split; [done|]. by split. Qed.

Lemma on_map_modify f x u x' : on_map (modify f) x = Done (u, x') -> x' = upd_io f x.
Proof. intros (s & Hs & ->)%on_map_inv. by injection Hs as _ <-. Qed.

Lemma node_size_u32 w : node_size w -> is_u32 w.
Proof. unfold node_size, is_u32, TZRAM2_SIZE. lia. Qed.

(** The part of the handler that has the digest mapped. *)
Lemma verify_inner id k r1 hb hs d p h w fuses x e x1 rc x' :
  bl_mem_params x !! k = Some (Node id (ImageInfo TZRAM2_BASE w TZRAM2_SIZE)) -> node_size w -> cot_desc id = Some d -> image_desc d p h ->
  by_digest id (ImageInfo TZRAM2_BASE w TZRAM2_SIZE) = true ->
  quiet fuses (s_auth x) -> Forall (fun r => rg_size r <> 0) (regions (io_of x)) ->
  on_map (mmap_add_dynamic_region (Region hb hs false)) x = Done (e, x1) ->
  (if e =? 0 then
     do! on_auth (modify (set_hash_base r1)) in
     let! err := load_node toc_fuel k in
     do! on_map (mmap_remove_dynamic_region hb hs) in
     ret err
   else ret e) x1 = Done (rc, x') ->
  (rc <> 0 /\ x' = x) \/
  exists v a', quiet fuses a' /\ node_size v /\ firmware_only (mem (io_of x)) (mem (a_io a')) /\
    x' = set_params (alter (fun n => Node (node_id n) (ImageInfo TZRAM2_BASE v TZRAM2_SIZE)) k (bl_mem_params x))
           (set_auth (set_io (set_regions (regions (io_of x)) (a_io a')) a') x) /\
    (rc = 0 -> exists md_alg digest, authentic fuses id md_alg digest /\ ram_bytes (mem (a_io a')) r1 (md_size md_alg) = digest).
Proof.
  intros Hk Hw Hd Hdesc Hdig Hq Hrg E Hrun. apply add_inv in E.
  destruct (Z.eqb_spec e 0) as [->|Hn]; [|left; by injection Hrun as <- <-]. right. destruct E as [-> Hstat].
  inv_bind Hrun u x2 Eh. apply lift_inv in Eh as (a2 & Eh & ->). injection Eh as _ <-. inv_bind Hrun e2 x3 El.
  match type of El with _ ?y = _ => pose proof (quiet_hash_base fuses r1 _ (quiet_regions fuses (with_region (Region hb hs false) (regions (io_of x))) _ Hq)) as Hq2;
    destruct (load_node_checked k id (ImageInfo TZRAM2_BASE w TZRAM2_SIZE) y e2 x3 d p h Hk Hd Hdesc) as (i' & a' & -> & Hm & Hs & [Hfit Hout] & Hacc);
      [apply Hq2|apply Hq2|exact (node_size_u32 w Hw)|exact El|] end.
  assert (fits (ImageInfo TZRAM2_BASE w TZRAM2_SIZE)) as Hf by (split; [done|apply Hw]).
  inv_bind Hrun u2 x4 Er. injection Hrun as <- ->.
  apply (remove_inv (Region hb hs false) (regions (io_of x))) in Er as ->; [|apply (same_regions _ _ (mv_same _ _ Hm))|done..].
  exists (image_size i'), a'. split; [by eapply quiet_moved|]. split.
  { split; [apply (sz_size _ _ Hs), node_size_u32, Hw|]. destruct (Hfit Hf) as [_ Hle]. by rewrite (sz_max _ _ Hs) in Hle. }
  split; [exact (Hout Hf)|]. split. { f_equal. destruct i', Hs. simpl in *. by subst. }
  intros ->. destruct (Hacc eq_refl) as (alg & digest & Ha & Hc). exists alg, digest.
  unfold compared in Hc. rewrite Hdig, (mv_base _ _ Hm) in Hc. split; [|done]. by destruct Hq as (_ & _ & <-).
Qed.

Lemma node_by_digest id l k w : nodes_ok l -> get_bl_params_node_index id l = Some k ->
  by_digest id (ImageInfo TZRAM2_BASE w TZRAM2_SIZE) = true.
Proof.
  intros (v2 & v33 & _ & _ & ->). cbn [get_bl_params_node_index node_id]. unfold by_digest. rewrite Hbl.
  destruct (Z.eqb_spec BL2_IMAGE_ID id) as [<-|_]; [done|]. by destruct (Z.eqb_spec BL33_IMAGE_ID id) as [<-|_].
Qed.

Lemma verify_sound id r1 r2 r3 x v x' : sip_ok x -> ecnt_verify_handler toc_fuel id r1 r2 r3 x = Done (v, x') ->
  sip_ok x' /\ fixed x x' /\ firmware_only (mem (io_of x)) (mem (io_of x')) /\
  (v = ECNT_SIP_E_SUCCESS -> exists md_alg digest, authentic (secure_data (io_of x)) id md_alg digest /\
     ram_bytes (mem (io_of x')) r1 (md_size md_alg) = digest).
Proof.
  intros Hok. unfold ecnt_verify_handler. unfold get_bl_mem_params_node. unfold bind at 1 2, gets at 1, ret at 1.
  destruct (get_bl_params_node_index id (bl_mem_params x)) as [k|] eqn:Hk; [|intros [= <- <-]; by apply verify_refused].
  destruct (node_found id _ k (so_nodes _ Hok) Hk Hbl) as (w & d & p & h & Hnode & Hw & Hd & Hdesc & Hnodes).
  pose proof (node_by_digest id _ k w (so_nodes _ Hok) Hk) as Hdig. pose proof (so_regions _ Hok) as Hrg.
  destruct (_ || _); [intros [= <- <-]; by apply verify_refused|]. cbv zeta.
  generalize (page_align r2 false); intros base. generalize (u64 (page_align (u32 (r2 + r3)) true - base)); intros size.
  generalize (page_align r1 false); intros hb. generalize (u64 (page_align (u32 (r1 + PAGE_SIZE)) true - hb)); intros hs.
  intros Hrun. inv_bind Hrun rc x1 E. apply add_inv in E. inv_bind Hrun rc2 x2 E2. destruct (Z.eqb_spec rc 0) as [->|Hn].
  2: { injection E2 as <- <-. subst x1. rewrite (proj2 (Z.eqb_neq _ _) Hn) in Hrun. injection Hrun as <- <-. by apply verify_refused. }
  destruct E as [-> Hst1]. inv_bind E2 u x3 Espec. apply on_map_modify in Espec as ->. inv_bind E2 e4 x3 Eadd. inv_bind E2 rc3 x4 Ein.
  inv_bind E2 u2 x5 Es. apply on_map_modify in Es as ->. inv_bind E2 rc7 x7 Er. injection E2 as <- <-.
  assert (quiet (secure_data (io_of x)) (s_auth x)) as Hq by (split; [|split]; [apply Hok..|done]).
  match type of Eadd with _ ?y = _ =>
    destruct (verify_inner id k r1 hb hs d p h w (secure_data (io_of x)) y e4 x3 rc3 x4 Hnode Hw Hd Hdesc Hdig) as [[Hrc ->]|(v' & a' & Hq' & Hv' & Hfw & -> & Hacc)];
      [by apply (quiet_spec _ _ (set_io _ _)), quiet_regions|by apply with_region_sized|exact Eadd|exact Ein|..] end.
  - apply (remove_inv (Region base size false) (regions (io_of x))) in Er as ->; [|done..]. rewrite (proj2 (Z.eqb_neq _ _) Hrc) in Hrun.
    injection Hrun as <- <-. apply handler_done; [done| |apply Hok|done|done|split; [done|discriminate]].
    by apply (quiet_regions _ _ (set_io _ _)), (quiet_spec _ _ (set_io _ _)), (quiet_spec _ _ (set_io _ _)), quiet_regions.
  - apply (remove_inv (Region base size false) (regions (io_of x))) in Er as ->; [|done..]. injection Hrun as <- <-.
    apply handler_done; [done| |by apply Hnodes|done|done|].
    + by apply (quiet_regions _ _ (set_io _ _)), (quiet_spec _ _ (set_io _ _)), quiet_regions.
    + split; [exact Hfw|]. destruct (Z.eqb_spec rc3 0) as [->|_]; [|discriminate]. intros _. by apply Hacc.
Qed.

Lemma decrypt_sound id r1 r2 r3 x v x' : is_u32 r1 -> sip_ok x -> ecnt_decrypt_handler toc_fuel id r1 r2 r3 x = Done (v, x') ->
  sip_ok x' /\ fixed x x' /\
  (v = ECNT_SIP_E_SUCCESS -> r3 <> TZRAM2_BASE -> exists md_alg digest sz, authentic (secure_data (io_of x)) id md_alg digest /\
     0 < sz /\ md_hash md_alg (ram_bytes (mem (io_of x')) r3 sz) = Some digest).
Proof.
  intros Hr1 Hok. unfold ecnt_decrypt_handler. unfold get_bl_mem_params_node. unfold bind at 1 2, gets at 1, ret at 1.
  destruct (get_bl_params_node_index id (bl_mem_params x)) as [k|] eqn:Hk; [|intros [= <- <-]; by apply handler_refused].
  destruct (node_found id _ k (so_nodes _ Hok) Hk Hbl) as (w & d & p & h & Hnode & _ & Hd & Hdesc & Hnodes). pose proof (so_regions _ Hok) as Hrg.
  destruct (_ || _) eqn:Hzero; [intros [= <- <-]; by apply handler_refused|]. cbv zeta.
  generalize (page_align r2 false); intros base. generalize (u64 (page_align (u32 (0x2000 + r2 + r1)) true - base)); intros size.
  generalize (page_align r3 false); intros ib. generalize (u64 (page_align (u32 (r1 + r3)) true - ib)); intros isz.
  intros Hrun. inv_bind Hrun rc x1 E. apply add_inv in E. destruct (Z.eqb_spec rc 0) as [->|_]; cbn [negb] in Hrun; [|done].
  destruct E as [-> Hst1]. inv_bind Hrun rc x2 E. apply add_inv in E. destruct (Z.eqb_spec rc 0) as [->|_]; cbn [negb] in Hrun; [|done].
  destruct E as [-> Hst2]. inv_bind Hrun u x3 E. injection E as _ <-. inv_bind Hrun u2 x4 E. apply on_map_modify in E as ->.
  inv_bind Hrun rc x5 El. inv_bind Hrun u3 x6 E. apply on_map_modify in E as ->. inv_bind Hrun u4 x7 E. injection E as _ <-.
  inv_bind Hrun rc2 x8 Er2. inv_bind Hrun rc3 x9 Er1. injection Hrun as <- <-.
  assert (quiet (secure_data (io_of x)) (s_auth x)) as Hq by (split; [|split]; [apply Hok..|done]).
  pose proof (quiet_spec _ (r2, 0x2000) _ (quiet_regions _ (with_region (Region ib isz true) (with_region (Region base size false) (regions (io_of x)))) _ Hq)) as Hq2.
  match type of El with _ ?y = _ => destruct (load_node_checked k id (ImageInfo r3 r1 0x10000000) y rc x5 d p h) as (i' & a' & -> & Hm & Hs & _ & Hacc);
    [etrans; [apply list_lookup_alter_eq|by rewrite Hnode]|done|done|apply Hq2|apply Hq2|exact Hr1|exact El|] end.
  apply (quiet_moved _ _ _ Hm) in Hq2. clear El.
  pose proof (same_regions _ _ (mv_same _ _ Hm)) as Hregs.
  apply (remove_inv (Region ib isz true) (with_region (Region base size false) (regions (io_of x)))) in Er2 as ->; [|exact Hregs|done|by apply with_region_sized].
  apply (remove_inv (Region base size false) (regions (io_of x))) in Er1 as ->; [|done..].
  apply handler_done; [done| | |done|done|].
  - by apply (quiet_regions _ _ (set_io _ _)), (quiet_regions _ _ (set_io _ _)), quiet_spec.
  - cbn. rewrite !alter_twice. by apply (Hnodes 0).
  - destruct (Z.eqb_spec rc 0) as [->|_]; [|discriminate]. intros _ Hr3. destruct (Hacc eq_refl) as (alg & digest & Ha & Hc).
    exists alg, digest, (image_size i'). split; [exact Ha|]. unfold compared, by_digest in Hc. cbn [image_base image_size image_max_size] in Hc.
    rewrite (proj2 (Z.eqb_neq r3 _) Hr3), Hdis, andb_false_r in Hc. apply Hc; [done|].
    apply orb_false_elim in Hzero as [Hz%Z.eqb_neq _]. unfold is_u32 in Hr1. lia.
Qed.

(** ** Calls *)

(** Once the kernel has been started, what it was started with stays. *)
Record steady (burns : bool) x x' : Prop := {
  sd_regions : regions (io_of x') = regions (io_of x);
  sd_mode : hash_mode (secure_data (io_of x')) = hash_mode (secure_data (io_of x));
  sd_fuses : burns = false -> secure_data (io_of x') = secure_data (io_of x);
  sd_kernel : kernel_boot_once_flag x <> 0 -> kernel_boot_once_flag x' = kernel_boot_once_flag x /\ k_info x' = k_info x
}.

#[export] Instance steady_preorder burns : PreOrder (steady burns).
Proof.
  split; [by intros x|]. intros x1 x2 x3 [? ? F1 K1] [? ? F2 K2]. split; [congruence..|intros Hb; by rewrite F2, F1|]. intros Hf. destruct (K1 Hf) as [E1 E2].
  rewrite <- E1, <- E2. apply K2. by rewrite E1.
Qed.

Lemma fixed_steady burns x x' : fixed x x' -> steady burns x x'.
Proof. intros [? F ?]. by split; rewrite ?F. Qed.

Lemma handler_steady burns x x' : sip_ok x -> quiet (secure_data (io_of x)) (s_auth x') -> nodes_ok (bl_mem_params x') ->
  regions (io_of x') = regions (io_of x) -> kernel_boot_once_flag x' = kernel_boot_once_flag x /\ k_info x' = k_info x ->
  sip_ok x' /\ steady burns x x'.
Proof. intros. destruct (handler_done x x' True) as (? & ?%(fixed_steady burns) & _); done. Qed.

(** A run that leaves the service as it should be. *)
Definition safe (burns : bool) {A} (m : M sip_st A) : Prop :=
  forall x r x', sip_ok x -> m x = Done (r, x') -> sip_ok x' /\ steady burns x x'.


Lemma safe_ret {A} b (r : A) : safe b (ret r).
Proof. by intros x r' x' Hok [= <- <-]. Qed.

Lemma safe_gets {A} b (f : sip_st -> A) : safe b (gets f).
Proof. by intros x r' x' Hok [= <- <-]. Qed.

Lemma safe_bind {A B} b (m : M sip_st A) (f : A -> M sip_st B) : safe b m -> (forall r, safe b (f r)) -> safe b (bind m f).
Proof.
  intros Hm Hf x r x' Hok Hrun. inv_bind Hrun a x1 E. destruct (Hm _ _ _ Hok E) as [Hok1 Hs1].
  destruct (Hf a _ _ _ Hok1 Hrun) as [Hok2 Hs2]. split; [done|by etrans].
Qed.

(** The hardware and the frequency are no part of what is kept. *)
Lemma safe_on_hw {A} b (f : hw -> A * hw) : safe b (on_hw f).
Proof. intros x r x' [] Hrun. unfold on_hw, act in Hrun. destruct (f (s_hw x)) as [r' h]. by injection Hrun as <- <-. Qed.

Lemma safe_oriarmpll b (f : sip_st -> Z) : safe b (modify (fun x => set_oriarmpll (f x) x)).
Proof. intros x r x' [] Hrun. by injection Hrun as _ <-. Qed.

Lemma safe_verify b id r1 r2 r3 : safe b (ecnt_verify_handler toc_fuel id r1 r2 r3).
Proof. intros x v x' Hok Hrun. destruct (verify_sound _ _ _ _ _ _ _ Hok Hrun) as (? & ?%(fixed_steady b) & _). done. Qed.

Lemma safe_decrypt b id r1 r2 r3 : is_u32 r1 -> safe b (ecnt_decrypt_handler toc_fuel id r1 r2 r3).
Proof. intros Hr x v x' Hok Hrun. destruct (decrypt_sound _ _ _ _ _ _ _ Hr Hok Hrun) as (? & ?%(fixed_steady b) & _). done. Qed.

Lemma safe_avs b r1 r2 r3 : safe b (ecnt_avs_handler r1 r2 r3).
Proof.
  unfold ecnt_avs_handler. repeat first [apply safe_ret|apply safe_gets|apply safe_on_hw|apply safe_oriarmpll|
    apply safe_bind; [|intros ?]|match goal with |- safe _ (if ?b then _ else _) => destruct b end].
Qed.

Lemma safe_boot b v1 v2 v3 v4 : safe b (boot_to_kernel v1 v2 v3 v4).
Proof.
  intros x r x' [] Hrun. unfold boot_to_kernel, bind, gets in Hrun.
  destruct (Z.eqb_spec (kernel_boot_once_flag x) 0) as [E|_]; injection Hrun as _ <-; [|done]. by split; split.
Qed.

(** What the fuse driver promises: its functions do not change the hash mode
    in the copy of the fuses. *)
Definition keeps_mode (r : Z * list fill * hw) : Prop :=
  Forall (fun w => 0 <= snd w /\ forall d d', length d = 160%nat -> fill_secure_data d (fst w) (snd w) = Some d' -> hash_mode d' = hash_mode d) (snd (fst r)).

Class FuseLaws : Prop := {
  pkgid_mode v1 v2 h : keeps_mode (efuse_write_pkgid v1 v2 h);
  secure_key_mode k h : keeps_mode (efuse_write_secure_key k h);
  test_mode v1 v2 h : keeps_mode (efuse_test v1 v2 h);
  check_key_mode v1 h : keeps_mode (efuse_check_secure_key v1 h)
}.

Lemma run_fills_mode l d d' : Forall (fun w => 0 <= snd w /\ forall d d', length d = 160%nat -> fill_secure_data d (fst w) (snd w) = Some d' -> hash_mode d' = hash_mode d) l ->
  length d = 160%nat -> run_fills l d = Some d' -> length d' = 160%nat /\ hash_mode d' = hash_mode d.
Proof.
  intros Hl. revert d. induction Hl as [|[b o] l [Ho Hm] _ IH]; intros d Hd; cbn [run_fills fst snd] in *; [by intros [= <-]|].
  destruct (fill_secure_data d b o) as [d1|] eqn:E; cbn [mbind option_bind]; [|done]. specialize (Hm _ _ Hd E).
  unfold fill_secure_data in E. destruct (Z.leb_spec (o + Z.of_nat (length b)) 160); [|done]. injection E as <-.
  intros Hr. apply IH in Hr as [Hl' Hm']; [by rewrite Hm', Hm|]. rewrite splice_length; lia.
Qed.

Lemma settled_fuses d a : settled a -> length d = 160%nat -> hash_mode d = hash_mode (secure_data (a_io a)) ->
  settled (set_io (set_secure_data d (a_io a)) a).
Proof.
  intros [[[] ? ?] [] (Hr & Hl & Hm) ?] Hd E. split; [by split; [split|..]|by split| |done].
  split; [done|]. split; [done|]. simpl. by rewrite E.
Qed.

Lemma safe_on_fuses (f : hw -> Z * list fill * hw) : (forall h, keeps_mode (f h)) -> safe true (on_fuses f).
Proof.
  intros Hf x r x' Hok Hrun. unfold on_fuses in Hrun. specialize (Hf (s_hw x)). destruct (f (s_hw x)) as [[r' l] h].
  destruct (run_fills _ _) as [d|] eqn:E; [|done]. injection Hrun as <- <-. destruct Hok as [Hs Hc Hn Hr].
  apply (run_fills_mode _ _ _ Hf) in E as [Hd Hm]; [|apply Hs].
  split; [split; [by apply settled_fuses|done..]|]. by split.
Qed.

Context `{HFuse : FuseLaws}.

Lemma safe_efuse r1 r2 r3 : safe true (ecnt_efuse_handler r1 r2 r3).
Proof.
  unfold ecnt_efuse_handler. destruct (_ =? _); [apply safe_on_fuses, pkgid_mode|]. destruct (_ =? _).
  2: { destruct (_ =? _); [apply safe_on_fuses, test_mode|]. destruct (_ =? _); [apply safe_on_fuses, check_key_mode|]. apply safe_ret. }
  cbv zeta. generalize (u32 (r3 + (PAGE_SIZE - r3 mod PAGE_SIZE))); intros size x v x' Hok Hrun.
  inv_bind Hrun rc x1 E. apply add_inv in E. destruct (Z.eqb_spec rc 0) as [->|_]; [|by injection Hrun as <- <-; subst x1].
  destruct E as [-> Hst]. inv_bind Hrun key x2 E. apply on_map_inv in E as (s & (-> & ->)%load_mem_same & ->).
  inv_bind Hrun status x3 E. unfold on_fuses in E.
  change (s_hw (upd_io _ _)) with (s_hw x) in E. match type of E with context [efuse_write_secure_key ?k ?h] => pose proof (secure_key_mode k h) as Hk end. destruct (efuse_write_secure_key _ _) as [[st l] h].
  destruct (run_fills _ _) as [d|] eqn:Ed; [|done]. injection E as <- <-.
  inv_bind Hrun rc x4 Er. injection Hrun as <- <-.
  apply (remove_inv (Region r2 size false) (regions (io_of x))) in Er as ->; [|done|done|apply Hok].
  apply (run_fills_mode _ _ _ Hk) in Ed as [Hd Hm]; [|apply Hok]. destruct Hok as [Hs Hc Hn Hr].
  split; [split; [|exact Hc|exact Hn|exact Hr]|by split].
  apply (settled_fuses d (s_auth x)) in Hs; [|done..]. exact (settled_regions (regions (io_of x)) _ Hs).
Qed.

Lemma safe_answer b (m : M sip_st Z) : safe b m -> safe b (let! r := m in ret [smc_ret r]).
Proof. intros Hm. apply safe_bind; [done|intros r; apply safe_ret]. Qed.

Lemma safe_smc fid v1 v2 v3 v4 ns : safe (fid =? ECNT_SIP_EFUSE_HANDLE) (sip_smc_handler toc_fuel fid v1 v2 v3 v4 ns).
Proof.
  unfold sip_smc_handler, ecnt_sip_handler. destruct (fid =? ECNT_SIP_EFUSE_HANDLE);
  repeat first [apply safe_ret|apply safe_answer|apply safe_efuse|apply safe_gets|apply safe_verify|apply safe_decrypt, u32_is|apply safe_avs|
    apply safe_bind; [apply safe_boot|intros ?]|match goal with |- safe _ (if ?b then _ else _) => destruct b end].
Qed.

(** Any sequence of calls. *)
Record smc := Smc { smc_fid : Z; smc_x1 : Z; smc_x2 : Z; smc_x3 : Z; smc_x4 : Z; smc_ns : bool }.

Fixpoint smc_run (l : list smc) : M sip_st (list (list Z)) :=
  match l with
  | [] => ret []
  | c :: l' =>
      let! r := sip_smc_handler toc_fuel (smc_fid c) (smc_x1 c) (smc_x2 c) (smc_x3 c) (smc_x4 c) (smc_ns c) in
      let! rs := smc_run l' in ret (r :: rs)
  end.

(** The calls that burn fuses. *)
Definition burns (l : list smc) : bool := existsb (fun c => smc_fid c =? ECNT_SIP_EFUSE_HANDLE) l.

Lemma safe_weaken b b' {A} (m : M sip_st A) : (b = true -> b' = true) -> safe b m -> safe b' m.
Proof.
  intros Hb Hm x r x' Hok Hrun. destruct (Hm x r x' Hok Hrun) as [? [R Mo Fu K]]. split; [done|]. split; [done|done| |done].
  intros ->. apply Fu. destruct b; [by destruct (Hb eq_refl)|done].
Qed.

Lemma safe_run l : safe (burns l) (smc_run l).
Proof.
  induction l as [|c l IH]; cbn [smc_run]; [apply safe_ret|]. apply safe_bind.
  { eapply safe_weaken, safe_smc. unfold burns. cbn [existsb]. by intros ->. }
  intros r. apply safe_bind; [|intros rs; apply safe_ret]. eapply safe_weaken, IH.
  unfold burns. cbn [existsb]. intros ->. by rewrite orb_true_r.
Qed.
End sip.
