(* ===== verification/AtfSecure.v ===== *)
(** What the authentication promises: an image that is accepted is vouched for
    by a chain of certificates from the root of trust, the secure service
    declares no other image good and keeps its state, and the counters of the
    certificates are never raised. *)

From stdpp Require Import base numbers list option strings.
From Stdlib Require Import ZArith Lia.
From S2P Require Import Prelude Fip Ram AtfIo AtfPlat AtfLoad AtfLoadProps AtfProps AtfCert AtfCot AtfAuth AtfChain AtfSip AtfTrust AtfBoot AtfSipProps.

(** ** Counters *)

Definition be_val (l : list Z) : Z := foldl (fun acc c => 256 * acc + c) 0 l.

Section counter.
Context `{Board} `{CotSizes} `{Crypto}.
Implicit Types (a : auth_st) (d : auth_img_desc) (img bs : list Z).

Lemma be_val_app l c : be_val (l ++ [c]) = 256 * be_val l + c.
Proof. unfold be_val. by rewrite foldl_app. Qed.

Lemma be_val_bound l : bytes l -> 0 <= be_val l < 256 ^ Z.of_nat (length l).
Proof.
  induction l as [|c l IH] using rev_ind; intros Hl; [done|]. apply Forall_app in Hl as [Hl [Hc _]%Forall_cons].
  rewrite be_val_app, length_app, Nat2Z.inj_add, Z.pow_add_r by lia. specialize (IH Hl). unfold is_u8 in Hc.
  change (256 ^ Z.of_nat (length [c])) with 256. lia.
Qed.

(** Each byte is shifted in at the end. *)
Lemma lor_byte n c : 0 <= n -> is_u8 c -> Z.lor (Z.shiftl n 8) c = 256 * n + c.
Proof.
  intros Hn Hc. unfold is_u8 in Hc.
  assert (Z.land (Z.shiftl n 8) c = 0) as E.
  { replace c with (c mod 2 ^ 8) by (apply Z.mod_small; lia). apply Z.bits_inj'. intros k Hk. rewrite Z.land_spec, Z.bits_0.
    destruct (Z.lt_ge_cases k 8); [by rewrite Z.shiftl_spec_low|rewrite Z.mod_pow2_bits_high by lia; apply andb_false_r]. }
  rewrite <- Z.lxor_lor, <- Z.add_nocarry_lxor, Z.shiftl_mul_pow2 by done. lia.
Qed.

Lemma shift_in n c : 0 <= n < 2 ^ 24 -> is_u8 c -> u32 (Z.lor (u32 (Z.shiftl n 8)) c) = 256 * n + c.
Proof.
  intros Hn Hc. assert (u32 (Z.shiftl n 8) = Z.shiftl n 8) as ->.
  { rewrite Z.shiftl_mul_pow2 by lia. apply Z.mod_small. lia. }
  rewrite lor_byte by (done || lia). unfold is_u8 in Hc. apply Z.mod_small. lia.
Qed.

(** The bytes behind [p]. *)
Definition stored img (p : Z) (l : list Z) : Prop := forall k c, l !! k = Some c -> byte_at img (p + Z.of_nat k) = Done c.

Lemma stored_app img p l1 l2 : stored img p (l1 ++ l2) -> stored img p l1 /\ stored img (p + Z.of_nat (length l1)) l2.
Proof.
  intros Hs. split; intros k c Hk.
  - apply Hs. by rewrite lookup_app_l by (by eapply lookup_lt_Some).
  - rewrite <- Z.add_assoc, <- Nat2Z.inj_add. apply Hs. rewrite lookup_app_r by lia. by replace (length l1 + k - length l1)%nat with k by lia.
Qed.

Lemma ctr_value_run img l : forall p pre, stored img p l -> bytes (pre ++ l) -> (length (pre ++ l) <= 4)%nat ->
  ctr_value img (length l) p (be_val pre) = Done (be_val (pre ++ l)).
Proof.
  induction l as [|c l IH]; intros p pre Hs Hb Hl; cbn [ctr_value length]; [by rewrite app_nil_r|].
  pose proof (Hs 0%nat c eq_refl) as Hc. rewrite Z.add_0_r in Hc. rewrite Hc. cbn [obind].
  apply Forall_app in Hb as Hb'. destruct Hb' as [Hpre [Hc8 _]%Forall_cons]. rewrite length_app in Hl. simpl in Hl.
  pose proof (be_val_bound pre Hpre) as Hbound.
  assert (be_val pre < 2 ^ 24).
  { eapply Z.lt_le_trans; [apply Hbound|]. change (2 ^ 24) with (256 ^ 3). apply Z.pow_le_mono_r; lia. }
  rewrite shift_in, <- be_val_app by (done || lia). rewrite (IH (p + 1) (pre ++ [c])); rewrite <- ?app_assoc; [done| |done|].
  - apply (stored_app img p [c] l). done.
  - rewrite length_app. simpl. lia.
Qed.

(** An integer in DER, of up to four bytes and not negative. *)
Definition der_counter bs : list Z := ASN1_INTEGER :: Z.of_nat (length bs) :: bs.

Lemma nv_ctr_run img p bs c bs' : stored img p (der_counter bs) -> bs = c :: bs' -> c < 128 -> bytes bs -> (length bs <= 4)%nat ->
  nv_ctr_at img p = Done (Some (be_val bs)).
Proof.
  intros Hs E Hc Hb Hl. pose proof (Hs 0%nat _ eq_refl) as H0s. pose proof (Hs 1%nat _ eq_refl) as H1s.
  assert (byte_at img (p + 2) = Done c) as H2s by (apply (Hs 2%nat); by rewrite E).
  unfold nv_ctr_at. rewrite Z.add_0_r in H0s. rewrite H0s. cbn [obind]. change (ASN1_INTEGER =? ASN1_INTEGER) with true. cbn [negb].
  change (p + Z.of_nat 1) with (p + 1) in H1s. rewrite H1s. cbn [obind].
  assert (Z.of_nat (length bs) = 1 \/ Z.of_nat (length bs) = 2 \/ Z.of_nat (length bs) = 3 \/ Z.of_nat (length bs) = 4) as Hcase by (subst; simpl in *; lia).
  assert (negb (Z.land (Z.of_nat (length bs)) 0x80 =? 0) || (4 <? Z.land (Z.of_nat (length bs)) 0x7f) = false) as ->
    by (by destruct Hcase as [->|[->|[->| ->]]]).
  assert (Z.to_nat (Z.land (Z.of_nat (length bs)) 0x7f) = length bs) as ->.
  { apply Nat2Z.inj. by destruct Hcase as [->|[->|[->| ->]]]. }
  rewrite H2s. cbn [obind].
  assert (Z.land c 0x80 = 0) as ->.
  { assert (0 <= c) by (subst; by apply Forall_cons in Hb as [[] _]). change 0x80 with (Z.shiftl 1 7). apply Z.bits_inj'. intros k Hk.
    rewrite Z.land_spec, Z.bits_0. replace c with (c mod 2 ^ 7) by (apply Z.mod_small; lia).
    destruct (Z.lt_ge_cases k 7); [by rewrite (Z.shiftl_spec_low 1), andb_false_r|by rewrite Z.mod_pow2_bits_high by lia]. }
  cbn [negb Z.eqb]. apply (stored_app img p [ASN1_INTEGER; Z.of_nat (length bs)] bs) in Hs as [_ Hs].
  by rewrite (ctr_value_run img bs (p + 2) [] Hs Hb Hl : ctr_value img (length bs) (p + 2) 0 = Done (be_val bs)).
Qed.

(** C39: The counter of a certificate is compared with a platform counter that
    is always 0 and cannot be raised: a certificate whose counter is 0 passes,
    and one with any other counter (a DER integer of one to four bytes, not
    negative) is refused, so an update with a higher counter never gets in. *)
Theorem nv_counter_never_advances cert_nv_ctr d img a p n bs c bs' :
  img_parser_get_auth_param (id_type d) cert_nv_ctr img a = Done ((IMG_PARSER_OK, p, n), a) ->
  stored img p (der_counter bs) -> bs = c :: bs' -> c < 128 -> bytes bs -> (length bs <= 4)%nat ->
  auth_nvctr cert_nv_ctr d img a = Done (if be_val bs =? 0 then 0 else 1, a).
Proof.
  intros Hp Hs E Hc Hb Hl. unfold auth_nvctr. rewrite (bind_run _ _ _ _ _ Hp). change (IMG_PARSER_OK =? 0) with true. cbn [negb].
  rewrite (nv_ctr_run img p bs c bs') by done. unfold lift_outcome, bind, plat_get_nv_ctr. cbn [negb Z.eqb].
  pose proof (be_val_bound bs Hb). rewrite (proj2 (Z.ltb_ge (be_val bs) 0)) by lia.
  destruct (Z.ltb_spec 0 (be_val bs)); [by rewrite (proj2 (Z.eqb_neq (be_val bs) 0)) by lia|by rewrite (proj2 (Z.eqb_eq (be_val bs) 0)) by lia].
Qed.
End counter.

(** ** Images *)

Section images.
Context `{Board} `{Gcm} `{CotSizes} `{Crypto} (toc_fuel : nat).
Implicit Types (a : auth_st) (i : image_info) (d : auth_img_desc).

(** C13: Images of every boot stage: when [load_auth_image] answers 0 for an
    image, and no image was marked as authenticated before, there is a chain
    of certificates from one signed with the key of the fuses, each signed
    with a key that the one before it vouches for, and the last one vouches for
    the digest of exactly the bytes that now lie at the image's address.  Given: authentication is not
    switched off, the storage layer is idle and ready, and GCM makes bytes of bytes. *)
Theorem load_auth_image_trusted id d p h i a i' a' :
  gcm_bytes -> disable_auth = false -> cot_desc id = Some d -> image_desc d p h ->
  settled a -> clear a -> is_u32 (image_size i) ->
  load_auth_image toc_fuel id i a = Done ((0, i'), a') ->
  image_base i' = image_base i /\
  exists b c der, trusted (secure_data (a_io a)) p b c /\ vouches b c h der /\
    hash_ok a' (ram_bytes (mem (a_io a')) (image_base i') (image_size i')) der.
Proof.
  intros Hgcm Hdis Hd Hdesc Hst Hcl Hi Hrun. destruct (load_auth_moved toc_fuel Hgcm id d i a _ _ _ Hdis Hd Hst Hrun) as (_ & Hs & _).
  split; [apply Hs|]. destruct (load_auth_accepted toc_fuel Hgcm id d i a _ _ Hdis Hd Hst Hcl Hi Hrun) as [_ Hacc]. by apply Hacc.
Qed.

(** C3: A boot stage that loads any number of images, one after the other and
    each with any answer, from a state where no image is marked: certificates
    that were accepted once are not loaded again, and still every image that is
    accepted has the digest that its own content certificate vouches for, a
    certificate signed with a key that comes, through accepted certificates,
    from the key of the fuses. *)
Theorem boot_images_trusted l a rs a1 id d p h i i' a2 :
  gcm_bytes -> disable_auth = false -> settled a -> clear a -> Forall (fun x => is_u32 (image_size (snd x))) l ->
  load_all toc_fuel l a = Done (rs, a1) ->
  cot_desc id = Some d -> image_desc d p h -> is_u32 (image_size i) ->
  load_auth_image toc_fuel id i a1 = Done ((0, i'), a2) ->
  exists b c der, rooted (secure_data (a_io a)) p b c /\ vouches b c h der /\
    hash_ok a2 (ram_bytes (mem (a_io a2)) (image_base i') (image_size i')) der.
Proof.
  intros Hgcm Hdis Hst Hcl Hl Hrun Hd Hdesc Hi Hload.
  pose proof (load_all_sound toc_fuel Hgcm Hdis l a rs a1 Hl Hst (clear_sound _ a Hcl) Hrun) as [Hm _ Hs].
  destruct (load_auth_sound toc_fuel Hgcm Hdis id d i a1 0 i' a2 Hd (mv_settled _ _ Hm) Hi (Hs (clear_sound _ a Hcl)) Hload) as [_ Hacc].
  rewrite (moved_fuses_of _ _ Hm) in Hacc. by apply (image_rooted_cert id d p h _ a2 i' Hd Hdesc (Hacc eq_refl)).
Qed.
End images.

(** ** The service *)

Section service.
Context `{Board} `{Gcm} `{CotSizes} `{Crypto} `{Xlat} `{SipHost} (toc_fuel : nat).
Implicit Types (x : sip_st).

(** C5: The verification call answers success only when the digest in the
    caller's memory is one that a chain of certificates, found in the caller's
    package and signed up to the key of the fuses, vouches for.  Whatever it
    answers, both mappings are removed again, the drivers are idle, the
    secure memory is described as before, neither the fuses nor the kernel
    entry have changed, and of the memory only the firmware's own. *)
Theorem verify_handler_sound id r1 r2 r3 x v x' :
  IMAGE_BL31 = true -> disable_auth = false -> gcm_bytes -> sip_ok x ->
  ecnt_verify_handler toc_fuel id r1 r2 r3 x = Done (v, x') ->
  sip_ok x' /\ fixed x x' /\ firmware_only (mem (io_of x)) (mem (io_of x')) /\
  (v = ECNT_SIP_E_SUCCESS -> exists md_alg digest, authentic (secure_data (io_of x)) id md_alg digest /\
     ram_bytes (mem (io_of x')) r1 (md_size md_alg) = digest).
Proof. intros Hbl Hdis Hgcm. by apply verify_sound. Qed.

(** C11: The decryption call answers success only when a digest that a chain of
    certificates from the key of the fuses vouches for is the digest of the bytes
    it has left at the destination, and there is at least one of them; this
    needs a destination other than [TZRAM2_BASE], the memory of the firmware
    itself ([decrypt_wraps_into_firmware] shows what happens there).  Whatever
    it answers, mappings and state are as before the call. *)
Theorem decrypt_handler_sound id r1 r2 r3 x v x' :
  IMAGE_BL31 = true -> disable_auth = false -> gcm_bytes -> is_u32 r1 -> sip_ok x ->
  ecnt_decrypt_handler toc_fuel id r1 r2 r3 x = Done (v, x') ->
  sip_ok x' /\ fixed x x' /\
  (v = ECNT_SIP_E_SUCCESS -> r3 <> TZRAM2_BASE -> exists md_alg digest sz, authentic (secure_data (io_of x)) id md_alg digest /\
     0 < sz /\ md_hash md_alg (ram_bytes (mem (io_of x')) r3 sz) = Some digest).
Proof. intros Hbl Hdis Hgcm. by apply decrypt_sound. Qed.

End service.

(** ** A board, a certificate and a package *)

Definition tlv (tag : Z) (l : list Z) : list Z :=
  let n := Z.of_nat (length l) in
  tag :: (if n <? 128 then [n] else [0x82; Z.shiftr n 8; Z.land n 255]) ++ l.

Definition demo_oid (arcs : list Z) : list Z := tlv ASN1_OID ([0x2b; 0x06; 0x01; 0x04; 0x01; 0xa0; 0x20; 0x90; 0x34] ++ arcs).
Definition demo_extension (arcs value : list Z) : list Z := tlv ASN1_SEQUENCE (demo_oid arcs ++ tlv ASN1_OCTET_STRING value).

Definition demo_algorithm : list Z := tlv ASN1_SEQUENCE (tlv ASN1_OID [0x2A; 0x03]).
Definition demo_key : list Z := tlv ASN1_SEQUENCE [0x11; 0x22].

(** A digest of 32 bytes. *)
Definition demo_hash (l : list Z) : list Z := replicate 32 (u8 (foldl (fun acc c => 3 * acc + c) 1 l)).
Definition demo_info (l : list Z) : list Z := SHA256_DER ++ demo_hash l.

Definition demo_image : list Z := [1; 2; 3; 4].

(** A certificate for the key [key] with a counter and other extensions. *)
Definition make_tbs (key ctr_oid : list Z) (ctr : Z) (extensions : list Z) : list Z :=
  tlv ASN1_SEQUENCE (
    tlv (ASN1_CONTEXT 0) [] ++ tlv ASN1_INTEGER [] ++ demo_algorithm ++
    tlv ASN1_SEQUENCE [] ++ tlv ASN1_SEQUENCE [] ++ tlv ASN1_SEQUENCE [] ++ key ++
    tlv (ASN1_CONTEXT 3) (tlv ASN1_SEQUENCE (demo_extension ctr_oid (tlv ASN1_INTEGER [ctr]) ++ extensions))).

(** A signature of two bytes. *)
Definition sign (key hash : list Z) : list Z := [u8 (hd 0 hash + foldl Z.add 0 key); 0x44].

Definition make_cert (signer key ctr_oid : list Z) (ctr : Z) (extensions : list Z) : list Z :=
  let t := make_tbs key ctr_oid ctr extensions in
  tlv ASN1_SEQUENCE (t ++ demo_algorithm ++ tlv ASN1_BIT_STRING (0x00 :: sign signer (demo_hash t))).

Definition demo_cert (ctr : Z) : list Z :=
  make_cert demo_key demo_key [1] ctr (
    demo_extension [0x81; 0x49] (demo_info demo_image) ++
    demo_extension [0x81; 0x4a] (demo_info []) ++
    demo_extension [0x81; 0x4b] (demo_info [])).

Definition cert_offset : Z := 0x88.
Definition image_offset : Z := 0x400.
Definition trusted_package : list Z :=
  let head := [0x01; 0x00; 0x64; 0xAA; 0x78; 0x56; 0x34; 0x12] ++ replicate 8 0 ++
    demo_entry tb_fw_cert_uuid_spec cert_offset (Z.of_nat (length (demo_cert 0))) 0 ++
    demo_entry bl2_uuid_spec image_offset (Z.of_nat (length demo_image)) 0 ++
    demo_entry uuid_null 0 0 0 ++ demo_cert 0 in
  head ++ replicate (Z.to_nat image_offset - length head) 0 ++ demo_image.

Definition secure_board : Board :=
  {| static_regions := [Region TZRAM2_BASE TZRAM2_SIZE true]; TCSUPPORT_OPTEE := false; IMAGE_BL31 := true; disable_auth := false |}.
Definition secure_sizes : CotSizes := {| PK_DER_LEN := 294; HASH_DER_LEN := 83 |}.

(** One digest, and the signature [sign]. *)
Definition secure_crypto : Crypto :=
  {| md_of_oid oid := if bool_decide (oid = [0x60; 0x86; 0x48; 0x01; 0x65; 0x03; 0x04; 0x02; 0x01]) then Some 6 else None;
     md_size _ := 32; md_hash _ l := Some (demo_hash l); pk_ctx := list Z; pk_opts := unit;
     get_sig_alg _ _ := Some (6, 1, tt); parse_subpubkey := Some; md_known _ := true;
     pk_verify_ext _ _ key _ hash signature :=
       if bool_decide (signature = sign key hash) then 0 else 1 |}.
Definition secure_xlat : Xlat := {| mmap_num := 8; va_max_address := 0xFFFFFFFF; tables_suffice _ _ := true |}.
Definition secure_host : SipHost :=
  {| hw := list Z; efuse_write_pkgid a b h := (0, [([a; b], 8)], a :: b :: h); efuse_write_secure_key k h := (0, [(k, 80)], h);
     efuse_test _ _ h := (0, [], h); efuse_check_secure_key _ h := (0, [], h); read_iddq _ := 7; curr_armpll_clk_get _ := 1;
     cpu_freq_enum_get _ := 0; en7523_armpll_set f h := (0, f :: h); bl31_prepare_kernel_entry k h := k_pc k :: h |}.

Definition package_base : Z := 0x81000000.
Definition digest_base : Z := 0x81002000.
Definition target_base : Z := 0x81004000.
Definition secure_ram : ram_t :=
  ram_store (ram_store (fun _ => 0) package_base trusted_package) digest_base (demo_hash demo_image).
Definition secure_fuses : secure_efuse := replicate 16 0 ++ demo_hash demo_key ++ replicate 112 0.

Definition secure_auth : auth_st :=
  AuthSt (io_start secure_ram (0, 0) secure_fuses) (fun _ => replicate 83 0) (fun _ => 0) no_crt (SHA256_DER ++ replicate 64 0) 0.

Definition secure_start : @sip_st secure_host := @SipSt secure_host secure_auth bl31_mem_params_descs 0 0 (KInfo 0 0 0 0 0) [].

#[local] Existing Instances secure_board demo_gcm secure_sizes secure_crypto secure_xlat secure_host.

Lemma demo_gcm_bytes : gcm_bytes (H0 := demo_gcm).
Proof. intros k l _. split; [|apply length_fmap]. apply Forall_fmap, Forall_true. intros x. by apply Z.mod_pos_bound. Qed.

Lemma secure_ram_ok x : is_u8 (secure_ram x).
Proof.
  unfold secure_ram. apply ram_store_bytes; [apply ram_store_bytes; [by intros y|]|];
    unfold bytes, is_u8; apply (bool_decide_unpack _); by vm_compute.
Qed.

Lemma secure_auth_ok : settled secure_auth /\ clear secure_auth.
Proof.
  destruct (io_start_ready secure_ram (0, 0) secure_fuses). split; [|done]. split; [done|done|by vm_compute|]. intros x. apply secure_ram_ok.
Qed.

Lemma secure_start_ok : sip_ok secure_start.
Proof. split; [apply secure_auth_ok|apply secure_auth_ok|apply bl31_nodes|by vm_compute; constructor]. Qed.

(** The value that a run answers. *)
Definition answer {S A} (o : outcome (A * S)) : option A := match o with Done (r, _) => Some r | _ => None end.

Lemma answered {S A} (o : outcome (A * S)) r : answer o = Some r -> exists s, o = Done (r, s).
Proof. destruct o as [[r' s]| |]; [|done..]. intros [= ->]. by exists s. Qed.

Lemma answered_with {S A B} (o : outcome (A * S)) (f : S -> B) r b :
  (match o with Done (r', s) => Some (r', f s) | _ => None end) = Some (r, b) -> exists s, o = Done (r, s) /\ f s = b.
Proof. destruct o as [[r' s]| |]; [|done..]. intros [= -> <-]. by exists s. Qed.

Lemma verify_handler_sound_witness : exists x',
  ecnt_verify_handler 8 BL2_IMAGE_ID digest_base package_base 0x1000 secure_start = Done (ECNT_SIP_E_SUCCESS, x') /\ sip_ok x' /\
  exists md_alg digest, authentic secure_fuses BL2_IMAGE_ID md_alg digest /\ ram_bytes (mem (io_of x')) digest_base 32 = digest.
Proof.
  destruct (answered (ecnt_verify_handler 8 BL2_IMAGE_ID digest_base package_base 0x1000 secure_start) ECNT_SIP_E_SUCCESS) as [x' E]; [by vm_compute|].
  destruct (verify_handler_sound (H := secure_board) 8 BL2_IMAGE_ID digest_base package_base 0x1000 secure_start ECNT_SIP_E_SUCCESS x' eq_refl eq_refl demo_gcm_bytes secure_start_ok E) as (Hok & _ & _ & Hv).
  exists x'. split; [exact E|]. split; [exact Hok|]. by apply Hv.
Defined.

Lemma decrypt_handler_sound_witness : exists x',
  ecnt_decrypt_handler 8 BL2_IMAGE_ID 4 package_base target_base secure_start = Done (ECNT_SIP_E_SUCCESS, x') /\ sip_ok x' /\
  exists md_alg digest sz, authentic secure_fuses BL2_IMAGE_ID md_alg digest /\ 0 < sz /\ demo_hash (ram_bytes (mem (io_of x')) target_base sz) = digest.
Proof.
  destruct (answered (ecnt_decrypt_handler 8 BL2_IMAGE_ID 4 package_base target_base secure_start) ECNT_SIP_E_SUCCESS) as [x' E]; [by vm_compute|].
  destruct (decrypt_handler_sound (H := secure_board) 8 BL2_IMAGE_ID 4 package_base target_base secure_start ECNT_SIP_E_SUCCESS x' eq_refl eq_refl demo_gcm_bytes) as (Hok & _ & Hv);
    [by split|exact secure_start_ok|exact E|].
  exists x'. split; [exact E|]. split; [exact Hok|]. destruct (Hv eq_refl) as (alg & digest & sz & Ha & Hsz & Hh); [done|].
  exists alg, digest, sz. split; [exact Ha|]. split; [exact Hsz|]. by injection Hh.
Defined.

(** With the firmware's own memory as its destination the decryption call
    compares a digest, like the verification, with the one at the address that
    the last verification was given.  The table refuses to map that memory,
    but [r1 + r3] wraps around for an [r1] in the last page, and the region to
    map is empty.  Here the normal world has a package verified, with its
    digest right behind, and asks for its decryption then: the call answers
    success, and the bytes at the destination are those that were there
    before. *)
Definition digest_behind : Z := package_base + 0x1000.
Definition wrapped_start : @sip_st secure_host :=
  @SipSt secure_host
    (set_io (set_mem (ram_store (ram_store (fun _ => 0) package_base trusted_package) digest_behind (demo_hash demo_image))
      (a_io secure_auth)) secure_auth) bl31_mem_params_descs 0 0 (KInfo 0 0 0 0 0) [].

Definition wrapped_calls : M (@sip_st secure_host) (Z * Z * bool) :=
  let! v1 := ecnt_verify_handler 8 BL2_IMAGE_ID digest_behind package_base 0x1000 in
  let! m1 := gets (fun x => mem (io_of x)) in
  let! v2 := ecnt_decrypt_handler 8 BL2_IMAGE_ID 0xFFFFFFFF package_base TZRAM2_BASE in
  let! m2 := gets (fun x => mem (io_of x)) in
  ret (v1, v2, bool_decide (ram_bytes m2 TZRAM2_BASE 0x1000 = ram_bytes m1 TZRAM2_BASE 0x1000)).

Theorem decrypt_wraps_into_firmware :
  answer (wrapped_calls wrapped_start) = Some (ECNT_SIP_E_SUCCESS, ECNT_SIP_E_SUCCESS, true).
Proof. vm_compute. reflexivity. Qed.

Lemma fill_behind_flags d l o d' : 4 <= o -> fill_secure_data d l o = Some d' -> length d = 160%nat ->
  hash_mode d' = hash_mode d.
Proof.
  unfold fill_secure_data, hash_mode, splice. intros Ho E Hd. destruct (_ <=? _); [|done]. injection E as <-.
  rewrite take_app_le by (rewrite length_take; lia). by rewrite take_take, Nat.min_l by lia.
Qed.

#[local] Instance secure_fuse_laws : FuseLaws.
Proof.
  split; intros; unfold keeps_mode; cbn; repeat constructor; try done; intros d d' Hd E; by apply (fill_behind_flags d _ _ d') in E.
Qed.

(** Two kernels and a verification in between: the first one stays; and a
    package identifier that the fuse driver burns. *)
Definition demo_calls : list smc :=
  [Smc ECNT_SIP_KERNEL_BOOT_AARCH32 0x80208000 1 2 0 true; Smc ECNT_SIP_VERIFY_BL2_HANDLE digest_base package_base 0x1000 0 true;
   Smc ECNT_SIP_KERNEL_BOOT_AARCH64 0xdead 3 4 1 true; Smc ECNT_SIP_VERIFY_BL33_HANDLE digest_base package_base 0x1000 0 true;
   Smc ECNT_SIP_AVS_HANDLE AVS_OP_GET_FREQ 0 0 0 false; Smc ECNT_SIP_EFUSE_HANDLE EFUSE_PKID 5 6 0 true].

Definition demo_booted : @sip_st secure_host :=
  @SipSt secure_host secure_auth bl31_mem_params_descs 0 1 (KInfo 0x80208000 0 1 2 0) [0x80208000].


(** An image of the firmware's own memory. *)
Definition secure_load : auth_st :=
  set_io (set_block_spec (package_base, 0x1000) (set_regions [Region package_base 0x1000 false] (a_io secure_auth))) secure_auth.

Lemma load_auth_image_trusted_witness : exists i' a',
  load_auth_image 8 BL2_IMAGE_ID (ImageInfo (TZRAM2_BASE + 0x4000) 0 0x1000) secure_load = Done ((0, i'), a') /\ image_size i' = 4 /\
  exists b c der, trusted secure_fuses trusted_boot_fw_cert b c /\ vouches b c tb_fw_hash der /\
    hash_ok a' (ram_bytes (mem (a_io a')) (image_base i') (image_size i')) der.
Proof.
  destruct (answered (load_auth_image 8 BL2_IMAGE_ID (ImageInfo (TZRAM2_BASE + 0x4000) 0 0x1000) secure_load)
    (0, ImageInfo (TZRAM2_BASE + 0x4000) 4 0x1000)) as [a' E]; [by vm_compute|].
  assert (image_desc bl2_image trusted_boot_fw_cert tb_fw_hash) as Hdesc by by split.
  assert (settled secure_load) as Hst.
  { apply (settled_spec (package_base, 0x1000) (set_io (set_regions [Region package_base 0x1000 false] (a_io secure_auth)) secure_auth)).
    apply settled_regions, secure_auth_ok. }
  assert (clear secure_load) as Hcl by (intros x; reflexivity).
  pose proof (load_auth_image_trusted (H := secure_board) (H0 := demo_gcm) (H1 := secure_sizes) (H2 := secure_crypto) 8 BL2_IMAGE_ID bl2_image
    trusted_boot_fw_cert tb_fw_hash (ImageInfo (TZRAM2_BASE + 0x4000) 0 0x1000) secure_load (ImageInfo (TZRAM2_BASE + 0x4000) 4 0x1000) a'
    demo_gcm_bytes eq_refl eq_refl Hdesc Hst Hcl) as Ht.
  destruct Ht as [_ Hacc]; [by split|exact E|].
  eexists _, a'. split; [exact E|]. split; [done|]. exact Hacc.
Defined.

Lemma nv_counter_never_advances_witness : exists c p n a,
  check_integrity (demo_cert 5) no_crt = Done (IMG_PARSER_OK, c) /\ a = set_crt c secure_auth /\
  get_auth_param (demo_cert 5) c trusted_nv_ctr = Done (IMG_PARSER_OK, p, n) /\
  auth_nvctr trusted_nv_ctr trusted_boot_fw_cert (demo_cert 5) a = Done (1, a).
Proof.
  destruct (answered (check_integrity (demo_cert 5) no_crt) IMG_PARSER_OK) as [c E]; [by vm_compute|].
  assert (exists p n, get_auth_param (demo_cert 5) c trusted_nv_ctr = Done (IMG_PARSER_OK, p, n) /\ stored (demo_cert 5) p (der_counter [5])) as (p & n & Hp & Hs).
  { vm_compute in E. injection E as <-. do 2 eexists. split; [by vm_compute|]. by intros [|[|[|]]] y [= <-]. }
  exists c, p, n, (set_crt c secure_auth). split; [exact E|]. split; [done|]. split; [exact Hp|].
  apply (nv_counter_never_advances trusted_nv_ctr trusted_boot_fw_cert (demo_cert 5) (set_crt c secure_auth) p n [5] 5 []); [|exact Hs|done|lia|by repeat constructor|simpl; lia].
  unfold img_parser_get_auth_param. cbn [id_type trusted_boot_fw_cert]. unfold bind, gets. cbn [a_crt set_crt]. by rewrite Hp.
Defined.

(** ** The second stage: two images with five certificates *)

Definition a_key_of (x : Z) : list Z := tlv ASN1_SEQUENCE [x; 0x22].
Definition world_key : list Z := a_key_of 0x51.
Definition other_world_key : list Z := a_key_of 0x52.
Definition soc_key : list Z := a_key_of 0x53.
Definition nt_key : list Z := a_key_of 0x54.

Definition boot_certs : list (list Z) :=
  [make_cert demo_key demo_key [1] 0 (demo_extension [0x82; 0x2e] world_key ++ demo_extension [0x82; 0x2f] other_world_key);
   make_cert world_key world_key [1] 0 (demo_extension [0x83; 0x75] soc_key);
   make_cert soc_key soc_key [1] 0 (demo_extension [0x84; 0x5b] (demo_info demo_image) ++ demo_extension [0x84; 0x5c] (demo_info []));
   make_cert other_world_key other_world_key [2] 0 (demo_extension [0x88; 0x4d] nt_key);
   make_cert nt_key nt_key [2] 0 (demo_extension [0x89; 0x31] (demo_info [9; 8; 7]) ++ demo_extension [0x89; 0x32] (demo_info []))].

Definition boot_uuids : list (list Z) :=
  [trusted_key_cert_uuid_spec; soc_fw_key_cert_uuid_spec; soc_fw_cert_uuid_spec; nt_fw_key_cert_uuid_spec; nt_fw_cert_uuid_spec;
   bl31_uuid_spec; bl33_uuid_spec].

(** The entries, then the files, one after the other. *)
Fixpoint entries (offset : Z) (uuids files : list (list Z)) : list Z :=
  match uuids, files with
  | u :: uuids', f :: files' => demo_entry u offset (Z.of_nat (length f)) 0 ++ entries (offset + Z.of_nat (length f)) uuids' files'
  | _, _ => demo_entry uuid_null 0 0 0
  end.

Definition boot_package : list Z :=
  let files := boot_certs ++ [demo_image; [9; 8; 7]] in
  [0x01; 0x00; 0x64; 0xAA; 0x78; 0x56; 0x34; 0x12] ++ replicate 8 0 ++ entries (16 + 8 * 40) boot_uuids files ++ concat files.

Definition bl2_board : Board :=
  {| static_regions := [Region TZRAM2_BASE TZRAM2_SIZE true; Region package_base 0x2000 false]; TCSUPPORT_OPTEE := false; IMAGE_BL31 := false; disable_auth := false |}.

Definition bl2_auth : auth_st :=
  AuthSt (io_start (ram_store (fun _ => 0) package_base boot_package) (package_base, 0x2000) secure_fuses)
    (fun _ => replicate 83 0) (fun _ => 0) no_crt (SHA256_DER ++ replicate 64 0) 0.

Lemma bl2_auth_ok : settled bl2_auth /\ clear bl2_auth.
Proof.
  destruct (io_start_ready (ram_store (fun _ => 0) package_base boot_package) (package_base, 0x2000) secure_fuses).
  split; [|by intros x]. split; [done|done|by vm_compute|]. intros x. cbn [mem bl2_auth a_io].
  apply ram_store_bytes; [by intros y|]. unfold bytes, is_u8; apply (bool_decide_unpack _); by vm_compute.
Qed.

Definition bl31_target : image_info := ImageInfo TZRAM2_BASE 0 0x1000.
Definition bl33_target : image_info := ImageInfo (TZRAM2_BASE + 0x4000) 0 0x1000.
Definition second_load (o : outcome (list (Z * image_info) * auth_st)) : option (Z * image_info) :=
  match o with Done (_, a) => answer (load_auth_image (H := bl2_board) 16 BL33_IMAGE_ID bl33_target a) | _ => None end.

Lemma boot_images_trusted_witness : exists a1 i' a2,
  load_all (H := bl2_board) 16 [(BL31_IMAGE_ID, bl31_target)] bl2_auth = Done ([(0, ImageInfo TZRAM2_BASE 4 0x1000)], a1) /\
  load_auth_image (H := bl2_board) 16 BL33_IMAGE_ID bl33_target a1 = Done ((0, i'), a2) /\ image_size i' = 3 /\
  exists b c der, rooted (H := bl2_board) secure_fuses non_trusted_fw_content_cert b c /\ vouches b c nt_world_bl_hash der /\
    hash_ok (H := bl2_board) a2 (ram_bytes (mem (a_io a2)) (image_base i') (image_size i')) der.
Proof.
  destruct (answered (load_all (H := bl2_board) 16 [(BL31_IMAGE_ID, bl31_target)] bl2_auth) [(0, ImageInfo TZRAM2_BASE 4 0x1000)]) as [a1 E1]; [by vm_compute|].
  assert (second_load (load_all (H := bl2_board) 16 [(BL31_IMAGE_ID, bl31_target)] bl2_auth) = Some (0, ImageInfo (TZRAM2_BASE + 0x4000) 3 0x1000)) as E2 by by vm_compute.
  rewrite E1 in E2. apply answered in E2 as [a2 E2].
  assert (image_desc bl33_image non_trusted_fw_content_cert nt_world_bl_hash) as Hdesc by by split.
  exists a1, (ImageInfo (TZRAM2_BASE + 0x4000) 3 0x1000), a2. split; [exact E1|]. split; [exact E2|]. split; [done|].
  apply (boot_images_trusted (H := bl2_board) 16 [(BL31_IMAGE_ID, bl31_target)] bl2_auth [(0, ImageInfo TZRAM2_BASE 4 0x1000)] a1 BL33_IMAGE_ID bl33_image
    non_trusted_fw_content_cert nt_world_bl_hash bl33_target (ImageInfo (TZRAM2_BASE + 0x4000) 3 0x1000) a2 demo_gcm_bytes eq_refl);
    [apply bl2_auth_ok|apply bl2_auth_ok|by repeat constructor|exact E1|reflexivity|exact Hdesc|by split|exact E2].
Defined.
