(* ===== verification/SecureBoot.v ===== *)
(** Boot loader and secure monitor together: the monitor that [ecnt_verify.c]
    calls ([SecureMonitor]) is the secure service of the trusted firmware
    ([AtfSip]), and what the boot loader accepts the chain of trust vouches
    for. *)

From stdpp Require Import base numbers list option strings.
From Stdlib Require Import ZArith Lia.
From S2P Require Import Prelude FlashHal Fip Ram AtfIo AtfPlat AtfLoad AtfLoadProps AtfProps AtfCert AtfCot AtfAuth AtfChain AtfSip AtfTrust AtfBoot AtfSipProps AtfSecure FlashProps UpgradeProps.

(** ** Calls of the boot loader *)

Section calls.
Context `{Board} `{Gcm} `{CotSizes} `{Crypto} `{Xlat} `{SipHost} (toc_fuel : nat).
Context (Hbl : IMAGE_BL31 = true) (Hdis : disable_auth = false) (Hgcm : gcm_bytes).
Implicit Types (x : sip_st).

Lemma mask_u32 z : is_u32 z -> u32 (Z.land z SMC32_PARAM_MASK) = z.
Proof.
  intros Hz. unfold SMC32_PARAM_MASK. change 0xFFFFFFFF with (Z.ones 32). rewrite Z.land_ones by lia. unfold is_u32 in Hz.
  unfold u32. rewrite Z.mod_mod by lia. by apply Z.mod_small.
Qed.

Lemma unused_u32 z : is_u32 (u32 (Z.land z SMC32_PARAM_MASK)).
Proof. apply u32_is. Qed.

(** A handler answers one of two codes, and the low word of the register is 0
    for success only. *)
Definition two_codes (v : Z) : Prop := v = ECNT_SIP_E_SUCCESS \/ v = ECNT_SIP_E_INVALID_PARAM.

Lemma two_codes_zero v : two_codes v -> u32 (smc_ret v) = 0 -> v = ECNT_SIP_E_SUCCESS.
Proof. intros [->| ->]; [done|discriminate]. Qed.

Lemma verify_codes id r1 r2 r3 x v x' : ecnt_verify_handler toc_fuel id r1 r2 r3 x = Done (v, x') -> two_codes v.
Proof.
  unfold ecnt_verify_handler. intros Hrun. inv_bind Hrun k x1 E. destruct k as [k|]; [|injection Hrun as <- _; by right].
  destruct (_ || _); [injection Hrun as <- _; by right|]. cbv zeta in Hrun.
  inv_bind Hrun rc x2 E2. inv_bind Hrun rc2 x3 E3. injection Hrun as <- _. destruct (negb _); [by right|by left].
Qed.

Lemma decrypt_codes id r1 r2 r3 x v x' : ecnt_decrypt_handler toc_fuel id r1 r2 r3 x = Done (v, x') -> two_codes v.
Proof.
  unfold ecnt_decrypt_handler. intros Hrun. inv_bind Hrun k x1 E. destruct k as [k|]; [|injection Hrun as <- _; by right].
  destruct (_ || _); [injection Hrun as <- _; by right|]. cbv zeta in Hrun.
  inv_bind Hrun rc x2 E2. destruct (negb _); [discriminate Hrun|]. inv_bind Hrun rc2 x3 E3. destruct (negb _); [discriminate Hrun|].
  inv_bind Hrun u x4 E4. inv_bind Hrun u2 x5 E5. inv_bind Hrun err x6 E6. inv_bind Hrun u3 x7 E7. inv_bind Hrun u4 x8 E8.
  inv_bind Hrun u5 x9 E9. inv_bind Hrun u6 x10 E10. injection Hrun as <- _. destruct (negb _); [by right|by left].
Qed.

(** The kinds of image by the number of the call. *)
Definition image_of (smc : Z) : Z := Z.land smc 0xF.

Lemma smc_verify smc r1 r2 r3 r4 x : smc = SIP_VERIFY_BL2 \/ smc = SIP_VERIFY_BL33 ->
  sip_smc_handler toc_fuel smc r1 r2 r3 r4 true x =
    (let! v := ecnt_verify_handler toc_fuel (image_of smc) (u32 (Z.land r1 SMC32_PARAM_MASK)) (u32 (Z.land r2 SMC32_PARAM_MASK)) (u32 (Z.land r3 SMC32_PARAM_MASK)) in
     ret [smc_ret v]) x.
Proof. by intros [->| ->]. Qed.

Lemma smc_decrypt smc r1 r2 r3 r4 x : smc = SIP_VERIFY_BL2 \/ smc = SIP_VERIFY_BL33 ->
  sip_smc_handler toc_fuel (Z.lor smc 0x10) r1 r2 r3 r4 true x =
    (let! v := ecnt_decrypt_handler toc_fuel (image_of smc) (u32 (Z.land r1 SMC32_PARAM_MASK)) (u32 (Z.land r2 SMC32_PARAM_MASK)) (u32 (Z.land r3 SMC32_PARAM_MASK)) in
     ret [smc_ret v]) x.
Proof. by intros [->| ->]. Qed.

(** ** The monitor *)

(** The memory is shared; a cell of it is a byte. *)
Definition share (m : ram_t) x : sip_st := upd_io (set_mem (fun p => u8 (m p))) x.

Lemma share_ok m x : sip_ok x -> sip_ok (share m x).
Proof.
  intros [[[[] ? ?] [] ? ?] ? ? ?]. split; [|done..]. split; [by split; [split|..]|by split|done|]. intros p. by apply Z.mod_pos_bound.
Qed.

(** The registers of a call: the digest lies in the boot loader's buffer at
    [out]. *)
Definition arg_memory (out : Z) (a : smc_arg) (m : ram_t) : ram_t :=
  match a with ArgDigest d => ram_store m out d | ArgSize _ => m end.
Definition arg_register (out : Z) (a : smc_arg) : Z := match a with ArgDigest _ => out | ArgSize n => n end.

(** [do_smc] of the boot loader, which keeps the low word of the answer; a
    monitor that does not come back answers no success. *)
Definition monitor x (out : Z) (hash_ws : Z -> list Z -> list Z) : SecureMonitor :=
  {| do_smc m id a r2 r3 :=
       let m' := arg_memory out a m in
       match sip_smc_handler toc_fuel id (arg_register out a) r2 r3 0 true (share m' x) with
       | Done (w :: _, x') => (u32 w, mem (io_of x'))
       | _ => (1, m')
       end;
     get_sha_alg := get_hash_mode_by_efuse (secure_data (io_of x));
     hash_func_ws := hash_ws |}.

(** Two lists agree as far as both of them reach. *)
Definition agree (l1 l2 : list Z) : Prop := forall k v1 v2, l1 !! k = Some v1 -> l2 !! k = Some v2 -> v1 = v2.

Lemma digest_agrees (m m' : ram_t) out d n : bytes d -> 0 <= out ->
  (out + Z.of_nat (length d) <= TZRAM2_BASE \/ TZRAM2_BASE + TZRAM2_SIZE <= out) ->
  firmware_only (fun p => u8 (ram_store m out d p)) m' -> agree (ram_bytes m' out n) d.
Proof.
  intros Hd Hout Hplace Hfw k v1 v2 H1k H2k. pose proof (lookup_lt_Some _ _ _ H2k) as Hlt.
  assert (v1 = m' (out + Z.of_nat k)) as ->.
  { unfold ram_bytes in H1k. rewrite list_lookup_fmap in H1k. destruct (seqZ out n !! k) as [p|] eqn:E; [|done].
    injection H1k as <-. apply lookup_seqZ in E as [<- _]. done. }
  rewrite Hfw by lia. rewrite ram_store_inside by lia. rewrite Nat2Z.id, (nth_lookup_Some _ _ _ _ H2k).
  unfold bytes in Hd. rewrite Forall_lookup in Hd. specialize (Hd k v2 H2k). by apply Z.mod_small.
Qed.

(** What an accepted call of the verification shows: the digest that was
    compared lies at the address in the first register. *)
Lemma monitor_verify x out hash_ws m smc a r2 r3 : sip_ok x -> smc = SIP_VERIFY_BL2 \/ smc = SIP_VERIFY_BL33 ->
  let r := do_smc (SecureMonitor := monitor x out hash_ws) m smc a r2 r3 in
  fst r = 0 ->
  exists md_alg digest, authentic (secure_data (io_of x)) (image_of smc) md_alg digest /\
    ram_bytes (snd r) (u32 (Z.land (arg_register out a) SMC32_PARAM_MASK)) (md_size md_alg) = digest /\
    firmware_only (fun p => u8 (arg_memory out a m p)) (snd r).
Proof.
  intros Hok Hsmc. cbv zeta. cbn [do_smc monitor]. rewrite smc_verify by done. unfold bind.
  destruct (ecnt_verify_handler _ _ _ _ _ _) as [[v x']| |] eqn:E; [|discriminate..]. unfold ret. cbn [fst snd].
  intros Hv%two_codes_zero; [|by eapply verify_codes].
  destruct (verify_sound toc_fuel Hbl Hdis Hgcm _ _ _ _ _ _ _ (share_ok _ _ Hok) E) as (_ & _ & Hfw & Hacc).
  destruct (Hacc Hv) as (alg & digest & Ha & Heq). by exists alg, digest.
Qed.

Lemma monitor_decrypt x out hash_ws m smc n r2 r3 : sip_ok x -> smc = SIP_VERIFY_BL2 \/ smc = SIP_VERIFY_BL33 ->
  is_u32 r3 -> r3 <> TZRAM2_BASE ->
  fst (do_smc (SecureMonitor := monitor x out hash_ws) m (Z.lor smc 0x10) (ArgSize n) r2 r3) = 0 ->
  exists md_alg digest sz, authentic (secure_data (io_of x)) (image_of smc) md_alg digest /\ 0 < sz /\
    md_hash md_alg (ram_bytes (snd (do_smc (SecureMonitor := monitor x out hash_ws) m (Z.lor smc 0x10) (ArgSize n) r2 r3)) r3 sz) = Some digest.
Proof.
  intros Hok Hsmc Hr3 Hne. cbn [do_smc monitor arg_memory arg_register]. rewrite smc_decrypt by done. unfold bind at 1 2.
  rewrite (mask_u32 r3) by done.
  destruct (ecnt_decrypt_handler _ _ _ _ _ _) as [[v x']| |] eqn:E; [|discriminate..]. cbn [ret fst snd]. unfold ret. cbn [fst snd].
  intros Hv%two_codes_zero; [|by eapply decrypt_codes].
  destruct (decrypt_sound toc_fuel Hbl Hdis Hgcm _ _ _ _ _ _ _ (unused_u32 n) (share_ok _ _ Hok) E) as (_ & _ & Hacc).
  by apply Hacc.
Qed.
End calls.

(** ** An image that the boot loader has read *)

Section boot.
Context {F : Type} `{FlashDrv F} `{Board} `{Gcm} `{CotSizes} `{Crypto} `{Xlat} `{SipHost} (toc_fuel : nat).
Implicit Types (x : sip_st).

Lemma smc_call_run (mon : SecureMonitor) id a r2 r3 (s s' : vst F) v :
  smc_call id a r2 r3 s = Done (v, s') -> fst (do_smc (ram s) id a r2 r3) = v /\ ram s' = snd (do_smc (ram s) id a r2 r3).
Proof. unfold smc_call, act. destruct (do_smc (ram s) id a r2 r3) as [rc m]. by intros [= <- <-]. Qed.

(** C2: The boot loader with the firmware's own code as its secure monitor.
    Whatever the flash holds, an image that [read_flash_and_verify] accepts has a
    digest that certificates from the key of the fuses vouch for.  What that
    digest is of depends on the package.  For a kernel package that is not
    encrypted it is the digest the boot loader has computed over the image it
    has read into RAM, and the call has not changed the RAM apart from the
    buffer for the digest and the firmware's own memory.  For an encrypted
    package it is the digest of what the monitor has left at
    [CONFIG_RAMFS_BASE].  For a BL2 package that is not encrypted
    [verify_img] passes the size of the image where the monitor expects the
    address of the digest: the vouched digest is the bytes that lie at that
    address, and nothing ties them to the image in RAM.  The buffer for the digest lies outside of the firmware's
    memory, and the boot loader's hash functions make at most 64 bytes. *)
Theorem secure_boot_chain x out hash_ws c fuel buf addr (s s' : vst F) :
  IMAGE_BL31 = true -> disable_auth = false -> gcm_bytes -> sip_ok x ->
  is_u32 out -> out + 64 <= TZRAM2_BASE \/ TZRAM2_BASE + TZRAM2_SIZE <= out ->
  (forall alg l, bytes (hash_ws alg l) /\ (length (hash_ws alg l) <= 64)%nat) ->
  arm_secure_boot c = true ->
  read_flash_and_verify (H0 := monitor toc_fuel x out hash_ws) c fuel buf addr s = Done (0, s') ->
  exists f s1 rc s2 md_alg digest,
    locate fuel buf addr s = Done (f, s1) /\ authentic (secure_data (io_of x)) (image_of (fip_smc f)) md_alg digest /\
    if fip_flag f =? ENCRYPTED_FW
    then flash_read_ram (u32 (addr + FIP_MAX_HEADER_SIZE + 0x100)) (u32 (fip_off f + fip_size f)) (fip_buf f) s1 = Done (rc, s2) /\
      exists sz, 0 < sz /\ md_hash md_alg (ram_bytes (ram s') CONFIG_RAMFS_BASE sz) = Some digest
    else flash_read_ram addr (u32 (fip_off f + fip_size f)) (fip_buf f) s1 = Done (rc, s2) /\
      if fip_smc f =? SIP_VERIFY_BL2
      then ram_bytes (ram s') (u32 (Z.land (fip_size f) SMC32_PARAM_MASK)) (md_size md_alg) = digest /\
        firmware_only (fun p => u8 (ram s2 p)) (ram s')
      else
        let d := hash_ws (Z.land (hash_mode (secure_data (io_of x))) HASH_MODE_MASK) (ram_bytes (ram s2) (u32 (fip_buf f + fip_off f)) (fip_size f)) in
        agree digest d /\ firmware_only (fun p => u8 (ram_store (ram s2) out d p)) (ram s').
Proof.
  intros Hbl Hdis Hgcm Hok Hout Hplace Hhash Hc Hrun.
  destruct (read_flash_inv (H0 := monitor toc_fuel x out hash_ws) c fuel buf addr s s' Hc Hrun) as (f & s1 & rc & s2 & Hloc & _ & Hsmc & Hlast).
  exists f, s1, rc, s2. destruct (fip_flag f =? ENCRYPTED_FW); destruct Hlast as [Hread Hlast].
  - unfold decrypt_and_verify_img in Hlast. apply smc_call_run in Hlast as [Hz ->].
    destruct (monitor_decrypt toc_fuel Hbl Hdis Hgcm x out hash_ws (ram (set_image_mode 1 s2)) (fip_smc f) (fip_size f) (fip_buf f) CONFIG_RAMFS_BASE Hok Hsmc) as (alg & digest & sz & Ha & Hsz & Hh);
      [by split|done|exact Hz|]. exists alg, digest. split; [exact Hloc|]. split; [exact Ha|]. split; [exact Hread|]. by exists sz.
  - unfold verify_img in Hlast. apply bind_inv in Hlast as (m & s3 & Hm & Hlast). injection Hm as <- <-.
    apply smc_call_run in Hlast as [Hz ->].
    destruct (monitor_verify toc_fuel Hbl Hdis Hgcm x out hash_ws (ram s2) (fip_smc f) _ _ _ Hok Hsmc Hz) as (alg & digest & Ha & Hdig & Hfw).
    exists alg, digest. split; [exact Hloc|]. split; [exact Ha|]. split; [exact Hread|].
    destruct (fip_smc f =? SIP_VERIFY_BL2); cbn [arg_register arg_memory] in Hdig, Hfw; [by split|]. cbv zeta. set (d := hash_ws _ _).
    destruct (Hhash (Z.land (hash_mode (secure_data (io_of x))) HASH_MODE_MASK) (ram_bytes (ram s2) (u32 (fip_buf f + fip_off f)) (fip_size f))) as [Hby Hlen].
    split; [|exact Hfw]. rewrite <- Hdig. cbn [arg_register]. rewrite mask_u32 by done.
    fold d in Hby, Hlen. apply (digest_agrees (ram s2) _ out d); [exact Hby|apply Hout|lia|exact Hfw].
Qed.
End boot.

(** ** A kernel in the flash, and the firmware that vouches for it *)

Module SecureBootWitness.
Import SimFlash SimUpgrade.
#[local] Existing Instances secure_board demo_gcm secure_sizes secure_crypto secure_xlat secure_host.

Definition demo_digest (alg : Z) (l : list Z) : list Z := demo_hash l.
Definition demo_out : Z := 0x82000000.
Definition kernel_state : vst sim := Vst (nand (holding 0 boot_package)) (fun _ => 0) 0 ∅.
Definition demo_monitor : SecureMonitor := monitor 16 secure_start demo_out demo_digest.

Lemma demo_digest_ok alg l : bytes (demo_digest alg l) /\ (length (demo_digest alg l) <= 64)%nat.
Proof.
  split; [|unfold demo_digest, demo_hash; rewrite length_replicate; lia]. apply Forall_replicate. by apply Z.mod_pos_bound.
Qed.

Lemma secure_boot_chain_witness : exists s' f s1 rc s2 md_alg digest,
  read_flash_and_verify (H0 := demo_monitor) cfg_secure 3300 0x81000000 0 kernel_state = Done (0, s') /\
  locate 3300 0x81000000 0 kernel_state = Done (f, s1) /\ authentic secure_fuses (image_of (fip_smc f)) md_alg digest /\
  if fip_flag f =? ENCRYPTED_FW
  then flash_read_ram (u32 (0 + FIP_MAX_HEADER_SIZE + 0x100)) (u32 (fip_off f + fip_size f)) (fip_buf f) s1 = Done (rc, s2) /\
    exists sz, 0 < sz /\ Some (demo_hash (ram_bytes (ram s') CONFIG_RAMFS_BASE sz)) = Some digest
  else flash_read_ram 0 (u32 (fip_off f + fip_size f)) (fip_buf f) s1 = Done (rc, s2) /\
    if fip_smc f =? SIP_VERIFY_BL2
    then ram_bytes (ram s') (u32 (Z.land (fip_size f) SMC32_PARAM_MASK)) (md_size md_alg) = digest /\
      firmware_only (fun p => u8 (ram s2 p)) (ram s')
    else
      let d := demo_hash (ram_bytes (ram s2) (u32 (fip_buf f + fip_off f)) (fip_size f)) in
      agree digest d /\ firmware_only (fun p => u8 (ram_store (ram s2) demo_out d p)) (ram s').
Proof.
  destruct (answered (read_flash_and_verify (H0 := demo_monitor) cfg_secure 3300 0x81000000 0 kernel_state) 0) as [s' E]; [by vm_compute|].
  destruct (secure_boot_chain (H0 := secure_board) 16 secure_start demo_out demo_digest cfg_secure 3300 0x81000000 0 kernel_state s' eq_refl eq_refl
    demo_gcm_bytes secure_start_ok) as (f & s1 & rc & s2 & alg & digest & Hloc & Ha & Hrest);
    [by split|right; by vm_compute|exact demo_digest_ok|reflexivity|exact E|].
  exists s', f, s1, rc, s2, alg, digest. split; [exact E|]. split; [exact Hloc|]. split; [exact Ha|]. exact Hrest.
Defined.
End SecureBootWitness.
